(** * EVA 7.0: Memory & Soul Passport (MSP)

    A shallow embedding of the memory store of [Memory_&_Soul_Passaport]:
    the validation pipeline ([validation/*.py]), the confidence engine
    ([validation/confidence_updater.py]) and the session / consolidation
    operations of [MSP.py], followed by the properties of the specification
    that concern them.

    Conventions.
    - Python values that travel through JSON files are values of [json];
      a [dict] is an association list in insertion order.
    - A Python [float] is an IEEE-754 binary64 number ([spec_float] with
      precision 53 and [emax] 1024); a decimal literal such as [0.7] is the
      double nearest to 7/10.
    - Code that can raise returns a [result]; the constructors of [exn]
      are the exception classes that the code raises or lets escape.
    - Text is byte text: [lower] folds the ASCII letters only.
    - The audit log of the validators and the text that [print] writes are
      not part of the model; where formatting a value for [print] can
      raise, that check is kept ([format_2f]). *)

From Stdlib Require Import ZArith List String Ascii Bool Lia.
From Stdlib Require Import Floats.SpecFloat.
From Stdlib Require Import DecimalString.
Import ListNotations.

Set Implicit Arguments.

(* ===================================================================== *)
(** ** Binary64 floating point *)
(* ===================================================================== *)

Module F.

Definition prec : Z := 53.
Definition emax : Z := 1024.

Definition float := spec_float.

(** [float(z)] for an integer that fits: rounded to nearest, ties to even. *)
Definition of_Z (z : Z) : float := binary_normalize prec emax z 0 false.

(** The double nearest to [n/d]: the value of a decimal literal. *)
Definition lit (n d : Z) : float := SFdiv prec emax (of_Z n) (of_Z d).

Definition add : float -> float -> float := SFadd prec emax.
Definition mul : float -> float -> float := SFmul prec emax.
Definition opp : float -> float := SFopp.
Definition compare : float -> float -> option comparison := SFcompare.
Definition ltb : float -> float -> bool := SFltb.
Definition leb : float -> float -> bool := SFleb.
Definition eqb : float -> float -> bool := SFeqb.

Definition zero : float := S754_zero false.
Definition one : float := Eval vm_compute in lit 1 1.

Definition is_infinity (f : float) : bool :=
  match f with S754_infinity _ => true | _ => false end.

End F.

(* ===================================================================== *)
(** ** Exceptions and results *)
(* ===================================================================== *)

(** Values that JSON documents hold, and that the code handles as Python
    objects: [None], [bool], [int], [float], [str], [list], [dict]. *)
#[warnings="-register-all"]
Inductive json : Type :=
  | JNull
  | JBool (b : bool)
  | JInt (z : Z)
  | JFloat (f : F.float)
  | JStr (s : string)
  | JList (l : list json)
  | JObj (d : list (string * json)).

(** A fragment of an f-string: literal text or an interpolated value.
    Diagnostics keep the interpolated value itself. *)
Inductive frag : Type :=
  | L (s : string)               (* literal text, or an interpolated [str] *)
  | V (v : json)                 (* [{v}] for an arbitrary value *)
  | Keys (ks : list string)      (* [{s}] for a set of dictionary keys *)
  | Strs (ss : list string)      (* [{l}] for a list of strings *)
  | TypeName (v : json).         (* [{type(v).__name__}] *)

Definition message := list frag.

Inductive exn : Type :=
  | TypeError
  | AttributeError
  | KeyError
  | ValueError
  | OverflowError
  | OSError
  | FileExistsError
  | RuntimeError (msg : message)
  | MSPValidationError (msg : string) (errors : list message)
  | MSPBackupError (cause : exn)          (* "Failed to create origin backup: {e}" *)
  | MSPConsolidationError (cause : exn)   (* "Consolidation failed: {e}" *)
  | MSPVerificationError (msg : message). (* MSPConsolidationError raised by the verifier *)

Inductive result (A : Type) : Type :=
  | Ok (a : A)
  | Raise (e : exn).

Arguments Ok {A} a.
Arguments Raise {A} e.

Definition bind {A B} (r : result A) (k : A -> result B) : result B :=
  match r with
  | Ok a => k a
  | Raise e => Raise e
  end.

Declare Scope py_scope.
Delimit Scope py_scope with py.
Notation "x <- c ;; k" := (bind c (fun x => k))
  (at level 100, c at next level, right associativity) : py_scope.
Notation "c ;;; k" := (bind c (fun _ => k))
  (at level 100, right associativity) : py_scope.
Open Scope py_scope.

(* ===================================================================== *)
(** ** Python numbers *)
(* ===================================================================== *)

(** [int] (with [bool] as its subclass) and [float]. *)
Inductive num : Type :=
  | NInt (z : Z)
  | NFloat (f : F.float).

Definition to_num (v : json) : option num :=
  match v with
  | JBool b => Some (NInt (if b then 1 else 0)%Z)
  | JInt z => Some (NInt z)
  | JFloat f => Some (NFloat f)
  | _ => None
  end.

Definition of_num (n : num) : json :=
  match n with
  | NInt z => JInt z
  | NFloat f => JFloat f
  end.

(** Python compares an [int] with a [float] by their exact values. *)
Definition Z_float_compare (z : Z) (f : F.float) : option comparison :=
  match f with
  | S754_nan => None
  | S754_infinity s => Some (if s then Gt else Lt)
  | S754_zero _ => Some (Z.compare z 0)
  | S754_finite s m e =>
      let mz := if s then Zneg m else Zpos m in
      Some (if (0 <=? e)%Z
            then Z.compare z (mz * 2 ^ e)
            else Z.compare (z * 2 ^ (- e)) mz)%Z
  end.

Definition num_compare (a b : num) : option comparison :=
  match a, b with
  | NInt x, NInt y => Some (Z.compare x y)
  | NFloat x, NFloat y => F.compare x y
  | NInt x, NFloat y => Z_float_compare x y
  | NFloat x, NInt y => option_map CompOpp (Z_float_compare y x)
  end.

Definition num_ltb (a b : num) : bool :=
  match num_compare a b with Some Lt => true | _ => false end.
Definition num_leb (a b : num) : bool :=
  match num_compare a b with Some (Lt | Eq) => true | _ => false end.
Definition num_eqb (a b : num) : bool :=
  match num_compare a b with Some Eq => true | _ => false end.

(** [max(a, b)] and [min(a, b)] keep the first argument unless the second
    is strictly better. *)
Definition num_max (a b : num) : num := if num_ltb a b then b else a.
Definition num_min (a b : num) : num := if num_ltb b a then b else a.

(** [float(z)]; Python raises when the integer is beyond the doubles. *)
Definition int_to_float (z : Z) : result F.float :=
  let f := F.of_Z z in
  if F.is_infinity f then Raise OverflowError else Ok f.

(** [a + f] for a float [f]. *)
Definition num_add_float (a : num) (f : F.float) : result F.float :=
  match a with
  | NInt z => x <- int_to_float z ;; Ok (F.add x f)
  | NFloat x => Ok (F.add x f)
  end.

(** [a + k] for an integer literal [k]. *)
Definition num_add_int (a : num) (k : Z) : result num :=
  match a with
  | NInt z => Ok (NInt (z + k))
  | NFloat x => y <- int_to_float k ;; Ok (NFloat (F.add x y))
  end.

(** Ordering comparisons against a number; anything that is not a number
    cannot be ordered with one. *)
Definition as_num (v : json) : result num :=
  match to_num v with
  | Some n => Ok n
  | None => Raise TypeError
  end.

Definition py_lt (a b : json) : result bool :=
  x <- as_num a ;; y <- as_num b ;; Ok (num_ltb x y).
Definition py_le (a b : json) : result bool :=
  x <- as_num a ;; y <- as_num b ;; Ok (num_leb x y).
Definition py_gt (a b : json) : result bool := py_lt b a.
Definition py_ge (a b : json) : result bool := py_le b a.

(* ===================================================================== *)
(** ** Strings *)
(* ===================================================================== *)

Open Scope string_scope.

(** [needle in hay] *)
Fixpoint substringb (needle hay : string) : bool :=
  String.prefix needle hay ||
  match hay with
  | EmptyString => false
  | String _ rest => substringb needle rest
  end.

Definition startswith (s p : string) : bool := String.prefix p s.

Definition lower_ascii (c : ascii) : ascii :=
  let n := nat_of_ascii c in
  if (65 <=? n)%nat && (n <=? 90)%nat then ascii_of_nat (n + 32) else c.

Fixpoint lower (s : string) : string :=
  match s with
  | EmptyString => EmptyString
  | String c rest => String (lower_ascii c) (lower rest)
  end.

Fixpoint join (sep : string) (l : list string) : string :=
  match l with
  | [] => ""
  | [x] => x
  | x :: rest => x ++ sep ++ join sep rest
  end.

Fixpoint last_ascii (s : string) : option ascii :=
  match s with
  | EmptyString => None
  | String c EmptyString => Some c
  | String _ rest => last_ascii rest
  end.

Fixpoint forallb_string (p : ascii -> bool) (s : string) : bool :=
  match s with
  | EmptyString => true
  | String c rest => p c && forallb_string p rest
  end.

Definition str_of_Z (z : Z) : string := NilZero.string_of_int (Z.to_int z).

(** [f"{n:0Wd}"] *)
Fixpoint zeros (n : nat) : string :=
  match n with O => "" | S k => "0" ++ zeros k end.

Definition pad_Z (width : nat) (z : Z) : string :=
  if (z <? 0)%Z then
    let d := str_of_Z (- z) in "-" ++ zeros (width - 1 - String.length d) ++ d
  else
    let d := str_of_Z z in zeros (width - String.length d) ++ d.

(** [s[:n]] *)
Definition take (n : nat) (s : string) : string := String.substring 0 n s.

(* ===================================================================== *)
(** ** Python objects: equality, truth, containers *)
(* ===================================================================== *)

(** A [dict] keeps its keys in insertion order. *)
Definition dict := list (string * json).

Fixpoint lookup (k : string) (d : dict) : option json :=
  match d with
  | [] => None
  | (k', v) :: rest => if String.eqb k k' then Some v else lookup k rest
  end.

Definition has_key (k : string) (d : dict) : bool :=
  match lookup k d with Some _ => true | None => false end.

(** [d[k] = v]: an existing key keeps its place. *)
Fixpoint dict_set (k : string) (v : json) (d : dict) : dict :=
  match d with
  | [] => [(k, v)]
  | (k', v') :: rest =>
      if String.eqb k k' then (k, v) :: rest else (k', v') :: dict_set k v rest
  end.

(** [d.update(other)] *)
Definition dict_update (d other : dict) : dict :=
  fold_left (fun acc kv => dict_set (fst kv) (snd kv) acc) other d.

Definition dict_keys (d : dict) : list string := map fst d.

(** [d.get(k, default)] on a dictionary. *)
Definition dict_get (k : string) (default : json) (d : dict) : json :=
  match lookup k d with Some v => v | None => default end.

(** [a == b] *)
Fixpoint py_eq (a b : json) : bool :=
  match a, b with
  | JNull, JNull => true
  | JStr s, JStr t => String.eqb s t
  | JList l, JList l' =>
      (fix go (l l' : list json) : bool :=
         match l, l' with
         | [], [] => true
         | x :: xs, y :: ys => py_eq x y && go xs ys
         | _, _ => false
         end) l l'
  | JObj d, JObj d' =>
      Nat.eqb (List.length d) (List.length d') &&
      (fix go (d : dict) : bool :=
         match d with
         | [] => true
         | (k, v) :: rest =>
             match lookup k d' with
             | Some v' => py_eq v v'
             | None => false
             end && go rest
         end) d
  | _, _ =>
      match to_num a, to_num b with
      | Some x, Some y => num_eqb x y
      | _, _ => false
      end
  end.

(** [bool(v)] *)
Definition truthy (v : json) : bool :=
  match v with
  | JNull => false
  | JBool b => b
  | JInt z => negb (Z.eqb z 0)
  | JFloat f => match f with S754_zero _ => false | _ => true end
  | JStr s => negb (String.eqb s "")
  | JList l => match l with [] => false | _ => true end
  | JObj d => match d with [] => false | _ => true end
  end.

Definition is_dict (v : json) : bool :=
  match v with JObj _ => true | _ => false end.
Definition is_list (v : json) : bool :=
  match v with JList _ => true | _ => false end.
Definition is_str (v : json) : bool :=
  match v with JStr _ => true | _ => false end.
(** [isinstance(v, (int, float))]; a [bool] is an [int]. *)
Definition is_number (v : json) : bool :=
  match to_num v with Some _ => true | None => false end.

(** Lists and dictionaries cannot be hashed. *)
Definition hashable (v : json) : bool :=
  match v with JList _ | JObj _ => false | _ => true end.

(** ["k" in c] for a string [k]: key of a dictionary, element of a list,
    substring of a string. *)
Definition str_in (k : string) (c : json) : result bool :=
  match c with
  | JObj d => Ok (has_key k d)
  | JList l => Ok (existsb (fun x => py_eq x (JStr k)) l)
  | JStr s => Ok (substringb k s)
  | _ => Raise TypeError
  end.

(** [x in c] *)
Definition py_in (x c : json) : result bool :=
  match c with
  | JObj d =>
      if hashable x
      then Ok (existsb (fun kv => py_eq (JStr (fst kv)) x) d)
      else Raise TypeError
  | JList l => Ok (existsb (fun y => py_eq y x) l)
  | JStr s =>
      match x with
      | JStr k => Ok (substringb k s)
      | _ => Raise TypeError
      end
  | _ => Raise TypeError
  end.

(** [c["k"]] *)
Definition subscript (c : json) (k : string) : result json :=
  match c with
  | JObj d =>
      match lookup k d with
      | Some v => Ok v
      | None => Raise KeyError
      end
  | _ => Raise TypeError
  end.

(** [c.get("k", default)] *)
Definition py_get (c : json) (k : string) (default : json) : result json :=
  match c with
  | JObj d => Ok (dict_get k default d)
  | _ => Raise AttributeError
  end.

(** [c.items()] *)
Definition py_items (c : json) : result dict :=
  match c with
  | JObj d => Ok d
  | _ => Raise AttributeError
  end.

Fixpoint chars (s : string) : list json :=
  match s with
  | EmptyString => []
  | String c rest => JStr (String c EmptyString) :: chars rest
  end.

(** [for x in c] *)
Definition py_iter (c : json) : result (list json) :=
  match c with
  | JList l => Ok l
  | JObj d => Ok (map (fun kv => JStr (fst kv)) d)
  | JStr s => Ok (chars s)
  | _ => Raise TypeError
  end.

(** [for i, x in enumerate(l)]: a left-to-right loop threading [acc],
    stopped by the first exception. *)
Fixpoint for_each {A B} (f : nat -> A -> B -> result B)
  (i : nat) (l : list A) (acc : B) : result B :=
  match l with
  | [] => Ok acc
  | x :: rest => acc' <- f i x acc ;; for_each f (S i) rest acc'
  end.

(** [set(a) - set(b)] on keys, in the order of [a]. *)
Definition keys_minus (a b : list string) : list string :=
  filter (fun k => negb (existsb (String.eqb k) b)) a.

(* ===================================================================== *)
(** ** validation/base_validator.py *)
(* ===================================================================== *)

Record ValidationResult : Type := {
  valid : bool;
  errors : list message;
  warnings : list message;
  info : list message;
  context : dict
}.

Definition _create_result : ValidationResult :=
  {| valid := true; errors := []; warnings := []; info := []; context := [] |}.

Definition add_error (m : message) (r : ValidationResult) : ValidationResult :=
  {| valid := false; errors := errors r ++ [m]; warnings := warnings r;
     info := info r; context := context r |}.

Definition add_warning (m : message) (r : ValidationResult) : ValidationResult :=
  {| valid := valid r; errors := errors r; warnings := warnings r ++ [m];
     info := info r; context := context r |}.

Definition add_info (m : message) (r : ValidationResult) : ValidationResult :=
  {| valid := valid r; errors := errors r; warnings := warnings r;
     info := info r ++ [m]; context := context r |}.

Definition set_context (k : string) (v : json) (r : ValidationResult)
  : ValidationResult :=
  {| valid := valid r; errors := errors r; warnings := warnings r;
     info := info r; context := dict_set k v (context r) |}.

Definition merge (r other : ValidationResult) : ValidationResult :=
  {| valid := valid r && valid other;
     errors := errors r ++ errors other;
     warnings := warnings r ++ warnings other;
     info := info r ++ info other;
     context := dict_update (context r) (context other) |}.

Definition _check_required_fields (data : json) (required_fields : list string)
  (res : ValidationResult) (path : string) : result ValidationResult :=
  for_each
    (fun _ field res =>
       present <- str_in field data ;;
       Ok (if present then res
           else add_error
                  (if negb (String.eqb path "")
                   then [L "Missing required field: '"; L path; L field; L "'"]
                   else [L "Missing required field: '"; L field; L "'"])
                  res))
    0%nat required_fields res.

Definition _check_enum_value (value : json) (valid_values : list string)
  (field_name : string) (res : ValidationResult) : ValidationResult :=
  if negb (existsb (fun x => py_eq (JStr x) value) valid_values)
  then add_error [L "Invalid enum value for '"; L field_name; L "': '";
                  V value; L "' not in "; Strs valid_values] res
  else res.

Definition _check_range (value : json) (min_val max_val : F.float)
  (field_name : string) (res : ValidationResult) : ValidationResult :=
  match to_num value with
  | None =>
      add_error [L "Field '"; L field_name; L "' must be numeric, got ";
                 TypeName value] res
  | Some n =>
      if negb (num_leb (NFloat min_val) n && num_leb n (NFloat max_val))
      then add_error [L "Field '"; L field_name; L "' value "; V value;
                      L " out of range ["; V (JFloat min_val); L ", ";
                      V (JFloat max_val); L "]"] res
      else res
  end.

Definition str_of_nat (n : nat) : string := str_of_Z (Z.of_nat n).

(** The recursive scan visits dictionaries, and the dictionaries that are
    direct elements of a list value. *)
Fixpoint _scan_for_forbidden_fields (data : json) (forbidden_fields : list string)
  (res : ValidationResult) (path : string) {struct data} : ValidationResult :=
  match data with
  | JObj d =>
      (fix items (d : dict) (res : ValidationResult) : ValidationResult :=
         match d with
         | [] => res
         | (key, value) :: rest =>
             let current_path :=
               if negb (String.eqb path "") then path ++ "." ++ key else key in
             let res :=
               if existsb (String.eqb key) forbidden_fields
               then add_error [L "Forbidden field found: '"; L current_path; L "'"] res
               else res in
             let res :=
               match value with
               | JObj _ =>
                   _scan_for_forbidden_fields value forbidden_fields res current_path
               | JList l =>
                   (fix elems (i : nat) (l : list json) (res : ValidationResult)
                      : ValidationResult :=
                      match l with
                      | [] => res
                      | item :: more =>
                          let res :=
                            match item with
                            | JObj _ =>
                                _scan_for_forbidden_fields item forbidden_fields res
                                  (current_path ++ "[" ++ str_of_nat i ++ "]")
                            | _ => res
                            end in
                          elems (S i) more res
                      end) 0%nat l res
               | _ => res
               end in
             items rest res
         end) d res
  | _ => res
  end.

(* ===================================================================== *)
(** ** validation/rules/forbidden_fields.py *)
(* ===================================================================== *)

Definition EPISODIC_FORBIDDEN_FIELDS : list string :=
  [ "RI"; "RIM"; "Resonance_impact"; "salience_score"; "memory_color_ref";
    "dose_input"; "D_Remaining"; "D_Cumulative"; "hormone_level"; "PK_state";
    "promotion_level"; "write_mode"; "admission_priority";
    "emotion_label"; "primary_emotion"; "emotional_label" ].

Definition SEMANTIC_FORBIDDEN_FIELDS : list string :=
  [ "promotion_level"; "write_mode"; "user_block" ].

Definition SENSORY_FORBIDDEN_FIELDS : list string :=
  [ "primary_emotion"; "emotional_label"; "intent"; "meaning";
    "description_with_judgement";
    "eva_matrix"; "qualia"; "reflex"; "RI"; "RIM";
    "GKS_trigger"; "recall_priority"; "awareness_hook"; "promotion_hint" ].

(* ===================================================================== *)
(** ** validation/confidence_updater.py *)
(* ===================================================================== *)

Inductive UpdateSignal : Type :=
  | REPEATED_OCCURRENCE
  | CONSISTENT_RECALL
  | USER_AFFIRMATION
  | IMPLICIT_USER_SIGNAL
  | SYSTEM_CROSS_VALIDATION
  | CONFLICT_DETECTED
  | CONTRADICTION_BY_USER
  | INCONSISTENCY_OVER_TIME
  | SYSTEM_NOISE_DETECTED.

Definition all_signals : list UpdateSignal :=
  [ REPEATED_OCCURRENCE; CONSISTENT_RECALL; USER_AFFIRMATION;
    IMPLICIT_USER_SIGNAL; SYSTEM_CROSS_VALIDATION; CONFLICT_DETECTED;
    CONTRADICTION_BY_USER; INCONSISTENCY_OVER_TIME; SYSTEM_NOISE_DETECTED ].

(** [signal.value] *)
Definition signal_value (s : UpdateSignal) : string :=
  match s with
  | REPEATED_OCCURRENCE => "repeated_occurrence"
  | CONSISTENT_RECALL => "consistent_recall"
  | USER_AFFIRMATION => "user_affirmation"
  | IMPLICIT_USER_SIGNAL => "implicit_user_signal"
  | SYSTEM_CROSS_VALIDATION => "system_cross_validation"
  | CONFLICT_DETECTED => "conflict_detected"
  | CONTRADICTION_BY_USER => "contradiction_by_user"
  | INCONSISTENCY_OVER_TIME => "inconsistency_over_time"
  | SYSTEM_NOISE_DETECTED => "system_noise_detected"
  end.

Definition signal_eqb (a b : UpdateSignal) : bool :=
  String.eqb (signal_value a) (signal_value b).

(** [UpdateSignal(key)]; [None] stands for the [ValueError]. *)
Definition signal_of_value (key : string) : option UpdateSignal :=
  find (fun s => String.eqb (signal_value s) key) all_signals.

Inductive ResolutionState : Type := UNRESOLVED | RESOLVED | SUPPRESSED.

Definition resolution_value (r : ResolutionState) : string :=
  match r with
  | UNRESOLVED => "unresolved"
  | RESOLVED => "resolved"
  | SUPPRESSED => "suppressed"
  end.

(** [ResolutionState(v)] *)
Definition resolution_of_value (v : json) : result ResolutionState :=
  match find (fun r => py_eq (JStr (resolution_value r)) v)
             [UNRESOLVED; RESOLVED; SUPPRESSED] with
  | Some r => Ok r
  | None => Raise ValueError
  end.

Inductive EpistemicStatus : Type := HYPOTHESIS | PROVISIONAL | CONFIRMED.

Definition epistemic_value (e : EpistemicStatus) : string :=
  match e with
  | HYPOTHESIS => "hypothesis"
  | PROVISIONAL => "provisional"
  | CONFIRMED => "confirmed"
  end.

Inductive StakesLevel : Type := LOW | MEDIUM | HIGH.

Definition stakes_value (s : StakesLevel) : string :=
  match s with
  | LOW => "low"
  | MEDIUM => "medium"
  | HIGH => "high"
  end.

(** [StakesLevel(v)] *)
Definition stakes_of_value (v : json) : result StakesLevel :=
  match find (fun s => py_eq (JStr (stakes_value s)) v) [LOW; MEDIUM; HIGH] with
  | Some s => Ok s
  | None => Raise ValueError
  end.

Record SignalModifier : Type := {
  value : F.float;
  max_applications : option Z;
  single_application : bool;
  force_confirmed : bool
}.

Definition modifier (v : F.float) : SignalModifier :=
  {| value := v; max_applications := None;
     single_application := false; force_confirmed := false |}.

Definition f0_05 : F.float := Eval vm_compute in F.lit 5 100.
Definition f0_04 : F.float := Eval vm_compute in F.lit 4 100.
Definition f0_30 : F.float := Eval vm_compute in F.lit 30 100.
Definition f0_10 : F.float := Eval vm_compute in F.lit 10 100.
Definition f0_08 : F.float := Eval vm_compute in F.lit 8 100.
Definition f0_20 : F.float := Eval vm_compute in F.lit 20 100.
Definition f0_35 : F.float := Eval vm_compute in F.lit 35 100.
Definition f0_5 : F.float := Eval vm_compute in F.lit 5 10.
Definition f0_80 : F.float := Eval vm_compute in F.lit 80 100.
Definition f0_45 : F.float := Eval vm_compute in F.lit 45 100.
Definition f0_7 : F.float := Eval vm_compute in F.lit 7 10.
Definition f0_3 : F.float := Eval vm_compute in F.lit 3 10.

Definition SIGNAL_MODIFIERS (s : UpdateSignal) : SignalModifier :=
  match s with
  | REPEATED_OCCURRENCE =>
      {| value := f0_05; max_applications := Some 3%Z;
         single_application := false; force_confirmed := false |}
  | CONSISTENT_RECALL =>
      {| value := f0_04; max_applications := Some 3%Z;
         single_application := false; force_confirmed := false |}
  | USER_AFFIRMATION =>
      {| value := f0_30; max_applications := None;
         single_application := true; force_confirmed := true |}
  | IMPLICIT_USER_SIGNAL => modifier f0_10
  | SYSTEM_CROSS_VALIDATION => modifier f0_08
  | CONFLICT_DETECTED => modifier (F.opp f0_20)
  | CONTRADICTION_BY_USER => modifier (F.opp f0_35)
  | INCONSISTENCY_OVER_TIME => modifier (F.opp f0_10)
  | SYSTEM_NOISE_DETECTED => modifier (F.opp f0_08)
  end.

(** The keys ["positive"] and ["negative"] of a multiplier table. *)
Record Multipliers : Type := { on_positive : F.float; on_negative : F.float }.

Definition RESOLUTION_MULTIPLIERS (r : ResolutionState) : Multipliers :=
  match r with
  | UNRESOLVED => {| on_positive := f0_5; on_negative := F.one |}
  | RESOLVED => {| on_positive := F.one; on_negative := f0_5 |}
  | SUPPRESSED => {| on_positive := F.zero; on_negative := F.zero |}
  end.

(** [EPISTEMIC_THRESHOLDS] has the two keys [CONFIRMED] and [PROVISIONAL]. *)
Definition EPISTEMIC_THRESHOLDS (e : EpistemicStatus) : result F.float :=
  match e with
  | CONFIRMED => Ok f0_80
  | PROVISIONAL => Ok f0_45
  | HYPOTHESIS => Raise KeyError
  end.

Definition MAX_CLARIFICATION_ATTEMPTS (s : StakesLevel) : Z :=
  match s with
  | LOW => 2
  | MEDIUM => 3
  | HIGH => 4
  end.

Record ConfidenceUpdater : Type := { initial_confidence : F.float }.

(** [ConfidenceUpdater()] *)
Definition ConfidenceUpdater_init : ConfidenceUpdater :=
  {| initial_confidence := f0_3 |}.

(** [signal_history]: how often each signal was recorded; the counts come
    from a JSON document. *)
Definition history := list (UpdateSignal * json).

Fixpoint history_get (s : UpdateSignal) (h : history) : json :=
  match h with
  | [] => JInt 0
  | (s', v) :: rest => if signal_eqb s s' then v else history_get s rest
  end.

(** [max(a, b)] and [min(a, b)] on objects. *)
Definition py_max (a b : json) : result json :=
  lt <- py_gt b a ;; Ok (if lt then b else a).
Definition py_min (a b : json) : result json :=
  lt <- py_lt b a ;; Ok (if lt then b else a).

(** [a + f] *)
Definition py_add_float (a : json) (f : F.float) : result json :=
  n <- as_num a ;; x <- num_add_float n f ;; Ok (JFloat x).

(** [a + k] *)
Definition py_add_int (a : json) (k : Z) : result json :=
  n <- as_num a ;; x <- num_add_int n k ;; Ok (of_num x).

(** The delta of a signal, scaled by the multiplier of its sign. *)
Definition scaled_delta (multipliers : Multipliers) (modifier : SignalModifier)
  : F.float :=
  let value := value modifier in
  if F.ltb F.zero value
  then F.mul value (on_positive multipliers)
  else F.mul value (on_negative multipliers).

(** One turn of the loop of [calculate_confidence]. *)
Definition apply_signal (multipliers : Multipliers) (signal_history : history)
  (signal : UpdateSignal) (confidence : json) : result json :=
  let modifier := SIGNAL_MODIFIERS signal in
  let times_applied := history_get signal signal_history in
  capped <-
    match max_applications modifier with
    | Some m => if Z.eqb m 0 then Ok false else py_ge times_applied (JInt m)
    | None => Ok false
    end ;;
  if capped then Ok confidence else
  used <-
    (if single_application modifier then py_gt times_applied (JInt 0)
     else Ok false) ;;
  if used then Ok confidence else
  confidence <- py_add_float confidence (scaled_delta multipliers modifier) ;;
  if force_confirmed modifier && signal_eqb signal USER_AFFIRMATION
  then t <- EPISTEMIC_THRESHOLDS CONFIRMED ;; py_max confidence (JFloat t)
  else Ok confidence.

Definition calculate_confidence (current_confidence : json)
  (signals : list UpdateSignal) (resolution_state : ResolutionState)
  (signal_history : option history) : result json :=
  let signal_history :=
    match signal_history with None => [] | Some h => h end in
  let multipliers := RESOLUTION_MULTIPLIERS resolution_state in
  confidence <-
    for_each (fun _ signal confidence =>
                apply_signal multipliers signal_history signal confidence)
             0%nat signals current_confidence ;;
  m <- py_min (JFloat F.one) confidence ;;
  py_max (JFloat F.zero) m.

Definition get_epistemic_status (confidence : json) : result EpistemicStatus :=
  tc <- EPISTEMIC_THRESHOLDS CONFIRMED ;;
  c <- py_ge confidence (JFloat tc) ;;
  if c then Ok CONFIRMED else
  tp <- EPISTEMIC_THRESHOLDS PROVISIONAL ;;
  p <- py_ge confidence (JFloat tp) ;;
  if p then Ok PROVISIONAL else Ok HYPOTHESIS.

Definition should_consolidate (confidence : json) : result bool :=
  py_gt confidence (JFloat f0_7).

Definition check_clarification_limit (attempts : json) (stakes_level : StakesLevel)
  : result bool :=
  let max_attempts := MAX_CLARIFICATION_ATTEMPTS stakes_level in
  py_ge attempts (JInt max_attempts).

Definition create_initial_entry (self : ConfidenceUpdater)
  (concept definition : string) (stakes_level : StakesLevel) : result dict :=
  initial_status <- get_epistemic_status (JFloat (initial_confidence self)) ;;
  Ok [ ("concept", JStr concept);
       ("definition", JStr definition);
       ("epistemic_status", JStr (epistemic_value initial_status));
       ("confidence", JFloat (initial_confidence self));
       ("resolution_state", JStr (resolution_value UNRESOLVED));
       ("signal_history", JObj []);
       ("clarification_attempts", JInt 0);
       ("stakes_level", JStr (stakes_value stakes_level));
       ("max_clarification_attempts",
        JInt (MAX_CLARIFICATION_ATTEMPTS stakes_level)) ].

(** The keys of the stored history that name a signal, as enum members. *)
Fixpoint history_of_dict (d : dict) : history :=
  match d with
  | [] => []
  | (key, value) :: rest =>
      match signal_of_value key with
      | Some s => (s, value) :: history_of_dict rest
      | None => history_of_dict rest
      end
  end.

Definition epistemic_eqb (a b : EpistemicStatus) : bool :=
  String.eqb (epistemic_value a) (epistemic_value b).
Definition resolution_eqb (a b : ResolutionState) : bool :=
  String.eqb (resolution_value a) (resolution_value b).

(** [update_entry] returns the entry it was given, updated in place.  When
    it raises, the entry of the caller is not part of the result. *)
Definition update_entry (self : ConfidenceUpdater) (entry : dict)
  (signals : list UpdateSignal) : result dict :=
  let current_confidence :=
    dict_get "confidence" (JFloat (initial_confidence self)) entry in
  resolution_state <-
    resolution_of_value (dict_get "resolution_state" (JStr "unresolved") entry) ;;
  let signal_history := dict_get "signal_history" (JObj []) entry in
  items <- py_items signal_history ;;
  let signal_history_enum := history_of_dict items in
  new_confidence <-
    calculate_confidence current_confidence signals resolution_state
      (Some signal_history_enum) ;;
  signal_history <-
    for_each (fun _ signal (h : dict) =>
                let signal_key := signal_value signal in
                n <- py_add_int (dict_get signal_key (JInt 0) h) 1 ;;
                Ok (dict_set signal_key n h))
             0%nat signals items ;;
  new_status <- get_epistemic_status new_confidence ;;
  let entry := dict_set "confidence" new_confidence entry in
  let entry := dict_set "epistemic_status" (JStr (epistemic_value new_status)) entry in
  let entry := dict_set "signal_history" (JObj signal_history) entry in
  let entry :=
    if epistemic_eqb new_status CONFIRMED && resolution_eqb resolution_state UNRESOLVED
    then dict_set "resolution_state" (JStr (resolution_value RESOLVED)) entry
    else entry in
  Ok entry.

Definition increment_clarification_attempt (entry : dict) : result dict :=
  n <- py_add_int (dict_get "clarification_attempts" (JInt 0) entry) 1 ;;
  Ok (dict_set "clarification_attempts" n entry).

Definition should_ask_clarification (entry : dict) : result bool :=
  let attempts := dict_get "clarification_attempts" (JInt 0) entry in
  stakes_level <- stakes_of_value (dict_get "stakes_level" (JStr "medium") entry) ;;
  limit <- check_clarification_limit attempts stakes_level ;;
  Ok (negb limit).

Definition force_exit_loop (entry : dict) : dict :=
  if py_eq (dict_get "resolution_state" JNull entry)
           (JStr (resolution_value UNRESOLVED))
  then dict_set "forced_exit" (JBool true)
         (dict_set "resolution_state" (JStr (resolution_value SUPPRESSED)) entry)
  else entry.

(** [detect_conflict]: the concept of the first conflicting entry. *)
Fixpoint detect_conflict_loop (new_entry : dict) (new_concept : json)
  (existing_entries : list json) : result (option json) :=
  match existing_entries with
  | [] => Ok None
  | existing :: rest =>
      existing_concept <- py_get existing "concept" (JStr "") ;;
      existing_definition <- py_get existing "definition" JNull ;;
      if py_eq existing_concept new_concept
         && negb (py_eq existing_definition (dict_get "definition" JNull new_entry))
      then Ok (Some existing_concept)
      else
        let conflicts_with := dict_get "conflicts_with" (JList []) new_entry in
        listed <- py_in existing_concept conflicts_with ;;
        if listed then Ok (Some existing_concept)
        else detect_conflict_loop new_entry new_concept rest
  end.

Definition detect_conflict (new_entry : dict) (existing_entries : json)
  : result (option json) :=
  let new_concept := dict_get "concept" (JStr "") new_entry in
  l <- py_iter existing_entries ;;
  detect_conflict_loop new_entry new_concept l.

(* ===================================================================== *)
(** ** validation/episodic_validator.py *)
(* ===================================================================== *)

Module EpisodicValidator.

Definition EPISODE_TYPES := ["interaction"; "observation"; "system_event"].
Definition INTERACTION_MODES := ["casual"; "discussion"; "deep_discussion"; "crisis"].
Definition STAKES_LEVELS := ["low"; "medium"; "high"].
Definition TIME_PRESSURES := ["low"; "medium"; "high"].
Definition SPEAKER_VALUES := ["user"; "eva"].
Definition EPISTEMIC_STATUSES := ["hypothesize"; "speculate"].
Definition EVA_MATRIX_AXES :=
  ["stress_load"; "social_warmth"; "drive_level"; "cognitive_clarity"].
Definition CROSSLINK_TYPES :=
  ["ess_refs"; "eva_matrix_refs"; "rms_refs"; "semantic_refs"; "sensory_refs";
   "gks_refs"].

(** [if key in obj: check_enum(obj[key], ...)] *)
Definition check_enum_if_present (obj : json) (key : string)
  (valid_values : list string) (field_name : string) (res : ValidationResult)
  : result ValidationResult :=
  present <- str_in key obj ;;
  if present
  then v <- subscript obj key ;; Ok (_check_enum_value v valid_values field_name res)
  else Ok res.

Definition _validate_affective_inference (affective : json) (path : string)
  (res : ValidationResult) : ValidationResult :=
  match affective with
  | JObj d =>
      match lookup "epistemic_status" d with
      | Some v =>
          _check_enum_value v EPISTEMIC_STATUSES
            (path ++ ".affective_inference.epistemic_status") res
      | None =>
          add_error [L path; L ".affective_inference missing 'epistemic_status'"] res
      end
  | _ => add_error [L path; L ".affective_inference must be an object"] res
  end.

(** One turn of the loop of [_validate_turns]; the state is the result and
    the set [turn_ids_seen]. *)
Definition validate_turn (i : nat) (turn : json)
  (st : ValidationResult * list json) : result (ValidationResult * list json) :=
  let (res, turn_ids_seen) := st in
  match turn with
  | JObj d =>
      st <-
        match lookup "turn_id" d with
        | None =>
            Ok (add_error [L "Turn ["; L (str_of_nat i); L "] missing 'turn_id'"] res,
                turn_ids_seen)
        | Some turn_id =>
            if negb (hashable turn_id) then Raise TypeError else
            let seen := existsb (fun x => py_eq x turn_id) turn_ids_seen in
            Ok (if seen
                then add_error [L "Duplicate turn_id: '"; V turn_id; L "'"] res
                else res,
                if seen then turn_ids_seen else (turn_ids_seen ++ [turn_id])%list)
        end ;;
      let (res, turn_ids_seen) := st in
      let res :=
        match lookup "speaker" d with
        | Some v =>
            _check_enum_value v SPEAKER_VALUES
              ("turns[" ++ str_of_nat i ++ "].speaker") res
        | None => res
        end in
      let res :=
        match lookup "affective_inference" d with
        | Some a =>
            _validate_affective_inference a ("turns[" ++ str_of_nat i ++ "]") res
        | None => res
        end in
      Ok (res, turn_ids_seen)
  | _ =>
      Ok (add_error [L "Turn ["; L (str_of_nat i); L "] must be an object"] res,
          turn_ids_seen)
  end.

Definition _validate_turns (turns : json) (res : ValidationResult)
  : result ValidationResult :=
  match turns with
  | JList l =>
      st <- for_each validate_turn 0%nat l (res, []) ;;
      Ok (fst st)
  | _ => Ok (add_error [L "'turns' must be an array"] res)
  end.

Definition _phase1_structural (episode_data : dict) (ri_level : string)
  : result ValidationResult :=
  let res := add_info [L "Phase 1: Structural validation"] _create_result in
  res <-
    (if negb (existsb (String.eqb ri_level) ["L1"; "L2"])
     then
       let required_sections :=
         ["episode_header"; "situation_context"; "turns"; "emotive_snapshot"] in
       _check_required_fields (JObj episode_data) required_sections res ""
     else Ok res) ;;
  res <-
    match lookup "episode_header" episode_data with
    | Some header =>
        check_enum_if_present header "episode_type" EPISODE_TYPES
          "episode_header.episode_type" res
    | None => Ok res
    end ;;
  res <-
    match lookup "situation_context" episode_data with
    | Some context =>
        res <- check_enum_if_present context "interaction_mode" INTERACTION_MODES
                 "situation_context.interaction_mode" res ;;
        res <- check_enum_if_present context "stakes_level" STAKES_LEVELS
                 "situation_context.stakes_level" res ;;
        check_enum_if_present context "time_pressure" TIME_PRESSURES
          "situation_context.time_pressure" res
    | None => Ok res
    end ;;
  match lookup "turns" episode_data with
  | Some turns => _validate_turns turns res
  | None => Ok res
  end.

Definition _is_msp_id_format (id_value : json) : result bool :=
  underscore <- str_in "_" id_value ;;
  if underscore then Ok true else
  match id_value with
  | JStr s => Ok (startswith s "t" || startswith s "ep_")
  | _ => Raise AttributeError
  end.

Definition _phase2_epistemic (episode_data : dict) : result ValidationResult :=
  let res := add_info [L "Phase 2: Epistemic validation"] _create_result in
  let llm_id_fields :=
    ["episode_id"; "context_id"; "session_id"; "user_id"; "instance_id"] in
  res <-
    for_each
      (fun _ field res =>
         match lookup field episode_data with
         | Some (JStr s) =>
             ok <- _is_msp_id_format (JStr s) ;;
             Ok (if negb ok
                 then add_warning [L "Field '"; L field;
                                   L "' has non-MSP ID format: '"; L s; L "'"] res
                 else res)
         | _ => Ok res
         end)
      0%nat llm_id_fields res ;;
  match lookup "turns" episode_data with
  | Some turns =>
      l <- py_iter turns ;;
      for_each
        (fun i turn res =>
           present <- str_in "turn_id" turn ;;
           if present then
             turn_id <- subscript turn "turn_id" ;;
             ok <- _is_msp_id_format turn_id ;;
             Ok (if negb ok
                 then add_warning [L "turns["; L (str_of_nat i);
                                   L "].turn_id has non-MSP format: '"; V turn_id;
                                   L "'"] res
                 else res)
           else Ok res)
        0%nat l res
  | None => Ok res
  end.

(** The range check of one required key of a state object. *)
Definition check_axis (obj : dict) (missing : message) (key field_name : string)
  (res : ValidationResult) : ValidationResult :=
  match lookup key obj with
  | None => add_error missing res
  | Some v => _check_range v F.zero F.one field_name res
  end.

Definition _validate_eva_matrix (eva_matrix : json) (res : ValidationResult)
  : ValidationResult :=
  match eva_matrix with
  | JObj d =>
      let res :=
        fold_left
          (fun res axis =>
             check_axis d [L "eva_matrix missing required axis: '"; L axis; L "'"]
               axis ("eva_matrix." ++ axis) res)
          EVA_MATRIX_AXES res in
      let extra_axes := keys_minus (dict_keys d) EVA_MATRIX_AXES in
      match extra_axes with
      | [] => res
      | _ => add_error [L "eva_matrix contains extra axes: "; Keys extra_axes] res
      end
  | _ => add_error [L "eva_matrix must be an object"] res
  end.

Definition _validate_qualia (qualia : json) (res : ValidationResult)
  : ValidationResult :=
  match qualia with
  | JObj d =>
      let res :=
        check_axis d [L "qualia missing 'intensity'"] "intensity"
          "qualia.intensity" res in
      let extra_fields := keys_minus (dict_keys d) ["intensity"] in
      match extra_fields with
      | [] => res
      | _ => add_error [L "qualia contains extra fields: "; Keys extra_fields] res
      end
  | _ => add_error [L "qualia must be an object"] res
  end.

Definition _validate_reflex (reflex : json) (res : ValidationResult)
  : ValidationResult :=
  match reflex with
  | JObj d =>
      let res :=
        check_axis d [L "reflex missing 'threat_level'"] "threat_level"
          "reflex.threat_level" res in
      let extra_fields := keys_minus (dict_keys d) ["threat_level"] in
      match extra_fields with
      | [] => res
      | _ => add_error [L "reflex contains extra fields: "; Keys extra_fields] res
      end
  | _ => add_error [L "reflex must be an object"] res
  end.

(** [if key in state: validate(state[key]) else: error] *)
Definition state_section (indexed_state : json) (key : string)
  (validate : json -> ValidationResult -> ValidationResult)
  (res : ValidationResult) : result ValidationResult :=
  present <- str_in key indexed_state ;;
  if present
  then v <- subscript indexed_state key ;; Ok (validate v res)
  else Ok (add_error [L "indexed_state missing '"; L key; L "'"] res).

(** The phase does not receive [ri_level]. *)
Definition _phase3_state (episode_data : dict) : result ValidationResult :=
  let res := add_info [L "Phase 3: State validation"] _create_result in
  let emotive_snapshot := dict_get "emotive_snapshot" (JObj []) episode_data in
  indexed_state <- py_get emotive_snapshot "indexed_state" (JObj []) ;;
  if negb (truthy indexed_state)
  then Ok (add_info [L "No indexed_state present (acceptable for L1/L2)"] res)
  else
    res <- state_section indexed_state "eva_matrix" _validate_eva_matrix res ;;
    res <- state_section indexed_state "qualia" _validate_qualia res ;;
    state_section indexed_state "reflex" _validate_reflex res.

Definition json_length (v : json) : nat :=
  match v with
  | JObj d => List.length d
  | JList l => List.length l
  | JStr s => String.length s
  | _ => 0%nat
  end.

Definition _phase4_crosslinks (episode_data : dict) : result ValidationResult :=
  let res := add_info [L "Phase 4: Crosslinks validation"] _create_result in
  let emotive_snapshot := dict_get "emotive_snapshot" (JObj []) episode_data in
  crosslinks <- py_get emotive_snapshot "crosslinks" (JObj []) ;;
  match crosslinks with
  | JObj d =>
      let res :=
        fold_left
          (fun res key =>
             if negb (existsb (String.eqb key) CROSSLINK_TYPES)
             then add_error [L "Invalid crosslink type: '"; L key; L "'"] res
             else res)
          (dict_keys d) res in
      Ok (fold_left
            (fun res (kv : string * json) =>
               let (key, value) := kv in
               if existsb (String.eqb key) CROSSLINK_TYPES then
                 match value with
                 | JObj sub =>
                     fold_left
                       (fun res (skv : string * json) =>
                          let (sub_key, sub_value) := skv in
                          if is_dict sub_value && (5 <? json_length sub_value)%nat
                          then add_warning
                                 [L "crosslinks."; L key; L "."; L sub_key;
                                  L " looks like embedded state (should be ID only)"]
                                 res
                          else res)
                       sub res
                 | JList l =>
                     fold_left
                       (fun res item =>
                          if negb (is_str item)
                          then add_error
                                 [L "crosslinks."; L key;
                                  L " should contain ID strings, not ";
                                  TypeName item] res
                          else res)
                       l res
                 | _ => res
                 end
               else res)
            d res)
  | _ => Ok (add_error [L "crosslinks must be an object"] res)
  end.

Definition _phase5_forbidden_content (episode_data : dict) : ValidationResult :=
  let res := add_info [L "Phase 5: Forbidden content check"] _create_result in
  _scan_for_forbidden_fields (JObj episode_data) EPISODIC_FORBIDDEN_FIELDS res "".

Definition validate (episode_data : dict) (ri_level : string)
  : result ValidationResult :=
  let res := _create_result in
  phase1_result <- _phase1_structural episode_data ri_level ;;
  let res := merge res phase1_result in
  phase2_result <- _phase2_epistemic episode_data ;;
  let res := merge res phase2_result in
  phase3_result <- _phase3_state episode_data ;;
  let res := merge res phase3_result in
  phase4_result <- _phase4_crosslinks episode_data ;;
  let res := merge res phase4_result in
  let phase5_result := _phase5_forbidden_content episode_data in
  let res := merge res phase5_result in
  Ok res.

End EpisodicValidator.

(* ===================================================================== *)
(** ** validation/semantic_validator.py *)
(* ===================================================================== *)

Module SemanticValidator.

Definition EPISTEMIC_STATUSES := ["hypothesis"; "provisional"; "confirmed"].
Definition RESOLUTION_STATES := ["unresolved"; "resolved"; "suppressed"].
Definition CONSOLIDATION_THRESHOLD : F.float := f0_7.

Definition _validate_structure (entry : dict) : result ValidationResult :=
  let res := add_info [L "Phase 1: Structural validation"] _create_result in
  let required := ["concept"; "epistemic_status"; "confidence"; "derived_from"] in
  res <- _check_required_fields (JObj entry) required res "" ;;
  let res :=
    match lookup "epistemic_status" entry with
    | Some v => _check_enum_value v EPISTEMIC_STATUSES "epistemic_status" res
    | None => res
    end in
  let res :=
    match lookup "resolution_state" entry with
    | Some v => _check_enum_value v RESOLUTION_STATES "resolution_state" res
    | None => res
    end in
  let res :=
    match lookup "derived_from" entry with
    | Some (JObj derived) =>
        if negb (has_key "episode_id" derived)
        then add_error [L "'derived_from' missing 'episode_id'"] res
        else res
    | Some _ => add_error [L "'derived_from' must be an object"] res
    | None => res
    end in
  Ok res.

Definition is_lower_letter (c : ascii) : bool :=
  let n := nat_of_ascii c in (97 <=? n)%nat && (n <=? 122)%nat.
Definition is_digit (c : ascii) : bool :=
  let n := nat_of_ascii c in (48 <=? n)%nat && (n <=? 57)%nat.
Definition is_underscore (c : ascii) : bool := (nat_of_ascii c =? 95)%nat.
Definition is_newline (c : ascii) : bool := (nat_of_ascii c =? 10)%nat.

(** The text that [$] measures: the string without one final newline. *)
Fixpoint before_final_newline (s : string) : string :=
  match s with
  | EmptyString => EmptyString
  | String c EmptyString => if is_newline c then EmptyString else s
  | String c rest => String c (before_final_newline rest)
  end.

(** [re.match(r'^[a-z][a-z0-9_]*[a-z0-9]$|^[a-z]$', s)] *)
Definition _is_lowercase_snake_case (s : string) : bool :=
  let body := before_final_newline s in
  match body with
  | EmptyString => false
  | String c rest =>
      is_lower_letter c
      && forallb_string
           (fun x => is_lower_letter x || is_digit x || is_underscore x) rest
      && match last_ascii body with
         | Some l => is_lower_letter l || is_digit l
         | None => false
         end
  end.

Definition _validate_concept_format (entry : dict) : result ValidationResult :=
  let res := add_info [L "Phase 2: Concept format validation"] _create_result in
  let concept := dict_get "concept" JNull entry in
  if negb (truthy concept) then Ok res else
  match concept with
  | JStr c =>
      let res :=
        if negb (_is_lowercase_snake_case c)
        then add_error [L "Concept '"; L c;
                        L "' must be lowercase_snake_case format"] res
        else res in
      let certainty_words :=
        ["confirmed"; "certain"; "definite"; "absolute"; "proven"] in
      let res :=
        if existsb (fun word => substringb word (lower c)) certainty_words
        then add_warning
               [L "Concept '"; L c;
                L "' appears to encode certainty (should be in epistemic_status instead)"]
               res
        else res in
      Ok res
  | _ => Raise TypeError
  end.

Definition _validate_confidence (entry : dict) : result ValidationResult :=
  let res := add_info [L "Phase 3: Confidence validation"] _create_result in
  match dict_get "confidence" JNull entry with
  | JNull => Ok res
  | confidence =>
      let res := _check_range confidence F.zero F.one "confidence" res in
      let epistemic_status := dict_get "epistemic_status" JNull entry in
      if truthy epistemic_status then
        expected_status <- get_epistemic_status confidence ;;
        Ok (if negb (py_eq epistemic_status (JStr (epistemic_value expected_status)))
            then add_warning
                   [L "Confidence "; V confidence; L " suggests '";
                    L (epistemic_value expected_status);
                    L "' but epistemic_status is '"; V epistemic_status; L "'"] res
            else res)
      else Ok res
  end.

Definition _validate_conflicts (entry : dict) (existing_entries : json)
  : result ValidationResult :=
  let res := add_info [L "Phase 4: Conflict detection"] _create_result in
  conflicting_concept <- detect_conflict entry existing_entries ;;
  match conflicting_concept with
  | Some c =>
      if truthy c then
        let res :=
          add_warning [L "Conflict detected with existing concept: '"; V c; L "'"]
            res in
        let res := set_context "conflict_detected" (JBool true) res in
        let res := set_context "conflicting_concept" c res in
        let conflicts_with := dict_get "conflicts_with" (JList []) entry in
        listed <- py_in c conflicts_with ;;
        Ok (if negb listed
            then add_info [L "Consider adding '"; V c;
                           L "' to conflicts_with field"] res
            else res)
      else Ok res
  | None => Ok res
  end.

Definition _validate_forbidden_fields (entry : dict) : ValidationResult :=
  let res := add_info [L "Phase 5: Forbidden fields check"] _create_result in
  _scan_for_forbidden_fields (JObj entry) SEMANTIC_FORBIDDEN_FIELDS res "".

Definition validate (entry : dict) (existing_entries : option json)
  : result ValidationResult :=
  let res := _create_result in
  structural_result <- _validate_structure entry ;;
  let res := merge res structural_result in
  concept_result <- _validate_concept_format entry ;;
  let res := merge res concept_result in
  confidence_result <- _validate_confidence entry ;;
  let res := merge res confidence_result in
  res <-
    match existing_entries with
    | Some existing =>
        if truthy existing then
          conflict_result <- _validate_conflicts entry existing ;;
          Ok (merge res conflict_result)
        else Ok res
    | None => Ok res
    end ;;
  let forbidden_result := _validate_forbidden_fields entry in
  let res := merge res forbidden_result in
  Ok res.

Definition validate_for_consolidation (entry : json) : result bool :=
  confidence <- py_get entry "confidence" (JFloat F.zero) ;;
  below <- py_le confidence (JFloat CONSOLIDATION_THRESHOLD) ;;
  if below then Ok false else
  match entry with
  | JObj d =>
      res <- validate d None ;;
      if negb (valid res) then Ok false else Ok true
  | _ => Raise AttributeError
  end.

End SemanticValidator.

(* ===================================================================== *)
(** ** validation/sensory_validator.py *)
(* ===================================================================== *)

Module SensoryValidator.

Definition DATA_TYPES := ["text"; "audio"; "visual"; "multimodal"].
Definition CAPTURE_CHANNELS := ["user_input"; "system_ui"; "external_sensor"].
Definition ALLOWED_FEATURES :=
  ["pitch"; "volume"; "tempo"; "pause_length"; "tone_descriptor"].
Definition INTERPRETIVE_KEYWORDS :=
  [ "emotion"; "feeling"; "mood"; "intent"; "intention"; "meaning";
    "angry"; "happy"; "sad"; "excited"; "frustrated"; "confused";
    "wants"; "desires"; "believes"; "thinks"; "feels";
    "aggressive"; "friendly"; "hostile"; "warm"; "cold";
    "sarcastic"; "sincere"; "lying"; "honest" ].

Definition _validate_structure (entry : json) : result ValidationResult :=
  let res := add_info [L "Phase 1: Structural validation"] _create_result in
  let required :=
    ["sensory_id"; "session_id"; "episode_ref"; "timestamp";
     "data_type"; "data_source"; "sensory_payload"] in
  res <- _check_required_fields entry required res "" ;;
  res <- EpisodicValidator.check_enum_if_present entry "data_type" DATA_TYPES
           "data_type" res ;;
  has_source <- str_in "data_source" entry ;;
  res <-
    (if has_source then
       data_source <- subscript entry "data_source" ;;
       match data_source with
       | JObj d =>
           let res :=
             if negb (has_key "source_name" d)
             then add_error [L "'data_source' missing 'source_name'"] res
             else res in
           let res :=
             if negb (has_key "capture_channel" d)
             then add_error [L "'data_source' missing 'capture_channel'"] res
             else res in
           Ok match lookup "capture_channel" d with
              | Some v =>
                  _check_enum_value v CAPTURE_CHANNELS
                    "data_source.capture_channel" res
              | None => res
              end
       | _ => Ok (add_error [L "'data_source' must be an object"] res)
       end
     else Ok res) ;;
  has_payload <- str_in "sensory_payload" entry ;;
  if negb has_payload
  then Ok (add_error [L "Missing 'sensory_payload'"] res)
  else
    payload <- subscript entry "sensory_payload" ;;
    Ok (if negb (is_dict payload)
        then add_error [L "'sensory_payload' must be an object"] res
        else res).

Definition _detect_interpretive_keywords (text : string) : list string :=
  let text_lower := lower text in
  filter (fun keyword => substringb keyword text_lower) INTERPRETIVE_KEYWORDS.

Definition _validate_no_interpretation (entry : json) : result ValidationResult :=
  let res :=
    add_info [L "Phase 2: Interpretation detection (CRITICAL)"] _create_result in
  sensory_payload <- py_get entry "sensory_payload" (JObj []) ;;
  raw_content <- py_get sensory_payload "raw_content" (JStr "") ;;
  let res :=
    match raw_content with
    | JStr text =>
        if truthy raw_content then
          match _detect_interpretive_keywords text with
          | [] => res
          | detected_keywords =>
              add_error [L "Interpretive language detected in raw_content: ";
                         Strs detected_keywords] res
          end
        else res
    | _ => res
    end in
  feature_snapshot <- py_get sensory_payload "feature_snapshot" (JObj []) ;;
  let res :=
    match feature_snapshot with
    | JObj d =>
        match keys_minus (dict_keys d) ALLOWED_FEATURES with
        | [] => res
        | invalid_features =>
            add_error [L "Invalid features in feature_snapshot: ";
                       Keys invalid_features;
                       L ". Only measurable features allowed: ";
                       Strs ALLOWED_FEATURES] res
        end
    | _ => res
    end in
  Ok res.

(** [any(k in c for k in ks)] *)
Fixpoint any_str_in (ks : list string) (c : json) : result bool :=
  match ks with
  | [] => Ok false
  | k :: rest =>
      b <- str_in k c ;;
      if b then Ok true else any_str_in rest c
  end.

Definition _validate_data_type (entry : json) : result ValidationResult :=
  let res := add_info [L "Phase 3: Data type validation"] _create_result in
  data_type <- py_get entry "data_type" JNull ;;
  sensory_payload <- py_get entry "sensory_payload" (JObj []) ;;
  if negb (truthy data_type) then Ok res else
  if py_eq data_type (JStr "audio") then
    feature_snapshot <- py_get sensory_payload "feature_snapshot" (JObj []) ;;
    let audio_features := ["pitch"; "volume"; "tempo"] in
    has_audio_features <- any_str_in audio_features feature_snapshot ;;
    Ok (if truthy feature_snapshot && negb has_audio_features
        then add_warning
               [L "data_type is 'audio' but no audio features (pitch/volume/tempo) found"]
               res
        else res)
  else Ok res.

Definition _validate_forbidden_fields (entry : json) : ValidationResult :=
  let res := add_info [L "Phase 4: Forbidden fields check"] _create_result in
  _scan_for_forbidden_fields entry SENSORY_FORBIDDEN_FIELDS res "".

Definition validate (entry : json) : result ValidationResult :=
  let res := _create_result in
  structural_result <- _validate_structure entry ;;
  let res := merge res structural_result in
  interpretation_result <- _validate_no_interpretation entry ;;
  let res := merge res interpretation_result in
  data_type_result <- _validate_data_type entry ;;
  let res := merge res data_type_result in
  let forbidden_result := _validate_forbidden_fields entry in
  let res := merge res forbidden_result in
  Ok res.

End SensoryValidator.

(* ===================================================================== *)
(** ** The text of values *)
(* ===================================================================== *)

Definition quote (s : string) : string := "'" ++ s ++ "'".

(** [repr(v)]; strings are quoted without escapes. *)
Fixpoint py_repr (fr : F.float -> string) (v : json) : string :=
  match v with
  | JNull => "None"
  | JBool b => if b then "True" else "False"
  | JInt z => str_of_Z z
  | JFloat f => fr f
  | JStr s => quote s
  | JList l => "[" ++ join ", " (map (py_repr fr) l) ++ "]"
  | JObj d =>
      "{" ++ join ", "
               (map (fun kv : string * json =>
                       quote (fst kv) ++ ": " ++ py_repr fr (snd kv)) d)
          ++ "}"
  end.

(** [str(v)] *)
Definition py_str (fr : F.float -> string) (v : json) : string :=
  match v with
  | JStr s => s
  | _ => py_repr fr v
  end.

Definition type_name (v : json) : string :=
  match v with
  | JNull => "NoneType"
  | JBool _ => "bool"
  | JInt _ => "int"
  | JFloat _ => "float"
  | JStr _ => "str"
  | JList _ => "list"
  | JObj _ => "dict"
  end.

(** The text of a diagnostic; a set is printed in the order of its keys. *)
Definition frag_text (fr : F.float -> string) (f : frag) : string :=
  match f with
  | L s => s
  | V v => py_str fr v
  | Keys ks => "{" ++ join ", " (map quote ks) ++ "}"
  | Strs ss => "[" ++ join ", " (map quote ss) ++ "]"
  | TypeName v => type_name v
  end.

Definition message_text (fr : F.float -> string) (m : message) : string :=
  String.concat "" (map (frag_text fr) m).

(* ===================================================================== *)
(** ** The file system and the environment *)
(* ===================================================================== *)

(** A path below [base_path], as its components. *)
Definition path := list string.

(** What [json.load] makes of a file: a document, or text that it rejects. *)
Inductive content : Type :=
  | Document (j : json)
  | NotJson.

Inductive node : Type :=
  | Dir
  | File (c : content).

Definition FS := path -> option node.

Fixpoint path_eqb (p q : path) : bool :=
  match p, q with
  | [], [] => true
  | a :: p', b :: q' => String.eqb a b && path_eqb p' q'
  | _, _ => false
  end.

(** [p] is [q] or one of its ancestors. *)
Fixpoint is_prefix (p q : path) : bool :=
  match p, q with
  | [], _ => true
  | a :: p', b :: q' => String.eqb a b && is_prefix p' q'
  | _ :: _, [] => false
  end.

(** [q] relative to [p], when [p] is [q] or one of its ancestors. *)
Fixpoint strip_prefix (p q : path) : option path :=
  match p, q with
  | [], _ => Some q
  | a :: p', b :: q' => if String.eqb a b then strip_prefix p' q' else None
  | _ :: _, [] => None
  end.

Definition parent (p : path) : path := removelast p.

(** The calls that change the tree; the environment decides which fail. *)
Inductive fs_op : Type :=
  | Mkdir (p : path)
  | CopyTree (src dst : path)
  | WriteFile (p : path)
  | RmTree (p : path).

(** The world outside the object: the tree below [base_path], the clock,
    the random source, the text of a float, and the faults of the file
    system.  Every reading of the clock or of the random source takes the
    next index. *)
Record World : Type := {
  fs : FS;
  tick : nat;
  now_iso_at : nat -> string;       (* now_iso() *)
  strftime_at : nat -> string;      (* datetime.now().strftime("%Y%m%d_%H%M%S") *)
  uuid4_hex_at : nat -> string;     (* uuid.uuid4().hex *)
  float_repr : F.float -> string;   (* repr(x) for a float *)
  faulty : fs_op -> bool;
  partial_copy : path -> path -> path -> bool  (* what an interrupted copy left *)
}.

Definition with_fs (w : World) (f : FS) : World :=
  {| fs := f; tick := tick w; now_iso_at := now_iso_at w;
     strftime_at := strftime_at w; uuid4_hex_at := uuid4_hex_at w;
     float_repr := float_repr w; faulty := faulty w;
     partial_copy := partial_copy w |}.

Definition with_tick (w : World) (n : nat) : World :=
  {| fs := fs w; tick := n; now_iso_at := now_iso_at w;
     strftime_at := strftime_at w; uuid4_hex_at := uuid4_hex_at w;
     float_repr := float_repr w; faulty := faulty w;
     partial_copy := partial_copy w |}.

Definition exists_ (w : World) (p : path) : bool :=
  match fs w p with Some _ => true | None => false end.

Definition is_file (n : option node) : bool :=
  match n with Some (File _) => true | _ => false end.

(** Some ancestor of [p], or [p] itself, is a regular file. *)
Fixpoint blocked (f : FS) (above p : path) : bool :=
  is_file (f above) ||
  match p with
  | [] => false
  | a :: rest => blocked f (above ++ [a])%list rest
  end.

(* ===================================================================== *)
(** ** MSP.py: the object and its operations *)
(* ===================================================================== *)

(** The validators hold no state that their verdicts depend on. *)
Record Validator : Type := { strict_mode : bool }.

(** The fields of [self] that the operations below read or write. *)
Record MSP : Type := {
  instance_id : option string;
  session_id : option string;
  session_episode_count : Z;
  validation_mode : string;
  episodic_validator : option Validator;
  semantic_validator : option Validator;
  sensory_validator : option Validator;
  confidence_updater : option ConfidenceUpdater
}.

Record State : Type := { self : MSP; world : World }.

(** A computation changes the state and returns or raises; what it did
    before raising stays done. *)
Definition M (A : Type) : Type := State -> result A * State.

Definition ret {A} (a : A) : M A := fun s => (Ok a, s).
Definition raise {A} (e : exn) : M A := fun s => (Raise e, s).
Definition lift {A} (r : result A) : M A := fun s => (r, s).

Definition mbind {A B} (m : M A) (k : A -> M B) : M B :=
  fun s =>
    match m s with
    | (Ok a, s') => k a s'
    | (Raise e, s') => (Raise e, s')
    end.

Notation "x <~ c ;; k" := (mbind c (fun x => k))
  (at level 100, c at next level, right associativity) : py_scope.
Notation "c ;;- k" := (mbind c (fun _ => k))
  (at level 100, right associativity) : py_scope.

(** [try: m except Exception as e: h e] *)
Definition try_except {A} (m : M A) (h : exn -> M A) : M A :=
  fun s =>
    match m s with
    | (Ok a, s') => (Ok a, s')
    | (Raise e, s') => h e s'
    end.

Definition get_self : M MSP := fun s => (Ok (self s), s).
Definition get_world : M World := fun s => (Ok (world s), s).
Definition put_self (m : MSP) : M unit :=
  fun s => (Ok tt, {| self := m; world := world s |}).
Definition put_world (w : World) : M unit :=
  fun s => (Ok tt, {| self := self s; world := w |}).

(** Reading an oracle takes the next index. *)
Definition read_oracle (o : World -> nat -> string) : M string :=
  fun s =>
    let w := world s in
    (Ok (o w (tick w)), {| self := self s; world := with_tick w (S (tick w)) |}).

Definition now_iso : M string := read_oracle now_iso_at.
Definition strftime_now : M string := read_oracle strftime_at.
Definition uuid4_hex : M string := read_oracle uuid4_hex_at.

Definition path_exists (p : path) : M bool :=
  w <~ get_world ;; ret (exists_ w p).

(** [p.mkdir(parents=True, exist_ok=True)] *)
Definition ensure_dir (p : path) : M unit :=
  w <~ get_world ;;
  if faulty w (Mkdir p) then raise OSError else
  if blocked (fs w) [] p then raise FileExistsError else
  put_world (with_fs w (fun q =>
    match fs w q with
    | Some n => Some n
    | None => if is_prefix q p then Some Dir else None
    end)).

(** The tree after [copytree src dst] copied the entries that [copied]
    selects (all of them when the call succeeds). *)
Definition copy_into (f : FS) (src dst : path) (copied : path -> bool) : FS :=
  fun q =>
    match strip_prefix dst q with
    | Some rel => if copied rel then f (src ++ rel)%list else f q
    | None =>
        match f q with
        | Some n => Some n
        | None => if is_prefix q dst then Some Dir else None
        end
    end.

(** [shutil.copytree(src, dst)]: [dst] must not exist.  A copy that the
    environment interrupts leaves a part of the tree under [dst]. *)
Definition copytree (src dst : path) : M unit :=
  w <~ get_world ;;
  match fs w src with
  | Some Dir =>
      if exists_ w dst then raise FileExistsError else
      if blocked (fs w) [] (parent dst) then raise FileExistsError else
      if faulty w (CopyTree src dst)
      then put_world (with_fs w (copy_into (fs w) src dst (partial_copy w src dst)))
           ;;- raise OSError
      else put_world (with_fs w (copy_into (fs w) src dst (fun _ => true)))
  | _ => raise OSError
  end.

(** [shutil.rmtree(p)] *)
Definition rmtree (p : path) : M unit :=
  w <~ get_world ;;
  if faulty w (RmTree p) then raise OSError else
  match fs w p with
  | Some Dir =>
      put_world (with_fs w (fun q => if is_prefix p q then None else fs w q))
  | _ => raise OSError
  end.

(** [load_json]: an absent file and rejected text both read as [{}]. *)
Definition read_json (f : FS) (p : path) : result json :=
  match f p with
  | None => Ok (JObj [])
  | Some (File (Document j)) => Ok j
  | Some (File NotJson) => Ok (JObj [])
  | Some Dir => Raise OSError
  end.

Definition load_json (p : path) : M json :=
  w <~ get_world ;; lift (read_json (fs w) p).

(** [save_json]: the document is written next to [p] and renamed over it;
    the file beside it is not kept in the tree. *)
Definition save_json (p : path) (data : json) : M unit :=
  ensure_dir (parent p) ;;-
  w <~ get_world ;;
  if faulty w (WriteFile p) then raise OSError else
  match fs w p with
  | Some Dir => raise OSError
  | _ =>
      put_world (with_fs w (fun q =>
        if path_eqb q p then Some (File (Document data)) else fs w q))
  end.

(** [get_stakes_level_from_topic] (confidence_updater.py) *)
Definition health_keywords : list string :=
  [ "health"; "safety"; "allergy"; "medical"; "poison"; "toxic";
    "danger"; "harmful"; "disease"; "medication"; "hospital";
    "สุขภาพ"; "ความปลอดภัย"; "แพ้"; "อันตราย"; "พิษ"; "โรค" ].

Definition get_stakes_level_from_topic (concept definition : string) : StakesLevel :=
  let combined_text := lower (concept ++ " " ++ definition) in
  if existsb (fun keyword => substringb keyword combined_text) health_keywords
  then HIGH else MEDIUM.

Definition set_session (m : MSP) (sid : option string) (count : Z) : MSP :=
  {| instance_id := instance_id m; session_id := sid;
     session_episode_count := count; validation_mode := validation_mode m;
     episodic_validator := episodic_validator m;
     semantic_validator := semantic_validator m;
     sensory_validator := sensory_validator m;
     confidence_updater := confidence_updater m |}.

Definition clear_instance (m : MSP) : MSP :=
  {| instance_id := None; session_id := None;
     session_episode_count := 0; validation_mode := validation_mode m;
     episodic_validator := episodic_validator m;
     semantic_validator := semantic_validator m;
     sensory_validator := sensory_validator m;
     confidence_updater := confidence_updater m |}.

Definition opt_str (o : option string) : json :=
  match o with Some s => JStr s | None => JNull end.

Definition version_file : path := ["version.json"].
Definition episodic_dir : path := ["01_Episodic_memory"].
Definition semantic_dir : path := ["02_Semantic_memory"].
Definition sensory_dir : path := ["03_Sensory_memory"].
Definition buffer_dir : path := ["Buffer"].

Definition episodic_file (root : path) : path :=
  (root ++ ["01_Episodic_memory"; "Episodic_memory.json"])%list.
Definition semantic_file (root : path) : path :=
  (root ++ ["02_Semantic_memory"; "Semantic_memory.json"])%list.
Definition sensory_file (root : path) : path :=
  (root ++ ["03_Sensory_memory"; "Sensory_memory.json"])%list.

Definition _get_current_version : M json :=
  present <~ path_exists version_file ;;
  if present then
    data <~ load_json version_file ;;
    lift (py_get data "version" (JInt 1))
  else ret (JInt 1).

Definition _increment_version : M unit :=
  current <~ _get_current_version ;;
  next <~ lift (py_add_int current 1) ;;
  t <~ now_iso ;;
  save_json version_file (JObj [("version", next); ("updated_at", JStr t)]).

Definition get_instance_path : M path :=
  m <~ get_self ;;
  match instance_id m with
  | None => raise (RuntimeError [L "No active instance"])
  | Some i => ret (buffer_dir ++ [("instance_" ++ i)%string])%list
  end.

(** [f"{v:0Wd}"] *)
Definition format_d (width : nat) (v : json) : result string :=
  match v with
  | JInt z => Ok (pad_Z width z)
  | JBool b => Ok (pad_Z width (if b then 1 else 0))
  | JNull | JList _ | JObj _ => Raise TypeError
  | _ => Raise ValueError
  end.

Definition start_session (session_id : option string) : M string :=
  m <~ get_self ;;
  match instance_id m with
  | None => raise (RuntimeError [L "Must create_instance() first"])
  | Some _ =>
      sid <~
        match session_id with
        | Some sid => ret sid
        | None =>
            ip <~ get_instance_path ;;
            let metadata_path := (ip ++ ["metadata.json"])%list in
            metadata <~ load_json metadata_path ;;
            c <~ lift (py_get metadata "session_count" (JInt 0)) ;;
            session_count <~ lift (py_add_int c 1) ;;
            digits <~ lift (format_d 2 session_count) ;;
            d <~ lift (py_items metadata) ;;
            save_json metadata_path (JObj (dict_set "session_count" session_count d)) ;;-
            ret ("S" ++ digits)
        end ;;
      m <~ get_self ;;
      put_self (set_session m (Some sid) 0) ;;-
      ret sid
  end.

Definition _apply_ri_filter (episode : dict) (ri_level : string) : M dict :=
  if String.eqb ri_level "L1" then
    t <~ now_iso ;;
    ret [ ("episode_id", dict_get "episode_id" JNull episode);
          ("timestamp", dict_get "timestamp" (JStr t) episode);
          ("emotive_snapshot", dict_get "emotive_snapshot" (JObj []) episode) ]
  else if String.eqb ri_level "L2" then
    t <~ now_iso ;;
    ret [ ("episode_id", dict_get "episode_id" JNull episode);
          ("timestamp", dict_get "timestamp" (JStr t) episode);
          ("summary", dict_get "summary" (JStr "") episode);
          ("emotive_snapshot", dict_get "emotive_snapshot" (JObj []) episode) ]
  else ret episode.

(** [data[key].append(item)], for a document that has [key]. *)
Definition append_to (data : json) (key : string) (item : json) : result json :=
  l <- subscript data key ;;
  match l, data with
  | JList items, JObj d => Ok (JObj (dict_set key (JList (items ++ [item])) d))
  | _, _ => Raise AttributeError
  end.

(** [data[key].extend(items)] *)
Definition extend_at (data : json) (key : string) (items : json) : result json :=
  l <- subscript data key ;;
  match l, data with
  | JList old, JObj d =>
      new <- py_iter items ;;
      Ok (JObj (dict_set key (JList (old ++ new)) d))
  | _, _ => Raise AttributeError
  end.

Definition capacity_error (sid : string) : exn :=
  RuntimeError [L "Session "; L sid;
                L " reached max 30 episodes. Call end_session() first."].

(** The validation checkpoint of [write_episode]: it raises only the
    validation error of the strict mode. *)
Definition episode_checkpoint (m : MSP) (episode_data : dict) (ri_level : string)
  : result unit :=
  if negb (String.eqb (validation_mode m) "off") then
    match episodic_validator m with
    | Some _ =>
        match EpisodicValidator.validate episode_data ri_level with
        | Ok res =>
            if negb (valid res) && String.eqb (validation_mode m) "strict"
            then Raise (MSPValidationError "Episodic validation failed:" (errors res))
            else Ok tt
        | Raise _ => Ok tt
        end
    | None => Ok tt
    end
  else Ok tt.

(** [write_episode] returns the identifier and the dictionary of the caller
    as the call leaves it: the identifier is stored in it, and at level L3+
    the metadata too, the stored episode being that same dictionary. *)
Definition write_episode (episode_data : dict) (ri_level : string)
  : M (json * dict) :=
  m <~ get_self ;;
  match session_id m with
  | None => raise (RuntimeError [L "Must start_session() first"])
  | Some sid =>
      if (30 <=? session_episode_count m)%Z then raise (capacity_error sid) else
      lift (episode_checkpoint m episode_data ri_level) ;;-
      st <~
        match dict_get "episode_id" JNull episode_data with
        | JNull =>
            u <~ uuid4_hex ;;
            let episode_id :=
              JStr ("ep_" ++ sid ++ "_" ++ pad_Z 3 (session_episode_count m + 1)
                      ++ "_" ++ take 6 u) in
            ret (episode_id, dict_set "episode_id" episode_id episode_data)
        | episode_id => ret (episode_id, episode_data)
        end ;;
      let (episode_id, episode_data) := st in
      filtered_episode <~ _apply_ri_filter episode_data ri_level ;;
      t <~ now_iso ;;
      let msp_metadata :=
        [ ("written_by", JStr "MSP");
          ("instance_id", opt_str (instance_id m));
          ("session_id", JStr sid);
          ("ri_level", JStr ri_level);
          ("written_at", JStr t) ] in
      let msp_metadata :=
        match lookup "pulse_snapshot" episode_data with
        | Some p => dict_set "pulse_snapshot" p msp_metadata
        | None => msp_metadata
        end in
      let filtered_episode :=
        dict_set "msp_metadata" (JObj msp_metadata) filtered_episode in
      let episode_data :=
        if existsb (String.eqb ri_level) ["L1"; "L2"]
        then episode_data else filtered_episode in
      instance_path <~ get_instance_path ;;
      let episodic_buffer := episodic_file instance_path in
      buffer_data <~ load_json episodic_buffer ;;
      has <~ lift (str_in "episodes" buffer_data) ;;
      buffer_data <~
        (if negb has then
           t <~ now_iso ;;
           ret (JObj [ ("system", JStr "EVA");
                       ("instance_id", opt_str (instance_id m));
                       ("session_id", JStr sid);
                       ("timestamp", JStr t);
                       ("episodes", JList []) ])
         else ret buffer_data) ;;
      buffer_data <~ lift (append_to buffer_data "episodes" (JObj filtered_episode)) ;;
      save_json episodic_buffer buffer_data ;;-
      m <~ get_self ;;
      put_self (set_session m (session_id m) (session_episode_count m + 1)) ;;-
      ret (episode_id, episode_data)
  end.

(** The errors of a proposal that [write_semantic] does not overlook: those
    whose text names none of the fields that MSP itself will add. *)
Definition major_errors (fr : F.float -> string) (errs : list message)
  : list message :=
  filter
    (fun e =>
       negb (existsb (fun forbidden => substringb forbidden (message_text fr e))
               ["semantic_id"; "epistemic_status"; "confidence"; "created_at";
                "last_updated"]))
    errs.

(** The validation checkpoint of [write_semantic], once the buffered
    entries are read: it returns the proposal, with [conflicts_with] when a
    conflict was found, or raises the validation error of the strict mode. *)
Definition semantic_checkpoint (m : MSP) (fr : F.float -> string)
  (proposal_data : dict) (existing_entries : json) : result dict :=
  match SemanticValidator.validate proposal_data (Some existing_entries) with
  | Ok res =>
      let errs := major_errors fr (errors res) in
      if match errs with [] => false | _ => true end
         && String.eqb (validation_mode m) "strict"
      then Raise (MSPValidationError "Semantic proposal validation failed:" errs)
      else
        Ok (if truthy (dict_get "conflict_detected" JNull (context res))
            then dict_set "conflicts_with"
                   (JList [dict_get "conflicting_concept" JNull (context res)])
                   proposal_data
            else proposal_data)
  | Raise _ => Ok proposal_data
  end.

Definition write_semantic (concept definition episode_id : string)
  (turn_ids : option (list string)) (stakes_level : option StakesLevel)
  : M string :=
  m <~ get_self ;;
  match session_id m with
  | None => raise (RuntimeError [L "Must start_session() first"])
  | Some sid =>
      let stakes_level :=
        match stakes_level with
        | Some s => s
        | None => get_stakes_level_from_topic concept definition
        end in
      let derived_from :=
        match turn_ids with
        | Some (t :: ts) =>
            [ ("episode_id", JStr episode_id);
              ("turn_ids", JList (map JStr (t :: ts))) ]
        | _ => [ ("episode_id", JStr episode_id) ]
        end in
      let proposal_data :=
        [ ("concept", JStr concept);
          ("definition", JStr definition);
          ("derived_from", JObj derived_from) ] in
      proposal_data <~
        (if negb (String.eqb (validation_mode m) "off") then
           match semantic_validator m with
           | Some _ =>
               instance_path <~ get_instance_path ;;
               buffer_data <~ load_json (semantic_file instance_path) ;;
               existing_entries <~ lift (py_get buffer_data "entries" (JList [])) ;;
               w <~ get_world ;;
               lift (semantic_checkpoint m (float_repr w) proposal_data
                       existing_entries)
           | None => ret proposal_data
           end
         else ret proposal_data) ;;
      entry <~
        match confidence_updater m with
        | Some cu => lift (create_initial_entry cu concept definition stakes_level)
        | None =>
            ret [ ("concept", JStr concept);
                  ("definition", JStr definition);
                  ("epistemic_status", JStr "hypothesis");
                  ("confidence", JFloat f0_3);
                  ("stakes_level", JStr (stakes_value stakes_level)) ]
        end ;;
      let entry := dict_update entry proposal_data in
      created <~ now_iso ;;
      let entry := dict_set "created_at" (JStr created) entry in
      updated <~ now_iso ;;
      let entry := dict_set "last_updated" (JStr updated) entry in
      u <~ uuid4_hex ;;
      let semantic_id := "sem_" ++ sid ++ "_" ++ take 8 u in
      let entry := dict_set "semantic_id" (JStr semantic_id) entry in
      instance_path <~ get_instance_path ;;
      let semantic_buffer := semantic_file instance_path in
      buffer_data <~ load_json semantic_buffer ;;
      has <~ lift (str_in "entries" buffer_data) ;;
      buffer_data <~
        (if negb has then
           t <~ now_iso ;;
           ret (JObj [ ("system", JStr "EVA");
                       ("instance_id", opt_str (instance_id m));
                       ("session_id", JStr sid);
                       ("timestamp", JStr t);
                       ("entries", JList []) ])
         else ret buffer_data) ;;
      buffer_data <~ lift (append_to buffer_data "entries" (JObj entry)) ;;
      save_json semantic_buffer buffer_data ;;-
      ret semantic_id
  end.

Definition delete_buffer : M unit :=
  instance_path <~ get_instance_path ;;
  present <~ path_exists instance_path ;;
  (if present then rmtree instance_path else ret tt) ;;-
  m <~ get_self ;;
  put_self (clear_instance m).

Definition dirs_to_backup : list string :=
  ["01_Episodic_memory"; "02_Semantic_memory"; "03_Sensory_memory"; "07_User_block"].

Definition backups_dir : path := ["Backups"].

Fixpoint backup_dirs (backup_root : path) (dirs : list string) : M unit :=
  match dirs with
  | [] => ret tt
  | d :: rest =>
      present <~ path_exists [d] ;;
      (if present then copytree [d] (backup_root ++ [d])%list else ret tt) ;;-
      backup_dirs backup_root rest
  end.

Definition _create_origin_backup : M path :=
  timestamp <~ strftime_now ;;
  version <~ _get_current_version ;;
  w <~ get_world ;;
  let backup_root :=
    (backups_dir ++
       [("Origin_v" ++ py_str (float_repr w) version ++ "_" ++ timestamp)%string])%list in
  ensure_dir backup_root ;;-
  try_except
    (backup_dirs backup_root dirs_to_backup ;;-
     t <~ now_iso ;;
     prev_version <~ _get_current_version ;;
     m <~ get_self ;;
     save_json (backup_root ++ ["backup_metadata.json"])%list
       (JObj [ ("timestamp", JStr t);
               ("prev_version", prev_version);
               ("instance_id", opt_str (instance_id m)) ]) ;;-
     ret backup_root)
    (fun e => raise (MSPBackupError e)).

(** The check of one master file in [_verify_origin_integrity]; the
    verifier raises a consolidation error of its own. *)
Definition verify_master (f : path) (name : string)
  (required : option (string * message)) : M unit :=
  present <~ path_exists f ;;
  if negb present then ret tt else
  data <~ load_json f ;;
  if negb (truthy data)
  then raise (MSPVerificationError
                [L "Verification failed: File "; L name; L " is empty or invalid."])
  else
    match required with
    | Some (key, missing) =>
        has <~ lift (str_in key data) ;;
        if negb has then raise (MSPVerificationError missing) else ret tt
    | None => ret tt
    end.

Definition _verify_origin_integrity : M unit :=
  verify_master (episodic_file []) "Episodic_memory.json"
    (Some ("episodes",
           [L "Verification failed: Episodic memory missing 'episodes' key."])) ;;-
  verify_master (semantic_file []) "Semantic_memory.json"
    (Some ("entries",
           [L "Verification failed: Semantic memory missing 'entries' key."])) ;;-
  verify_master (sensory_file []) "Sensory_memory.json" None.

Definition _merge_episodic (buffer_data : json) : M unit :=
  let master_path := episodic_file [] in
  master_data <~ load_json master_path ;;
  has <~ lift (str_in "episodes" master_data) ;;
  master_data <~
    (if negb has then
       t <~ now_iso ;;
       ret (JObj [ ("system", JStr "EVA");
                   ("user_id", JStr "User01");
                   ("timestamp", JStr t);
                   ("episodes", JList []) ])
     else ret master_data) ;;
  new_episodes <~ lift (py_get buffer_data "episodes" (JList [])) ;;
  master_data <~ lift (extend_at master_data "episodes" new_episodes) ;;
  t <~ now_iso ;;
  d <~ lift (py_items master_data) ;;
  save_json master_path (JObj (dict_set "timestamp" (JStr t) d)).

(** A dictionary keyed by objects, in insertion order. *)
Definition concept_map := list (json * json).

Fixpoint cmap_get (k : json) (m : concept_map) : option json :=
  match m with
  | [] => None
  | (k', v) :: rest => if py_eq k' k then Some v else cmap_get k rest
  end.

Fixpoint cmap_set (k v : json) (m : concept_map) : concept_map :=
  match m with
  | [] => [(k, v)]
  | (k', v') :: rest =>
      if py_eq k' k then (k', v) :: rest else (k', v') :: cmap_set k v rest
  end.

(** [f"{v:.2f}"]: only whether the value can be formatted matters here. *)
Definition format_2f (v : json) : result unit :=
  match v with
  | JInt z => _ <- int_to_float z ;; Ok tt
  | JBool _ | JFloat _ => Ok tt
  | JStr _ => Raise ValueError
  | _ => Raise TypeError
  end.

(** The filter of [_merge_semantic], for one buffered entry.  With the
    validator, a skipped entry is reported with its confidence formatted. *)
Definition passes_filter (m : MSP) (entry : json) : result bool :=
  match semantic_validator m with
  | Some _ =>
      keep <- SemanticValidator.validate_for_consolidation entry ;;
      if keep then Ok true else
      c <- py_get entry "confidence" (JInt 0) ;;
      _ <- format_2f c ;;
      Ok false
  | None =>
      c <- py_get entry "confidence" (JInt 0) ;;
      py_gt c (JFloat f0_7)
  end.

(** The buffered entries that may enter. *)
Fixpoint admitted (m : MSP) (entries : list json) : result (list json) :=
  match entries with
  | [] => Ok []
  | entry :: rest =>
      keep <- passes_filter m entry ;;
      more <- admitted m rest ;;
      Ok (if keep then entry :: more else more)
  end.

(** The first loop of the deduplication: the entries of the master. *)
Fixpoint index_master (entries : list json) (cm : concept_map)
  : result concept_map :=
  match entries with
  | [] => Ok cm
  | entry :: rest =>
      concept <- py_get entry "concept" JNull ;;
      if truthy concept then
        if negb (hashable concept) then Raise TypeError
        else index_master rest (cmap_set concept entry cm)
      else index_master rest cm
  end.

(** The second loop: an admitted entry replaces the entry of its concept
    when its confidence is strictly higher. *)
Fixpoint merge_new (new_entries : list json) (cm : concept_map)
  : result concept_map :=
  match new_entries with
  | [] => Ok cm
  | entry :: rest =>
      concept <- py_get entry "concept" JNull ;;
      if truthy concept then
        if negb (hashable concept) then Raise TypeError else
        match cmap_get concept cm with
        | Some existing =>
            if truthy existing then
              c <- py_get entry "confidence" (JInt 0) ;;
              c' <- py_get existing "confidence" (JInt 0) ;;
              higher <- py_gt c c' ;;
              merge_new rest (if higher then cmap_set concept entry cm else cm)
            else merge_new rest (cmap_set concept entry cm)
        | None => merge_new rest (cmap_set concept entry cm)
        end
      else merge_new rest cm
  end.

Definition _merge_semantic (buffer_data : json) : M unit :=
  let master_path := semantic_file [] in
  master_data <~ load_json master_path ;;
  has <~ lift (str_in "entries" master_data) ;;
  let master_data := if negb has then JObj [("entries", JList [])] else master_data in
  m <~ get_self ;;
  buffered <~ lift (py_get buffer_data "entries" (JList [])) ;;
  buffered <~ lift (py_iter buffered) ;;
  new_entries <~ lift (admitted m buffered) ;;
  old <~ lift (py_get master_data "entries" (JList [])) ;;
  old <~ lift (py_iter old) ;;
  cm <~ lift (index_master old []) ;;
  cm <~ lift (merge_new new_entries cm) ;;
  d <~ lift (py_items master_data) ;;
  save_json master_path (JObj (dict_set "entries" (JList (map snd cm)) d)).

(** The filter of [_merge_sensory]: an entry whose validation raises is
    skipped. *)
Definition sensory_admitted (m : MSP) (entries : list json) : list json :=
  filter
    (fun entry =>
       match sensory_validator m with
       | Some _ =>
           match SensoryValidator.validate entry with
           | Ok res => valid res
           | Raise _ => false
           end
       | None => true
       end)
    entries.

Definition _merge_sensory (buffer_data : json) : M unit :=
  let master_path := sensory_file [] in
  master_data <~ load_json master_path ;;
  has <~ lift (str_in "entries" master_data) ;;
  let master_data := if negb has then JObj [("entries", JList [])] else master_data in
  m <~ get_self ;;
  buffered <~ lift (py_get buffer_data "entries" (JList [])) ;;
  buffered <~ lift (py_iter buffered) ;;
  let new_entries := sensory_admitted m buffered in
  master_data <~ lift (extend_at master_data "entries" (JList new_entries)) ;;
  save_json master_path master_data.

Fixpoint any_exists (ps : list path) : M bool :=
  match ps with
  | [] => ret false
  | p :: rest =>
      present <~ path_exists p ;;
      if present then ret true else any_exists rest
  end.

Definition consolidate_to_origin : M json :=
  m <~ get_self ;;
  match instance_id m with
  | None => raise (RuntimeError [L "No active instance"])
  | Some _ =>
      try_except
        (_create_origin_backup ;;-
         instance_path <~ get_instance_path ;;
         let episodic_buffer_path := episodic_file instance_path in
         let semantic_buffer_path := semantic_file instance_path in
         let sensory_buffer_path := sensory_file instance_path in
         some <~ any_exists [episodic_buffer_path; semantic_buffer_path;
                             sensory_buffer_path] ;;
         if negb some then _get_current_version else
         episodic_buffer <~ load_json episodic_buffer_path ;;
         semantic_buffer <~ load_json semantic_buffer_path ;;
         sensory_buffer <~ load_json sensory_buffer_path ;;
         _merge_episodic episodic_buffer ;;-
         _merge_semantic semantic_buffer ;;-
         _merge_sensory sensory_buffer ;;-
         _verify_origin_integrity ;;-
         _increment_version ;;-
         new_version <~ _get_current_version ;;
         delete_buffer ;;-
         ret new_version)
        (fun e => raise (MSPConsolidationError e))
  end.

(** [MSP.__init__]: the three validators and the confidence updater are
    set together, or all four are [None] when the construction of one of
    them raised (a schema file that does not parse, an audit log that cannot
    be opened); [validators_built] tells which. *)
Definition MSP_init (validation_mode : string) (validators_built : bool) : MSP :=
  let v :=
    if validators_built
    then Some {| strict_mode := String.eqb validation_mode "strict" |}
    else None in
  {| instance_id := None; session_id := None; session_episode_count := 0;
     validation_mode := validation_mode;
     episodic_validator := v; semantic_validator := v; sensory_validator := v;
     confidence_updater :=
       if validators_built then Some ConfidenceUpdater_init else None |}.

(** The entries that [_merge_semantic] stores, from the entries of the
    master and of the buffer. *)
Definition merged_entries (m : MSP) (old buffered : list json)
  : result (list json) :=
  new_entries <- admitted m buffered ;;
  cm <- index_master old [] ;;
  cm <- merge_new new_entries cm ;;
  Ok (map snd cm).

(** [entry.get("concept")] and [entry.get("confidence", 0)] *)
Definition concept_of (entry : json) : result json := py_get entry "concept" JNull.
Definition confidence_of (entry : json) : result json :=
  py_get entry "confidence" (JInt 0).

(** The entries of a semantic document. *)
Definition entries_of (data : json) : result (list json) :=
  l <- py_get data "entries" (JList []) ;; py_iter l.

(** The semantic master as [_merge_semantic] reads it. *)
Definition master_semantic (f : FS) : result json :=
  master_data <- read_json f (semantic_file []) ;;
  has <- str_in "entries" master_data ;;
  Ok (if negb has then JObj [("entries", JList [])] else master_data).

(** The version as [_get_current_version] reads it. *)
Definition current_version (f : FS) : result json :=
  match f version_file with
  | Some _ =>
      data <- read_json f version_file ;;
      py_get data "version" (JInt 1)
  | None => Ok (JInt 1)
  end.

(* ===================================================================== *)
(** ** Sample data *)
(* ===================================================================== *)

Module Sample.

(** An empty tree, a clock that counts, no faults. *)
Definition world0 : World :=
  {| fs := fun _ => None;
     tick := 0;
     now_iso_at := fun n => "2026-01-01T00:00:" ++ pad_Z 2 (Z.of_nat n) ++ "Z";
     strftime_at := fun _ => "20260101_000000";
     uuid4_hex_at := fun _ => "0123456789abcdef0123456789abcdef";
     float_repr := fun _ => "0.0";
     faulty := fun _ => false;
     partial_copy := fun _ _ _ => false |}.

Definition with_instance (m : MSP) (i : string) : MSP :=
  {| instance_id := Some i; session_id := session_id m;
     session_episode_count := session_episode_count m;
     validation_mode := validation_mode m;
     episodic_validator := episodic_validator m;
     semantic_validator := semantic_validator m;
     sensory_validator := sensory_validator m;
     confidence_updater := confidence_updater m |}.

(** A strict MSP with the instance [I1], before any session. *)
Definition state0 : State :=
  {| self := with_instance (MSP_init "strict" true) "I1"; world := world0 |}.

(** The same when the validators could not be built. *)
Definition state0_bare : State :=
  {| self := with_instance (MSP_init "strict" false) "I1"; world := world0 |}.

Definition in_session (s : State) : State := snd (start_session (Some "S01") s).

Definition f lit_n lit_d : json := JFloat (F.lit lit_n lit_d).

(** The episode of [test_validation_comprehensive.py]. *)
Definition episode : dict :=
  [ ("episode_header", JObj [("episode_type", JStr "interaction")]);
    ("situation_context",
     JObj [ ("context_id", JStr "ctx_001");
            ("interaction_mode", JStr "discussion");
            ("stakes_level", JStr "medium");
            ("time_pressure", JStr "low") ]);
    ("turns",
     JList [ JObj [ ("turn_id", JStr "t1"); ("speaker", JStr "user");
                    ("raw_text", JStr "I'm allergic to seafood") ] ]);
    ("emotive_snapshot",
     JObj [ ("indexed_state",
             JObj [ ("eva_matrix",
                     JObj [ ("stress_load", f 3 10); ("social_warmth", f 7 10);
                            ("drive_level", f 5 10);
                            ("cognitive_clarity", f 8 10) ]);
                    ("qualia", JObj [("intensity", f 5 10)]);
                    ("reflex", JObj [("threat_level", f 2 10)]) ]);
            ("crosslinks", JObj []) ]) ].

(** The same episode without [indexed_state]. *)
Definition episode_without_state : dict :=
  dict_set "emotive_snapshot" (JObj [("crosslinks", JObj [])]) episode.

(** A complete semantic entry with the given concept and confidence. *)
Definition semantic_entry (concept : string) (status : string) (c : F.float)
  : json :=
  JObj [ ("concept", JStr concept);
         ("definition", JStr "a fact");
         ("epistemic_status", JStr status);
         ("confidence", JFloat c);
         ("resolution_state", JStr "unresolved");
         ("derived_from", JObj [("episode_id", JStr "ep_S01_001_012345")]) ].

Definition f0_69 : F.float := Eval vm_compute in F.lit 69 100.
Definition f0_71 : F.float := Eval vm_compute in F.lit 71 100.
Definition f0_72 : F.float := Eval vm_compute in F.lit 72 100.
Definition f0_90 : F.float := Eval vm_compute in F.lit 90 100.
Definition f0_50 : F.float := Eval vm_compute in F.lit 50 100.

(** [n] writes of the same episode, one after the other. *)
Fixpoint writes (n : nat) (ep : dict) (ri_level : string) (s : State)
  : list (result json) * State :=
  match n with
  | O => ([], s)
  | S k =>
      let (r, s1) := write_episode ep ri_level s in
      let (rs, s2) := writes k ep ri_level s1 in
      (match r with Ok (i, _) => Ok i | Raise e => Raise e end :: rs, s2)
  end.

(** A semantic master with one entry, and a state whose tree holds it. *)
Definition with_file (s : State) (p : path) (j : json) : State :=
  {| self := self s;
     world := with_fs (world s)
                (fun q => if path_eqb q p then Some (File (Document j))
                          else fs (world s) q) |}.

(** A tree with the four directories of Origin, and a state in which the
    environment interrupts the copy of the first of them. *)
Definition with_dir (s : State) (p : path) : State :=
  {| self := self s;
     world := with_fs (world s)
                (fun q => if path_eqb q p then Some Dir else fs (world s) q) |}.

Definition with_faults (s : State) (bad : fs_op -> bool) : State :=
  {| self := self s;
     world :=
       {| fs := fs (world s); tick := tick (world s);
          now_iso_at := now_iso_at (world s);
          strftime_at := strftime_at (world s);
          uuid4_hex_at := uuid4_hex_at (world s);
          float_repr := float_repr (world s);
          faulty := bad; partial_copy := partial_copy (world s) |} |}.

(** An Origin at version 1 with an episodic master, and the instance [I1]
    with one buffered episode. *)
Definition origin_state : State :=
  let s := with_dir state0 ["01_Episodic_memory"] in
  let s := with_file s (episodic_file []) (JObj [("episodes", JList [])]) in
  let s := with_file s version_file (JObj [("version", JInt 1)]) in
  with_file s (episodic_file ["Buffer"; "instance_I1"])
    (JObj [("episodes", JList [JObj episode])]).

(** The same Origin, the instance without any buffer file. *)
Definition origin_state_no_buffer : State :=
  let s := with_dir state0 ["01_Episodic_memory"] in
  let s := with_file s (episodic_file []) (JObj [("episodes", JList [])]) in
  with_file s version_file (JObj [("version", JInt 1)]).

(** The environment fails every copy of a directory. *)
Definition copy_fails (op : fs_op) : bool :=
  match op with CopyTree _ _ => true | _ => false end.

Definition failing_backup_state : State := with_faults origin_state copy_fails.

End Sample.

(* ===================================================================== *)
(** ** Vocabulary of the properties *)
(* ===================================================================== *)

(** A history whose counts are integers, as [update_entry] records them. *)
Definition int_history (counts : list (UpdateSignal * Z)) : history :=
  map (fun p => (fst p, JInt (snd p))) counts.

Fixpoint count_of (s : UpdateSignal) (counts : list (UpdateSignal * Z)) : Z :=
  match counts with
  | [] => 0
  | (s', n) :: rest => if signal_eqb s s' then n else count_of s rest
  end.

(** [max(c, 0.80)] *)
Definition floor_080 (c : F.float) : F.float :=
  if F.ltb c f0_80 then f0_80 else c.

(** The batch holds a [USER_AFFIRMATION] that was not recorded before. *)
Definition pending_affirmation (signals : list UpdateSignal)
  (counts : list (UpdateSignal * Z)) : bool :=
  existsb (signal_eqb USER_AFFIRMATION) signals
  && (count_of USER_AFFIRMATION counts <=? 0)%Z.

(** Two doubles are the same number: equal, or both a zero. *)
Definition same_number (x y : F.float) : Prop :=
  x = y \/ (exists s s', x = S754_zero s /\ y = S754_zero s').

Definition in_unit_interval (x : F.float) : Prop :=
  F.leb F.zero x = true /\ F.leb x F.one = true.


(** The paths that a backup may not touch: everything below [base_path]
    but the tree of [Backups]. *)
Definition under_backups (p : path) : Prop := is_prefix backups_dir p = true.

Definition outside_backups (p : path) : Prop :=
  p <> [] /\ is_prefix backups_dir p = false.

(** The object and the tree outside [Backups] are as they were. *)
Definition frame (s s' : State) : Prop :=
  self s' = self s /\
  forall p, outside_backups p -> fs (world s') p = fs (world s) p.


(** A directory that exists stays a directory. *)
Definition keeps_dir (root : path) (s s' : State) : Prop :=
  fs (world s) root = Some Dir -> fs (world s') root = Some Dir.


(** The three buffer files of an instance. *)
Definition buffer_files (i : string) : list path :=
  let instance_path := (buffer_dir ++ [("instance_" ++ i)%string])%list in
  [ episodic_file instance_path; semantic_file instance_path;
    sensory_file instance_path ].

Definition no_buffer_files (w : World) (i : string) : bool :=
  negb (existsb (exists_ w) (buffer_files i)).


(** An exception that is not the capacity error of any session. *)
Definition not_capacity (e : exn) : Prop := forall sid, e <> capacity_error sid.

(** A computation that leaves the object alone and never raises the
    capacity error. *)
Definition safe {A} (m : M A) : Prop :=
  forall s,
    self (snd (m s)) = self s /\
    forall e, fst (m s) = Raise e -> not_capacity e.

(** A computation that, when it returns, has counted one more episode, and
    never raises the capacity error. *)
Definition counts_one {A} (m : M A) : Prop :=
  forall s,
    match fst (m s) with
    | Ok _ =>
        self (snd (m s))
        = set_session (self s) (session_id (self s))
            (session_episode_count (self s) + 1)
    | Raise e => not_capacity e
    end.


(** The entries of the semantic buffer of the active instance, as
    [_merge_semantic] will read them, and the one appended last. *)
Definition buffered_semantic (s : State) : list json :=
  match instance_id (self s) with
  | Some i =>
      match
        (data <- read_json (fs (world s))
                   (semantic_file (buffer_dir ++ [("instance_" ++ i)%string])%list) ;;
         entries_of data)
      with
      | Ok entries => entries
      | Raise _ => []
      end
  | None => []
  end.

Definition last_buffered (s : State) : option json :=
  last (map Some (buffered_semantic s)) None.

(** The state of resolution that an entry records: both keys, or none. *)
Definition resolution_fields (entry : dict) : option json * option json :=
  (lookup "resolution_state" entry, lookup "clarification_attempts" entry).



(** Whether an entry has the concept [k]. *)
Definition has_concept (k : string) (entry : json) : bool :=
  match concept_of entry with
  | Ok c => py_eq c (JStr k)
  | Raise _ => false
  end.

(** Whether the confidence of [entry] is strictly above that of
    [existing]. *)
Definition higher (entry existing : json) : bool :=
  match
    (c <- confidence_of entry ;; c' <- confidence_of existing ;; py_gt c c')
  with
  | Ok b => b
  | Raise _ => false
  end.

(** The deduplication, concept by concept: among the entries of the master
    the last one of the concept stands; an admitted entry of the concept
    takes its place when its confidence is higher, or when there is none. *)
Definition latest (k : string) (best : option json) (entry : json)
  : option json :=
  if has_concept k entry then Some entry else best.

Definition challenge (k : string) (best : option json) (entry : json)
  : option json :=
  if has_concept k entry then
    match best with
    | Some existing => if higher entry existing then Some entry else best
    | None => Some entry
    end
  else best.

Definition survivor (k : string) (old adm : list json) : option json :=
  fold_left (challenge k) adm (fold_left (latest k) old None).

Definition opt_list {A} (o : option A) : list A :=
  match o with Some x => [x] | None => [] end.

(** The values that a [concept_map] holds under the key [k]. *)
Definition slot (k : string) (cm : concept_map) : list json :=
  map snd (filter (fun kv => py_eq (fst kv) (JStr k)) cm).

(** Every value of the map has the concept [k] exactly when its key is
    [k]. *)
Definition keyed (k : string) (cm : concept_map) : Prop :=
  Forall (fun kv => has_concept k (snd kv) = py_eq (fst kv) (JStr k)) cm.

Module SampleMerge.

Import Sample.

Definition coffee : json := semantic_entry "coffee_preference" "provisional" f0_69.
Definition tea : json := semantic_entry "tea_preference" "provisional" f0_71.
Definition allergy_72 : json := semantic_entry "seafood_allergy" "provisional" f0_72.
Definition allergy_90 : json := semantic_entry "seafood_allergy" "confirmed" f0_90.

Definition entries (l : list json) : json := JObj [("entries", JList l)].

(** A semantic master that holds the allergy at 0.72, and a buffer that
    holds three entries, one of them the allergy at 0.90. *)
Definition master : json := entries [allergy_72].
Definition buffer : json := entries [coffee; tea; allergy_90].

Definition merge_state : State := with_file state0 (semantic_file []) master.

(** The entries of the semantic master in the tree of a state. *)
Definition stored (s : State) : result (list json) :=
  data <- master_semantic (fs (world s)) ;; entries_of data.

(** An Origin at version 1 and the instance [I1] whose semantic buffer is
    [b]. *)
Definition origin_with_buffer (b : json) : State :=
  let s := with_dir state0 ["01_Episodic_memory"] in
  let s := with_dir s ["02_Semantic_memory"] in
  let s := with_file s (episodic_file []) (JObj [("episodes", JList [])]) in
  let s := with_file s (semantic_file []) (entries []) in
  let s := with_file s version_file (JObj [("version", JInt 1)]) in
  with_file s (semantic_file ["Buffer"; "instance_I1"]) b.

End SampleMerge.


(** Every state that a computation reaches is related to the one it
    started from. *)
Definition preserves (R : State -> State -> Prop) {A} (m : M A) : Prop :=
  forall s, R s (snd (m s)).

(** How often a signal occurs in a batch. *)
Definition occurrences (s : UpdateSignal) (signals : list UpdateSignal) : Z :=
  Z.of_nat (List.length (filter (signal_eqb s) signals)).

(** A recorded history whose counts are all integers. *)
Definition int_counts (h : dict) : Prop :=
  Forall (fun kv => exists n : Z, snd kv = JInt n) h.

(** [k] clarification attempts, one after the other. *)
Fixpoint clarify (k : nat) (entry : dict) : result dict :=
  match k with
  | O => Ok entry
  | S k' => e <- increment_clarification_attempt entry ;; clarify k' e
  end.

Module SampleEntry.

(** An entry as [write_semantic] stores it, after three recorded
    occurrences. *)
Definition seen_thrice : dict :=
  [ ("concept", JStr "user_likes_tea");
    ("definition", JStr "The user likes tea");
    ("epistemic_status", JStr "hypothesis");
    ("confidence", JFloat f0_3);
    ("resolution_state", JStr "unresolved");
    ("signal_history", JObj [("repeated_occurrence", JInt 3)]);
    ("clarification_attempts", JInt 0);
    ("stakes_level", JStr "medium") ].

(** A turn that carries an emotion label, and the episode of the test
    suite with that turn alone. *)
Definition labelled_turn : dict :=
  [ ("turn_id", JStr "t1"); ("speaker", JStr "user");
    ("raw_text", JStr "I am fine"); ("emotion_label", JStr "angry") ].

Definition labelled_episode : dict :=
  [ ("episode_header", JObj [("episode_type", JStr "interaction")]);
    ("situation_context", JObj [("interaction_mode", JStr "casual")]);
    ("turns", JList [JObj labelled_turn]);
    ("emotive_snapshot", JObj [("crosslinks", JObj [])]) ].

End SampleEntry.

Module SampleSensory.

(** A sensory entry whose raw content reads a feeling into the user. *)
Definition payload : dict := [("raw_content", JStr "The user sounds Angry")].

Definition entry : dict :=
  [ ("sensory_id", JStr "sen_S01_0001");
    ("session_id", JStr "S01");
    ("episode_ref", JStr "ep_S01_001_012345");
    ("timestamp", JStr "2026-01-01T00:00:00Z");
    ("data_type", JStr "text");
    ("data_source",
     JObj [("source_name", JStr "chat"); ("capture_channel", JStr "user_input")]);
    ("sensory_payload", JObj payload) ].

End SampleSensory.

Module SampleState.

(** An episode at level L1 whose state is complete: the integers 0 and 1
    are numbers of the unit interval. *)
Definition indexed_state : dict :=
  [ ("eva_matrix",
     JObj [ ("stress_load", JInt 0); ("social_warmth", JInt 1);
            ("drive_level", JInt 1); ("cognitive_clarity", JInt 0) ]);
    ("qualia", JObj [("intensity", JInt 1)]);
    ("reflex", JObj [("threat_level", JInt 0)]) ].

Definition snapshot : dict := [("indexed_state", JObj indexed_state)].

Definition episode : dict := [("emotive_snapshot", JObj snapshot)].

End SampleState.

(** A result that carries an error exactly when it is invalid. *)
Definition sound (r : ValidationResult) : Prop :=
  valid r = match errors r with [] => true | _ => false end.

(** [r'] is [r] after more checks: the errors of [r] and those added since;
    it is valid when [r] was and none was added. *)
Definition grows (r r' : ValidationResult) : Prop :=
  exists more,
    errors r' = (errors r ++ more)%list /\
    valid r' = valid r && match more with [] => true | _ => false end.

(** What a computation returns, when it returns. *)
Definition yields {A} (P : A -> Prop) (m : result A) : Prop :=
  forall a, m = Ok a -> P a.

(** The value under [key] is a number of the unit interval. *)
Definition unit_value (d : dict) (key : string) : Prop :=
  exists v n,
    lookup key d = Some v /\ to_num v = Some n /\
    num_leb (NFloat F.zero) n = true /\ num_leb n (NFloat F.one) = true.

(** The dictionary has no key but those of [keys]. *)
Definition only_keys (d : dict) (keys : list string) : Prop :=
  forall k, In k (dict_keys d) -> In k keys.

(** [get_forbidden_fields] and [is_field_forbidden]
    (validation/rules/forbidden_fields.py); the set is given by its
    elements. *)
Definition get_forbidden_fields (memory_type : string) : result (list string) :=
  let memory_type_lower := lower memory_type in
  if String.eqb memory_type_lower "episodic" then Ok EPISODIC_FORBIDDEN_FIELDS
  else if String.eqb memory_type_lower "semantic" then Ok SEMANTIC_FORBIDDEN_FIELDS
  else if String.eqb memory_type_lower "sensory" then Ok SENSORY_FORBIDDEN_FIELDS
  else Raise ValueError.

Definition is_field_forbidden (field_name memory_type : string) : result bool :=
  forbidden_set <- get_forbidden_fields memory_type ;;
  Ok (existsb (String.eqb field_name) forbidden_set).

(** The dictionaries that the scan for forbidden fields visits: the
    document, the dictionaries that are values of a visited dictionary, and
    the dictionaries that are elements of a list that is such a value. *)
Inductive visited : json -> dict -> Prop :=
  | visited_here (d : dict) : visited (JObj d) d
  | visited_value (d : dict) (key : string) (value : json) (d' : dict) :
      In (key, value) d -> visited value d' -> visited (JObj d) d'
  | visited_element (d : dict) (key : string) (l : list json) (item : json)
      (d' : dict) :
      In (key, JList l) d -> In item l -> visited item d' -> visited (JObj d) d'.

(** [SemanticValidator.validate_strict] *)
Definition semantic_validate_strict (entry : dict)
  (existing_entries : option json) : result unit :=
  res <- SemanticValidator.validate entry existing_entries ;;
  if negb (valid res)
  then Raise (MSPValidationError "Semantic validation failed" (errors res))
  else Ok tt.

(* ===================================================================== *)
(** ** MSP.py: the end of a session and the snapshot of an instance *)
(* ===================================================================== *)

Definition session_dir : path := ["04_Session_Memory"].

Definition end_session : M dict :=
  m <~ get_self ;;
  match session_id m with
  | None => raise (RuntimeError [L "No active session"])
  | Some sid =>
      instance_path <~ get_instance_path ;;
      buffer_data <~ load_json (episodic_file instance_path) ;;
      semantic_data <~ load_json (semantic_file instance_path) ;;
      created_at <~ now_iso ;;
      episodes <~ lift (py_get buffer_data "episodes" (JList [])) ;;
      semantic_updates <~ lift (py_get semantic_data "entries" (JList [])) ;;
      let session_memory :=
        [ ("session_id", JStr sid);
          ("instance_id", opt_str (instance_id m));
          ("created_at", JStr created_at);
          ("episode_count", JInt (session_episode_count m));
          ("episodes", episodes);
          ("semantic_updates", semantic_updates) ] in
      let session_file :=
        (session_dir ++ [("Session_memory_" ++ sid ++ ".json")%string])%list in
      save_json session_file (JObj session_memory) ;;-
      self' <~ get_self ;;
      put_self (set_session self' None 0) ;;-
      ret [ ("session_id", JStr sid);
            ("episode_count", JInt (session_episode_count m));
            ("status", JStr "ended") ]
  end.

Definition consolidate_to_instance : M string :=
  m <~ get_self ;;
  match instance_id m with
  | None => raise (RuntimeError [L "No active instance"])
  | Some i =>
      instance_path <~ get_instance_path ;;
      let metadata_path := (instance_path ++ ["metadata.json"])%list in
      metadata <~ load_json metadata_path ;;
      match metadata with
      | JObj d =>
          let d := dict_set "status" (JStr "consolidated_instance") d in
          t <~ now_iso ;;
          let d := dict_set "consolidated_at" (JStr t) d in
          save_json metadata_path (JObj d) ;;-
          ret i
      | _ => raise TypeError
      end
  end.

(* ===================================================================== *)
(** ** Notions of the properties of the tree *)
(* ===================================================================== *)

(** A name that is one entry of a directory.  The paths
    [buffer_dir / f"instance_{id}"] and
    [session_dir / f"Session_memory_{id}.json"] are entries of their
    directories for such identifiers only. *)
Definition plain_name (name : string) : bool := negb (substringb "/" name).

Definition plain_instance (s : State) : Prop :=
  forall i, instance_id (self s) = Some i -> plain_name i = true.

Definition plain_session (s : State) : Prop :=
  forall sid, session_id (self s) = Some sid -> plain_name sid = true.

(** The backup directory [f"Origin_v{version}_{timestamp}"] is an entry of
    [Backups] when the text of the current version is such a name. *)
Definition plain_version (s : State) : Prop :=
  forall v, current_version (fs (world s)) = Ok v ->
            plain_name (py_str (float_repr (world s)) v) = true.

(** The audit log of the validators, [base_path / "msp_validation_audit.log"]
    ([MSP.__init__]).  Every [validate] and [validate_for_consolidation]
    appends lines to it, and [save_json] writes a file through a temporary
    one beside it ([path.with_suffix('.tmp')]) that it renames.  The tree
    of the model holds neither the lines of the log nor the temporary
    files: in what follows, the part of the tree that an operation
    leaves as it was never includes them. *)
Definition audit_log : string := "msp_validation_audit.log".

(** The part of the tree that an operation may change: [base_path]
    itself and what is in one of the directories [tops] of it. *)
Definition inside (tops : list string) (p : path) : bool :=
  match p with
  | [] => true
  | a :: _ => existsb (String.eqb a) tops
  end.

(** The tree outside the directories [tops] is as it was. *)
Definition kept_outside (tops : list string) (s s' : State) : Prop :=
  forall p, inside tops p = false -> fs (world s') p = fs (world s) p.

(** The object is as it was. *)
Definition same_self (s s' : State) : Prop := self s' = self s.

(** Nothing changed. *)
Definition unchanged (s s' : State) : Prop := s' = s.

(** The tree is as it was, but for the [targets] and the directories
    above them. *)
Definition kept_but (targets : list path) (s s' : State) : Prop :=
  forall p, existsb (is_prefix p) targets = false ->
            fs (world s') p = fs (world s) p.

(** The entry at [p] is as it was. *)
Definition same_at (p : path) (s s' : State) : Prop :=
  fs (world s') p = fs (world s) p.

(** The list under [key] in a document, none when it has no such list. *)
Definition items_at (key : string) (data : json) : list json :=
  match data with
  | JObj d => match lookup key d with Some (JList l) => l | _ => [] end
  | _ => []
  end.

(** [proposal_data] of [write_semantic]: the concept and the definition,
    with the episode and, when there are any, the turns they come from. *)
Definition semantic_proposal (concept definition episode_id : string)
  (turn_ids : option (list string)) : dict :=
  [ ("concept", JStr concept);
    ("definition", JStr definition);
    ("derived_from",
     JObj match turn_ids with
          | Some (t :: ts) =>
              [ ("episode_id", JStr episode_id);
                ("turn_ids", JList (map JStr (t :: ts))) ]
          | _ => [ ("episode_id", JStr episode_id) ]
          end) ].

(** An exception that is not a validation error. *)
Definition not_validation (e : exn) : Prop :=
  match e with MSPValidationError _ _ => False | _ => True end.

(** A computation that never raises a validation error. *)
Definition calm {A} (m : M A) : Prop :=
  forall s e, fst (m s) = Raise e -> not_validation e.

(* ===================================================================== *)
(** * Properties *)
(* ===================================================================== *)

Unset Implicit Arguments.
Open Scope list_scope.

(** ** Order on the doubles *)

Lemma compare_antisym (x y : F.float) :
  F.compare y x = option_map CompOpp (F.compare x y).
Proof.
  destruct x as [sx|sx| |sx mx ex], y as [sy|sy| |sy my ey]; simpl;
    try (destruct sx); try (destruct sy); try reflexivity.
  - pose proof (Pos.compare_cont_antisym mx my Eq) as H; simpl in H.
    rewrite (Z.compare_antisym ex ey).
    destruct (ex ?= ey)%Z; simpl; try reflexivity.
    now rewrite <- H, CompOpp_involutive.
  - pose proof (Pos.compare_cont_antisym mx my Eq) as H; simpl in H.
    rewrite (Z.compare_antisym ex ey).
    destruct (ex ?= ey)%Z; simpl; try reflexivity.
    now rewrite <- H.
Qed.

Lemma ltb_not_leb (x y : F.float) : F.ltb x y = true -> F.leb y x = false.
Proof.
  unfold F.ltb, F.leb, SFltb, SFleb.
  change SFcompare with F.compare.
  rewrite (compare_antisym x y).
  destruct (F.compare x y) as [[| |]|]; simpl; congruence.
Qed.

Lemma leb_or_ltb (x y : F.float) :
  F.compare x y <> None -> F.ltb x y = true \/ F.leb y x = true.
Proof.
  unfold F.ltb, F.leb, SFltb, SFleb.
  change SFcompare with F.compare.
  rewrite (compare_antisym x y).
  destruct (F.compare x y) as [[| |]|]; simpl; intros H; auto; congruence.
Qed.

(** A double that is ordered with another one is a number. *)
Lemma leb_compare_l (x y z : F.float) :
  F.leb x y = true -> z <> S754_nan -> F.compare y z <> None.
Proof.
  unfold F.leb, SFleb; intros H Hz.
  destruct x, y, z; simpl in *; congruence.
Qed.

Lemma get_epistemic_status_float (c : F.float) :
  get_epistemic_status (JFloat c) =
  Ok (if F.leb f0_80 c then CONFIRMED
      else if F.leb f0_45 c then PROVISIONAL else HYPOTHESIS).
Proof.
  unfold get_epistemic_status, py_ge, py_le; simpl.
  change (num_leb (NFloat f0_80) (NFloat c)) with (F.leb f0_80 c).
  change (num_leb (NFloat f0_45) (NFloat c)) with (F.leb f0_45 c).
  destruct (F.leb f0_80 c); [reflexivity|].
  destruct (F.leb f0_45 c); reflexivity.
Qed.

(** Below a positive double is below every positive double of a larger
    exponent. *)
Lemma ltb_leb_exponent (c : F.float) (m1 : positive) (e1 : Z) (m2 : positive)
  (e2 : Z) :
  (e1 < e2)%Z ->
  F.ltb c (S754_finite false m1 e1) = true ->
  F.leb (S754_finite false m2 e2) c = false.
Proof.
  intros He. unfold F.ltb, F.leb, SFltb, SFleb.
  destruct c as [[|]|[|]| |[|] m e]; simpl; try congruence.
  destruct (e ?= e1)%Z eqn:E1; destruct (e2 ?= e)%Z eqn:E2; simpl;
    try congruence;
    try (apply Z.compare_eq in E1); try (apply Z.compare_eq in E2);
    try (rewrite Z.compare_lt_iff in E1); try (rewrite Z.compare_lt_iff in E2);
    try (rewrite Z.compare_gt_iff in E1); try (rewrite Z.compare_gt_iff in E2);
    try lia.
Qed.

(** Below the lower breakpoint is below the upper one. *)
Lemma below_045_below_080 (c : F.float) :
  F.ltb c f0_45 = true -> F.leb f0_80 c = false.
Proof. unfold f0_45, f0_80. apply ltb_leb_exponent. lia. Qed.

(** ** C5 *)

(** C5. For every confidence [c] in [0,1] the derived status is a step
    function of [c]: hypothesis below 0.45, provisional from 0.45 up to but
    not including 0.80, confirmed from 0.80 on; one of the three cases
    applies, and the function returns for every [c]. *)
Theorem C5_epistemic_status_step (c : F.float) :
  F.leb F.zero c = true -> F.leb c F.one = true ->
  (F.ltb c f0_45 = true -> get_epistemic_status (JFloat c) = Ok HYPOTHESIS) /\
  (F.leb f0_45 c = true -> F.ltb c f0_80 = true ->
   get_epistemic_status (JFloat c) = Ok PROVISIONAL) /\
  (F.leb f0_80 c = true -> get_epistemic_status (JFloat c) = Ok CONFIRMED) /\
  (F.ltb c f0_45 = true \/
   (F.leb f0_45 c = true /\ F.ltb c f0_80 = true) \/
   F.leb f0_80 c = true).
Proof.
  intros H0 H1. rewrite get_epistemic_status_float.
  repeat split.
  - intros Hlt. rewrite (below_045_below_080 _ Hlt), (ltb_not_leb _ _ Hlt).
    reflexivity.
  - intros Hge Hlt. rewrite (ltb_not_leb _ _ Hlt), Hge. reflexivity.
  - intros Hge. rewrite Hge. reflexivity.
  - destruct (leb_or_ltb c f0_45) as [Hlt|Hge].
    + eapply leb_compare_l; [exact H0 | discriminate].
    + now left.
    + right. destruct (leb_or_ltb c f0_80) as [Hlt'|Hge'].
      * eapply leb_compare_l; [exact H0 | discriminate].
      * now left.
      * now right.
Qed.

Lemma C5_witness :
  get_epistemic_status (JFloat f0_45) = Ok PROVISIONAL /\
  get_epistemic_status (JFloat f0_80) = Ok CONFIRMED /\
  get_epistemic_status (JFloat f0_3) = Ok HYPOTHESIS.
Proof.
  split; [|split].
  - apply (C5_epistemic_status_step f0_45); reflexivity.
  - apply (C5_epistemic_status_step f0_80); reflexivity.
  - apply (C5_epistemic_status_step f0_3); reflexivity.
Defined.

(** ** Confidence in the suppressed state *)

Lemma py_ge_int (n k : Z) : py_ge (JInt n) (JInt k) = Ok (k <=? n)%Z.
Proof.
  unfold py_ge, py_le, num_leb; simpl.
  destruct (Z.leb_spec k n) as [H|H].
  - destruct (k ?= n)%Z eqn:E; try reflexivity.
    rewrite Z.compare_gt_iff in E. lia.
  - destruct (k ?= n)%Z eqn:E; try reflexivity.
    + apply Z.compare_eq in E. lia.
    + rewrite Z.compare_lt_iff in E. lia.
Qed.

Lemma py_gt_int (n k : Z) : py_gt (JInt n) (JInt k) = Ok (k <? n)%Z.
Proof.
  unfold py_gt, py_lt, num_ltb; simpl.
  destruct (Z.ltb_spec k n) as [H|H].
  - destruct (k ?= n)%Z eqn:E; try reflexivity.
    + apply Z.compare_eq in E. lia.
    + rewrite Z.compare_gt_iff in E. lia.
  - destruct (k ?= n)%Z eqn:E; try reflexivity.
    rewrite Z.compare_lt_iff in E. lia.
Qed.

Lemma history_get_int (s : UpdateSignal) (counts : list (UpdateSignal * Z)) :
  history_get s (int_history counts) = JInt (count_of s counts).
Proof.
  induction counts as [|[s' n] rest IH]; simpl; [reflexivity|].
  destruct (signal_eqb s s'); [reflexivity|exact IH].
Qed.

Lemma same_number_refl (x : F.float) : same_number x x.
Proof. now left. Qed.

Lemma same_number_trans (x y z : F.float) :
  same_number x y -> same_number y z -> same_number x z.
Proof.
  intros [H1|(s & s' & H1 & H2)] [H3|(t & t' & H3 & H4)].
  - left. congruence.
  - right. exists t, t'. split; congruence.
  - right. exists s, s'. split; congruence.
  - right. exists s, t'. split; congruence.
Qed.

(** The numbers of the unit interval: a zero, or a positive double. *)
Lemma in_unit_interval_cases (x : F.float) :
  in_unit_interval x ->
  (exists s, x = S754_zero s) \/ (exists m e, x = S754_finite false m e).
Proof.
  intros [H0 H1].
  destruct x as [s|[|]| |[|] m e].
  - left. eauto.
  - vm_compute in H1. discriminate.
  - vm_compute in H0. discriminate.
  - vm_compute in H0. discriminate.
  - unfold F.leb, SFleb, F.zero in H0. simpl in H0. discriminate.
  - right. eauto.
Qed.

Lemma in_unit_interval_same (x y : F.float) :
  same_number x y -> in_unit_interval x -> in_unit_interval y.
Proof.
  intros [->|(s & s' & -> & ->)] H; [exact H|].
  split; reflexivity.
Qed.

Lemma add_zero_same (x : F.float) (s : bool) :
  in_unit_interval x -> same_number (F.add x (S754_zero s)) x.
Proof.
  intros H. destruct (in_unit_interval_cases x H) as [[t ->]|(m & e & ->)].
  - right. destruct t, s; simpl; eauto.
  - left. reflexivity.
Qed.

Lemma floor_080_same (x y : F.float) :
  same_number x y -> same_number (floor_080 x) (floor_080 y).
Proof.
  intros [->|(s & s' & -> & ->)]; [now left|].
  left. reflexivity.
Qed.

Lemma floor_080_in_unit_interval (x : F.float) :
  in_unit_interval x -> in_unit_interval (floor_080 x).
Proof.
  intros H. unfold floor_080. destruct (F.ltb x f0_80); [|exact H].
  split; reflexivity.
Qed.

Lemma floor_080_idem (x : F.float) : floor_080 (floor_080 x) = floor_080 x.
Proof.
  unfold floor_080. destruct (F.ltb x f0_80) eqn:E.
  - reflexivity.
  - rewrite E. reflexivity.
Qed.

Lemma scaled_delta_suppressed (s : UpdateSignal) :
  exists b,
    scaled_delta (RESOLUTION_MULTIPLIERS SUPPRESSED) (SIGNAL_MODIFIERS s)
    = S754_zero b.
Proof. destruct s; eexists; vm_compute; reflexivity. Qed.

Lemma py_add_float_float (x d : F.float) :
  py_add_float (JFloat x) d = Ok (JFloat (F.add x d)).
Proof. reflexivity. Qed.

Lemma py_max_floor (x : F.float) :
  py_max (JFloat x) (JFloat f0_80) = Ok (JFloat (floor_080 x)).
Proof.
  unfold py_max, py_gt, py_lt, floor_080, bind, as_num, to_num.
  change (num_ltb (NFloat x) (NFloat f0_80)) with (F.ltb x f0_80).
  destruct (F.ltb x f0_80); reflexivity.
Qed.

(** In the suppressed state a signal leaves the confidence as it is, but
    for a [USER_AFFIRMATION] that was not recorded before, which lifts it
    to 0.80. *)
Lemma apply_signal_suppressed (s : UpdateSignal)
  (counts : list (UpdateSignal * Z)) (x : F.float) :
  in_unit_interval x ->
  exists x',
    apply_signal (RESOLUTION_MULTIPLIERS SUPPRESSED) (int_history counts) s
      (JFloat x) = Ok (JFloat x') /\
    same_number x'
      (if signal_eqb USER_AFFIRMATION s
          && (count_of USER_AFFIRMATION counts <=? 0)%Z
       then floor_080 x else x).
Proof.
  intros Hx. unfold apply_signal. cbv zeta.
  rewrite history_get_int.
  destruct (scaled_delta_suppressed s) as [b ->].
  rewrite py_add_float_float.
  pose proof (add_zero_same x b Hx) as Hadd.
  destruct s;
    cbn [SIGNAL_MODIFIERS modifier max_applications single_application
         force_confirmed bind Z.eqb andb signal_eqb signal_value String.eqb
         Ascii.eqb Bool.eqb EPISTEMIC_THRESHOLDS];
    try rewrite py_ge_int; try rewrite py_gt_int; cbn [bind];
    try (eexists; split; [reflexivity|exact Hadd]).
  - destruct (3 <=? count_of REPEATED_OCCURRENCE counts)%Z.
    + eexists; split; [reflexivity|apply same_number_refl].
    + eexists; split; [reflexivity|exact Hadd].
  - destruct (3 <=? count_of CONSISTENT_RECALL counts)%Z.
    + eexists; split; [reflexivity|apply same_number_refl].
    + eexists; split; [reflexivity|exact Hadd].
  - rewrite Z.leb_antisym.
    destruct (0 <? count_of USER_AFFIRMATION counts)%Z; cbn [negb].
    + eexists; split; [reflexivity|apply same_number_refl].
    + rewrite py_max_floor. eexists; split; [reflexivity|].
      apply floor_080_same. exact Hadd.
Qed.

Lemma pending_affirmation_cons (s : UpdateSignal) (signals : list UpdateSignal)
  (counts : list (UpdateSignal * Z)) :
  pending_affirmation (s :: signals) counts =
  (signal_eqb USER_AFFIRMATION s && (count_of USER_AFFIRMATION counts <=? 0)%Z)
  || pending_affirmation signals counts.
Proof.
  unfold pending_affirmation. cbn [existsb].
  destruct (signal_eqb USER_AFFIRMATION s);
    destruct (existsb (signal_eqb USER_AFFIRMATION) signals);
    destruct (count_of USER_AFFIRMATION counts <=? 0)%Z; reflexivity.
Qed.

Lemma suppressed_loop (counts : list (UpdateSignal * Z))
  (signals : list UpdateSignal) :
  forall (i : nat) (x : F.float),
    in_unit_interval x ->
    exists x',
      for_each
        (fun _ signal confidence =>
           apply_signal (RESOLUTION_MULTIPLIERS SUPPRESSED) (int_history counts)
             signal confidence)
        i signals (JFloat x) = Ok (JFloat x') /\
      in_unit_interval x' /\
      same_number x'
        (if pending_affirmation signals counts then floor_080 x else x).
Proof.
  induction signals as [|s rest IH]; intros i x Hx.
  - exists x. cbn. repeat split; try apply Hx. apply same_number_refl.
  - destruct (apply_signal_suppressed s counts x Hx) as (x1 & E1 & S1).
    assert (Hx1 : in_unit_interval x1).
    { eapply in_unit_interval_same.
      - destruct S1 as [S1|(a & b & S1 & S2)]; [left; symmetry; exact S1|].
        right. exists b, a. split; assumption.
      - destruct (signal_eqb USER_AFFIRMATION s
                  && (count_of USER_AFFIRMATION counts <=? 0)%Z);
          [apply floor_080_in_unit_interval|]; exact Hx. }
    destruct (IH (S i) x1 Hx1) as (x' & E' & Hx' & S').
    exists x'. cbn [for_each]. rewrite E1. cbn [bind]. rewrite E'.
    repeat split; try apply Hx'.
    rewrite pending_affirmation_cons.
    eapply same_number_trans; [exact S'|].
    destruct (signal_eqb USER_AFFIRMATION s
              && (count_of USER_AFFIRMATION counts <=? 0)%Z);
      cbn [orb].
    + destruct (pending_affirmation rest counts).
      * rewrite <- (floor_080_idem x). apply floor_080_same. exact S1.
      * exact S1.
    + destruct (pending_affirmation rest counts).
      * apply floor_080_same. exact S1.
      * exact S1.
Qed.

(** A positive double that is at most another one and not below it is
    that double. *)
Lemma leb_not_ltb_eq (m : positive) (e : Z) (m1 : positive) (e1 : Z) :
  F.leb (S754_finite false m e) (S754_finite false m1 e1) = true ->
  F.ltb (S754_finite false m e) (S754_finite false m1 e1) = false ->
  S754_finite false m e = S754_finite false m1 e1.
Proof.
  unfold F.leb, F.ltb, SFleb, SFltb. simpl.
  destruct (e ?= e1)%Z eqn:E; try discriminate.
  apply Z.compare_eq in E. subst e1.
  change (Pos.compare_cont Eq m m1) with (m ?= m1)%positive.
  destruct (m ?= m1)%positive eqn:E'; try discriminate.
  apply Pos.compare_eq in E'. now subst.
Qed.

(** The final clamp keeps a number of the unit interval. *)
Lemma clamp_unit_interval (x : F.float) :
  in_unit_interval x ->
  exists r,
    (m <- py_min (JFloat F.one) (JFloat x) ;; py_max (JFloat F.zero) m)
    = Ok (JFloat r) /\ same_number r x.
Proof.
  intros Hx.
  unfold py_min, py_max, py_gt, py_lt, as_num, to_num. cbn [bind].
  change (num_ltb (NFloat x) (NFloat F.one)) with (F.ltb x F.one).
  destruct (in_unit_interval_cases x Hx) as [[s ->]|(m & e & ->)].
  - exists F.zero. split; [destruct s; vm_compute; reflexivity|].
    right. exists false, s. split; reflexivity.
  - exists (S754_finite false m e).
    destruct (F.ltb (S754_finite false m e) F.one) eqn:E.
    + split; [reflexivity|apply same_number_refl].
    + destruct Hx as [_ H1].
      pose proof (leb_not_ltb_eq m e _ _ H1 E) as Heq.
      rewrite Heq. split; [reflexivity|apply same_number_refl].
Qed.

Lemma same_number_eqb (x y : F.float) :
  same_number x y -> in_unit_interval y -> F.eqb x y = true.
Proof.
  intros S Hy.
  destruct (in_unit_interval_cases y Hy) as [[s ->]|(m & e & ->)].
  - destruct S as [->|(a & b & -> & _)]; reflexivity.
  - destruct S as [->|(a & b & _ & E)]; [|discriminate].
    unfold F.eqb, SFeqb. simpl. rewrite Z.compare_refl.
    change (Pos.compare_cont Eq m m) with (m ?= m)%positive.
    now rewrite Pos.compare_refl.
Qed.

(** ** C2 *)

(** C2, as the code has it.  In the suppressed state every delta is zeroed:
    for a confidence [c] in [0,1] and a batch of signals,
    [calculate_confidence] returns [c] (as a number) unless the batch holds a
    [USER_AFFIRMATION] that was not recorded before; then it returns
    [max(c, 0.80)], the floor of the forced confirmation. *)
Theorem C2_suppressed_confidence (c : F.float) (signals : list UpdateSignal)
  (counts : list (UpdateSignal * Z)) :
  F.leb F.zero c = true -> F.leb c F.one = true ->
  exists r,
    calculate_confidence (JFloat c) signals SUPPRESSED (Some (int_history counts))
    = Ok (JFloat r) /\
    F.eqb r (if pending_affirmation signals counts then floor_080 c else c) = true.
Proof.
  intros H0 H1.
  assert (Hc : in_unit_interval c) by (split; assumption).
  unfold calculate_confidence.
  destruct (suppressed_loop counts signals 0%nat c Hc) as (x & Ex & Hx & Sx).
  rewrite Ex. cbn [bind].
  destruct (clamp_unit_interval x Hx) as (r & Er & Sr).
  exists r. split; [exact Er|].
  apply same_number_eqb.
  - eapply same_number_trans; eassumption.
  - destruct (pending_affirmation signals counts);
      [apply floor_080_in_unit_interval|]; exact Hc.
Qed.

Lemma C2_witness :
  exists r,
    calculate_confidence (JFloat f0_3)
      [REPEATED_OCCURRENCE; CONTRADICTION_BY_USER; USER_AFFIRMATION] SUPPRESSED
      (Some (int_history [(USER_AFFIRMATION, 1%Z)]))
    = Ok (JFloat r) /\
    F.eqb r f0_3 = true.
Proof.
  apply (C2_suppressed_confidence f0_3
           [REPEATED_OCCURRENCE; CONTRADICTION_BY_USER; USER_AFFIRMATION]
           [(USER_AFFIRMATION, 1%Z)]); reflexivity.
Defined.

(** The claim fails for a [USER_AFFIRMATION]: in the suppressed state the
    confidence 0.3 becomes 0.8. *)
Lemma C2_counterexample :
  calculate_confidence (JFloat f0_3) [USER_AFFIRMATION] SUPPRESSED None
  = Ok (JFloat f0_80) /\
  F.eqb f0_80 f0_3 = false.
Proof. split; vm_compute; reflexivity. Qed.

(** ** C3 *)

(** The part of the claim that holds: a signal whose recorded count has
    reached its cap contributes nothing, whatever the state. *)
Lemma capped_signal_contributes_nothing (multipliers : Multipliers)
  (counts : list (UpdateSignal * Z)) (s : UpdateSignal) (cap : Z)
  (confidence : json) :
  max_applications (SIGNAL_MODIFIERS s) = Some cap ->
  (cap <= count_of s counts)%Z ->
  apply_signal multipliers (int_history counts) s confidence = Ok confidence.
Proof.
  intros Hcap Hn. unfold apply_signal. cbv zeta.
  rewrite history_get_int, Hcap.
  assert (Hc : cap = 3%Z) by (destruct s; cbn in Hcap; congruence).
  subst cap. cbn [Z.eqb]. rewrite py_ge_int.
  destruct (Z.leb_spec 3 (count_of s counts)) as [_|H]; [reflexivity|lia].
Qed.

Lemma used_affirmation_contributes_nothing (multipliers : Multipliers)
  (counts : list (UpdateSignal * Z)) (confidence : json) :
  (0 < count_of USER_AFFIRMATION counts)%Z ->
  apply_signal multipliers (int_history counts) USER_AFFIRMATION confidence
  = Ok confidence.
Proof.
  intros Hn. unfold apply_signal. cbv zeta.
  rewrite history_get_int.
  cbn [SIGNAL_MODIFIERS max_applications single_application bind].
  rewrite py_gt_int.
  destruct (Z.ltb_spec 0 (count_of USER_AFFIRMATION counts)) as [_|H];
    [reflexivity|lia].
Qed.

(** C3 at its failing input.  The cap is checked against the history as it
    was before the batch: on a new entry (confidence 0.3, unresolved) one
    batch of four [REPEATED_OCCURRENCE] adds the scaled delta 0.025 four
    times, and one batch of two [USER_AFFIRMATION] adds its delta twice
    (0.3 + 0.15, floored to 0.80, + 0.15). *)
Theorem C3_batch_exceeds_cap :
  let entry :=
    [ ("concept", JStr "user_likes_tea"); ("confidence", JFloat f0_3);
      ("resolution_state", JStr "unresolved"); ("signal_history", JObj []) ] in
  let d := F.mul f0_05 f0_5 in
  let a := F.mul f0_30 f0_5 in
  (exists e,
     update_entry ConfidenceUpdater_init entry
       [REPEATED_OCCURRENCE; REPEATED_OCCURRENCE; REPEATED_OCCURRENCE;
        REPEATED_OCCURRENCE] = Ok e /\
     lookup "confidence" e
     = Some (JFloat (F.add (F.add (F.add (F.add f0_3 d) d) d) d)) /\
     F.ltb (F.add (F.add (F.add f0_3 d) d) d)
           (F.add (F.add (F.add (F.add f0_3 d) d) d) d) = true /\
     lookup "signal_history" e = Some (JObj [("repeated_occurrence", JInt 4)])) /\
  (exists e,
     update_entry ConfidenceUpdater_init entry
       [USER_AFFIRMATION; USER_AFFIRMATION] = Ok e /\
     lookup "confidence" e = Some (JFloat (F.add f0_80 a)) /\
     F.ltb f0_80 (F.add f0_80 a) = true).
Proof.
  cbv zeta. split; eexists; vm_compute; repeat split; reflexivity.
Qed.

(** ** C6 *)

(** Phase 3 accepts an episode without [indexed_state] whatever the level,
    which it does not receive. *)
Lemma phase3_accepts_absent_state (episode_data : dict) (snapshot : dict) :
  lookup "emotive_snapshot" episode_data = Some (JObj snapshot) ->
  lookup "indexed_state" snapshot = None ->
  exists res,
    EpisodicValidator._phase3_state episode_data = Ok res /\
    valid res = true /\ errors res = [].
Proof.
  intros Hs Hi. unfold EpisodicValidator._phase3_state, dict_get, py_get.
  rewrite Hs. cbn [bind]. unfold dict_get. rewrite Hi.
  cbn. eexists. repeat split.
Qed.

(** C6 at its failing input.  The episode of the test suite, with its
    [indexed_state] removed, validated at level L3: the result is valid and
    holds no error. *)
Theorem C6_absent_state_accepted_at_L3 :
  lookup "indexed_state"
    (match lookup "emotive_snapshot" Sample.episode_without_state with
     | Some (JObj d) => d
     | _ => []
     end) = None /\
  exists res,
    EpisodicValidator.validate Sample.episode_without_state "L3" = Ok res /\
    valid res = true /\ errors res = [].
Proof.
  split; [reflexivity|]. eexists. vm_compute. repeat split.
Qed.

(** ** C9 *)

(** C9. The projection of an episode at a level is a fixed point of the
    projection at that level: projecting the output again, at any later
    time, returns the same output. *)
Theorem C9_ri_filter_idempotent (episode : dict) (ri_level : string)
  (s s' : State) :
  exists out,
    fst (_apply_ri_filter episode ri_level s) = Ok out /\
    fst (_apply_ri_filter out ri_level s') = Ok out.
Proof.
  unfold _apply_ri_filter.
  destruct (String.eqb ri_level "L1") eqn:E1;
    [|destruct (String.eqb ri_level "L2") eqn:E2].
  - eexists. split; reflexivity.
  - eexists. split; reflexivity.
  - exists episode. split; reflexivity.
Qed.

(** ** Reasoning about computations *)

Section Preservation.

Variable R : State -> State -> Prop.
Hypothesis R_refl : forall s, R s s.
Hypothesis R_trans : forall s1 s2 s3, R s1 s2 -> R s2 s3 -> R s1 s3.

Lemma preserves_ret {A} (a : A) : preserves R (ret a).
Proof. intros s. apply R_refl. Qed.

Lemma preserves_raise {A} (e : exn) : preserves R (@raise A e).
Proof. intros s. apply R_refl. Qed.

Lemma preserves_lift {A} (r : result A) : preserves R (lift r).
Proof. intros s. apply R_refl. Qed.

Lemma preserves_get_self : preserves R get_self.
Proof. intros s. apply R_refl. Qed.

Lemma preserves_get_world : preserves R get_world.
Proof. intros s. apply R_refl. Qed.

Lemma preserves_bind {A B} (m : M A) (k : A -> M B) :
  preserves R m -> (forall a, preserves R (k a)) -> preserves R (mbind m k).
Proof.
  intros Hm Hk s. unfold mbind.
  specialize (Hm s). destruct (m s) as [[a|e] s1]; cbn in *.
  - eapply R_trans; [exact Hm|apply Hk].
  - exact Hm.
Qed.

Lemma preserves_try_except {A} (m : M A) (h : exn -> M A) :
  preserves R m -> (forall e, preserves R (h e)) -> preserves R (try_except m h).
Proof.
  intros Hm Hh s. unfold try_except.
  specialize (Hm s). destruct (m s) as [[a|e] s1]; cbn in *.
  - exact Hm.
  - eapply R_trans; [exact Hm|apply Hh].
Qed.

Lemma preserves_path_exists (p : path) : preserves R (path_exists p).
Proof. intros s. apply R_refl. Qed.

Lemma preserves_load_json (p : path) : preserves R (load_json p).
Proof. intros s. apply R_refl. Qed.

End Preservation.

(** Inversion of a sequence. *)
Lemma mbind_inv {A B} (m : M A) (k : A -> M B) (s s' : State) (r : result B) :
  mbind m k s = (r, s') ->
  (exists a s1, m s = (Ok a, s1) /\ k a s1 = (r, s')) \/
  (exists e, m s = (Raise e, s') /\ r = Raise e).
Proof.
  unfold mbind. destruct (m s) as [[a|e] s1]; intros H.
  - left. eauto.
  - right. exists e. inversion H; subst. split; reflexivity.
Qed.

Lemma mbind_ok_inv {A B} (m : M A) (k : A -> M B) (s s' : State) (b : B) :
  mbind m k s = (Ok b, s') ->
  exists a s1, m s = (Ok a, s1) /\ k a s1 = (Ok b, s').
Proof.
  intros H. destruct (mbind_inv _ _ _ _ _ H) as [?|(e & _ & E)];
    [assumption|discriminate].
Qed.

(** What the readers return. *)
Lemma path_exists_run (p : path) (s : State) :
  path_exists p s = (Ok (exists_ (world s) p), s).
Proof. reflexivity. Qed.

Lemma load_json_run (p : path) (s : State) :
  load_json p s = (read_json (fs (world s)) p, s).
Proof. reflexivity. Qed.

Lemma _get_current_version_run (s : State) :
  _get_current_version s = (current_version (fs (world s)), s).
Proof.
  unfold _get_current_version, current_version, mbind.
  rewrite path_exists_run. cbv beta iota. unfold exists_.
  destruct (fs (world s) version_file) as [n|]; [|reflexivity].
  rewrite load_json_run.
  destruct (read_json (fs (world s)) version_file); reflexivity.
Qed.

Lemma current_version_fs (f f' : FS) :
  f' version_file = f version_file -> current_version f' = current_version f.
Proof.
  intros H. unfold current_version, read_json. rewrite H. reflexivity.
Qed.

(** ** The backup leaves Origin alone *)

Lemma frame_refl (s : State) : frame s s.
Proof. split; [reflexivity|]. intros; reflexivity. Qed.

Lemma frame_trans (s1 s2 s3 : State) : frame s1 s2 -> frame s2 s3 -> frame s1 s3.
Proof.
  intros [A1 B1] [A2 B2]. split; [congruence|].
  intros p Hp. rewrite (B2 p Hp). apply B1, Hp.
Qed.

Lemma prefix_outside (p q : path) :
  under_backups p -> outside_backups q -> is_prefix q p = false.
Proof.
  unfold under_backups, outside_backups, backups_dir.
  intros Hp [Hq1 Hq2].
  destruct q as [|a q']; [congruence|].
  destruct p as [|b p']; [reflexivity|].
  cbn [is_prefix path_eqb] in Hp, Hq2 |- *.
  destruct (String.eqb_spec "Backups" b) as [<-|]; [|discriminate].
  rewrite String.eqb_sym.
  destruct ("Backups" =? a)%string; [discriminate|reflexivity].
Qed.

Lemma strip_prefix_outside (p q : path) :
  under_backups p -> outside_backups q -> strip_prefix p q = None.
Proof.
  unfold under_backups, outside_backups, backups_dir.
  intros Hp [Hq1 Hq2].
  destruct q as [|a q']; [congruence|].
  destruct p as [|b p']; [discriminate|].
  cbn [is_prefix strip_prefix] in Hp, Hq2 |- *.
  destruct (String.eqb_spec "Backups" b) as [<-|]; [|discriminate].
  destruct ("Backups" =? a)%string; [discriminate|reflexivity].
Qed.

Lemma path_eqb_outside (p q : path) :
  under_backups p -> outside_backups q -> path_eqb q p = false.
Proof.
  unfold under_backups, outside_backups, backups_dir.
  intros Hp [Hq1 Hq2].
  destruct q as [|a q']; [congruence|].
  destruct p as [|b p']; [reflexivity|].
  cbn [is_prefix path_eqb] in Hp, Hq2 |- *.
  destruct (String.eqb_spec "Backups" b) as [<-|]; [|discriminate].
  rewrite String.eqb_sym.
  destruct ("Backups" =? a)%string; [discriminate|reflexivity].
Qed.

Lemma frame_read_oracle (o : World -> nat -> string) :
  preserves frame (read_oracle o).
Proof. intros s. split; [reflexivity|]. intros; reflexivity. Qed.

Lemma frame_ensure_dir (p : path) :
  under_backups p -> preserves frame (ensure_dir p).
Proof.
  intros Hp s. unfold ensure_dir, mbind, get_world, raise, put_world.
  cbv beta iota.
  destruct (faulty (world s) (Mkdir p)); [apply frame_refl|].
  destruct (blocked (fs (world s)) [] p); [apply frame_refl|].
  split; [reflexivity|]. intros q Hq. cbn.
  rewrite (prefix_outside p q Hp Hq).
  destruct (fs (world s) q); reflexivity.
Qed.

Lemma copy_into_outside (f : FS) (src dst : path) (copied : path -> bool)
  (q : path) :
  under_backups dst -> outside_backups q -> copy_into f src dst copied q = f q.
Proof.
  intros Hd Hq. unfold copy_into.
  rewrite (strip_prefix_outside dst q Hd Hq), (prefix_outside dst q Hd Hq).
  destruct (f q); reflexivity.
Qed.

Lemma frame_copytree (src dst : path) :
  under_backups dst -> preserves frame (copytree src dst).
Proof.
  intros Hd s. unfold copytree, mbind, get_world, raise, put_world.
  cbv beta iota.
  destruct (fs (world s) src) as [[|c]|]; try apply frame_refl.
  destruct (exists_ (world s) dst); [apply frame_refl|].
  destruct (blocked (fs (world s)) [] (parent dst)); [apply frame_refl|].
  destruct (faulty (world s) (CopyTree src dst)).
  - split; [reflexivity|]. intros q Hq. cbn.
    apply copy_into_outside; assumption.
  - split; [reflexivity|]. intros q Hq. cbn.
    apply copy_into_outside; assumption.
Qed.

Lemma frame_save_json (p : path) (data : json) :
  under_backups p -> under_backups (parent p) ->
  preserves frame (save_json p data).
Proof.
  intros Hp Hpp. unfold save_json.
  apply (preserves_bind frame frame_trans).
  - apply frame_ensure_dir, Hpp.
  - intros _. intros s. unfold mbind, get_world, raise, put_world.
    cbv beta iota.
    destruct (faulty (world s) (WriteFile p)); [apply frame_refl|].
    destruct (fs (world s) p) as [[|c]|]; try apply frame_refl.
    + split; [reflexivity|]. intros q Hq. cbn.
      now rewrite (path_eqb_outside p q Hp Hq).
    + split; [reflexivity|]. intros q Hq. cbn.
      now rewrite (path_eqb_outside p q Hp Hq).
Qed.

Lemma frame__get_current_version : preserves frame _get_current_version.
Proof. intros s. rewrite _get_current_version_run. apply frame_refl. Qed.

Lemma frame_backup_dirs (backup_root : path) (dirs : list string) :
  under_backups backup_root -> preserves frame (backup_dirs backup_root dirs).
Proof.
  intros Hr. induction dirs as [|d rest IH]; cbn [backup_dirs].
  - apply (preserves_ret frame frame_refl).
  - apply (preserves_bind frame frame_trans).
    + apply (preserves_path_exists frame frame_refl).
    + intros present.
      apply (preserves_bind frame frame_trans); [|intros _; exact IH].
      destruct present; [|apply (preserves_ret frame frame_refl)].
      apply frame_copytree.
      unfold under_backups in *. destruct backup_root as [|b r];
        [discriminate|exact Hr].
Qed.

Lemma under_backups_root (name : string) :
  under_backups (backups_dir ++ [name])%list.
Proof. reflexivity. Qed.

Lemma frame__create_origin_backup : preserves frame _create_origin_backup.
Proof.
  unfold _create_origin_backup.
  apply (preserves_bind frame frame_trans); [apply frame_read_oracle|].
  intros timestamp.
  apply (preserves_bind frame frame_trans); [apply frame__get_current_version|].
  intros version.
  apply (preserves_bind frame frame_trans);
    [apply (preserves_get_world frame frame_refl)|].
  intros w.
  apply (preserves_bind frame frame_trans);
    [apply frame_ensure_dir, under_backups_root|].
  intros _.
  apply (preserves_try_except frame frame_trans);
    [|intros e; apply (preserves_raise frame frame_refl)].
  apply (preserves_bind frame frame_trans);
    [apply frame_backup_dirs, under_backups_root|].
  intros _.
  apply (preserves_bind frame frame_trans); [apply frame_read_oracle|].
  intros t.
  apply (preserves_bind frame frame_trans); [apply frame__get_current_version|].
  intros prev.
  apply (preserves_bind frame frame_trans);
    [apply (preserves_get_self frame frame_refl)|].
  intros m.
  apply (preserves_bind frame frame_trans);
    [|intros _; apply (preserves_ret frame frame_refl)].
  apply frame_save_json; reflexivity.
Qed.

(** When the backup raises, [consolidate_to_origin] stops there: it raises
    a consolidation error around the error of the backup, and the object
    and the tree outside [Backups] are as before. *)
Lemma failed_backup_aborts (s s1 : State) (e : exn) (i : string) :
  instance_id (self s) = Some i ->
  _create_origin_backup s = (Raise e, s1) ->
  consolidate_to_origin s = (Raise (MSPConsolidationError e), s1) /\
  frame s s1.
Proof.
  intros Hi Hb. split.
  - unfold consolidate_to_origin, mbind at 1, get_self. cbv beta iota.
    rewrite Hi. unfold try_except, mbind at 1. rewrite Hb. reflexivity.
  - pose proof (frame__create_origin_backup s) as H. now rewrite Hb in H.
Qed.

(** ** C7 *)

(** C7 at its failing input.  With an Origin at version 1, an instance with
    a buffered episode and an environment that fails the copy of a
    directory, [consolidate_to_origin] aborts before any mutation, as the
    claim says: the object, the master files, the version file and the
    buffer are as before.  But what it raises is a consolidation error that
    wraps the backup error, not a backup error. *)
Theorem C7_backup_error_is_wrapped :
  let s := Sample.failing_backup_state in
  let r := fst (consolidate_to_origin s) in
  let s' := snd (consolidate_to_origin s) in
  r = Raise (MSPConsolidationError (MSPBackupError OSError)) /\
  (forall e, r <> Raise (MSPBackupError e)) /\
  frame s s' /\
  fs (world s') (episodic_file []) = fs (world s) (episodic_file []) /\
  fs (world s') version_file = fs (world s) version_file /\
  fs (world s') (episodic_file ["Buffer"; "instance_I1"])
  = fs (world s) (episodic_file ["Buffer"; "instance_I1"]).
Proof.
  cbv zeta.
  assert (Hb : exists s1,
             _create_origin_backup Sample.failing_backup_state
             = (Raise (MSPBackupError OSError), s1)).
  { eexists. vm_compute. reflexivity. }
  destruct Hb as [s1 Hb].
  destruct (failed_backup_aborts Sample.failing_backup_state s1 _ "I1"
              eq_refl Hb) as [Hc Hf].
  rewrite Hc. cbn [fst snd].
  split; [reflexivity|]. split; [intros e; discriminate|].
  split; [exact Hf|].
  destruct Hf as [_ Hf].
  repeat split; apply Hf; split; (discriminate || reflexivity).
Qed.

(** ** What a successful backup leaves *)

Lemma is_prefix_refl (p : path) : is_prefix p p = true.
Proof.
  induction p as [|a p IH]; [reflexivity|].
  cbn [is_prefix]. now rewrite String.eqb_refl.
Qed.

Lemma blocked_false_at (f : FS) (p above : path) :
  blocked f above p = false -> is_file (f (above ++ p)%list) = false.
Proof.
  revert above. induction p as [|a p IH]; intros above H; cbn [blocked] in H.
  - rewrite app_nil_r. now destruct (is_file (f above)).
  - destruct (is_file (f above)); [discriminate|]. cbn [orb] in H.
    specialize (IH _ H). now rewrite <- app_assoc in IH.
Qed.

Lemma ensure_dir_ok (p : path) (s s' : State) :
  ensure_dir p s = (Ok tt, s') -> fs (world s') p = Some Dir.
Proof.
  unfold ensure_dir, mbind, get_world, raise, put_world. cbv beta iota.
  destruct (faulty (world s) (Mkdir p)); [discriminate|].
  destruct (blocked (fs (world s)) [] p) eqn:B; [discriminate|].
  intros H. inversion H; subst; clear H. cbn.
  apply blocked_false_at in B. cbn [app] in B.
  rewrite is_prefix_refl.
  destruct (fs (world s) p) as [[|c]|]; try reflexivity. discriminate.
Qed.

Lemma keeps_dir_refl (root : path) (s : State) : keeps_dir root s s.
Proof. intros H; exact H. Qed.

Lemma keeps_dir_trans (root : path) (s1 s2 s3 : State) :
  keeps_dir root s1 s2 -> keeps_dir root s2 s3 -> keeps_dir root s1 s3.
Proof. unfold keeps_dir. auto. Qed.

Lemma keeps_dir_read_oracle (root : path) (o : World -> nat -> string) :
  preserves (keeps_dir root) (read_oracle o).
Proof. intros s H. exact H. Qed.

Lemma keeps_dir__get_current_version (root : path) :
  preserves (keeps_dir root) _get_current_version.
Proof. intros s. rewrite _get_current_version_run. apply keeps_dir_refl. Qed.

Lemma keeps_dir_ensure_dir (root p : path) :
  preserves (keeps_dir root) (ensure_dir p).
Proof.
  intros s. unfold ensure_dir, mbind, get_world, raise, put_world.
  cbv beta iota.
  destruct (faulty (world s) (Mkdir p)); [apply keeps_dir_refl|].
  destruct (blocked (fs (world s)) [] p); [apply keeps_dir_refl|].
  intros H. cbn. now rewrite H.
Qed.

Lemma strip_prefix_longer (root : path) (d : string) :
  strip_prefix (root ++ [d]) root = None.
Proof.
  induction root as [|a r IH]; [reflexivity|].
  cbn [app strip_prefix]. now rewrite String.eqb_refl.
Qed.

Lemma path_eqb_longer (root : path) (d : string) :
  path_eqb root (root ++ [d]) = false.
Proof.
  induction root as [|a r IH]; [reflexivity|].
  cbn [app path_eqb]. now rewrite String.eqb_refl.
Qed.

Lemma keeps_dir_copytree (root src : path) (d : string) :
  preserves (keeps_dir root) (copytree src (root ++ [d])).
Proof.
  intros s. unfold copytree, mbind, get_world, raise, put_world.
  cbv beta iota.
  destruct (fs (world s) src) as [[|c]|]; try apply keeps_dir_refl.
  destruct (exists_ (world s) (root ++ [d])); [apply keeps_dir_refl|].
  destruct (blocked (fs (world s)) [] (parent (root ++ [d])));
    [apply keeps_dir_refl|].
  destruct (faulty (world s) (CopyTree src (root ++ [d])));
    intros H; cbn; unfold copy_into; now rewrite strip_prefix_longer, H.
Qed.

Lemma keeps_dir_save_json (root p : path) (data : json) :
  path_eqb root p = false -> preserves (keeps_dir root) (save_json p data).
Proof.
  intros Hp. unfold save_json.
  apply (preserves_bind _ (keeps_dir_trans root)).
  - apply keeps_dir_ensure_dir.
  - intros _ s. unfold mbind, get_world, raise, put_world. cbv beta iota.
    destruct (faulty (world s) (WriteFile p)); [apply keeps_dir_refl|].
    destruct (fs (world s) p) as [[|c]|]; try apply keeps_dir_refl;
      intros H; cbn; now rewrite Hp.
Qed.

Lemma keeps_dir_backup_dirs (root : path) (dirs : list string) :
  preserves (keeps_dir root) (backup_dirs root dirs).
Proof.
  induction dirs as [|d rest IH]; cbn [backup_dirs].
  - apply (preserves_ret _ (keeps_dir_refl root)).
  - apply (preserves_bind _ (keeps_dir_trans root)).
    + apply (preserves_path_exists _ (keeps_dir_refl root)).
    + intros present.
      apply (preserves_bind _ (keeps_dir_trans root)); [|intros _; exact IH].
      destruct present; [|apply (preserves_ret _ (keeps_dir_refl root))].
      apply keeps_dir_copytree.
Qed.

Lemma save_json_ok (p : path) (data : json) (s s' : State) :
  save_json p data s = (Ok tt, s') ->
  fs (world s') p = Some (File (Document data)).
Proof.
  unfold save_json. intros H.
  apply mbind_ok_inv in H. destruct H as ([] & s1 & _ & H).
  unfold mbind, get_world, raise, put_world in H. cbv beta iota in H.
  destruct (faulty (world s1) (WriteFile p)); [discriminate|].
  assert (Hrefl : path_eqb p p = true).
  { clear. induction p as [|a p IH]; [reflexivity|].
    cbn [path_eqb]. now rewrite String.eqb_refl. }
  destruct (fs (world s1) p) as [[|c]|]; try discriminate;
    inversion H; subst; cbn; now rewrite Hrefl.
Qed.

(** The name of the backup directory. *)
Lemma backup_success (s s1 : State) (root : path) :
  _create_origin_backup s = (Ok root, s1) ->
  exists v,
    current_version (fs (world s)) = Ok v /\
    root = (backups_dir ++
              [("Origin_v" ++ py_str (float_repr (world s)) v ++ "_"
                  ++ strftime_at (world s) (tick (world s)))%string])%list /\
    fs (world s1) root = Some Dir /\
    exists doc,
      fs (world s1) (root ++ ["backup_metadata.json"])%list
      = Some (File (Document doc)).
Proof.
  unfold _create_origin_backup. intros H.
  apply mbind_ok_inv in H. destruct H as (ts & sa & Hts & H).
  unfold strftime_now, read_oracle in Hts. inversion Hts; subst ts sa; clear Hts.
  apply mbind_ok_inv in H. destruct H as (v & sb & Hv & H).
  rewrite _get_current_version_run in Hv. inversion Hv as [[Hv' Hsb]]; clear Hv.
  subst sb. cbn [world fs with_tick] in Hv'.
  apply mbind_ok_inv in H. destruct H as (w & sc & Hw & H).
  unfold get_world in Hw. inversion Hw; subst w sc; clear Hw.
  cbn [world float_repr with_tick] in H.
  match type of H with
  | context [ensure_dir ?r] => set (rt := r) in *
  end.
  apply mbind_ok_inv in H. destruct H as ([] & sd & Hmk & H).
  pose proof (ensure_dir_ok _ _ _ Hmk) as Hdir.
  unfold try_except in H.
  match type of H with
  | (match ?m sd with _ => _ end) = _ => destruct (m sd) as [[r|e] se] eqn:Hin
  end; [|discriminate].
  inversion H; subst r se; clear H.
  apply mbind_ok_inv in Hin. destruct Hin as ([] & sf & Hcp & Hin).
  pose proof (keeps_dir_backup_dirs rt dirs_to_backup sd) as K1.
  rewrite Hcp in K1. cbn [snd] in K1. specialize (K1 Hdir).
  apply mbind_ok_inv in Hin. destruct Hin as (t & sg & Ht & Hin).
  unfold now_iso, read_oracle in Ht. inversion Ht; subst t sg; clear Ht.
  apply mbind_ok_inv in Hin. destruct Hin as (pv & sh & Hpv & Hin).
  rewrite _get_current_version_run in Hpv.
  inversion Hpv as [[Hpv' Hsh]]; subst sh; clear Hpv.
  apply mbind_ok_inv in Hin. destruct Hin as (m & si & Hm & Hin).
  unfold get_self in Hm. inversion Hm; subst m si; clear Hm.
  apply mbind_ok_inv in Hin. destruct Hin as ([] & sj & Hsv & Hin).
  unfold ret in Hin. inversion Hin as [[Hroot Hsj]]; subst sj root; clear Hin.
  exists v. split; [exact Hv'|]. split; [reflexivity|].
  match type of Hsv with
  | save_json ?p ?d ?s0 = _ =>
      pose proof (keeps_dir_save_json rt p d (path_eqb_longer _ _) s0) as K2;
      pose proof (save_json_ok _ _ _ _ Hsv) as F
  end.
  rewrite Hsv in K2. cbn [snd] in K2.
  split; [apply K2; exact K1|]. eexists. exact F.
Qed.

Lemma any_exists_run (ps : list path) (s : State) :
  any_exists ps s = (Ok (existsb (exists_ (world s)) ps), s).
Proof.
  induction ps as [|p rest IH]; [reflexivity|].
  cbn [any_exists existsb]. unfold mbind at 1. rewrite path_exists_run.
  destruct (exists_ (world s) p); [reflexivity|exact IH].
Qed.

Lemma outside_backups_buffer (rest : path) : outside_backups ("Buffer" :: rest).
Proof. split; [discriminate|reflexivity]. Qed.

Lemma frame_buffer_files (s s1 : State) (i : string) :
  frame s s1 ->
  existsb (exists_ (world s1)) (buffer_files i)
  = existsb (exists_ (world s)) (buffer_files i).
Proof.
  intros [_ Hf]. unfold buffer_files, exists_, episodic_file, semantic_file,
    sensory_file, buffer_dir. cbn [app existsb].
  now rewrite !(Hf _ (outside_backups_buffer _)).
Qed.

(** ** C10 *)

(** C10. With an active instance that has no buffer file, where the
    identifier of the instance and the text of the current version are
    file names (so that the directory of the instance is an entry of
    [Buffer] and the backup directory an entry of [Backups]), a call of
    [consolidate_to_origin] whose backup step succeeds returns the current
    version and leaves the object and the tree outside [Backups] as they
    were (no merge, no new version); yet the backup directory, with its
    metadata file, is on disk, and when it is a new directory the tree has
    changed. *)
Theorem C10_backup_precedes_buffer_check (s s1 : State) (i : string)
  (root : path) :
  plain_instance s ->
  plain_version s ->
  instance_id (self s) = Some i ->
  no_buffer_files (world s) i = true ->
  _create_origin_backup s = (Ok root, s1) ->
  exists v,
    consolidate_to_origin s = (Ok v, s1) /\
    current_version (fs (world s)) = Ok v /\
    current_version (fs (world s1)) = Ok v /\
    frame s s1 /\
    under_backups root /\
    fs (world s1) root = Some Dir /\
    (exists doc,
       fs (world s1) (root ++ ["backup_metadata.json"])
       = Some (File (Document doc))) /\
    (fs (world s) root = None -> fs (world s1) root <> fs (world s) root).
Proof.
  intros _ _ Hi Hnone Hb.
  pose proof (frame__create_origin_backup s) as Hf.
  rewrite Hb in Hf. cbn [snd] in Hf.
  destruct (backup_success s s1 root Hb) as (v & Hv & Hroot & Hdir & Hmeta).
  assert (Hv1 : current_version (fs (world s1)) = Ok v).
  { rewrite <- Hv. apply current_version_fs.
    apply (proj2 Hf). split; [discriminate|reflexivity]. }
  exists v.
  split; [|split; [exact Hv|split; [exact Hv1|split; [exact Hf|
    split; [rewrite Hroot; reflexivity|split; [exact Hdir|
    split; [exact Hmeta|]]]]]]].
  - unfold consolidate_to_origin, mbind at 1, get_self. cbv beta iota.
    rewrite Hi. unfold try_except, mbind at 1. rewrite Hb. cbv beta iota.
    unfold mbind at 1, get_instance_path, mbind at 1, get_self.
    cbv beta iota. rewrite (proj1 Hf), Hi. unfold ret at 1. cbv beta iota.
    unfold mbind at 1.
    change ([episodic_file (buffer_dir ++ [("instance_" ++ i)%string]);
             semantic_file (buffer_dir ++ [("instance_" ++ i)%string]);
             sensory_file (buffer_dir ++ [("instance_" ++ i)%string])])
      with (buffer_files i).
    rewrite any_exists_run, (frame_buffer_files s s1 i Hf).
    unfold no_buffer_files in Hnone.
    destruct (existsb (exists_ (world s)) (buffer_files i)); [discriminate|].
    cbn [negb]. rewrite _get_current_version_run, Hv1. reflexivity.
  - intros Hn. rewrite Hdir, Hn. discriminate.
Qed.

Lemma C10_witness :
  exists v,
    consolidate_to_origin Sample.origin_state_no_buffer
    = (Ok v, snd (_create_origin_backup Sample.origin_state_no_buffer)) /\
    v = JInt 1 /\
    fs (world (snd (_create_origin_backup Sample.origin_state_no_buffer)))
      ["Backups"; "Origin_v1_20260101_000000"] = Some Dir.
Proof.
  assert (Hplain : plain_instance Sample.origin_state_no_buffer).
  { intros i Hi. injection Hi as <-. reflexivity. }
  assert (Hver : plain_version Sample.origin_state_no_buffer).
  { intros v Hv. vm_compute in Hv. injection Hv as <-. reflexivity. }
  destruct (C10_backup_precedes_buffer_check
              Sample.origin_state_no_buffer
              (snd (_create_origin_backup Sample.origin_state_no_buffer))
              "I1" ["Backups"; "Origin_v1_20260101_000000"]
              Hplain Hver eq_refl eq_refl)
    as (v & Hc & Hv & _ & _ & _ & Hd & _).
  - vm_compute. reflexivity.
  - exists v. split; [exact Hc|]. split; [|exact Hd].
    vm_compute in Hv. congruence.
Defined.

(** ** The session counter *)

Lemma safe_ret {A} (a : A) : safe (ret a).
Proof. intros s. split; [reflexivity|]. intros e H; discriminate. Qed.

Lemma safe_raise {A} (e : exn) : not_capacity e -> safe (@raise A e).
Proof.
  intros He s. split; [reflexivity|]. intros e' H. inversion H. now subst.
Qed.

Lemma safe_lift {A} (r : result A) :
  (forall e, r = Raise e -> not_capacity e) -> safe (lift r).
Proof. intros Hr s. split; [reflexivity|]. exact Hr. Qed.

Lemma safe_bind {A B} (m : M A) (k : A -> M B) :
  safe m -> (forall a, safe (k a)) -> safe (mbind m k).
Proof.
  intros Hm Hk s. unfold mbind.
  destruct (Hm s) as [Hs He]. destruct (m s) as [[a|e] s1]; cbn in *.
  - destruct (Hk a s1) as [Hs' He']. split; [congruence|exact He'].
  - split; [exact Hs|]. intros e' H. inversion H; subst. now apply He.
Qed.

Lemma safe_get_self : safe get_self.
Proof. intros s. split; [reflexivity|]. intros e H; discriminate. Qed.

Lemma safe_get_world : safe get_world.
Proof. intros s. split; [reflexivity|]. intros e H; discriminate. Qed.

Lemma safe_read_oracle (o : World -> nat -> string) : safe (read_oracle o).
Proof. intros s. split; [reflexivity|]. intros e H; discriminate. Qed.

Lemma not_capacity_plain (e : exn) :
  match e with RuntimeError _ => False | _ => True end -> not_capacity e.
Proof. intros H sid E. subst e. exact H. Qed.

Lemma safe_load_json (p : path) : safe (load_json p).
Proof.
  intros s. rewrite load_json_run. split; [reflexivity|]. cbn [fst].
  unfold read_json. intros e H.
  destruct (fs (world s) p) as [[|[j|]]|]; inversion H; subst.
  now apply not_capacity_plain.
Qed.

Lemma safe_ensure_dir (p : path) : safe (ensure_dir p).
Proof.
  intros s. unfold ensure_dir, mbind, get_world, raise, put_world.
  cbv beta iota.
  destruct (faulty (world s) (Mkdir p));
    [|destruct (blocked (fs (world s)) [] p)];
    (split; [reflexivity|]); intros e H; inversion H; subst;
    now apply not_capacity_plain.
Qed.

Lemma safe_save_json (p : path) (data : json) : safe (save_json p data).
Proof.
  unfold save_json. apply safe_bind; [apply safe_ensure_dir|]. intros _ s.
  unfold mbind, get_world, raise, put_world. cbv beta iota.
  destruct (faulty (world s) (WriteFile p));
    [|destruct (fs (world s) p) as [[|c]|]];
    (split; [reflexivity|]); intros e H; inversion H; subst;
    now apply not_capacity_plain.
Qed.

Lemma safe_get_instance_path : safe get_instance_path.
Proof.
  intros s. unfold get_instance_path, mbind, get_self, raise, ret.
  cbv beta iota.
  destruct (instance_id (self s)); (split; [reflexivity|]);
    intros e H; inversion H; subst. intros sid. discriminate.
Qed.

Lemma safe__apply_ri_filter (episode : dict) (ri_level : string) :
  safe (_apply_ri_filter episode ri_level).
Proof.
  unfold _apply_ri_filter.
  destruct (ri_level =? "L1")%string;
    [|destruct (ri_level =? "L2")%string];
    try (apply safe_bind; [apply safe_read_oracle|intros t]);
    apply safe_ret.
Qed.

(** What the pure steps of [write_episode] raise. *)
Lemma str_in_raises (k : string) (c : json) (e : exn) :
  str_in k c = Raise e -> e = TypeError.
Proof. destruct c; cbn; intros H; inversion H; reflexivity. Qed.

Lemma subscript_raises (c : json) (k : string) (e : exn) :
  subscript c k = Raise e -> e = TypeError \/ e = KeyError.
Proof.
  destruct c; cbn; intros H; try (inversion H; now left).
  destruct (lookup k d); inversion H. now right.
Qed.

Lemma append_to_raises (data : json) (key : string) (item : json) (e : exn) :
  append_to data key item = Raise e ->
  e = TypeError \/ e = KeyError \/ e = AttributeError.
Proof.
  unfold append_to, bind. destruct (subscript data key) as [l|e'] eqn:E.
  - intros H. right; right.
    destruct l; try (inversion H; reflexivity).
    destruct data; inversion H; reflexivity.
  - intros H. inversion H; subst.
    destruct (subscript_raises _ _ _ E); auto.
Qed.

Lemma episode_checkpoint_raises (m : MSP) (episode_data : dict)
  (ri_level : string) (e : exn) :
  episode_checkpoint m episode_data ri_level = Raise e ->
  exists msg errs, e = MSPValidationError msg errs.
Proof.
  unfold episode_checkpoint.
  destruct (negb (validation_mode m =? "off")%string); [|discriminate].
  destruct (episodic_validator m); [|discriminate].
  destruct (EpisodicValidator.validate episode_data ri_level) as [res|];
    [|discriminate].
  destruct (negb (valid res) && (validation_mode m =? "strict")%string);
    [|discriminate].
  intros H. inversion H. eauto.
Qed.

Lemma counts_one_bind {A B} (m : M A) (k : A -> M B) :
  safe m -> (forall a, counts_one (k a)) -> counts_one (mbind m k).
Proof.
  intros Hm Hk s. unfold mbind.
  destruct (Hm s) as [Hs He]. destruct (m s) as [[a|e] s1]; cbn in *.
  - specialize (Hk a s1). rewrite Hs in Hk. exact Hk.
  - now apply He.
Qed.

Lemma not_capacity_of (e : exn) (l : list exn) :
  In e l -> Forall (fun x => match x with RuntimeError _ => False | _ => True end) l ->
  not_capacity e.
Proof.
  intros Hin Hall. rewrite Forall_forall in Hall.
  apply not_capacity_plain. now apply Hall.
Qed.

Lemma safe_lift_str_in {A} (k : string) (c : json) (f : bool -> M A) :
  (forall b, counts_one (f b)) -> counts_one (mbind (lift (str_in k c)) f).
Proof.
  intros Hf. apply counts_one_bind; [|exact Hf].
  apply safe_lift. intros e H. apply str_in_raises in H. subst.
  now apply not_capacity_plain.
Qed.

(** ** C4 *)

(** C4. In an active session [write_episode] raises the capacity error
    exactly when the counter has reached 30, and then changes nothing; a
    call that returns has increased the counter by one and left the session
    active.  (From a counter at 0 the 30th call finds 29 and cannot raise
    the capacity error; the 31st finds 30 and raises it.) *)
Theorem C4_session_capacity (s : State) (sid : string) (episode_data : dict)
  (ri_level : string) :
  session_id (self s) = Some sid ->
  let r := fst (write_episode episode_data ri_level s) in
  let s' := snd (write_episode episode_data ri_level s) in
  (r = Raise (capacity_error sid) <-> (30 <= session_episode_count (self s))%Z) /\
  ((30 <= session_episode_count (self s))%Z -> s' = s) /\
  (forall v, r = Ok v ->
     session_episode_count (self s') = (session_episode_count (self s) + 1)%Z /\
     session_id (self s') = Some sid).
Proof.
  intros Hsid. cbv zeta.
  destruct (write_episode episode_data ri_level s) as [r s'] eqn:Hrun.
  cbn [fst snd].
  unfold write_episode, mbind at 1, get_self in Hrun. cbv beta iota in Hrun.
  rewrite Hsid in Hrun.
  destruct (Z.leb_spec 30 (session_episode_count (self s))) as [Hfull|Hroom].
  - unfold raise in Hrun. inversion Hrun; subst r s'; clear Hrun.
    split; [split; auto|].
    split; [reflexivity|]. intros v H. discriminate.
  - match type of Hrun with
    | ?body s = _ => assert (Hb : counts_one body)
    end.
    { apply counts_one_bind.
      { apply safe_lift. intros e H.
        apply episode_checkpoint_raises in H. destruct H as (msg & errs & ->).
        now apply not_capacity_plain. }
      intros _. apply counts_one_bind.
      { destruct (dict_get "episode_id" JNull episode_data);
          try apply safe_ret.
        apply safe_bind; [apply safe_read_oracle|intros u; apply safe_ret]. }
      intros [episode_id episode_data'].
      apply counts_one_bind; [apply safe__apply_ri_filter|].
      intros filtered_episode.
      apply counts_one_bind; [apply safe_read_oracle|]. intros t.
      apply counts_one_bind; [apply safe_get_instance_path|].
      intros instance_path.
      apply counts_one_bind; [apply safe_load_json|]. intros buffer_data.
      apply safe_lift_str_in. intros has.
      apply counts_one_bind.
      { destruct (negb has); [|apply safe_ret].
        apply safe_bind; [apply safe_read_oracle|intros t'; apply safe_ret]. }
      intros buffer_data'.
      apply counts_one_bind.
      { apply safe_lift. intros e H. apply append_to_raises in H.
        apply not_capacity_plain. destruct H as [H|[H|H]]; subst e; exact I. }
      intros buffer_data''.
      apply counts_one_bind; [apply safe_save_json|]. intros _.
      intros s0. cbn. reflexivity. }
    specialize (Hb s). rewrite Hrun in Hb. cbn [fst snd] in Hb.
    destruct r as [v|e].
    + split; [split; [discriminate|lia]|]. split; [lia|].
      intros v' _. rewrite Hb. cbn. split; [reflexivity|exact Hsid].
    + split; [split; [|lia]|].
      * intros H. inversion H; subst. exfalso. now apply (Hb sid).
      * split; [lia|]. intros v H. discriminate.
Qed.

Lemma C4_witness :
  let s0 := Sample.in_session Sample.state0 in
  let s29 := snd (Sample.writes 29 Sample.episode "L3" s0) in
  let s30 := snd (Sample.writes 30 Sample.episode "L3" s0) in
  session_episode_count (self s0) = 0%Z /\
  (exists v, fst (write_episode Sample.episode "L3" s29) = Ok v) /\
  session_episode_count (self (snd (write_episode Sample.episode "L3" s29)))
  = 30%Z /\
  fst (write_episode Sample.episode "L3" s30) = Raise (capacity_error "S01").
Proof.
  cbv zeta.
  assert (H29 : exists v,
             fst (write_episode Sample.episode "L3"
                    (snd (Sample.writes 29 Sample.episode "L3"
                            (Sample.in_session Sample.state0)))) = Ok v).
  { eexists. vm_compute. reflexivity. }
  split; [reflexivity|]. split; [exact H29|]. split.
  - destruct H29 as [v Hv].
    destruct (C4_session_capacity
                (snd (Sample.writes 29 Sample.episode "L3"
                        (Sample.in_session Sample.state0)))
                "S01" Sample.episode "L3" eq_refl) as (_ & _ & Hinc).
    destruct (Hinc v Hv) as [Hc _]. rewrite Hc. reflexivity.
  - apply (C4_session_capacity
             (snd (Sample.writes 30 Sample.episode "L3"
                     (Sample.in_session Sample.state0)))
             "S01" Sample.episode "L3" eq_refl).
    vm_compute. discriminate.
Defined.

(** ** The consolidation threshold *)

Lemma valid_merge (a b : ValidationResult) :
  valid (merge a b) = true -> valid a = true /\ valid b = true.
Proof. cbn. apply andb_prop. Qed.

Lemma valid__check_range (value : json) (field_name : string)
  (res : ValidationResult) :
  valid (_check_range value F.zero F.one field_name res) = true ->
  exists n, to_num value = Some n /\
            num_leb (NFloat F.zero) n = true /\ num_leb n (NFloat F.one) = true.
Proof.
  unfold _check_range. destruct (to_num value) as [n|]; [|discriminate].
  destruct (num_leb (NFloat F.zero) n) eqn:E0;
    destruct (num_leb n (NFloat F.one)) eqn:E1; cbn [andb negb];
    try discriminate.
  intros _. eauto.
Qed.

(** A valid entry that states a confidence states a number of [0,1]. *)
Lemma valid__validate_confidence (entry : dict) (c : json)
  (res : ValidationResult) :
  lookup "confidence" entry = Some c -> c <> JNull ->
  SemanticValidator._validate_confidence entry = Ok res ->
  valid res = true ->
  exists n, to_num c = Some n /\
            num_leb (NFloat F.zero) n = true /\ num_leb n (NFloat F.one) = true.
Proof.
  intros Hc Hnn. unfold SemanticValidator._validate_confidence, dict_get.
  rewrite Hc.
  set (r := _check_range c F.zero F.one "confidence"
              (add_info [L "Phase 3: Confidence validation"] _create_result)).
  assert (Hr : forall res', 
             (if truthy match lookup "epistemic_status" entry with
                        | Some v => v | None => JNull end
              then
                expected_status <- get_epistemic_status c ;;
                Ok (if negb (py_eq match lookup "epistemic_status" entry with
                                   | Some v => v | None => JNull end
                               (JStr (epistemic_value expected_status)))
                    then add_warning
                           [L "Confidence "; V c; L " suggests '";
                            L (epistemic_value expected_status);
                            L "' but epistemic_status is '";
                            V match lookup "epistemic_status" entry with
                              | Some v => v | None => JNull end; L "'"] r
                    else r)
              else Ok r) = Ok res' -> valid res' = valid r).
  { intros res'.
    destruct (truthy _); [|intros H; inversion H; reflexivity].
    destruct (get_epistemic_status c) as [st|]; cbn [bind]; [|discriminate].
    destruct (negb _); intros H; inversion H; reflexivity. }
  intros H Hv.
  assert (Hvr : valid r = true).
  { destruct c; try (rewrite <- (Hr _ H); exact Hv). congruence. }
  exact (valid__check_range _ _ _ Hvr).
Qed.

Lemma valid_validate (entry : dict) (res : ValidationResult) :
  SemanticValidator.validate entry None = Ok res -> valid res = true ->
  exists r3,
    SemanticValidator._validate_confidence entry = Ok r3 /\ valid r3 = true.
Proof.
  unfold SemanticValidator.validate.
  destruct (SemanticValidator._validate_structure entry) as [r1|];
    [|discriminate].
  destruct (SemanticValidator._validate_concept_format entry) as [r2|];
    [|discriminate].
  destruct (SemanticValidator._validate_confidence entry) as [r3|];
    [|discriminate].
  cbn [bind]. intros H Hv. inversion H; subst; clear H.
  apply valid_merge in Hv. destruct Hv as [Hv _].
  apply valid_merge in Hv. destruct Hv as [_ Hv].
  eauto.
Qed.

(** A number that is ordered with 0 and is not at most a finite double is
    above that double. *)
Lemma not_leb_ltb (n : num) (s : bool) (m : positive) (e : Z) :
  num_leb (NFloat F.zero) n = true ->
  num_leb n (NFloat (S754_finite s m e)) = false ->
  num_ltb (NFloat (S754_finite s m e)) n = true.
Proof.
  destruct n as [z|x]; intros H0 H1.
  - unfold num_leb, num_ltb, num_compare in *.
    unfold Z_float_compare in H1 |- *. cbn [option_map] in H1 |- *.
    match goal with
    | |- context [CompOpp ?c] => destruct c; cbn [CompOpp] in *; congruence
    end.
  - change (F.leb F.zero x = true) in H0.
    change (F.leb x (S754_finite s m e) = false) in H1.
    change (F.ltb (S754_finite s m e) x = true).
    destruct (leb_or_ltb (S754_finite s m e) x) as [H|H]; [|exact H|congruence].
    rewrite compare_antisym.
    assert (Hx : F.compare x (S754_finite s m e) <> None).
    { eapply leb_compare_l; [exact H0|discriminate]. }
    destruct (F.compare x (S754_finite s m e)); [discriminate|congruence].
Qed.

(** An entry that passes [validate_for_consolidation] is a dictionary
    whose confidence is above 0.7. *)
Lemma validate_for_consolidation_true (entry : json) :
  SemanticValidator.validate_for_consolidation entry = Ok true ->
  exists d c,
    entry = JObj d /\ lookup "confidence" d = Some c /\
    py_gt c (JFloat f0_7) = Ok true.
Proof.
  unfold SemanticValidator.validate_for_consolidation.
  destruct entry as [| | | | | |d]; try discriminate.
  cbn [py_get bind]. unfold dict_get.
  destruct (lookup "confidence" d) as [c|] eqn:Hc.
  - unfold py_le at 1, py_gt, py_lt, SemanticValidator.CONSOLIDATION_THRESHOLD.
    unfold as_num at 1. destruct (to_num c) as [n|] eqn:Hn; [|discriminate].
    cbn [bind as_num to_num].
    destruct (num_leb n (NFloat f0_7)) eqn:Hle; [discriminate|].
    destruct (SemanticValidator.validate d None) as [res|] eqn:Hv;
      [|discriminate].
    cbn [bind]. destruct (valid res) eqn:Hvalid; [|discriminate].
    intros _. exists d, c. split; [reflexivity|]. split; [exact Hc|].
    destruct (valid_validate d res Hv Hvalid) as (r3 & H3 & Hv3).
    assert (Hnn : c <> JNull) by (intros ->; discriminate).
    destruct (valid__validate_confidence d c r3 Hc Hnn H3 Hv3)
      as (n' & Hn' & H0 & _).
    assert (n' = n) by congruence. subst n'.
    unfold as_num. rewrite Hn. cbn [bind].
    unfold f0_7 in *. now rewrite (not_leb_ltb n _ _ _ H0 Hle).
  - intros H. exfalso. revert H.
    change (py_le (JFloat F.zero)
              (JFloat SemanticValidator.CONSOLIDATION_THRESHOLD))
      with (@Ok bool true).
    cbn [bind]. discriminate.
Qed.

(** The filter of [_merge_semantic] admits only buffered dictionaries whose
    confidence is strictly above 0.7, with or without the validator. *)
Lemma passes_filter_threshold (m : MSP) (entry : json) :
  passes_filter m entry = Ok true ->
  exists d c,
    entry = JObj d /\ lookup "confidence" d = Some c /\
    py_gt c (JFloat f0_7) = Ok true.
Proof.
  unfold passes_filter. intros Hk. destruct (semantic_validator m).
  - apply validate_for_consolidation_true.
    destruct (SemanticValidator.validate_for_consolidation entry)
      as [[|]|]; [reflexivity| |discriminate].
    cbn [bind] in Hk.
    destruct (py_get entry "confidence" (JInt 0)) as [c|]; [|discriminate].
    cbn [bind] in Hk. destruct (format_2f c); discriminate.
  - destruct entry as [| | | | | |d]; try discriminate.
    cbn [py_get bind] in Hk. unfold dict_get in Hk.
    destruct (lookup "confidence" d) as [c|] eqn:Hc.
    + exists d, c. auto.
    + exfalso. revert Hk.
      change (py_gt (JInt 0) (JFloat f0_7)) with (@Ok bool false).
      discriminate.
Qed.

(** The entries admitted are the buffered entries that pass the filter. *)
Lemma admitted_passes (m : MSP) (entries adm : list json) :
  admitted m entries = Ok adm ->
  forall e, In e adm <-> In e entries /\ passes_filter m e = Ok true.
Proof.
  revert adm. induction entries as [|entry rest IH]; intros adm H e.
  - inversion H; subst. cbn. tauto.
  - cbn [admitted] in H.
    destruct (passes_filter m entry) as [keep|] eqn:Hk; [|discriminate].
    cbn [bind] in H.
    destruct (admitted m rest) as [more|] eqn:Hm; [|discriminate].
    cbn [bind] in H. inversion H; subst adm; clear H.
    specialize (IH more eq_refl e). cbn [In].
    destruct keep; cbn [In]; rewrite IH; intuition (subst; congruence).
Qed.

(** The filter of [_merge_semantic] admits only buffered dictionaries whose
    confidence is strictly above 0.7, with or without the validator. *)
Lemma admitted_threshold (m : MSP) (entries adm : list json) :
  admitted m entries = Ok adm ->
  forall e, In e adm ->
    In e entries /\
    exists d c,
      e = JObj d /\ lookup "confidence" d = Some c /\
      py_gt c (JFloat f0_7) = Ok true.
Proof.
  intros H e Hin. apply (admitted_passes m entries adm H) in Hin.
  destruct Hin as [Hin Hp]. split; [exact Hin|].
  now apply passes_filter_threshold with (m := m).
Qed.

(** ** What [write_semantic] stores *)

Lemma lookup_dict_set_same (k : string) (v : json) (d : dict) :
  lookup k (dict_set k v d) = Some v.
Proof.
  induction d as [|[k' v'] rest IH]; cbn [dict_set lookup].
  - now rewrite String.eqb_refl.
  - destruct (String.eqb k k') eqn:E; cbn [lookup]; rewrite ?String.eqb_refl, ?E;
      [reflexivity|exact IH].
Qed.

Lemma lookup_dict_set_other (k k' : string) (v : json) (d : dict) :
  String.eqb k k' = false -> lookup k (dict_set k' v d) = lookup k d.
Proof.
  intros Hk. induction d as [|[k'' v''] rest IH]; cbn [dict_set lookup].
  - now rewrite Hk.
  - destruct (String.eqb k' k'') eqn:E; cbn [lookup].
    + apply String.eqb_eq in E. subst k''. now rewrite Hk.
    + now rewrite IH.
Qed.

Lemma append_to_ok (data : json) (key : string) (item j : json) :
  append_to data key item = Ok j ->
  exists d items,
    data = JObj d /\ lookup key d = Some (JList items) /\
    j = JObj (dict_set key (JList (items ++ [item])) d).
Proof.
  unfold append_to. destruct data as [| | | | | |d]; try discriminate.
  cbn [subscript]. destruct (lookup key d) as [l|] eqn:E; [|discriminate].
  cbn [bind]. destruct l as [| | | | |items|]; try discriminate.
  intros H. inversion H. eauto.
Qed.

Lemma semantic_checkpoint_keys (m : MSP) (fr : F.float -> string)
  (proposal_data : dict) (existing_entries : json) (p : dict) :
  semantic_checkpoint m fr proposal_data existing_entries = Ok p ->
  p = proposal_data \/ exists x, p = dict_set "conflicts_with" x proposal_data.
Proof.
  unfold semantic_checkpoint.
  destruct (SemanticValidator.validate proposal_data (Some existing_entries))
    as [res|]; [|intros H; inversion H; now left].
  destruct (_ && _); [discriminate|].
  destruct (truthy _); intros H; inversion H; [right; eauto|now left].
Qed.

Lemma read_oracle_run (o : World -> nat -> string) (s : State) :
  read_oracle o s
  = (Ok (o (world s) (tick (world s))),
     {| self := self s; world := with_tick (world s) (S (tick (world s))) |}).
Proof. reflexivity. Qed.

Lemma get_instance_path_ok (s s1 : State) (p : path) :
  get_instance_path s = (Ok p, s1) ->
  s1 = s /\ exists i, instance_id (self s) = Some i /\
                      p = buffer_dir ++ [("instance_" ++ i)%string].
Proof.
  unfold get_instance_path, mbind, get_self, raise, ret. cbv beta iota.
  destruct (instance_id (self s)) as [i|]; intros H; inversion H.
  split; [reflexivity|]. eauto.
Qed.

(** ** C8 *)

(** The entry that [write_semantic] builds from the proposal and the
    initial entry. *)
Lemma written_entry (s s' : State) (concept definition episode_id : string)
  (turn_ids : option (list string)) (stakes_level : option StakesLevel)
  (semantic_id : string) :
  write_semantic concept definition episode_id turn_ids stakes_level s
    = (Ok semantic_id, s') ->
  exists i doc earlier entry0 proposal created updated,
    self s' = self s /\
    instance_id (self s) = Some i /\
    fs (world s') (semantic_file (buffer_dir ++ [("instance_" ++ i)%string]))
      = Some (File (Document (JObj doc))) /\
    lookup "entries" doc
      = Some (JList (earlier ++
          [JObj (dict_set "semantic_id" (JStr semantic_id)
                  (dict_set "last_updated" (JStr updated)
                    (dict_set "created_at" (JStr created)
                      (dict_update entry0 proposal))))])) /\
    (match confidence_updater (self s) with
     | Some cu =>
         exists st, create_initial_entry cu concept definition st = Ok entry0
     | None =>
         exists st,
           entry0 = [ ("concept", JStr concept);
                      ("definition", JStr definition);
                      ("epistemic_status", JStr "hypothesis");
                      ("confidence", JFloat f0_3);
                      ("stakes_level", JStr st) ]
     end) /\
    exists derived_from,
      let p := [ ("concept", JStr concept);
                 ("definition", JStr definition);
                 ("derived_from", derived_from) ] in
      proposal = p \/ exists x, proposal = dict_set "conflicts_with" x p.
Proof.
  intros H. unfold write_semantic in H.
  unfold mbind at 1 in H. unfold get_self at 1 in H. cbv beta iota in H.
  destruct (session_id (self s)) as [sid|]; [|discriminate].
  cbv zeta in H.
  set (p := [ ("concept", JStr concept); ("definition", JStr definition);
              ("derived_from", _) ]) in H.
  apply mbind_ok_inv in H. destruct H as (proposal & s1 & Hp & H).
  apply mbind_ok_inv in H. destruct H as (entry0 & s2 & He & H).
  assert (Hs1 : self s1 = self s /\
                (proposal = p \/ exists x, proposal = dict_set "conflicts_with" x p)).
  { destruct (negb _) in Hp; [|inversion Hp; auto].
    destruct (semantic_validator _) in Hp; [|inversion Hp; auto].
    apply mbind_ok_inv in Hp. destruct Hp as (ip & sa & Ha & Hp).
    apply get_instance_path_ok in Ha. destruct Ha as [-> _].
    unfold mbind in Hp. rewrite load_json_run in Hp.
    destruct (read_json _ _); [|discriminate]. unfold lift, get_world in Hp.
    cbv beta iota in Hp. destruct (py_get _ _ _); [|discriminate].
    cbv beta iota in Hp. inversion Hp as [[Hck Hst]].
    split; [reflexivity|]. eapply semantic_checkpoint_keys. exact Hck. }
  destruct Hs1 as [Hs1 Hprop].
  assert (Hs2 : self s2 = self s1)
    by (destruct (confidence_updater _) in He; inversion He; reflexivity).
  apply mbind_ok_inv in H. destruct H as (created & s3 & Hc & H).
  apply mbind_ok_inv in H. destruct H as (updated & s4 & Hu & H).
  apply mbind_ok_inv in H. destruct H as (u & s5 & Huu & H).
  apply mbind_ok_inv in H. destruct H as (ip & s6 & Hip & H).
  apply mbind_ok_inv in H. destruct H as (bd & s7 & Hbd & H).
  apply mbind_ok_inv in H. destruct H as (has & s8 & Hhas & H).
  apply mbind_ok_inv in H. destruct H as (bd' & s9 & Hbd' & H).
  apply mbind_ok_inv in H. destruct H as (bd'' & s10 & Happ & H).
  apply mbind_ok_inv in H. destruct H as ([] & s11 & Hsave & H).
  inversion H as [[Hid Hs11]]. subst s11. clear H.
  unfold now_iso, uuid4_hex in Hc, Hu, Huu. rewrite read_oracle_run in Hc, Hu, Huu.
  injection Hc as Hc1 Hc2. injection Hu as Hu1 Hu2. injection Huu as Huu1 Huu2.
  assert (Hs5 : self s5 = self s).
  { rewrite <- Huu2, <- Hu2, <- Hc2. cbn [self]. congruence. }
  apply get_instance_path_ok in Hip. destruct Hip as [-> (i & Hi & ->)].
  rewrite Hs5 in Hi.
  assert (Hs' : self s' = self s).
  { match type of Hsave with
    | save_json ?p _ _ = _ => pose proof (proj1 (safe_save_json p bd'' s10)) as K
    end.
    rewrite Hsave in K. cbn [snd] in K. rewrite K, <- Hs5.
    assert (E10 : s10 = s9) by (unfold lift in Happ; congruence).
    assert (E8 : s8 = s7) by (unfold lift in Hhas; congruence).
    assert (E7 : s7 = s5) by (rewrite load_json_run in Hbd; congruence).
    rewrite E10, <- E7, <- E8. clear - Hbd'.
    destruct has; cbn [negb] in Hbd'.
    - unfold ret in Hbd'. congruence.
    - unfold mbind, now_iso, ret in Hbd'. rewrite read_oracle_run in Hbd'.
      injection Hbd' as _ <-. reflexivity. }
  apply save_json_ok in Hsave.
  unfold lift in Happ. injection Happ as Happ' Hst.
  apply append_to_ok in Happ'. destruct Happ' as (d & items & _ & Hitems & ->).
  exists i. do 6 eexists.
  split; [exact Hs'|]. split; [exact Hi|]. split; [exact Hsave|].
  split; [apply lookup_dict_set_same|].
  split.
  - destruct (confidence_updater (self s)) as [cu|].
    + inversion He. eauto.
    + inversion He. eauto.
  - eexists. exact Hprop.
Qed.

Lemma last_app_one {A} (l : list A) (x d : A) : last (l ++ [x]) d = x.
Proof.
  induction l as [|a l IH]; [reflexivity|].
  cbn [app last]. destruct (l ++ [x]) eqn:E; [|exact IH].
  destruct l; discriminate.
Qed.

Lemma fresh_entry_below_threshold (entry : dict) (m : MSP) (bs adm : list json) :
  lookup "confidence" entry = Some (JFloat f0_3) ->
  admitted m bs = Ok adm -> ~ In (JObj entry) adm.
Proof.
  intros Hc Hadm Hin.
  destruct (admitted_threshold m bs adm Hadm _ Hin) as (_ & d & c & Hd & Hl & Hgt).
  injection Hd as <-. rewrite Hc in Hl. injection Hl as <-.
  vm_compute in Hgt. discriminate.
Qed.

(** C8 (amended).  The entry that [write_semantic] appends to the buffer
    carries the identifier returned, confidence 0.3 and the status
    [hypothesis], whatever the caller passed, and no consolidation admits
    it as it stands.  [resolution_state] is [unresolved] and
    [clarification_attempts] is 0 when the confidence updater is loaded;
    without it the entry has neither key. *)
Theorem C8_initial_semantic_entry (s s' : State)
  (concept definition episode_id : string) (turn_ids : option (list string))
  (stakes_level : option StakesLevel) (semantic_id : string) :
  (forall cu, confidence_updater (self s) = Some cu -> cu = ConfidenceUpdater_init) ->
  write_semantic concept definition episode_id turn_ids stakes_level s
    = (Ok semantic_id, s') ->
  exists entry,
    last_buffered s' = Some (JObj entry) /\
    lookup "semantic_id" entry = Some (JStr semantic_id) /\
    lookup "confidence" entry = Some (JFloat f0_3) /\
    lookup "epistemic_status" entry = Some (JStr "hypothesis") /\
    resolution_fields entry
      = match confidence_updater (self s) with
        | Some _ => (Some (JStr "unresolved"), Some (JInt 0))
        | None => (None, None)
        end /\
    forall m buffered adm,
      admitted m buffered = Ok adm -> ~ In (JObj entry) adm.
Proof.
  intros Hcu H.
  destruct (written_entry _ _ _ _ _ _ _ _ H)
    as (i & doc & earlier & entry0 & proposal & created & updated
        & Hs' & Hi & Hfs & Hdoc & He0 & dfrom & Hprop).
  eexists. split.
  { unfold last_buffered, buffered_semantic. rewrite Hs', Hi.
    unfold read_json. rewrite Hfs. cbn [bind].
    unfold entries_of, py_get, dict_get. rewrite Hdoc. cbn [bind py_iter].
    rewrite map_app. cbn [map]. apply last_app_one. }
  split; [apply lookup_dict_set_same|].
  destruct (confidence_updater (self s)) as [cu|];
    [ rewrite (Hcu cu eq_refl) in He0; destruct He0 as (st & He0);
      injection He0 as <-
    | destruct He0 as (st & ->) ];
    destruct Hprop as [->|(x & ->)];
    (split; [reflexivity|]); (split; [reflexivity|]); (split; [reflexivity|]);
    intros m bs adm; apply fresh_entry_below_threshold; reflexivity.
Qed.

Lemma C8_witness :
  exists entry,
    last_buffered
      (snd (write_semantic "seafood_allergy" "The user is allergic to seafood"
              "ep_S01_001_01234567" (Some ["t1"]) None
              (Sample.in_session Sample.state0)))
    = Some (JObj entry) /\
    lookup "confidence" entry = Some (JFloat f0_3) /\
    resolution_fields entry = (Some (JStr "unresolved"), Some (JInt 0)).
Proof.
  destruct (C8_initial_semantic_entry
              (Sample.in_session Sample.state0)
              (snd (write_semantic "seafood_allergy"
                      "The user is allergic to seafood"
                      "ep_S01_001_01234567" (Some ["t1"]) None
                      (Sample.in_session Sample.state0)))
              "seafood_allergy" "The user is allergic to seafood"
              "ep_S01_001_01234567" (Some ["t1"]) None "sem_S01_01234567")
    as (entry & Hlast & _ & Hc & _ & Hr & _).
  - intros cu H. vm_compute in H. injection H as <-. reflexivity.
  - vm_compute. reflexivity.
  - exists entry. split; [exact Hlast|]. split; [exact Hc|]. exact Hr.
Defined.

(** When the validators could not be built, [write_semantic] takes its
    fallback: the entry stored has confidence 0.3 and neither
    [resolution_state] nor [clarification_attempts]. *)
Lemma C8_counterexample :
  exists semantic_id s' entry,
    write_semantic "seafood_allergy" "The user is allergic to seafood"
      "ep_S01_001_01234567" (Some ["t1"]) None
      (Sample.in_session Sample.state0_bare)
    = (Ok semantic_id, s') /\
    last_buffered s' = Some (JObj entry) /\
    lookup "confidence" entry = Some (JFloat f0_3) /\
    lookup "resolution_state" entry = None /\
    lookup "clarification_attempts" entry = None.
Proof.
  do 3 eexists. split; [vm_compute; reflexivity|].
  split; [vm_compute; reflexivity|]. repeat split.
Qed.

(** ** C1 *)

Lemma py_eq_str_r (x : json) (k : string) :
  py_eq x (JStr k) = true -> x = JStr k.
Proof.
  destruct x as [| | | |a| |]; cbn; try discriminate.
  intros H. apply String.eqb_eq in H. now subst.
Qed.

Lemma py_eq_str_l (x : json) (k : string) :
  py_eq (JStr k) x = true -> x = JStr k.
Proof.
  destruct x as [| | | |a| |]; cbn; try discriminate.
  intros H. apply String.eqb_eq in H. now subst.
Qed.

Lemma py_eq_str_refl (k : string) : py_eq (JStr k) (JStr k) = true.
Proof. cbn. apply String.eqb_refl. Qed.

Lemma py_eq_str_false (c : json) (k : string) :
  c <> JStr k -> py_eq c (JStr k) = false.
Proof.
  intros H. destruct (py_eq c (JStr k)) eqn:E; [|reflexivity].
  now apply py_eq_str_r in E.
Qed.

Lemma cmap_get_slot (k : string) (cm : concept_map) :
  cmap_get (JStr k) cm = hd_error (slot k cm).
Proof.
  unfold slot. induction cm as [|[k' v] rest IH]; [reflexivity|].
  cbn [cmap_get filter fst]. destruct (py_eq k' (JStr k)); [reflexivity|exact IH].
Qed.

Lemma slot_set_same (k : string) (e : json) (cm : concept_map) :
  slot k (cmap_set (JStr k) e cm) = e :: tl (slot k cm).
Proof.
  unfold slot. induction cm as [|[k' v] rest IH].
  - cbn. now rewrite String.eqb_refl.
  - cbn [cmap_set filter fst].
    destruct (py_eq k' (JStr k)) eqn:E; cbn [filter fst]; rewrite E.
    + reflexivity.
    + exact IH.
Qed.

Lemma slot_set_other (k : string) (c e : json) (cm : concept_map) :
  c <> JStr k -> slot k (cmap_set c e cm) = slot k cm.
Proof.
  intros Hc. unfold slot. induction cm as [|[k' v] rest IH].
  - cbn [cmap_set filter fst]. now rewrite (py_eq_str_false c k Hc).
  - cbn [cmap_set filter fst].
    destruct (py_eq k' c) eqn:E; cbn [filter fst].
    + destruct (py_eq k' (JStr k)) eqn:E'; [|reflexivity].
      apply py_eq_str_r in E'. subst k'. apply py_eq_str_l in E.
      contradiction.
    + destruct (py_eq k' (JStr k)); cbn [map snd]; now rewrite IH.
Qed.

Lemma keyed_set (k : string) (c e : json) (cm : concept_map) :
  concept_of e = Ok c -> keyed k cm -> keyed k (cmap_set c e cm).
Proof.
  intros He. unfold keyed. induction cm as [|[k' v] rest IH]; intros H.
  - constructor; [|constructor]. cbn [fst snd]. unfold has_concept.
    now rewrite He.
  - inversion H as [|? ? Hhd Htl]; subst. cbn [cmap_set].
    destruct (py_eq k' c) eqn:E.
    + constructor; [|exact Htl]. cbn [fst snd]. unfold has_concept.
      rewrite He.
      destruct (py_eq c (JStr k)) eqn:E1.
      * apply py_eq_str_r in E1. subst c. apply py_eq_str_r in E.
        subst k'. symmetry. apply py_eq_str_refl.
      * destruct (py_eq k' (JStr k)) eqn:E2; [|reflexivity].
        apply py_eq_str_r in E2. subst k'. apply py_eq_str_l in E.
        subst c. now rewrite py_eq_str_refl in E1.
    + constructor; [exact Hhd|]. now apply IH.
Qed.

Lemma keyed_slot (k : string) (cm : concept_map) :
  keyed k cm -> filter (has_concept k) (map snd cm) = slot k cm.
Proof.
  unfold keyed, slot. induction cm as [|[k' v] rest IH]; intros H;
    [reflexivity|].
  inversion H as [|? ? Hhd Htl]; subst. cbn [map filter fst snd] in *.
  rewrite Hhd. destruct (py_eq k' (JStr k)); cbn [map snd]; now rewrite IH.
Qed.

Lemma keyed_slot_has (k : string) (cm : concept_map) (v : json) :
  keyed k cm -> In v (slot k cm) -> has_concept k v = true.
Proof.
  intros H Hin. rewrite <- (keyed_slot k cm H) in Hin.
  apply filter_In in Hin. tauto.
Qed.

(** An entry that has a concept is a dictionary with a key, so it is
    true. *)
Lemma has_concept_truthy (k : string) (v : json) :
  has_concept k v = true -> truthy v = true.
Proof.
  unfold has_concept, concept_of.
  destruct v as [| | | | | |d]; try discriminate.
  cbn [py_get]. unfold dict_get. destruct d; [discriminate|reflexivity].
Qed.

Lemma has_concept_key (k : string) (v : json) :
  has_concept k v = true <-> concept_of v = Ok (JStr k).
Proof.
  unfold has_concept. destruct (concept_of v) as [c|]; split; intros H;
    try discriminate.
  - now apply py_eq_str_r in H; subst.
  - injection H as ->. apply py_eq_str_refl.
Qed.

(** The two loops of the deduplication, seen from one concept. *)
Lemma index_master_slot (k : string) (old : list json) :
  k <> "" ->
  forall (cm cm' : concept_map) (best : option json),
    index_master old cm = Ok cm' -> keyed k cm -> slot k cm = opt_list best ->
    keyed k cm' /\ slot k cm' = opt_list (fold_left (latest k) old best).
Proof.
  intros Hk. induction old as [|entry rest IH]; intros cm cm' best H Hkey Hslot.
  - injection H as <-. auto.
  - cbn [index_master] in H.
    destruct (py_get entry "concept" JNull) as [concept|] eqn:Hc; [|discriminate].
    cbn [bind] in H. cbn [fold_left].
    assert (Hlatest : latest k best entry
                      = if py_eq concept (JStr k) then Some entry else best).
    { unfold latest, has_concept, concept_of. now rewrite Hc. }
    rewrite Hlatest.
    destruct (truthy concept) eqn:Ht.
    + destruct (negb (hashable concept)); [discriminate|].
      apply (IH _ _ _ H); [now apply keyed_set|].
      destruct (py_eq concept (JStr k)) eqn:E.
      * apply py_eq_str_r in E. subst concept.
        rewrite slot_set_same, Hslot. now destruct best.
      * rewrite slot_set_other; [exact Hslot|].
        intros ->. now rewrite py_eq_str_refl in E.
    + apply (IH _ _ _ H); [exact Hkey|].
      destruct (py_eq concept (JStr k)) eqn:E; [|exact Hslot].
      apply py_eq_str_r in E. subst concept. cbn in Ht.
      apply negb_false_iff, String.eqb_eq in Ht. contradiction.
Qed.

Lemma merge_new_slot (k : string) (adm : list json) :
  k <> "" ->
  forall (cm cm' : concept_map) (best : option json),
    merge_new adm cm = Ok cm' -> keyed k cm -> slot k cm = opt_list best ->
    keyed k cm' /\ slot k cm' = opt_list (fold_left (challenge k) adm best).
Proof.
  intros Hk. induction adm as [|entry rest IH]; intros cm cm' best H Hkey Hslot.
  - injection H as <-. auto.
  - cbn [merge_new] in H.
    destruct (py_get entry "concept" JNull) as [concept|] eqn:Hc; [|discriminate].
    cbn [bind] in H. cbn [fold_left].
    assert (Hhas : has_concept k entry = py_eq concept (JStr k)).
    { unfold has_concept, concept_of. now rewrite Hc. }
    unfold challenge at 2. rewrite Hhas.
    destruct (truthy concept) eqn:Ht.
    + destruct (negb (hashable concept)); [discriminate|].
      destruct (py_eq concept (JStr k)) eqn:E.
      * apply py_eq_str_r in E. subst concept.
        rewrite cmap_get_slot, Hslot in H.
        destruct best as [existing|]; cbn [opt_list hd_error] in H.
        -- assert (Hex : truthy existing = true).
           { apply (has_concept_truthy k), (keyed_slot_has k cm); [exact Hkey|].
             rewrite Hslot. now left. }
           rewrite Hex in H. unfold higher, confidence_of.
           destruct (py_get entry "confidence" (JInt 0)) as [c|];
             [|discriminate].
           destruct (py_get existing "confidence" (JInt 0)) as [c'|];
             [|discriminate].
           cbn [bind] in H |- *.
           destruct (py_gt c c') as [hi|]; [|discriminate].
           cbn [bind] in H. apply (IH _ _ _ H).
           ++ destruct hi; [now apply keyed_set|exact Hkey].
           ++ destruct hi; [|exact Hslot].
              now rewrite slot_set_same, Hslot.
        -- apply (IH _ _ _ H); [now apply keyed_set|].
           now rewrite slot_set_same, Hslot.
      * assert (Hne : concept <> JStr k)
          by (intros ->; now rewrite py_eq_str_refl in E).
        assert (Hset : keyed k (cmap_set concept entry cm) /\
                       slot k (cmap_set concept entry cm) = opt_list best).
        { split; [now apply keyed_set|]. now rewrite slot_set_other. }
        destruct Hset as [Hkey' Hslot'].
        destruct (cmap_get concept cm) as [existing|];
          [|now apply (IH _ _ _ H)].
        destruct (truthy existing); [|now apply (IH _ _ _ H)].
        destruct (py_get entry "confidence" (JInt 0)) as [c|]; [|discriminate].
        destruct (py_get existing "confidence" (JInt 0)) as [c'|];
          [|discriminate].
        cbn [bind] in H.
        destruct (py_gt c c') as [[|]|]; [| |discriminate]; cbn [bind] in H;
          now apply (IH _ _ _ H).
    + apply (IH _ _ _ H); [exact Hkey|].
      destruct (py_eq concept (JStr k)) eqn:E; [|exact Hslot].
      apply py_eq_str_r in E. subst concept. cbn in Ht.
      apply negb_false_iff, String.eqb_eq in Ht. contradiction.
Qed.

(** Where the values of the map come from. *)
Lemma cmap_set_values (c e : json) (cm : concept_map) (v : json) :
  In v (map snd (cmap_set c e cm)) -> v = e \/ In v (map snd cm).
Proof.
  induction cm as [|[k' v'] rest IH]; cbn [cmap_set map snd In].
  - intros [<-|[]]. now left.
  - destruct (py_eq k' c); cbn [map snd In]; intuition.
Qed.

Lemma index_master_values (old : list json) :
  forall (cm cm' : concept_map),
    index_master old cm = Ok cm' ->
    forall v, In v (map snd cm') -> In v old \/ In v (map snd cm).
Proof.
  induction old as [|entry rest IH]; intros cm cm' H v Hv.
  - injection H as <-. now right.
  - cbn [index_master] in H.
    destruct (py_get entry "concept" JNull) as [concept|]; [|discriminate].
    cbn [bind] in H. cbn [In].
    destruct (truthy concept).
    + destruct (negb (hashable concept)); [discriminate|].
      destruct (IH _ _ H v Hv) as [?|Hin]; [tauto|].
      apply cmap_set_values in Hin. intuition.
    + destruct (IH _ _ H v Hv); tauto.
Qed.

Lemma merge_new_values (adm : list json) :
  forall (cm cm' : concept_map),
    merge_new adm cm = Ok cm' ->
    forall v, In v (map snd cm') -> In v adm \/ In v (map snd cm).
Proof.
  induction adm as [|entry rest IH]; intros cm cm' H v Hv.
  - injection H as <-. now right.
  - cbn [merge_new] in H.
    destruct (py_get entry "concept" JNull) as [concept|]; [|discriminate].
    cbn [bind] in H. cbn [In].
    assert (Hset : forall cm1, merge_new rest (cmap_set concept entry cm) = Ok cm1 ->
                     In v (map snd cm1) -> (entry = v \/ In v rest) \/ In v (map snd cm)).
    { intros cm1 H1 Hv1. destruct (IH _ _ H1 v Hv1) as [?|Hin]; [tauto|].
      apply cmap_set_values in Hin. intuition. }
    assert (Hkeep : forall cm1, merge_new rest cm = Ok cm1 ->
                     In v (map snd cm1) -> (entry = v \/ In v rest) \/ In v (map snd cm)).
    { intros cm1 H1 Hv1. destruct (IH _ _ H1 v Hv1); tauto. }
    destruct (truthy concept); [|now apply (Hkeep cm')].
    destruct (negb (hashable concept)); [discriminate|].
    destruct (cmap_get concept cm) as [existing|]; [|now apply (Hset cm')].
    destruct (truthy existing); [|now apply (Hset cm')].
    destruct (py_get entry "confidence" (JInt 0)) as [c|]; [|discriminate].
    destruct (py_get existing "confidence" (JInt 0)) as [c'|]; [|discriminate].
    cbn [bind] in H.
    destruct (py_gt c c') as [[|]|]; [| |discriminate]; cbn [bind] in H;
      [now apply (Hset cm')|now apply (Hkeep cm')].
Qed.

(** Only the entries of the concept take part. *)
Lemma fold_latest_filter (k : string) (l : list json) (best : option json) :
  fold_left (latest k) l best
  = fold_left (latest k) (filter (has_concept k) l) best.
Proof.
  revert best. induction l as [|e l IH]; intros best; [reflexivity|].
  cbn [fold_left filter]. destruct (has_concept k e) eqn:E.
  - cbn [fold_left]. apply IH.
  - replace (latest k best e) with best by (unfold latest; now rewrite E).
    apply IH.
Qed.

Lemma fold_challenge_filter (k : string) (l : list json) (best : option json) :
  fold_left (challenge k) l best
  = fold_left (challenge k) (filter (has_concept k) l) best.
Proof.
  revert best. induction l as [|e l IH]; intros best; [reflexivity|].
  cbn [fold_left filter]. destruct (has_concept k e) eqn:E.
  - cbn [fold_left]. apply IH.
  - replace (challenge k best e) with best by (unfold challenge; now rewrite E).
    apply IH.
Qed.

(** The entries that [_merge_semantic] stores, for one concept. *)
Lemma merged_entries_survivor (m : MSP) (old buffered adm out : list json)
  (k : string) :
  k <> "" ->
  admitted m buffered = Ok adm ->
  merged_entries m old buffered = Ok out ->
  filter (has_concept k) out = opt_list (survivor k old adm).
Proof.
  intros Hk Hadm H. unfold merged_entries in H. rewrite Hadm in H.
  cbn [bind] in H.
  destruct (index_master old []) as [cm|] eqn:H1; [|discriminate].
  cbn [bind] in H.
  destruct (merge_new adm cm) as [cm'|] eqn:H2; [|discriminate].
  cbn [bind] in H. injection H as <-.
  destruct (index_master_slot k old Hk [] cm None H1) as [Hkey Hslot];
    [constructor|reflexivity|].
  destruct (merge_new_slot k adm Hk cm cm' _ H2 Hkey Hslot) as [Hkey' Hslot'].
  rewrite (keyed_slot k cm' Hkey'). exact Hslot'.
Qed.

Lemma merged_entries_origin (m : MSP) (old buffered adm out : list json) :
  admitted m buffered = Ok adm ->
  merged_entries m old buffered = Ok out ->
  forall e, In e out -> In e old \/ In e adm.
Proof.
  intros Hadm H e He. unfold merged_entries in H. rewrite Hadm in H.
  cbn [bind] in H.
  destruct (index_master old []) as [cm|] eqn:H1; [|discriminate].
  cbn [bind] in H.
  destruct (merge_new adm cm) as [cm'|] eqn:H2; [|discriminate].
  cbn [bind] in H. injection H as <-.
  destruct (merge_new_values adm cm cm' H2 e He) as [?|Hin]; [tauto|].
  destruct (index_master_values old [] cm H1 e Hin) as [?|[]]. tauto.
Qed.

(** What a successful [_merge_semantic] read and what it wrote. *)
Lemma _merge_semantic_ok (buffer_data : json) (s s' : State) :
  _merge_semantic buffer_data s = (Ok tt, s') ->
  exists master old buffered out d,
    master_semantic (fs (world s)) = Ok master /\
    entries_of master = Ok old /\
    entries_of buffer_data = Ok buffered /\
    merged_entries (self s) old buffered = Ok out /\
    py_items master = Ok d /\
    fs (world s') (semantic_file [])
    = Some (File (Document (JObj (dict_set "entries" (JList out) d)))).
Proof.
  intros H. unfold _merge_semantic in H.
  unfold mbind at 1 in H. rewrite load_json_run in H.
  destruct (read_json (fs (world s)) (semantic_file [])) as [md|] eqn:E1;
    [|discriminate].
  unfold mbind at 1 in H. unfold lift at 1 in H.
  destruct (str_in "entries" md) as [has|] eqn:E2; [|discriminate].
  cbv zeta in H.
  set (master := if negb has then JObj [("entries", JList [])] else md) in *.
  unfold mbind at 1 in H. unfold get_self at 1 in H. cbv beta iota in H.
  unfold mbind at 1 in H. unfold lift at 1 in H.
  destruct (py_get buffer_data "entries" (JList [])) as [bl|] eqn:E3;
    [|discriminate].
  unfold mbind at 1 in H. unfold lift at 1 in H.
  destruct (py_iter bl) as [buffered|] eqn:E4; [|discriminate].
  unfold mbind at 1 in H. unfold lift at 1 in H.
  destruct (admitted (self s) buffered) as [adm|] eqn:E5; [|discriminate].
  unfold mbind at 1 in H. unfold lift at 1 in H.
  destruct (py_get master "entries" (JList [])) as [ol|] eqn:E6; [|discriminate].
  unfold mbind at 1 in H. unfold lift at 1 in H.
  destruct (py_iter ol) as [old|] eqn:E7; [|discriminate].
  unfold mbind at 1 in H. unfold lift at 1 in H.
  destruct (index_master old []) as [cm|] eqn:E8; [|discriminate].
  unfold mbind at 1 in H. unfold lift at 1 in H.
  destruct (merge_new adm cm) as [cm'|] eqn:E9; [|discriminate].
  unfold mbind at 1 in H. unfold lift at 1 in H.
  destruct (py_items master) as [d|] eqn:E10; [|discriminate].
  apply save_json_ok in H.
  exists master, old, buffered, (map snd cm'), d.
  unfold master_semantic, entries_of, merged_entries.
  rewrite E1. cbn [bind]. rewrite E2. cbn [bind]. fold master.
  rewrite E3, E6. cbn [bind]. rewrite E4, E5, E7. cbn [bind].
  rewrite E8. cbn [bind]. rewrite E9. cbn [bind].
  repeat split; try reflexivity; assumption.
Qed.

Lemma has_key_dict_set (k : string) (v : json) (d : dict) :
  has_key k (dict_set k v d) = true.
Proof. unfold has_key. now rewrite lookup_dict_set_same. Qed.

Lemma survivor_pair (k : string) (old adm : list json) (o e : json) :
  filter (has_concept k) old = [o] -> filter (has_concept k) adm = [e] ->
  survivor k old adm = Some (if higher e o then e else o).
Proof.
  intros Ho He. unfold survivor.
  rewrite fold_challenge_filter, (fold_latest_filter k old), Ho, He.
  assert (Hko : has_concept k o = true).
  { assert (Hin : In o (filter (has_concept k) old)) by (rewrite Ho; now left).
    apply filter_In in Hin. tauto. }
  assert (Hke : has_concept k e = true).
  { assert (Hin : In e (filter (has_concept k) adm)) by (rewrite He; now left).
    apply filter_In in Hin. tauto. }
  cbn [fold_left]. unfold latest, challenge. rewrite Hko, Hke.
  now destruct (higher e o).
Qed.

Lemma survivor_new_pair (k : string) (old adm : list json) (e1 e2 : json) :
  filter (has_concept k) old = [] -> filter (has_concept k) adm = [e1; e2] ->
  survivor k old adm = Some (if higher e2 e1 then e2 else e1).
Proof.
  intros Ho He. unfold survivor.
  rewrite fold_challenge_filter, (fold_latest_filter k old), Ho, He.
  assert (Hin : forall e, In e [e1; e2] -> has_concept k e = true).
  { intros e Hin. rewrite <- He in Hin. apply filter_In in Hin. tauto. }
  cbn [fold_left]. unfold challenge.
  rewrite (Hin e1), (Hin e2) by (cbn; tauto).
  now destruct (higher e2 e1).
Qed.

(** C1.  A successful [_merge_semantic] stores entries of the master and
    buffered entries that passed the filter, and these have a confidence
    strictly above 0.7.  For each concept one entry remains: when the
    master holds one entry of the concept and one admitted entry shares it,
    the admitted one remains if its confidence is strictly higher, and the
    one of the master otherwise; of two admitted entries of a concept new
    to the master, the second remains if its confidence is strictly higher,
    and the first otherwise. *)
Theorem C1_semantic_merge (buffer_data : json) (s s' : State) :
  _merge_semantic buffer_data s = (Ok tt, s') ->
  exists master old buffered adm master' out,
    master_semantic (fs (world s)) = Ok master /\
    entries_of master = Ok old /\
    entries_of buffer_data = Ok buffered /\
    admitted (self s) buffered = Ok adm /\
    master_semantic (fs (world s')) = Ok master' /\
    entries_of master' = Ok out /\
    (forall e, In e adm <-> In e buffered /\ passes_filter (self s) e = Ok true) /\
    (forall e, passes_filter (self s) e = Ok true ->
       exists c, confidence_of e = Ok c /\ py_gt c (JFloat f0_7) = Ok true) /\
    (forall e, In e out -> In e old \/ In e adm) /\
    (forall k, k <> "" ->
       filter (has_concept k) out = opt_list (survivor k old adm)) /\
    (forall k o e, k <> "" ->
       filter (has_concept k) old = [o] -> filter (has_concept k) adm = [e] ->
       filter (has_concept k) out = [if higher e o then e else o]) /\
    (forall k e1 e2, k <> "" ->
       filter (has_concept k) old = [] -> filter (has_concept k) adm = [e1; e2] ->
       filter (has_concept k) out = [if higher e2 e1 then e2 else e1]).
Proof.
  intros H.
  destruct (_merge_semantic_ok buffer_data s s' H)
    as (master & old & buffered & out & d & Hm & Ho & Hb & Hout & Hd & Hfs).
  assert (Hadm : exists adm, admitted (self s) buffered = Ok adm).
  { unfold merged_entries in Hout.
    destruct (admitted (self s) buffered) as [adm|]; [eauto|discriminate]. }
  destruct Hadm as [adm Hadm].
  assert (Hsurv : forall k, k <> "" ->
            filter (has_concept k) out = opt_list (survivor k old adm)).
  { intros k Hk. now apply (merged_entries_survivor (self s) old buffered). }
  exists master, old, buffered, adm,
    (JObj (dict_set "entries" (JList out) d)), out.
  split; [exact Hm|]. split; [exact Ho|]. split; [exact Hb|].
  split; [exact Hadm|]. split.
  { unfold master_semantic, read_json. rewrite Hfs. cbn [bind str_in].
    now rewrite has_key_dict_set. }
  split.
  { unfold entries_of, py_get, dict_get. now rewrite lookup_dict_set_same. }
  split; [now apply admitted_passes|]. split.
  { intros e He. destruct (passes_filter_threshold _ _ He) as (de & c & -> & Hc & Hgt).
    exists c. split; [|exact Hgt].
    unfold confidence_of, py_get, dict_get. now rewrite Hc. }
  split; [now apply (merged_entries_origin (self s) old buffered)|].
  split; [exact Hsurv|]. split.
  - intros k o e Hk Hko Hke. rewrite (Hsurv k Hk).
    now rewrite (survivor_pair k old adm o e Hko Hke).
  - intros k e1 e2 Hk Hko Hke. rewrite (Hsurv k Hk).
    now rewrite (survivor_new_pair k old adm e1 e2 Hko Hke).
Qed.

Lemma C1_witness :
  exists out,
    SampleMerge.stored
      (snd (_merge_semantic SampleMerge.buffer SampleMerge.merge_state))
    = Ok out /\
    filter (has_concept "seafood_allergy") out = [SampleMerge.allergy_90] /\
    In SampleMerge.tea out /\ ~ In SampleMerge.coffee out.
Proof.
  destruct (C1_semantic_merge SampleMerge.buffer SampleMerge.merge_state
              (snd (_merge_semantic SampleMerge.buffer SampleMerge.merge_state)))
    as (master & old & buffered & adm & master' & out
        & Hm & Ho & Hb & Hadm & Hm' & Hout & _ & _ & _ & _ & Hpair & _).
  - vm_compute. reflexivity.
  - exists out. split; [unfold SampleMerge.stored; now rewrite Hm'|].
    vm_compute in Hm. injection Hm as <-.
    vm_compute in Ho. injection Ho as <-.
    vm_compute in Hb. injection Hb as <-.
    vm_compute in Hadm. injection Hadm as <-.
    split.
    + rewrite (Hpair "seafood_allergy" SampleMerge.allergy_72
                 SampleMerge.allergy_90);
        [vm_compute; reflexivity | discriminate
        | vm_compute; reflexivity | vm_compute; reflexivity].
    + vm_compute in Hm'. injection Hm' as <-.
      vm_compute in Hout. injection Hout as <-.
      split; [vm_compute; tauto|].
      vm_compute. intros [H|[H|[]]]; discriminate.
Defined.

(** The examples of the threshold and of the deduplication, through the
    whole of [consolidate_to_origin]: of two buffered entries at 0.69 and
    0.71 the second alone reaches Origin; of two buffered entries of one
    concept at 0.72 and 0.90, in either order, the one at 0.90 alone. *)
Lemma consolidation_examples :
  let after b := snd (consolidate_to_origin (SampleMerge.origin_with_buffer b)) in
  fst (consolidate_to_origin
         (SampleMerge.origin_with_buffer
            (SampleMerge.entries [SampleMerge.coffee; SampleMerge.tea])))
  = Ok (JInt 2) /\
  SampleMerge.stored (after (SampleMerge.entries [SampleMerge.coffee; SampleMerge.tea]))
  = Ok [SampleMerge.tea] /\
  SampleMerge.stored
    (after (SampleMerge.entries [SampleMerge.allergy_72; SampleMerge.allergy_90]))
  = Ok [SampleMerge.allergy_90] /\
  SampleMerge.stored
    (after (SampleMerge.entries [SampleMerge.allergy_90; SampleMerge.allergy_72]))
  = Ok [SampleMerge.allergy_90].
Proof. cbv zeta. repeat split; vm_compute; reflexivity. Qed.

(* ===================================================================== *)
(** * Further properties of the confidence engine *)
(* ===================================================================== *)

Lemma ltb_leb (x y : F.float) : F.ltb x y = true -> F.leb x y = true.
Proof.
  unfold F.ltb, F.leb, SFltb, SFleb.
  destruct (SFcompare x y) as [[| |]|]; congruence.
Qed.

(** A double that is below another one is a number. *)
Lemma ltb_compare_l (x y z : F.float) :
  F.ltb x y = true -> z <> S754_nan -> F.compare x z <> None.
Proof.
  unfold F.ltb, SFltb; intros H Hz.
  destruct x, y, z; simpl in *; congruence.
Qed.

Lemma leb_positive (m : positive) (e : Z) (x : F.float) :
  F.leb (S754_finite false m e) x = true -> F.ltb F.zero x = true.
Proof.
  unfold F.leb, F.ltb, SFleb, SFltb, F.zero.
  destruct x as [[|]|[|]| |[|] mx ex]; simpl; congruence.
Qed.

(** With integer counts, a turn of the loop of [calculate_confidence] takes
    a double to a double. *)
Lemma apply_signal_float (multipliers : Multipliers)
  (counts : list (UpdateSignal * Z)) (s : UpdateSignal) (x : F.float) :
  exists x',
    apply_signal multipliers (int_history counts) s (JFloat x) = Ok (JFloat x').
Proof.
  unfold apply_signal. cbv zeta. rewrite history_get_int.
  rewrite py_add_float_float.
  destruct s;
    cbn [SIGNAL_MODIFIERS modifier max_applications single_application
         force_confirmed bind Z.eqb andb signal_eqb signal_value String.eqb
         Ascii.eqb Bool.eqb EPISTEMIC_THRESHOLDS];
    try rewrite py_ge_int; try rewrite py_gt_int; cbn [bind];
    try (eexists; reflexivity).
  - destruct (3 <=? count_of REPEATED_OCCURRENCE counts)%Z; eexists; reflexivity.
  - destruct (3 <=? count_of CONSISTENT_RECALL counts)%Z; eexists; reflexivity.
  - destruct (0 <? count_of USER_AFFIRMATION counts)%Z; [eexists; reflexivity|].
    rewrite py_max_floor. eexists; reflexivity.
Qed.

Lemma confidence_loop_float (multipliers : Multipliers)
  (counts : list (UpdateSignal * Z)) (signals : list UpdateSignal) :
  forall (i : nat) (x : F.float),
  exists x',
    for_each
      (fun _ signal confidence =>
         apply_signal multipliers (int_history counts) signal confidence)
      i signals (JFloat x) = Ok (JFloat x').
Proof.
  induction signals as [|s rest IH]; intros i x; [eexists; reflexivity|].
  destruct (apply_signal_float multipliers counts s x) as [x1 E1].
  destruct (IH (S i) x1) as [x' E'].
  exists x'. cbn [for_each]. rewrite E1. exact E'.
Qed.

(** [max(0.0, min(1.0, x))] is a number of the unit interval, whatever the
    double [x]. *)
Lemma clamp_any (x : F.float) :
  exists r,
    (m <- py_min (JFloat F.one) (JFloat x) ;; py_max (JFloat F.zero) m)
    = Ok (JFloat r) /\
    in_unit_interval r /\
    r = (if F.ltb x F.one then if F.ltb F.zero x then x else F.zero else F.one).
Proof.
  unfold py_min, py_max, py_gt, py_lt, as_num, to_num. cbn [bind].
  change (num_ltb (NFloat x) (NFloat F.one)) with (F.ltb x F.one).
  destruct (F.ltb x F.one) eqn:E1; cbn [bind].
  - change (num_ltb (NFloat F.zero) (NFloat x)) with (F.ltb F.zero x).
    destruct (F.ltb F.zero x) eqn:E0.
    + exists x. repeat split; auto using ltb_leb.
    + exists F.zero. repeat split.
  - exists F.one. repeat split.
Qed.

Lemma calculate_confidence_loop_total (c : F.float)
  (signals : list UpdateSignal) (resolution_state : ResolutionState)
  (counts : list (UpdateSignal * Z)) :
  exists r,
    calculate_confidence (JFloat c) signals resolution_state
      (Some (int_history counts)) = Ok (JFloat r) /\
    in_unit_interval r.
Proof.
  unfold calculate_confidence.
  destruct (confidence_loop_float (RESOLUTION_MULTIPLIERS resolution_state)
              counts signals 0%nat c) as [x Ex].
  rewrite Ex. cbn [bind].
  destruct (clamp_any x) as (r & Er & Hr & _).
  exists r. split; [exact Er|exact Hr].
Qed.

(** X1.  Whatever the current confidence (a double, even one outside the
    unit interval or not a number), the batch of signals, the resolution
    state and the recorded counts, [calculate_confidence] returns, and what
    it returns is a number between 0 and 1. *)
Theorem calculate_confidence_in_unit_interval (c : F.float)
  (signals : list UpdateSignal) (resolution_state : ResolutionState)
  (counts : list (UpdateSignal * Z)) :
  exists r,
    calculate_confidence (JFloat c) signals resolution_state
      (Some (int_history counts)) = Ok (JFloat r) /\
    F.leb F.zero r = true /\ F.leb r F.one = true.
Proof.
  destruct (calculate_confidence_loop_total c signals resolution_state counts)
    as (r & Er & H0 & H1).
  exists r. auto.
Qed.

(** ** [update_entry] *)

Lemma signal_in_all (s : UpdateSignal) : In s all_signals.
Proof. destruct s; cbn; tauto. Qed.

(** The history that [update_entry] hands to [calculate_confidence] holds,
    for each signal, what the stored dictionary holds under its name. *)
Lemma history_get_of_dict (s : UpdateSignal) (h : dict) :
  history_get s (history_of_dict h) = dict_get (signal_value s) (JInt 0) h.
Proof.
  unfold dict_get. induction h as [|[key v] rest IH]; [reflexivity|].
  cbn [history_of_dict lookup]. unfold signal_of_value.
  destruct (find (fun s0 => String.eqb (signal_value s0) key) all_signals)
    as [s'|] eqn:E.
  - apply find_some in E. destruct E as [_ E]. apply String.eqb_eq in E.
    subst key. cbn [history_get]. unfold signal_eqb.
    destruct (String.eqb (signal_value s) (signal_value s')); [reflexivity|exact IH].
  - pose proof (find_none _ _ E s (signal_in_all s)) as Hn. cbn beta in Hn.
    rewrite Hn. exact IH.
Qed.

Lemma history_of_dict_int (h : dict) :
  int_counts h -> exists counts, history_of_dict h = int_history counts.
Proof.
  induction 1 as [|[key v] rest [n Hn] _ [counts IH]]; [now exists []|].
  cbn [snd] in Hn. subst v. cbn [history_of_dict].
  destruct (signal_of_value key) as [s|].
  - exists ((s, n) :: counts). cbn. now rewrite IH.
  - now exists counts.
Qed.

Lemma int_counts_get (k : string) (h : dict) :
  int_counts h -> exists n : Z, dict_get k (JInt 0) h = JInt n.
Proof.
  unfold dict_get. induction 1 as [|[key v] rest [n Hn] _ IH]; [now exists 0%Z|].
  cbn [lookup snd] in *. destruct (String.eqb k key); [now exists n|exact IH].
Qed.

Lemma int_counts_set (k : string) (n : Z) (h : dict) :
  int_counts h -> int_counts (dict_set k (JInt n) h).
Proof.
  induction 1 as [|[key v] rest Hv Hrest IH]; cbn [dict_set].
  - constructor; [now exists n|constructor].
  - destruct (String.eqb k key); constructor; auto. now exists n.
Qed.

Lemma dict_get_set_same (k : string) (v default : json) (d : dict) :
  dict_get k default (dict_set k v d) = v.
Proof. unfold dict_get. now rewrite lookup_dict_set_same. Qed.

Lemma dict_get_set_other (k k' : string) (v default : json) (d : dict) :
  String.eqb k k' = false ->
  dict_get k default (dict_set k' v d) = dict_get k default d.
Proof. intros H. unfold dict_get. now rewrite lookup_dict_set_other. Qed.

Lemma occurrences_cons (s x : UpdateSignal) (rest : list UpdateSignal) :
  occurrences s (x :: rest)
  = ((if signal_eqb s x then 1 else 0) + occurrences s rest)%Z.
Proof.
  unfold occurrences. cbn [filter].
  destruct (signal_eqb s x); cbn [List.length]; lia.
Qed.

(** The loop that records the batch: every signal of the batch is counted,
    applied or not. *)
Lemma record_loop (signals : list UpdateSignal) :
  forall (i : nat) (h : dict),
    int_counts h ->
    exists h',
      for_each
        (fun _ signal (h : dict) =>
           let signal_key := signal_value signal in
           n <- py_add_int (dict_get signal_key (JInt 0) h) 1 ;;
           Ok (dict_set signal_key n h))
        i signals h = Ok h' /\
      int_counts h' /\
      (forall s n,
         dict_get (signal_value s) (JInt 0) h = JInt n ->
         dict_get (signal_value s) (JInt 0) h'
         = JInt (n + occurrences s signals)) /\
      (forall k, (forall s, String.eqb k (signal_value s) = false) ->
                 lookup k h' = lookup k h).
Proof.
  induction signals as [|x rest IH]; intros i h Hh.
  - exists h. cbn [for_each]. repeat split; auto.
    intros s n ->. unfold occurrences. cbn. now rewrite Z.add_0_r.
  - destruct (int_counts_get (signal_value x) h Hh) as [nx Hx].
    set (h1 := dict_set (signal_value x) (JInt (nx + 1)) h).
    destruct (IH (S i) h1 (int_counts_set _ _ _ Hh)) as (h' & E & Hh' & Hc & Ho).
    exists h'. cbn [for_each]. cbv zeta. rewrite Hx.
    change (py_add_int (JInt nx) 1) with (@Ok json (JInt (nx + 1))).
    cbn [bind]. fold h1. split; [exact E|]. split; [exact Hh'|]. split.
    + intros s n Hs. rewrite occurrences_cons.
      destruct (signal_eqb s x) eqn:Es.
      * unfold signal_eqb in Es. apply String.eqb_eq in Es.
        rewrite Es in Hs. rewrite Hs in Hx. injection Hx as <-.
        rewrite (Hc s (n + 1)%Z); [f_equal; lia|].
        unfold h1. rewrite Es. apply dict_get_set_same.
      * rewrite (Hc s n); [f_equal; lia|].
        unfold h1. rewrite dict_get_set_other; [exact Hs|exact Es].
    + intros k Hk. rewrite (Ho k Hk). unfold h1.
      apply lookup_dict_set_other, Hk.
Qed.

(** What [update_entry] returns for an entry whose confidence is a double,
    whose resolution state is one of the three and whose history holds
    integers. *)
Lemma update_entry_ok (self : ConfidenceUpdater) (entry : dict)
  (signals : list UpdateSignal) (c : F.float) (st : ResolutionState) (h : dict) :
  dict_get "confidence" (JFloat (initial_confidence self)) entry = JFloat c ->
  resolution_of_value (dict_get "resolution_state" (JStr "unresolved") entry)
  = Ok st ->
  dict_get "signal_history" (JObj []) entry = JObj h ->
  int_counts h ->
  exists e r status h',
    update_entry self entry signals = Ok e /\
    calculate_confidence (JFloat c) signals st (Some (history_of_dict h))
    = Ok (JFloat r) /\
    in_unit_interval r /\
    get_epistemic_status (JFloat r) = Ok status /\
    lookup "confidence" e = Some (JFloat r) /\
    lookup "epistemic_status" e = Some (JStr (epistemic_value status)) /\
    lookup "signal_history" e = Some (JObj h') /\
    lookup "resolution_state" e
    = (if epistemic_eqb status CONFIRMED && resolution_eqb st UNRESOLVED
       then Some (JStr "resolved") else lookup "resolution_state" entry) /\
    (forall s n,
       dict_get (signal_value s) (JInt 0) h = JInt n ->
       dict_get (signal_value s) (JInt 0) h' = JInt (n + occurrences s signals)) /\
    (forall k,
       existsb (String.eqb k)
         ["confidence"; "epistemic_status"; "signal_history"; "resolution_state"]
       = false ->
       lookup k e = lookup k entry).
Proof.
  intros Hc Hst Hh Hint.
  destruct (history_of_dict_int h Hint) as [counts Hcounts].
  destruct (calculate_confidence_loop_total c signals st counts)
    as (r & Er & Hr).
  destruct (record_loop signals 0%nat h Hint) as (h' & Eh & _ & Hcount & _).
  pose proof (get_epistemic_status_float r) as Hstatus.
  set (status := if F.leb f0_80 r then CONFIRMED
                 else if F.leb f0_45 r then PROVISIONAL else HYPOTHESIS) in *.
  unfold update_entry. cbv zeta. rewrite Hc, Hst, Hh. cbn [bind py_items].
  rewrite Hcounts, Er. cbn [bind]. cbv zeta in Eh. rewrite Eh. cbn [bind]. rewrite Hstatus.
  cbn [bind].
  eexists. exists r, status, h'.
  split; [reflexivity|]. split; [reflexivity|]. split; [exact Hr|].
  split; [exact Hstatus|].
  assert (Hk : forall k v d, String.eqb "resolution_state" k = false ->
            lookup k (if epistemic_eqb status CONFIRMED && resolution_eqb st UNRESOLVED
                      then dict_set "resolution_state" v d else d) = lookup k d).
  { intros k v d Hne.
    destruct (epistemic_eqb status CONFIRMED && resolution_eqb st UNRESOLVED);
      [|reflexivity].
    apply lookup_dict_set_other. now rewrite String.eqb_sym. }
  split.
  { rewrite Hk by reflexivity.
    rewrite !lookup_dict_set_other by reflexivity. apply lookup_dict_set_same. }
  split.
  { rewrite Hk by reflexivity.
    rewrite lookup_dict_set_other by reflexivity. apply lookup_dict_set_same. }
  split.
  { rewrite Hk by reflexivity. apply lookup_dict_set_same. }
  split.
  { destruct (epistemic_eqb status CONFIRMED && resolution_eqb st UNRESOLVED).
    - apply lookup_dict_set_same.
    - now rewrite !lookup_dict_set_other by reflexivity. }
  split; [exact Hcount|].
  intros k Hkeys. cbn [existsb] in Hkeys.
  apply orb_false_elim in Hkeys. destruct Hkeys as [K1 Hkeys].
  apply orb_false_elim in Hkeys. destruct Hkeys as [K2 Hkeys].
  apply orb_false_elim in Hkeys. destruct Hkeys as [K3 Hkeys].
  apply orb_false_elim in Hkeys. destruct Hkeys as [K4 _].
  rewrite Hk by (now rewrite String.eqb_sym).
  now rewrite !lookup_dict_set_other by assumption.
Qed.

(** X2.  On an entry whose confidence is a double, whose resolution state
    is one of the three and whose history holds integers, [update_entry]
    returns for every batch.  The confidence it stores lies between 0 and 1
    and the status it stores is the one of that confidence; every signal of
    the batch is counted in the history, as often as it occurs, whether its
    delta was applied or not; the keys that it does not manage stay. *)
Theorem update_entry_records_batch (self : ConfidenceUpdater) (entry : dict)
  (signals : list UpdateSignal) (c : F.float) (st : ResolutionState) (h : dict) :
  dict_get "confidence" (JFloat (initial_confidence self)) entry = JFloat c ->
  resolution_of_value (dict_get "resolution_state" (JStr "unresolved") entry)
  = Ok st ->
  dict_get "signal_history" (JObj []) entry = JObj h ->
  int_counts h ->
  exists e r status h',
    update_entry self entry signals = Ok e /\
    lookup "confidence" e = Some (JFloat r) /\
    F.leb F.zero r = true /\ F.leb r F.one = true /\
    get_epistemic_status (JFloat r) = Ok status /\
    lookup "epistemic_status" e = Some (JStr (epistemic_value status)) /\
    lookup "signal_history" e = Some (JObj h') /\
    (forall s n,
       dict_get (signal_value s) (JInt 0) h = JInt n ->
       dict_get (signal_value s) (JInt 0) h' = JInt (n + occurrences s signals)) /\
    (forall k,
       existsb (String.eqb k)
         ["confidence"; "epistemic_status"; "signal_history"; "resolution_state"]
       = false ->
       lookup k e = lookup k entry).
Proof.
  intros Hc Hst Hh Hint.
  destruct (update_entry_ok self entry signals c st h Hc Hst Hh Hint)
    as (e & r & status & h' & He & _ & [H0 H1] & Hs & Lc & Ls & Lh & _ & Hn & Ho).
  exists e, r, status, h'. repeat split; assumption.
Qed.

Lemma update_entry_records_batch_witness :
  exists e h',
    update_entry ConfidenceUpdater_init SampleEntry.seen_thrice
      [REPEATED_OCCURRENCE; CONFLICT_DETECTED; REPEATED_OCCURRENCE] = Ok e /\
    lookup "signal_history" e = Some (JObj h') /\
    dict_get "repeated_occurrence" (JInt 0) h' = JInt 5 /\
    dict_get "conflict_detected" (JInt 0) h' = JInt 1.
Proof.
  destruct (update_entry_records_batch ConfidenceUpdater_init
              SampleEntry.seen_thrice
              [REPEATED_OCCURRENCE; CONFLICT_DETECTED; REPEATED_OCCURRENCE]
              f0_3 UNRESOLVED [("repeated_occurrence", JInt 3)])
    as (e & r & status & h' & He & _ & _ & _ & _ & _ & Lh & Hn & _).
  - reflexivity.
  - reflexivity.
  - reflexivity.
  - constructor; [exists 3%Z; reflexivity|constructor].
  - exists e, h'. split; [exact He|]. split; [exact Lh|]. split.
    + exact (Hn REPEATED_OCCURRENCE 3%Z eq_refl).
    + exact (Hn CONFLICT_DETECTED 0%Z eq_refl).
Defined.

(** The confidence after a first [USER_AFFIRMATION]. *)
Lemma affirmation_confidence (c : F.float) (st : ResolutionState)
  (signal_history : history) (r : F.float) :
  history_get USER_AFFIRMATION signal_history = JInt 0 ->
  calculate_confidence (JFloat c) [USER_AFFIRMATION] st (Some signal_history)
  = Ok (JFloat r) ->
  F.leb f0_80 r = true /\ F.leb r F.one = true.
Proof.
  intros Hh. unfold calculate_confidence. cbn [for_each].
  unfold apply_signal. cbv zeta. rewrite Hh.
  cbn [SIGNAL_MODIFIERS modifier max_applications single_application
       force_confirmed bind andb signal_eqb signal_value String.eqb
       Ascii.eqb Bool.eqb EPISTEMIC_THRESHOLDS].
  rewrite py_gt_int. cbn [Z.ltb Z.compare bind].
  rewrite py_add_float_float. cbn [bind]. rewrite py_max_floor. cbn [bind].
  set (x := F.add c _).
  destruct (clamp_any (floor_080 x)) as (r' & Er & [_ H1] & Hr).
  rewrite Er. intros E. injection E as <-. split; [|exact H1].
  rewrite Hr. unfold floor_080. destruct (F.ltb x f0_80) eqn:E8.
  - reflexivity.
  - destruct (F.ltb x F.one) eqn:E1; [|reflexivity].
    assert (Hge : F.leb f0_80 x = true).
    { destruct (leb_or_ltb x f0_80) as [Hlt|Hge]; [|congruence|exact Hge].
      apply (ltb_compare_l x F.one); [exact E1|discriminate]. }
    unfold f0_80 in Hge. rewrite (leb_positive _ _ _ Hge). exact Hge.
Qed.

(** X3.  A first [USER_AFFIRMATION] confirms: whatever the confidence
    before (a double) and whatever the resolution state, [update_entry]
    with that one signal stores a confidence between 0.80 and 1 and the
    status [confirmed], counts the affirmation, and resolves an entry that
    was unresolved. *)
Theorem user_affirmation_confirms (self : ConfidenceUpdater) (entry : dict)
  (c : F.float) (st : ResolutionState) (h : dict) :
  dict_get "confidence" (JFloat (initial_confidence self)) entry = JFloat c ->
  resolution_of_value (dict_get "resolution_state" (JStr "unresolved") entry)
  = Ok st ->
  dict_get "signal_history" (JObj []) entry = JObj h ->
  int_counts h ->
  dict_get "user_affirmation" (JInt 0) h = JInt 0 ->
  exists e r h',
    update_entry self entry [USER_AFFIRMATION] = Ok e /\
    lookup "confidence" e = Some (JFloat r) /\
    F.leb f0_80 r = true /\ F.leb r F.one = true /\
    lookup "epistemic_status" e = Some (JStr "confirmed") /\
    lookup "resolution_state" e
    = (match st with
       | UNRESOLVED => Some (JStr "resolved")
       | _ => lookup "resolution_state" entry
       end) /\
    lookup "signal_history" e = Some (JObj h') /\
    dict_get "user_affirmation" (JInt 0) h' = JInt 1.
Proof.
  intros Hc Hst Hh Hint Hua.
  destruct (update_entry_ok self entry [USER_AFFIRMATION] c st h Hc Hst Hh Hint)
    as (e & r & status & h' & He & Er & _ & Hs & Lc & Ls & Lh & Lr & Hn & _).
  destruct (affirmation_confidence c st (history_of_dict h) r) as [H8 H1];
    [now rewrite history_get_of_dict|exact Er|].
  rewrite get_epistemic_status_float, H8 in Hs. injection Hs as <-.
  exists e, r, h'. repeat split; try assumption.
  - rewrite Lr. now destruct st.
  - exact (Hn USER_AFFIRMATION 0%Z Hua).
Qed.

Lemma user_affirmation_confirms_witness :
  exists e,
    update_entry ConfidenceUpdater_init SampleEntry.seen_thrice
      [USER_AFFIRMATION] = Ok e /\
    lookup "epistemic_status" e = Some (JStr "confirmed") /\
    lookup "resolution_state" e = Some (JStr "resolved").
Proof.
  destruct (user_affirmation_confirms ConfidenceUpdater_init
              SampleEntry.seen_thrice f0_3 UNRESOLVED
              [("repeated_occurrence", JInt 3)])
    as (e & r & h' & He & _ & _ & _ & Ls & Lr & _).
  - reflexivity.
  - reflexivity.
  - reflexivity.
  - constructor; [exists 3%Z; reflexivity|constructor].
  - reflexivity.
  - exists e. auto.
Defined.

(** ** The clarification loop *)

Lemma stakes_of_value_value (st : StakesLevel) :
  stakes_of_value (JStr (stakes_value st)) = Ok st.
Proof. destruct st; reflexivity. Qed.

Lemma should_ask_clarification_int (entry : dict) (n : Z) (st : StakesLevel) :
  dict_get "clarification_attempts" (JInt 0) entry = JInt n ->
  dict_get "stakes_level" (JStr "medium") entry = JStr (stakes_value st) ->
  should_ask_clarification entry
  = Ok (n <? MAX_CLARIFICATION_ATTEMPTS st)%Z.
Proof.
  intros Hn Hs. unfold should_ask_clarification, check_clarification_limit.
  cbv zeta. rewrite Hn, Hs, stakes_of_value_value. cbn [bind].
  rewrite py_ge_int. cbn [bind]. now rewrite Z.ltb_antisym.
Qed.

Lemma clarify_counts (k : nat) :
  forall (entry : dict) (n : Z),
    dict_get "clarification_attempts" (JInt 0) entry = JInt n ->
    exists e,
      clarify k entry = Ok e /\
      dict_get "clarification_attempts" (JInt 0) e = JInt (n + Z.of_nat k) /\
      forall key, String.eqb key "clarification_attempts" = false ->
                  lookup key e = lookup key entry.
Proof.
  induction k as [|k IH]; intros entry n Hn.
  - exists entry. cbn [clarify]. now rewrite Z.add_0_r.
  - cbn [clarify]. unfold increment_clarification_attempt. rewrite Hn.
    change (py_add_int (JInt n) 1) with (@Ok json (JInt (n + 1))).
    cbn [bind].
    destruct (IH (dict_set "clarification_attempts" (JInt (n + 1)) entry)
                (n + 1)%Z (dict_get_set_same _ _ _ _)) as (e & E & Hc & Ho).
    exists e. split; [exact E|]. split.
    + rewrite Hc. f_equal. lia.
    + intros key Hk. rewrite (Ho key Hk). now apply lookup_dict_set_other.
Qed.

(** X4.  The loop protection of the clarification questions: on the entry
    that [create_initial_entry] builds for a topic of stakes [st], after
    [k] clarification attempts [should_ask_clarification] answers yes
    exactly while [k] is below the limit of [st] (2 for low, 3 for medium,
    4 for high stakes). *)
Theorem clarification_loop_bounded (self : ConfidenceUpdater)
  (concept definition : string) (st : StakesLevel) (k : nat) :
  exists e0 ek,
    create_initial_entry self concept definition st = Ok e0 /\
    clarify k e0 = Ok ek /\
    should_ask_clarification ek
    = Ok (Z.of_nat k <? MAX_CLARIFICATION_ATTEMPTS st)%Z /\
    (should_ask_clarification ek = Ok true <->
     (k < match st with LOW => 2 | MEDIUM => 3 | HIGH => 4 end)%nat).
Proof.
  unfold create_initial_entry. rewrite get_epistemic_status_float.
  cbn [bind]. eexists.
  match goal with
  | |- exists ek, Ok ?e = Ok _ /\ _ =>
      destruct (clarify_counts k e 0%Z eq_refl) as (ek & E & Hc & Ho)
  end.
  exists ek. split; [reflexivity|]. split; [exact E|].
  assert (Hask : should_ask_clarification ek
                 = Ok (Z.of_nat k <? MAX_CLARIFICATION_ATTEMPTS st)%Z).
  { apply should_ask_clarification_int; [exact Hc|].
    unfold dict_get. now rewrite Ho by reflexivity. }
  split; [exact Hask|]. rewrite Hask.
  destruct st; cbn [MAX_CLARIFICATION_ATTEMPTS];
    (split; [intros H; injection H as H; apply Z.ltb_lt in H; lia
            |intros H; f_equal; apply Z.ltb_lt; lia]).
Qed.

(** ** The forced exit *)

Lemma force_exit_loop_unresolved (entry : dict) :
  dict_get "resolution_state" JNull entry = JStr "unresolved" ->
  force_exit_loop entry
  = dict_set "forced_exit" (JBool true)
      (dict_set "resolution_state" (JStr "suppressed") entry).
Proof. intros H. unfold force_exit_loop. now rewrite H. Qed.

(** X5.  [force_exit_loop] changes an entry only while it is unresolved,
    and a second call changes nothing more.  After the forced exit of an
    unresolved entry (confidence a double between 0 and 1, integer counts),
    [update_entry] with a batch that holds no [USER_AFFIRMATION] returns an
    entry with the same confidence, still suppressed and still marked as
    forced. *)
Theorem forced_exit_freezes (self : ConfidenceUpdater) (entry : dict)
  (signals : list UpdateSignal) (c : F.float) (h : dict) :
  dict_get "resolution_state" JNull entry = JStr "unresolved" ->
  dict_get "confidence" (JFloat (initial_confidence self)) entry = JFloat c ->
  F.leb F.zero c = true -> F.leb c F.one = true ->
  dict_get "signal_history" (JObj []) entry = JObj h ->
  int_counts h ->
  existsb (signal_eqb USER_AFFIRMATION) signals = false ->
  force_exit_loop (force_exit_loop entry) = force_exit_loop entry /\
  exists e r,
    update_entry self (force_exit_loop entry) signals = Ok e /\
    lookup "confidence" e = Some (JFloat r) /\
    F.eqb r c = true /\
    lookup "resolution_state" e = Some (JStr "suppressed") /\
    lookup "forced_exit" e = Some (JBool true).
Proof.
  intros Hu Hc H0 H1 Hh Hint Hno.
  rewrite (force_exit_loop_unresolved entry Hu).
  set (entry' := dict_set "forced_exit" (JBool true)
                   (dict_set "resolution_state" (JStr "suppressed") entry)).
  assert (Hs' : dict_get "resolution_state" JNull entry' = JStr "suppressed").
  { unfold entry'. rewrite dict_get_set_other by reflexivity.
    apply dict_get_set_same. }
  split.
  { unfold force_exit_loop. now rewrite Hs'. }
  assert (Hc' : dict_get "confidence" (JFloat (initial_confidence self)) entry'
                = JFloat c).
  { unfold entry'. now rewrite !dict_get_set_other by reflexivity. }
  assert (Hh' : dict_get "signal_history" (JObj []) entry' = JObj h).
  { unfold entry'. now rewrite !dict_get_set_other by reflexivity. }
  assert (Hst' : resolution_of_value
                   (dict_get "resolution_state" (JStr "unresolved") entry')
                 = Ok SUPPRESSED).
  { unfold entry'. rewrite dict_get_set_other by reflexivity.
    now rewrite dict_get_set_same. }
  destruct (update_entry_ok self entry' signals c SUPPRESSED h Hc' Hst' Hh' Hint)
    as (e & r & status & h' & He & Er & _ & _ & Lc & _ & _ & Lr & _ & Ho).
  exists e, r. split; [exact He|]. split; [exact Lc|].
  assert (Hin : in_unit_interval c) by (split; assumption).
  split; [|split].
  - destruct (history_of_dict_int h Hint) as [counts Hcounts].
    rewrite Hcounts in Er. unfold calculate_confidence in Er.
    destruct (suppressed_loop counts signals 0%nat c Hin) as (x & Ex & Hx & Sx).
    rewrite Ex in Er. cbn [bind] in Er.
    destruct (clamp_unit_interval x Hx) as (r' & Er' & Sr).
    rewrite Er' in Er. injection Er as <-.
    apply same_number_eqb; [|exact Hin].
    eapply same_number_trans; [exact Sr|].
    unfold pending_affirmation in Sx. rewrite Hno in Sx. exact Sx.
  - rewrite Lr. replace (resolution_eqb SUPPRESSED UNRESOLVED) with false
      by reflexivity.
    rewrite andb_false_r. unfold entry'.
    rewrite lookup_dict_set_other by reflexivity. apply lookup_dict_set_same.
  - rewrite Ho by reflexivity. unfold entry'. apply lookup_dict_set_same.
Qed.

Lemma forced_exit_freezes_witness :
  exists e,
    update_entry ConfidenceUpdater_init
      (force_exit_loop SampleEntry.seen_thrice)
      [CONTRADICTION_BY_USER; IMPLICIT_USER_SIGNAL] = Ok e /\
    lookup "resolution_state" e = Some (JStr "suppressed").
Proof.
  destruct (forced_exit_freezes ConfidenceUpdater_init SampleEntry.seen_thrice
              [CONTRADICTION_BY_USER; IMPLICIT_USER_SIGNAL] f0_3
              [("repeated_occurrence", JInt 3)])
    as (_ & e & r & He & _ & _ & Lr & _).
  - reflexivity.
  - reflexivity.
  - reflexivity.
  - reflexivity.
  - reflexivity.
  - constructor; [exists 3%Z; reflexivity|constructor].
  - reflexivity.
  - exists e. auto.
Defined.

(** ** Conflicts between semantic entries *)

(** X25.  On existing entries that are dictionaries, for a new entry whose
    [conflicts_with] is absent or a list, [detect_conflict] returns.  What
    it returns is the concept of an existing entry that has the concept of
    the new entry with another definition, or whose concept the new entry
    lists; and it returns [None] only when no existing entry is in either
    case, so an entry that repeats the definitions in place conflicts with
    nothing. *)
Theorem detect_conflict_sound_complete (new_entry : dict)
  (existing_entries conflicts_with : list json) :
  Forall (fun e => is_dict e = true) existing_entries ->
  dict_get "conflicts_with" (JList []) new_entry = JList conflicts_with ->
  exists r,
    detect_conflict new_entry (JList existing_entries) = Ok r /\
    (forall c, r = Some c ->
       exists d,
         In (JObj d) existing_entries /\
         c = dict_get "concept" (JStr "") d /\
         ((py_eq c (dict_get "concept" (JStr "") new_entry) = true /\
           py_eq (dict_get "definition" JNull d)
             (dict_get "definition" JNull new_entry) = false) \/
          existsb (fun y => py_eq y c) conflicts_with = true)) /\
    (r = None ->
     forall d,
       In (JObj d) existing_entries ->
       (py_eq (dict_get "concept" (JStr "") d)
          (dict_get "concept" (JStr "") new_entry) = true ->
        py_eq (dict_get "definition" JNull d)
          (dict_get "definition" JNull new_entry) = true) /\
       existsb (fun y => py_eq y (dict_get "concept" (JStr "") d))
         conflicts_with = false).
Proof.
  intros Hdicts Hlisted. unfold detect_conflict. cbv zeta. cbn [py_iter bind].
  induction existing_entries as [|e rest IH].
  - exists None. split; [reflexivity|]. split; [discriminate|].
    intros _ d [].
  - inversion Hdicts as [|? ? He Hrest]; subst.
    destruct e as [| | | | | |d0]; try discriminate He.
    cbn [detect_conflict_loop py_get bind]. rewrite Hlisted. cbn [py_in bind].
    destruct (py_eq (dict_get "concept" (JStr "") d0)
                (dict_get "concept" (JStr "") new_entry)) eqn:Ec;
      [destruct (py_eq (dict_get "definition" JNull d0)
                   (dict_get "definition" JNull new_entry)) eqn:Ed|];
      cbn [negb andb].
    + destruct (existsb (fun y => py_eq y (dict_get "concept" (JStr "") d0))
                  conflicts_with) eqn:El.
      * eexists. split; [reflexivity|]. split; [|discriminate].
        intros c Hc. injection Hc as <-. exists d0.
        split; [now left|]. split; [reflexivity|]. now right.
      * destruct (IH Hrest) as (r & Hr & Hsome & Hnone).
        exists r. split; [exact Hr|]. split.
        -- intros c Hc. destruct (Hsome c Hc) as (d & Hin & Hd).
           exists d. split; [now right|exact Hd].
        -- intros Hn d [Hd|Hin]; [|exact (Hnone Hn d Hin)].
           injection Hd as <-. split; [intros _; exact Ed|exact El].
    + eexists. split; [reflexivity|]. split; [|discriminate].
      intros c Hc. injection Hc as <-. exists d0.
      split; [now left|]. split; [reflexivity|]. left. auto.
    + destruct (existsb (fun y => py_eq y (dict_get "concept" (JStr "") d0))
                  conflicts_with) eqn:El.
      * eexists. split; [reflexivity|]. split; [|discriminate].
        intros c Hc. injection Hc as <-. exists d0.
        split; [now left|]. split; [reflexivity|]. now right.
      * destruct (IH Hrest) as (r & Hr & Hsome & Hnone).
        exists r. split; [exact Hr|]. split.
        -- intros c Hc. destruct (Hsome c Hc) as (d & Hin & Hd).
           exists d. split; [now right|exact Hd].
        -- intros Hn d [Hd|Hin]; [|exact (Hnone Hn d Hin)].
           injection Hd as <-. split; [intros K; congruence|exact El].
Qed.

Lemma detect_conflict_sound_complete_witness :
  exists c,
    detect_conflict
      [("concept", JStr "user_likes_tea"); ("definition", JStr "likes tea")]
      (JList [JObj [("concept", JStr "user_likes_tea");
                    ("definition", JStr "prefers coffee")]])
    = Ok (Some c).
Proof.
  destruct (detect_conflict_sound_complete
              [("concept", JStr "user_likes_tea"); ("definition", JStr "likes tea")]
              [JObj [("concept", JStr "user_likes_tea");
                     ("definition", JStr "prefers coffee")]]
              [])
    as (r & Hr & _ & Hnone).
  - repeat constructor.
  - reflexivity.
  - destruct r as [c|]; [exists c; exact Hr|].
    destruct (Hnone eq_refl _ (or_introl eq_refl)) as [Hsame _].
    specialize (Hsame eq_refl). discriminate Hsame.
Defined.

(* ===================================================================== *)
(** * Further properties of the validators *)
(* ===================================================================== *)

(** ** Results only grow *)

Lemma grows_refl (r : ValidationResult) : grows r r.
Proof. exists []. now rewrite app_nil_r, andb_true_r. Qed.

Lemma grows_trans (a b c : ValidationResult) :
  grows a b -> grows b c -> grows a c.
Proof.
  intros (m1 & E1 & V1) (m2 & E2 & V2). exists (m1 ++ m2).
  rewrite E2, E1, app_assoc. split; [reflexivity|].
  rewrite V2, V1.
  destruct m1, m2; cbn; rewrite ?andb_true_r, ?andb_false_r; reflexivity.
Qed.

Lemma grows_add_error (m : message) (r : ValidationResult) :
  grows r (add_error m r).
Proof. exists [m]. cbn. now rewrite andb_false_r. Qed.

Lemma grows_add_warning (m : message) (r : ValidationResult) :
  grows r (add_warning m r).
Proof. exists []. cbn. now rewrite app_nil_r, andb_true_r. Qed.

Lemma grows_add_info (m : message) (r : ValidationResult) :
  grows r (add_info m r).
Proof. exists []. cbn. now rewrite app_nil_r, andb_true_r. Qed.

Lemma grows_set_context (k : string) (v : json) (r : ValidationResult) :
  grows r (set_context k v r).
Proof. exists []. cbn. now rewrite app_nil_r, andb_true_r. Qed.

Lemma grows_sound (r r' : ValidationResult) : sound r -> grows r r' -> sound r'.
Proof.
  unfold sound. intros H (more & E & V). rewrite V, E, H.
  destruct (errors r), more; reflexivity.
Qed.

Lemma grows_invalid (r r' : ValidationResult) :
  grows r r' -> valid r = false -> valid r' = false.
Proof. intros (more & _ & V) H. now rewrite V, H. Qed.

Lemma sound_create : sound _create_result.
Proof. reflexivity. Qed.

Lemma sound_merge (a b : ValidationResult) :
  sound a -> sound b -> sound (merge a b).
Proof.
  unfold sound. cbn. intros -> ->.
  destruct (errors a), (errors b); reflexivity.
Qed.

Lemma yields_ok {A} (P : A -> Prop) (a : A) : P a -> yields P (Ok a).
Proof. intros H b E. now injection E as <-. Qed.

Lemma yields_raise {A} (P : A -> Prop) (e : exn) : yields P (Raise e).
Proof. intros b E. discriminate. Qed.

Lemma yields_bind {A B} (P : B -> Prop) (m : result A) (k : A -> result B) :
  (forall a, m = Ok a -> yields P (k a)) -> yields P (bind m k).
Proof.
  intros H b E. destruct m as [a|e]; [|discriminate]. exact (H a eq_refl b E).
Qed.

Lemma for_each_grows {A} (f : nat -> A -> ValidationResult -> result ValidationResult) :
  (forall i x acc, yields (grows acc) (f i x acc)) ->
  forall l i acc, yields (grows acc) (for_each f i l acc).
Proof.
  intros Hf. induction l as [|x rest IH]; intros i acc.
  - apply yields_ok, grows_refl.
  - cbn [for_each]. apply yields_bind. intros acc' E r Er.
    eapply grows_trans; [exact (Hf i x acc acc' E)|exact (IH _ _ r Er)].
Qed.

Lemma fold_left_grows {A} (f : ValidationResult -> A -> ValidationResult) :
  (forall acc x, grows acc (f acc x)) ->
  forall l acc, grows acc (fold_left f l acc).
Proof.
  intros Hf. induction l as [|x rest IH]; intros acc; [apply grows_refl|].
  cbn [fold_left]. eapply grows_trans; [apply Hf|apply IH].
Qed.

Lemma grows__check_enum_value (value : json) (valid_values : list string)
  (field_name : string) (r : ValidationResult) :
  grows r (_check_enum_value value valid_values field_name r).
Proof.
  unfold _check_enum_value.
  destruct (negb _); [apply grows_add_error|apply grows_refl].
Qed.

Lemma grows__check_range (value : json) (lo hi : F.float) (field_name : string)
  (r : ValidationResult) :
  grows r (_check_range value lo hi field_name r).
Proof.
  unfold _check_range. destruct (to_num value); [|apply grows_add_error].
  destruct (negb _); [apply grows_add_error|apply grows_refl].
Qed.

Lemma grows__check_required_fields (data : json) (required : list string)
  (r : ValidationResult) (path : string) :
  yields (grows r) (_check_required_fields data required r path).
Proof.
  unfold _check_required_fields. apply for_each_grows.
  intros i field acc. apply yields_bind. intros present _.
  apply yields_ok. destruct present; [apply grows_refl|apply grows_add_error].
Qed.

(** The recursive scan for forbidden fields. *)
Lemma grows__scan_for_forbidden_fields :
  forall (data : json) (forbidden : list string) (res : ValidationResult)
         (p : string),
    grows res (_scan_for_forbidden_fields data forbidden res p).
Proof.
  fix IH 1. intros data forbidden res p.
  destruct data as [| | | | | |d]; try apply grows_refl.
  cbn [_scan_for_forbidden_fields].
  revert res.
  induction d as [|[key value] rest IHd]; intros res; [apply grows_refl|].
  cbv beta iota zeta fix.
  eapply grows_trans; [|apply IHd].
  assert (Hstep : forall r : ValidationResult,
            grows r
              match value with
              | JList l =>
                  (fix elems (i : nat) (l0 : list json) (res1 : ValidationResult)
                     {struct l0} : ValidationResult :=
                     match l0 with
                     | [] => res1
                     | item :: more =>
                         elems (S i) more
                           match item with
                           | JObj _ =>
                               _scan_for_forbidden_fields item forbidden res1
                                 ((if negb (p =? "")
                                   then (p ++ "." ++ key)%string
                                   else key) ++ "[" ++ str_of_nat i ++ "]")
                           | _ => res1
                           end
                     end) 0%nat l r
              | JObj _ =>
                  _scan_for_forbidden_fields value forbidden r
                    (if negb (p =? "") then (p ++ "." ++ key)%string else key)
              | _ => r
              end).
  { intros r. pose proof (IH value forbidden r) as IHv.
    destruct value as [| | | | |l|d']; try apply grows_refl.
    - clear IHv. generalize 0%nat. revert r.
      induction l as [|item more IHl]; intros r n; [apply grows_refl|].
      cbv beta iota zeta fix. eapply grows_trans; [|apply IHl].
      pose proof (IH item forbidden r) as IHi.
      destruct item; try apply grows_refl. apply IHi.
    - apply IHv. }
  destruct (existsb (String.eqb key) forbidden).
  - eapply grows_trans; [apply grows_add_error|].
    match goal with |- grows ?r _ => pose proof (Hstep r) as H end.
    destruct value; exact H.
  - pose proof (Hstep res) as H. destruct value; exact H.
Qed.

(** One key at a time. *)
Lemma scan_cons (key : string) (value : json) (rest : dict)
  (forbidden : list string) (res : ValidationResult) (p : string) :
  _scan_for_forbidden_fields (JObj ((key, value) :: rest)) forbidden res p
  = _scan_for_forbidden_fields (JObj rest) forbidden
      (_scan_for_forbidden_fields (JObj [(key, value)]) forbidden res p) p.
Proof. reflexivity. Qed.

Lemma yields_grows_trans (r0 r : ValidationResult)
  (m : result ValidationResult) :
  grows r0 r -> yields (grows r) m -> yields (grows r0) m.
Proof. intros H Hm a E. eapply grows_trans; [exact H|exact (Hm a E)]. Qed.

Lemma yields_bind_grows (r0 : ValidationResult)
  (m : result ValidationResult) (k : ValidationResult -> result ValidationResult) :
  yields (grows r0) m ->
  (forall a, grows r0 a -> yields (grows r0) (k a)) ->
  yields (grows r0) (bind m k).
Proof.
  intros Hm Hk. apply yields_bind. intros a E. exact (Hk a (Hm a E)).
Qed.

(** The calls whose result grows, at the end of a computation. *)
Ltac grow_call := fail.

(** Decomposing a goal about a result that grew. *)
Ltac grow :=
  lazymatch goal with
  | H : grows ?r ?x |- grows ?r ?x => exact H
  | |- grows ?r ?r => apply grows_refl
  | H : grows ?y ?x |- grows _ ?x =>
      apply (grows_trans _ y); [grow|exact H]
  | |- grows _ (add_error _ ?x) =>
      apply (grows_trans _ x); [grow|apply grows_add_error]
  | |- grows _ (add_warning _ ?x) =>
      apply (grows_trans _ x); [grow|apply grows_add_warning]
  | |- grows _ (add_info _ ?x) =>
      apply (grows_trans _ x); [grow|apply grows_add_info]
  | |- grows _ (set_context _ _ ?x) =>
      apply (grows_trans _ x); [grow|apply grows_set_context]
  | |- grows _ (_check_enum_value _ _ _ ?x) =>
      apply (grows_trans _ x); [grow|apply grows__check_enum_value]
  | |- grows _ (_check_range _ _ _ _ ?x) =>
      apply (grows_trans _ x); [grow|apply grows__check_range]
  | |- grows _ (_scan_for_forbidden_fields _ _ ?x _) =>
      apply (grows_trans _ x); [grow|apply grows__scan_for_forbidden_fields]
  | |- grows _ (fold_left _ _ ?x) =>
      apply (grows_trans _ x);
      [grow
      |apply fold_left_grows; intros;
       try match goal with p : (_ * _)%type |- _ => destruct p end; grow]
  | |- grows _ (if ?c then _ else _) => destruct c; grow
  | |- grows _ (match ?c with _ => _ end) => destruct c; grow
  | |- grows _ (let _ := _ in _) => cbv zeta; grow
  | |- yields _ (Ok _) => apply yields_ok; grow
  | |- yields _ (Raise _) => apply yields_raise
  | |- yields _ (bind _ _) =>
      first
        [ apply yields_bind_grows; [grow|intros; grow]
        | apply yields_bind; intros; grow ]
  | |- yields _ (if ?c then _ else _) => destruct c; grow
  | |- yields _ (match ?c with _ => _ end) => destruct c; grow
  | |- yields _ (let _ := _ in _) => cbv zeta; grow
  | |- yields _ (_check_required_fields _ _ ?x _) =>
      apply (yields_grows_trans _ x); [grow|apply grows__check_required_fields]
  | |- _ => grow_call
  end.

(** ** The phases of the validators *)

Lemma for_each_rel {A B} (R : B -> B -> Prop)
  (f : nat -> A -> B -> result B) :
  (forall b, R b b) -> (forall a b c, R a b -> R b c -> R a c) ->
  (forall i x acc acc', f i x acc = Ok acc' -> R acc acc') ->
  forall l i acc r, for_each f i l acc = Ok r -> R acc r.
Proof.
  intros Hrefl Htrans Hf. induction l as [|x rest IH]; intros i acc r E.
  - injection E as <-. apply Hrefl.
  - cbn [for_each] in E. destruct (f i x acc) as [acc'|] eqn:E1; [|discriminate].
    cbn [bind] in E. eapply Htrans; [exact (Hf _ _ _ _ E1)|exact (IH _ _ _ E)].
Qed.

Lemma grows_check_enum_if_present (obj : json) (key : string)
  (valid_values : list string) (field_name : string) (r : ValidationResult) :
  yields (grows r)
    (EpisodicValidator.check_enum_if_present obj key valid_values field_name r).
Proof. unfold EpisodicValidator.check_enum_if_present. grow. Qed.

Lemma grows__validate_affective_inference (affective : json) (path : string)
  (r : ValidationResult) :
  grows r (EpisodicValidator._validate_affective_inference affective path r).
Proof. unfold EpisodicValidator._validate_affective_inference. grow. Qed.

Lemma grows_validate_turn (i : nat) (turn : json)
  (st st' : ValidationResult * list json) :
  EpisodicValidator.validate_turn i turn st = Ok st' -> grows (fst st) (fst st').
Proof.
  destruct st as [res seen]. unfold EpisodicValidator.validate_turn.
  destruct turn as [| | | | | |d];
    try (intros E; injection E as <-; cbn [fst]; grow).
  destruct (lookup "turn_id" d) as [turn_id|].
  - destruct (negb (hashable turn_id)); [discriminate|]. cbn [bind].
    intros E. injection E as <-. cbn [fst].
    apply (grows_trans _ (if existsb (fun x => py_eq x turn_id) seen
                          then add_error [L "Duplicate turn_id: '"; V turn_id; L "'"] res
                          else res)); [grow|].
    match goal with
    | |- grows ?r _ => generalize r
    end.
    intros r.
    destruct (lookup "speaker" d), (lookup "affective_inference" d);
      repeat first [apply grows_refl
                   |eapply grows_trans;
                    [|apply grows__validate_affective_inference]
                   |apply grows__check_enum_value].
  - cbn [bind]. intros E. injection E as <-. cbn [fst].
    apply (grows_trans _ (add_error [L "Turn ["; L (str_of_nat i);
                                     L "] missing 'turn_id'"] res)); [grow|].
    match goal with
    | |- grows ?r _ => generalize r
    end.
    intros r.
    destruct (lookup "speaker" d), (lookup "affective_inference" d);
      repeat first [apply grows_refl
                   |eapply grows_trans;
                    [|apply grows__validate_affective_inference]
                   |apply grows__check_enum_value].
Qed.

Lemma grows__validate_turns (turns : json) (r : ValidationResult) :
  yields (grows r) (EpisodicValidator._validate_turns turns r).
Proof.
  unfold EpisodicValidator._validate_turns.
  destruct turns as [| | | | |l|]; try (apply yields_ok; grow).
  apply yields_bind. intros st E. apply yields_ok.
  change r with (fst (r, @nil json)).
  revert E. apply (for_each_rel (fun a b => grows (fst a) (fst b))).
  - intros b. apply grows_refl.
  - intros a b c. apply grows_trans.
  - intros i x acc acc'. apply grows_validate_turn.
Qed.

Ltac grow_call ::=
  lazymatch goal with
  | |- yields _ (EpisodicValidator.check_enum_if_present _ _ _ _ ?x) =>
      apply (yields_grows_trans _ x); [grow|apply grows_check_enum_if_present]
  | |- yields _ (EpisodicValidator._validate_turns _ ?x) =>
      apply (yields_grows_trans _ x); [grow|apply grows__validate_turns]
  end.

Lemma sound__phase1_structural (episode_data : dict) (ri_level : string) :
  yields (grows _create_result)
    (EpisodicValidator._phase1_structural episode_data ri_level).
Proof. unfold EpisodicValidator._phase1_structural. grow. Qed.

Lemma sound__phase2_epistemic (episode_data : dict) :
  yields (grows _create_result) (EpisodicValidator._phase2_epistemic episode_data).
Proof.
  unfold EpisodicValidator._phase2_epistemic. cbv zeta. apply yields_bind_grows.
  - apply (yields_grows_trans _ (add_info [L "Phase 2: Epistemic validation"]
                                   _create_result)); [grow|].
    apply for_each_grows. intros i field acc. grow.
  - intros a Ha. destruct (lookup "turns" episode_data); [|grow].
    apply yields_bind. intros l _. apply (yields_grows_trans _ a); [grow|].
    apply for_each_grows. intros i turn acc. grow.
Qed.

Lemma grows_check_axis (obj : dict) (missing : message) (key field_name : string)
  (r : ValidationResult) :
  grows r (EpisodicValidator.check_axis obj missing key field_name r).
Proof. unfold EpisodicValidator.check_axis. grow. Qed.

Lemma grows__validate_eva_matrix (eva_matrix : json) (r : ValidationResult) :
  grows r (EpisodicValidator._validate_eva_matrix eva_matrix r).
Proof.
  unfold EpisodicValidator._validate_eva_matrix.
  destruct eva_matrix; try grow. cbv zeta.
  match goal with
  | |- grows _ (match _ with [] => ?x | _ => _ end) =>
      apply (grows_trans _ x)
  end.
  - apply fold_left_grows. intros acc axis. apply grows_check_axis.
  - destruct (keys_minus _ _); grow.
Qed.

Lemma grows__validate_qualia (qualia : json) (r : ValidationResult) :
  grows r (EpisodicValidator._validate_qualia qualia r).
Proof.
  unfold EpisodicValidator._validate_qualia.
  destruct qualia; try grow. cbv zeta.
  match goal with
  | |- grows _ (match _ with [] => ?x | _ => _ end) =>
      apply (grows_trans _ x)
  end.
  - apply grows_check_axis.
  - destruct (keys_minus _ _); grow.
Qed.

Lemma grows__validate_reflex (reflex : json) (r : ValidationResult) :
  grows r (EpisodicValidator._validate_reflex reflex r).
Proof.
  unfold EpisodicValidator._validate_reflex.
  destruct reflex; try grow. cbv zeta.
  match goal with
  | |- grows _ (match _ with [] => ?x | _ => _ end) =>
      apply (grows_trans _ x)
  end.
  - apply grows_check_axis.
  - destruct (keys_minus _ _); grow.
Qed.

Lemma grows_state_section (indexed_state : json) (key : string)
  (validate : json -> ValidationResult -> ValidationResult)
  (r : ValidationResult) :
  (forall v x, grows x (validate v x)) ->
  yields (grows r) (EpisodicValidator.state_section indexed_state key validate r).
Proof.
  intros Hv. unfold EpisodicValidator.state_section.
  apply yields_bind. intros present _. destruct present; [|grow].
  apply yields_bind. intros v _. apply yields_ok. apply Hv.
Qed.

Lemma sound__phase3_state (episode_data : dict) :
  yields (grows _create_result) (EpisodicValidator._phase3_state episode_data).
Proof.
  unfold EpisodicValidator._phase3_state. cbv zeta.
  apply yields_bind. intros indexed_state _.
  destruct (negb (truthy indexed_state)); [grow|].
  apply yields_bind_grows.
  { apply (yields_grows_trans _ (add_info [L "Phase 3: State validation"]
                                   _create_result)); [grow|].
    apply grows_state_section, grows__validate_eva_matrix. }
  intros a Ha. apply yields_bind_grows.
  { apply (yields_grows_trans _ a); [grow|].
    apply grows_state_section, grows__validate_qualia. }
  intros b Hb. apply (yields_grows_trans _ b); [grow|].
  apply grows_state_section, grows__validate_reflex.
Qed.

Lemma sound__phase4_crosslinks (episode_data : dict) :
  yields (grows _create_result) (EpisodicValidator._phase4_crosslinks episode_data).
Proof. unfold EpisodicValidator._phase4_crosslinks. grow. Qed.

Lemma sound__phase5_forbidden_content (episode_data : dict) :
  grows _create_result (EpisodicValidator._phase5_forbidden_content episode_data).
Proof. unfold EpisodicValidator._phase5_forbidden_content. grow. Qed.

Lemma grows_create_sound (r : ValidationResult) :
  grows _create_result r -> sound r.
Proof. apply grows_sound, sound_create. Qed.

(** The result of the five phases. *)
Lemma episodic_validate_phases (episode_data : dict) (ri_level : string)
  (res : ValidationResult) :
  EpisodicValidator.validate episode_data ri_level = Ok res ->
  exists r1 r2 r3 r4,
    EpisodicValidator._phase1_structural episode_data ri_level = Ok r1 /\
    EpisodicValidator._phase2_epistemic episode_data = Ok r2 /\
    EpisodicValidator._phase3_state episode_data = Ok r3 /\
    EpisodicValidator._phase4_crosslinks episode_data = Ok r4 /\
    res = merge (merge (merge (merge (merge _create_result r1) r2) r3) r4)
            (EpisodicValidator._phase5_forbidden_content episode_data).
Proof.
  unfold EpisodicValidator.validate. cbv zeta.
  destruct (EpisodicValidator._phase1_structural episode_data ri_level) as [r1|];
    [|discriminate].
  destruct (EpisodicValidator._phase2_epistemic episode_data) as [r2|];
    [|discriminate].
  destruct (EpisodicValidator._phase3_state episode_data) as [r3|];
    [|discriminate].
  destruct (EpisodicValidator._phase4_crosslinks episode_data) as [r4|];
    [|discriminate].
  cbn [bind]. intros E. injection E as <-. exists r1, r2, r3, r4. auto.
Qed.

Lemma sound_episodic_validate (episode_data : dict) (ri_level : string)
  (res : ValidationResult) :
  EpisodicValidator.validate episode_data ri_level = Ok res -> sound res.
Proof.
  intros E.
  destruct (episodic_validate_phases _ _ _ E)
    as (r1 & r2 & r3 & r4 & E1 & E2 & E3 & E4 & ->).
  repeat apply sound_merge; try apply sound_create.
  - exact (grows_create_sound _ (sound__phase1_structural _ _ _ E1)).
  - exact (grows_create_sound _ (sound__phase2_epistemic _ _ E2)).
  - exact (grows_create_sound _ (sound__phase3_state _ _ E3)).
  - exact (grows_create_sound _ (sound__phase4_crosslinks _ _ E4)).
  - exact (grows_create_sound _ (sound__phase5_forbidden_content _)).
Qed.

Lemma sound__validate_structure (entry : dict) :
  yields (grows _create_result) (SemanticValidator._validate_structure entry).
Proof. unfold SemanticValidator._validate_structure. grow. Qed.

Lemma sound__validate_concept_format (entry : dict) :
  yields (grows _create_result) (SemanticValidator._validate_concept_format entry).
Proof. unfold SemanticValidator._validate_concept_format. grow. Qed.

Lemma sound__validate_confidence (entry : dict) :
  yields (grows _create_result) (SemanticValidator._validate_confidence entry).
Proof. unfold SemanticValidator._validate_confidence. grow. Qed.

Lemma sound__validate_conflicts (entry : dict) (existing_entries : json) :
  yields (grows _create_result)
    (SemanticValidator._validate_conflicts entry existing_entries).
Proof. unfold SemanticValidator._validate_conflicts. grow. Qed.

Lemma sound_semantic_forbidden (entry : dict) :
  grows _create_result (SemanticValidator._validate_forbidden_fields entry).
Proof. unfold SemanticValidator._validate_forbidden_fields. grow. Qed.

(** The result of the phases of the semantic validator. *)
Lemma semantic_validate_phases (entry : dict) (existing_entries : option json)
  (res : ValidationResult) :
  SemanticValidator.validate entry existing_entries = Ok res ->
  exists r1 r2 r3 r4,
    SemanticValidator._validate_structure entry = Ok r1 /\
    SemanticValidator._validate_concept_format entry = Ok r2 /\
    SemanticValidator._validate_confidence entry = Ok r3 /\
    sound r4 /\
    res = merge (merge (merge (merge (merge _create_result r1) r2) r3) r4)
            (SemanticValidator._validate_forbidden_fields entry).
Proof.
  unfold SemanticValidator.validate. cbv zeta.
  destruct (SemanticValidator._validate_structure entry) as [r1|];
    [|discriminate].
  destruct (SemanticValidator._validate_concept_format entry) as [r2|];
    [|discriminate].
  destruct (SemanticValidator._validate_confidence entry) as [r3|];
    [|discriminate].
  cbn [bind].
  assert (Hplain :
    forall r, merge r (SemanticValidator._validate_forbidden_fields entry)
              = merge (merge r _create_result)
                  (SemanticValidator._validate_forbidden_fields entry)).
  { intros r. unfold merge at 3. cbn [valid errors warnings info context].
    rewrite andb_true_r, !app_nil_r. unfold dict_update. cbn [fold_left].
    now destruct r. }
  destruct existing_entries as [existing|].
  - destruct (truthy existing).
    + destruct (SemanticValidator._validate_conflicts entry existing)
        as [r4|] eqn:E4; [|discriminate].
      cbn [bind]. intros E. injection E as <-.
      exists r1, r2, r3, r4. repeat split; try reflexivity.
      exact (grows_create_sound _ (sound__validate_conflicts _ _ _ E4)).
    + cbn [bind]. intros E. injection E as <-.
      exists r1, r2, r3, _create_result. repeat split; try reflexivity.
      apply Hplain.
  - cbn [bind]. intros E. injection E as <-.
    exists r1, r2, r3, _create_result. repeat split; try reflexivity.
    apply Hplain.
Qed.

Lemma sound_semantic_validate (entry : dict) (existing_entries : option json)
  (res : ValidationResult) :
  SemanticValidator.validate entry existing_entries = Ok res -> sound res.
Proof.
  intros E.
  destruct (semantic_validate_phases _ _ _ E)
    as (r1 & r2 & r3 & r4 & E1 & E2 & E3 & H4 & ->).
  repeat apply sound_merge; try apply sound_create; try exact H4.
  - exact (grows_create_sound _ (sound__validate_structure _ _ E1)).
  - exact (grows_create_sound _ (sound__validate_concept_format _ _ E2)).
  - exact (grows_create_sound _ (sound__validate_confidence _ _ E3)).
  - exact (grows_create_sound _ (sound_semantic_forbidden _)).
Qed.

Lemma sound_sensory__validate_structure (entry : json) :
  yields (grows _create_result) (SensoryValidator._validate_structure entry).
Proof. unfold SensoryValidator._validate_structure. grow. Qed.

Lemma sound__validate_no_interpretation (entry : json) :
  yields (grows _create_result) (SensoryValidator._validate_no_interpretation entry).
Proof. unfold SensoryValidator._validate_no_interpretation. grow. Qed.

Lemma sound__validate_data_type (entry : json) :
  yields (grows _create_result) (SensoryValidator._validate_data_type entry).
Proof. unfold SensoryValidator._validate_data_type. grow. Qed.

Lemma sound_sensory_forbidden (entry : json) :
  grows _create_result (SensoryValidator._validate_forbidden_fields entry).
Proof. unfold SensoryValidator._validate_forbidden_fields. grow. Qed.

Lemma sensory_validate_phases (entry : json) (res : ValidationResult) :
  SensoryValidator.validate entry = Ok res ->
  exists r1 r2 r3,
    SensoryValidator._validate_structure entry = Ok r1 /\
    SensoryValidator._validate_no_interpretation entry = Ok r2 /\
    SensoryValidator._validate_data_type entry = Ok r3 /\
    res = merge (merge (merge (merge _create_result r1) r2) r3)
            (SensoryValidator._validate_forbidden_fields entry).
Proof.
  unfold SensoryValidator.validate. cbv zeta.
  destruct (SensoryValidator._validate_structure entry) as [r1|];
    [|discriminate].
  destruct (SensoryValidator._validate_no_interpretation entry) as [r2|];
    [|discriminate].
  destruct (SensoryValidator._validate_data_type entry) as [r3|];
    [|discriminate].
  cbn [bind]. intros E. injection E as <-. exists r1, r2, r3. auto.
Qed.

Lemma sound_sensory_validate (entry : json) (res : ValidationResult) :
  SensoryValidator.validate entry = Ok res -> sound res.
Proof.
  intros E.
  destruct (sensory_validate_phases _ _ E) as (r1 & r2 & r3 & E1 & E2 & E3 & ->).
  repeat apply sound_merge; try apply sound_create.
  - exact (grows_create_sound _ (sound_sensory__validate_structure _ _ E1)).
  - exact (grows_create_sound _ (sound__validate_no_interpretation _ _ E2)).
  - exact (grows_create_sound _ (sound__validate_data_type _ _ E3)).
  - exact (grows_create_sound _ (sound_sensory_forbidden _)).
Qed.

(** X6.  For the three validators, a result that [validate] returns is
    valid exactly when it holds no error: no check makes a result invalid
    without recording why, and an error is never recorded on a result that
    stays valid. *)
Theorem validation_result_valid_iff_no_error :
  (forall episode_data ri_level res,
     EpisodicValidator.validate episode_data ri_level = Ok res ->
     (valid res = true <-> errors res = [])) /\
  (forall entry existing_entries res,
     SemanticValidator.validate entry existing_entries = Ok res ->
     (valid res = true <-> errors res = [])) /\
  (forall entry res,
     SensoryValidator.validate entry = Ok res ->
     (valid res = true <-> errors res = [])).
Proof.
  assert (H : forall r, sound r -> (valid r = true <-> errors r = [])).
  { unfold sound. intros r ->. destruct (errors r); split; congruence. }
  split; [|split]; intros; apply H.
  - eapply sound_episodic_validate; eassumption.
  - eapply sound_semantic_validate; eassumption.
  - eapply sound_sensory_validate; eassumption.
Qed.

(** ** Forbidden fields *)

(** The loop over the elements of a list value. *)
Lemma scan_elements (forbidden : list string) (p : string) (l : list json) :
  forall (i : nat) (r : ValidationResult),
    let loop :=
      (fix elems (i : nat) (l0 : list json) (res1 : ValidationResult)
         {struct l0} : ValidationResult :=
         match l0 with
         | [] => res1
         | item :: more =>
             elems (S i) more
               match item with
               | JObj _ =>
                   _scan_for_forbidden_fields item forbidden res1
                     (p ++ "[" ++ str_of_nat i ++ "]")
               | _ => res1
               end
         end) in
    grows r (loop i l r) /\
    forall item,
      In item l ->
      (forall res q, valid (_scan_for_forbidden_fields item forbidden res q) = false) ->
      valid (loop i l r) = false.
Proof.
  induction l as [|x more IH]; intros i r loop.
  - split; [apply grows_refl|]. intros item [].
  - subst loop. cbv beta iota zeta fix.
    set (r1 := match x with
               | JObj _ => _scan_for_forbidden_fields x forbidden r
                             (p ++ "[" ++ str_of_nat i ++ "]")
               | _ => r
               end).
    assert (Hr1 : grows r r1).
    { unfold r1. destruct x; try apply grows_refl.
      apply grows__scan_for_forbidden_fields. }
    destruct (IH (S i) r1) as [Hg Hf]. cbv zeta in Hg, Hf.
    split; [eapply grows_trans; eassumption|].
    intros item [<-|Hin] Hitem.
    + eapply grows_invalid; [exact Hg|].
      unfold r1. pose proof (Hitem r) as Hx.
      pose proof (Hitem _create_result EmptyString) as Hc.
      destruct x; try apply Hx; discriminate Hc.
    + exact (Hf item Hin Hitem).
Qed.

(** What the scan does with one key. *)
Lemma scan_key (key : string) (value : json) (forbidden : list string)
  (res : ValidationResult) (p : string) :
  let r := _scan_for_forbidden_fields (JObj [(key, value)]) forbidden res p in
  grows res r /\
  (existsb (String.eqb key) forbidden = true -> valid r = false) /\
  (forall d', visited value d' ->
     (forall r0 q, valid (_scan_for_forbidden_fields value forbidden r0 q) = false) ->
     valid r = false) /\
  (forall l item,
     value = JList l -> In item l ->
     (forall r0 q, valid (_scan_for_forbidden_fields item forbidden r0 q) = false) ->
     valid r = false).
Proof.
  intros r. split; [apply grows__scan_for_forbidden_fields|].
  subst r. cbn [_scan_for_forbidden_fields]. cbv beta iota zeta fix.
  set (path := if negb (p =? "") then (p ++ "." ++ key)%string else key).
  set (r1 := if existsb (String.eqb key) forbidden
             then add_error [L "Forbidden field found: '"; L path; L "'"] res
             else res).
  split; [|split].
  - intros Hk.
    assert (Hv : valid r1 = false) by (unfold r1; now rewrite Hk).
    destruct value as [| | | | |l|d]; try exact Hv.
    + apply (grows_invalid r1); [|exact Hv].
      exact (proj1 (scan_elements forbidden path l 0%nat r1)).
    + apply (grows_invalid r1); [|exact Hv].
      apply grows__scan_for_forbidden_fields.
  - intros d' Hvis Hrec.
    inversion Hvis; subst; exact (Hrec r1 path).
  - intros l item -> Hin Hitem.
    exact (proj2 (scan_elements forbidden path l 0%nat r1) item Hin Hitem).
Qed.

(** A forbidden key of a visited dictionary makes the result invalid. *)
Lemma scan_visited (forbidden : list string) (k : string) :
  existsb (String.eqb k) forbidden = true ->
  forall (data : json) (d' : dict),
    visited data d' -> has_key k d' = true ->
    forall res p, valid (_scan_for_forbidden_fields data forbidden res p) = false.
Proof.
  intros Hk data d' Hvis. induction Hvis as
    [d | d key value d' Hin Hvis IH | d key l item d' Hin Hitem Hvis IH];
    intros Hhas res p.
  - (* the dictionary itself *)
    revert res. induction d as [|[key value] rest IHd]; intros res;
      [discriminate|].
    rewrite scan_cons.
    unfold has_key in Hhas. cbn [lookup] in Hhas.
    destruct (String.eqb k key) eqn:E.
    + apply String.eqb_eq in E. subst key.
      eapply grows_invalid; [apply grows__scan_for_forbidden_fields|].
      exact (proj1 (proj2 (scan_key k value forbidden res p)) Hk).
    + apply IHd. exact Hhas.
  - (* a value *)
    revert res. induction d as [|[key0 value0] rest IHd]; intros res;
      [destruct Hin|].
    rewrite scan_cons. destruct Hin as [E|Hin].
    + injection E as -> ->.
      eapply grows_invalid; [apply grows__scan_for_forbidden_fields|].
      apply (proj1 (proj2 (proj2 (scan_key key value forbidden res p))) d' Hvis).
      intros r0 q. now apply IH.
    + now apply IHd.
  - (* an element of a list value *)
    revert res. induction d as [|[key0 value0] rest IHd]; intros res;
      [destruct Hin|].
    rewrite scan_cons. destruct Hin as [E|Hin].
    + injection E as -> ->.
      eapply grows_invalid; [apply grows__scan_for_forbidden_fields|].
      apply (proj2 (proj2 (proj2 (scan_key key (JList l) forbidden res p)))
               l item eq_refl Hitem).
      intros r0 q. now apply IH.
    + now apply IHd.
Qed.

Lemma is_field_forbidden_listed (k memory_type : string) (fields : list string) :
  get_forbidden_fields memory_type = Ok fields ->
  is_field_forbidden k memory_type = Ok true ->
  existsb (String.eqb k) fields = true.
Proof.
  unfold is_field_forbidden. intros ->. cbn [bind]. congruence.
Qed.

(** X7.  A field that [is_field_forbidden] reports for a memory type is
    rejected by the validator of that type wherever the scan finds it: when
    a dictionary that the scan visits (the document, a dictionary nested in
    it as a value, a dictionary that is an element of a list value) has the
    key, the result of [validate] is invalid, at every RI level and whatever
    else the document holds. *)
Theorem forbidden_field_rejected (k : string) (d : dict) :
  has_key k d = true ->
  (forall episode_data ri_level res,
     is_field_forbidden k "episodic" = Ok true ->
     visited (JObj episode_data) d ->
     EpisodicValidator.validate episode_data ri_level = Ok res ->
     valid res = false) /\
  (forall entry existing_entries res,
     is_field_forbidden k "semantic" = Ok true ->
     visited (JObj entry) d ->
     SemanticValidator.validate entry existing_entries = Ok res ->
     valid res = false) /\
  (forall entry res,
     is_field_forbidden k "sensory" = Ok true ->
     visited entry d ->
     SensoryValidator.validate entry = Ok res ->
     valid res = false).
Proof.
  intros Hk. split; [|split].
  - intros episode_data ri_level res Hf Hvis E.
    destruct (episodic_validate_phases _ _ _ E)
      as (r1 & r2 & r3 & r4 & _ & _ & _ & _ & ->).
    cbn [merge valid]. apply andb_false_intro2.
    apply (scan_visited EPISODIC_FORBIDDEN_FIELDS k
             (is_field_forbidden_listed k "episodic" _ eq_refl Hf) _ d Hvis Hk).
  - intros entry existing_entries res Hf Hvis E.
    destruct (semantic_validate_phases _ _ _ E)
      as (r1 & r2 & r3 & r4 & _ & _ & _ & _ & ->).
    cbn [merge valid]. apply andb_false_intro2.
    apply (scan_visited SEMANTIC_FORBIDDEN_FIELDS k
             (is_field_forbidden_listed k "semantic" _ eq_refl Hf) _ d Hvis Hk).
  - intros entry res Hf Hvis E.
    destruct (sensory_validate_phases _ _ E) as (r1 & r2 & r3 & _ & _ & _ & ->).
    cbn [merge valid]. apply andb_false_intro2.
    apply (scan_visited SENSORY_FORBIDDEN_FIELDS k
             (is_field_forbidden_listed k "sensory" _ eq_refl Hf) _ d Hvis Hk).
Qed.

Lemma forbidden_field_rejected_witness :
  exists res,
    EpisodicValidator.validate SampleEntry.labelled_episode "L3" = Ok res /\
    valid res = false.
Proof.
  destruct (forbidden_field_rejected "emotion_label" SampleEntry.labelled_turn
              eq_refl) as [He _].
  assert (Hv : exists res,
             EpisodicValidator.validate SampleEntry.labelled_episode "L3" = Ok res)
    by (eexists; vm_compute; reflexivity).
  destruct Hv as [res Hv]. exists res. split; [exact Hv|].
  apply (He SampleEntry.labelled_episode "L3" res);
    [vm_compute; reflexivity| |exact Hv].
  apply visited_element with (key := "turns")
    (l := [JObj SampleEntry.labelled_turn]) (item := JObj SampleEntry.labelled_turn).
  - do 2 right. left. reflexivity.
  - now left.
  - apply visited_here.
Defined.

(** ** Required sections *)

Lemma grows_In (r r' : ValidationResult) (m : message) :
  grows r r' -> In m (errors r) -> In m (errors r').
Proof. intros (more & E & _) H. rewrite E. apply in_or_app. now left. Qed.

Lemma merge_In_r (a b : ValidationResult) (m : message) :
  In m (errors b) -> In m (errors (merge a b)).
Proof. intros H. cbn. apply in_or_app. now right. Qed.

Lemma merge_In_l (a b : ValidationResult) (m : message) :
  In m (errors a) -> In m (errors (merge a b)).
Proof. intros H. cbn. apply in_or_app. now left. Qed.

(** A required field that the dictionary lacks is reported. *)
Lemma check_required_missing (d : dict) (required : list string) (field : string) :
  In field required -> has_key field d = false ->
  forall (i : nat) (res r : ValidationResult),
    for_each
      (fun _ field res =>
         present <- str_in field (JObj d) ;;
         Ok (if present then res
             else add_error [L "Missing required field: '"; L field; L "'"] res))
      i required res = Ok r ->
    valid r = false /\
    In [L "Missing required field: '"; L field; L "'"] (errors r).
Proof.
  intros Hin Hk. induction required as [|x rest IH]; [destruct Hin|].
  intros i res r E. cbn [for_each str_in bind] in E.
  assert (Hrest : forall j acc,
            grows acc
              match for_each
                      (fun _ field res =>
                         present <- str_in field (JObj d) ;;
                         Ok (if present then res
                             else add_error
                                    [L "Missing required field: '"; L field; L "'"]
                                    res))
                      j rest acc with
              | Ok r => r
              | Raise _ => acc
              end).
  { intros j acc.
    pose proof (grows__check_required_fields (JObj d) rest acc "") as H.
    unfold _check_required_fields in H. cbn [String.eqb negb] in H.
    destruct (for_each _ j rest acc) as [r'|] eqn:Er; [|apply grows_refl].
    revert Er. clear. revert j acc r'.
    induction rest as [|y more IHm]; intros j acc r' Er.
    - injection Er as <-. apply grows_refl.
    - cbn [for_each str_in bind] in Er.
      eapply grows_trans; [|exact (IHm _ _ _ Er)].
      destruct (has_key y d); [apply grows_refl|apply grows_add_error]. }
  destruct Hin as [->|Hin].
  - rewrite Hk in E. specialize (Hrest (S i)
      (add_error [L "Missing required field: '"; L field; L "'"] res)).
    cbn [str_in bind] in Hrest. rewrite E in Hrest. split.
    + eapply grows_invalid; [exact Hrest|reflexivity].
    + eapply grows_In; [exact Hrest|]. cbn. apply in_or_app. right. now left.
  - exact (IH Hin _ _ _ E).
Qed.

(** X8.  At a level other than L1 and L2 (so at L3, the default, and at
    any other text), an episode that lacks one of the four sections
    [episode_header], [situation_context], [turns], [emotive_snapshot] is
    invalid, and the errors name the section.  At L1 and at L2 no section
    is required: the empty episode is valid. *)
Theorem required_sections_above_L2 (episode_data : dict) (ri_level section : string)
  (res : ValidationResult) :
  In section ["episode_header"; "situation_context"; "turns"; "emotive_snapshot"] ->
  has_key section episode_data = false ->
  existsb (String.eqb ri_level) ["L1"; "L2"] = false ->
  EpisodicValidator.validate episode_data ri_level = Ok res ->
  valid res = false /\
  In [L "Missing required field: '"; L section; L "'"] (errors res) /\
  (forall level, In level ["L1"; "L2"] ->
     exists ok, EpisodicValidator.validate [] level = Ok ok /\ valid ok = true).
Proof.
  intros Hin Hk Hri E.
  destruct (episodic_validate_phases _ _ _ E)
    as (r1 & r2 & r3 & r4 & E1 & _ & _ & _ & ->).
  assert (H1 : valid r1 = false /\
               In [L "Missing required field: '"; L section; L "'"] (errors r1)).
  { unfold EpisodicValidator._phase1_structural in E1. cbv zeta in E1.
    rewrite Hri in E1. cbn [negb] in E1.
    unfold _check_required_fields in E1. cbn [String.eqb negb] in E1.
    match type of E1 with
    | bind ?m _ = _ => destruct m as [a|] eqn:Ea; [|discriminate]
    end.
    destruct (check_required_missing episode_data _ section Hin Hk _ _ _ Ea)
      as [Hv Hm].
    cbn [bind] in E1.
    assert (Hg : grows a r1).
    { revert E1. generalize r1. change (yields (grows a)
        (res <-
           match lookup "episode_header" episode_data with
           | Some header =>
               EpisodicValidator.check_enum_if_present header "episode_type"
                 EpisodicValidator.EPISODE_TYPES "episode_header.episode_type" a
           | None => Ok a
           end ;;
         res <-
           match lookup "situation_context" episode_data with
           | Some context =>
               res <- EpisodicValidator.check_enum_if_present context
                        "interaction_mode" EpisodicValidator.INTERACTION_MODES
                        "situation_context.interaction_mode" res ;;
               res <- EpisodicValidator.check_enum_if_present context
                        "stakes_level" EpisodicValidator.STAKES_LEVELS
                        "situation_context.stakes_level" res ;;
               EpisodicValidator.check_enum_if_present context "time_pressure"
                 EpisodicValidator.TIME_PRESSURES
                 "situation_context.time_pressure" res
           | None => Ok res
           end ;;
         match lookup "turns" episode_data with
         | Some turns => EpisodicValidator._validate_turns turns res
         | None => Ok res
         end)).
      grow. }
    split; [exact (grows_invalid _ _ Hg Hv)|exact (grows_In _ _ _ Hg Hm)]. }
  destruct H1 as [Hv Hm]. split; [|split].
  - cbn [merge valid]. rewrite Hv. cbn [andb]. reflexivity.
  - do 4 apply merge_In_l. apply merge_In_r. exact Hm.
  - intros level [<-|[<-|[]]]; eexists; split; vm_compute; reflexivity.
Qed.

Lemma required_sections_above_L2_witness :
  exists res,
    EpisodicValidator.validate [("turns", JList [])] "L3" = Ok res /\
    In [L "Missing required field: '"; L "emotive_snapshot"; L "'"] (errors res).
Proof.
  assert (Hv : exists res,
             EpisodicValidator.validate [("turns", JList [])] "L3" = Ok res)
    by (eexists; vm_compute; reflexivity).
  destruct Hv as [res Hv]. exists res. split; [exact Hv|].
  apply (required_sections_above_L2 [("turns", JList [])] "L3"
           "emotive_snapshot" res); [cbn; tauto|reflexivity|reflexivity|exact Hv].
Defined.

(** ** Interpretive language and strict validation *)

Lemma substringb_empty (needle : string) :
  substringb needle "" = true -> needle = "".
Proof. destruct needle; [reflexivity|discriminate]. Qed.

Lemma no_interpretation_detected (entry payload : dict) (text k : string)
  (ks : list string) (r2 : ValidationResult) :
  lookup "sensory_payload" entry = Some (JObj payload) ->
  lookup "raw_content" payload = Some (JStr text) ->
  text <> "" ->
  SensoryValidator._detect_interpretive_keywords text = k :: ks ->
  SensoryValidator._validate_no_interpretation (JObj entry) = Ok r2 ->
  valid r2 = false /\
  In [L "Interpretive language detected in raw_content: "; Strs (k :: ks)]
    (errors r2).
Proof.
  intros Hp Hraw Htext Ed.
  unfold SensoryValidator._validate_no_interpretation.
  unfold py_get, dict_get. rewrite Hp. cbn [bind].
  rewrite Hraw. cbn [bind truthy].
  destruct (String.eqb_spec text "") as [->|_]; [now destruct Htext|].
  cbn [negb]. rewrite Ed.
  destruct (match lookup "feature_snapshot" payload with
            | Some v => v
            | None => JObj []
            end) as [| | | | | |d];
    try (intros E2; injection E2 as <-; split; [reflexivity|now left]).
  destruct (keys_minus (dict_keys d) SensoryValidator.ALLOWED_FEATURES);
    intros E2; injection E2 as <-; split; try reflexivity; cbn; auto.
Qed.

(** X9.  A sensory entry whose [raw_content] contains one of the
    interpretive keywords, in any letter case and anywhere in the text, is
    invalid, and the error lists the keyword among those detected. *)
Theorem interpretive_language_rejected (entry payload : dict)
  (text keyword : string) (res : ValidationResult) :
  lookup "sensory_payload" entry = Some (JObj payload) ->
  lookup "raw_content" payload = Some (JStr text) ->
  In keyword SensoryValidator.INTERPRETIVE_KEYWORDS ->
  substringb keyword (lower text) = true ->
  SensoryValidator.validate (JObj entry) = Ok res ->
  valid res = false /\
  exists detected_keywords,
    In keyword detected_keywords /\
    In [L "Interpretive language detected in raw_content: ";
        Strs detected_keywords] (errors res).
Proof.
  intros Hp Hraw Hin Hsub E.
  destruct (sensory_validate_phases _ _ E) as (r1 & r2 & r3 & _ & E2 & _ & ->).
  assert (Htext : text <> "").
  { intros ->. apply substringb_empty in Hsub. subst keyword.
    unfold SensoryValidator.INTERPRETIVE_KEYWORDS in Hin. cbn [In] in Hin.
    repeat (destruct Hin as [Hin|Hin]; [discriminate Hin|]). exact Hin. }
  assert (Hdet : In keyword (SensoryValidator._detect_interpretive_keywords text)).
  { unfold SensoryValidator._detect_interpretive_keywords. cbv zeta.
    apply filter_In. split; assumption. }
  destruct (SensoryValidator._detect_interpretive_keywords text)
    as [|k ks] eqn:Ed; [destruct Hdet|].
  destruct (no_interpretation_detected _ _ _ _ _ _ Hp Hraw Htext Ed E2)
    as [Hv Hm].
  split.
  - cbn [merge valid]. rewrite Hv. cbn [andb]. now rewrite andb_false_r.
  - exists (k :: ks). split; [exact Hdet|].
    do 2 apply merge_In_l. apply merge_In_r. exact Hm.
Qed.

Lemma interpretive_language_rejected_witness :
  exists res,
    SensoryValidator.validate (JObj SampleSensory.entry) = Ok res /\
    valid res = false.
Proof.
  assert (Hv : exists res,
             SensoryValidator.validate (JObj SampleSensory.entry) = Ok res)
    by (eexists; vm_compute; reflexivity).
  destruct Hv as [res Hv]. exists res. split; [exact Hv|].
  apply (interpretive_language_rejected SampleSensory.entry
           SampleSensory.payload "The user sounds Angry" "angry" res);
    [reflexivity|reflexivity|cbn; tauto|reflexivity|exact Hv].
Defined.

(** An entry that passes the structural phase has a confidence field. *)
Lemma structure_valid_has_confidence (entry : dict) (r1 : ValidationResult) :
  SemanticValidator._validate_structure entry = Ok r1 ->
  valid r1 = true -> has_key "confidence" entry = true.
Proof.
  intros E1 Hv. destruct (has_key "confidence" entry) eqn:Hk; [reflexivity|].
  unfold SemanticValidator._validate_structure in E1. cbv zeta in E1.
  unfold _check_required_fields in E1.
  match type of E1 with
  | bind ?m _ = _ => destruct m as [a|] eqn:Ea; [|discriminate]
  end.
  assert (Hin : In "confidence"
                  ["concept"; "epistemic_status"; "confidence"; "derived_from"])
    by (cbn; tauto).
  destruct (check_required_missing entry _ "confidence" Hin Hk _ _ _ Ea)
    as [Ha _].
  cbn [bind] in E1.
  assert (Hg : grows a r1).
  { match type of E1 with
    | ?m = Ok r1 => assert (Hy : yields (grows a) m) by grow
    end.
    exact (Hy _ E1). }
  rewrite (grows_invalid _ _ Hg Ha) in Hv. discriminate.
Qed.

(** X10.  [validate_strict] on a semantic entry either lets an exception
    of [validate] through, or raises [MSPValidationError] with the message
    [Semantic validation failed] and the errors of the result, of which
    there is at least one, or returns.  When it returns, the result of
    [validate] is valid and without error, the entry has a confidence, and
    (without existing entries) the consolidation check of that entry
    raises [TypeError] when the confidence is [None] and otherwise tells
    whether the confidence, a number of the unit interval, is above the
    threshold 0.7. *)
Theorem validate_strict_outcomes (entry : dict) (existing_entries : option json) :
  match semantic_validate_strict entry existing_entries with
  | Ok _ =>
      exists res confidence,
        SemanticValidator.validate entry existing_entries = Ok res /\
        valid res = true /\ errors res = [] /\
        lookup "confidence" entry = Some confidence /\
        (existing_entries = None ->
         match to_num confidence with
         | Some n =>
             num_leb (NFloat F.zero) n = true /\
             num_leb n (NFloat F.one) = true /\
             SemanticValidator.validate_for_consolidation (JObj entry)
             = Ok (negb (num_leb n (NFloat SemanticValidator.CONSOLIDATION_THRESHOLD)))
         | None =>
             confidence = JNull /\
             SemanticValidator.validate_for_consolidation (JObj entry)
             = Raise TypeError
         end)
  | Raise e =>
      SemanticValidator.validate entry existing_entries = Raise e \/
      exists res,
        SemanticValidator.validate entry existing_entries = Ok res /\
        valid res = false /\ errors res <> [] /\
        e = MSPValidationError "Semantic validation failed" (errors res)
  end.
Proof.
  unfold semantic_validate_strict.
  destruct (SemanticValidator.validate entry existing_entries) as [res|e] eqn:E;
    cbn [bind]; [|now left].
  pose proof (sound_semantic_validate _ _ _ E) as Hs. unfold sound in Hs.
  destruct (valid res) eqn:Hv; cbn [negb].
  - destruct (semantic_validate_phases _ _ _ E)
      as (r1 & r2 & r3 & r4 & E1 & _ & E3 & _ & Hres).
    assert (H13 : valid r1 = true /\ valid r3 = true).
    { rewrite Hres in Hv.
      apply valid_merge in Hv. destruct Hv as [Hv _].
      apply valid_merge in Hv. destruct Hv as [Hv _].
      apply valid_merge in Hv. destruct Hv as [Hv H3].
      apply valid_merge in Hv. destruct Hv as [Hv _].
      apply valid_merge in Hv. destruct Hv as [_ H1]. now split. }
    destruct H13 as [H1 H3].
    pose proof (structure_valid_has_confidence _ _ E1 H1) as Hk.
    unfold has_key in Hk.
    destruct (lookup "confidence" entry) as [c|] eqn:Hc; [|discriminate].
    exists res, c. split; [reflexivity|]. split; [exact Hv|].
    split; [destruct (errors res); [reflexivity|discriminate]|].
    split; [reflexivity|]. intros ->.
    unfold SemanticValidator.validate_for_consolidation, py_get, dict_get.
    rewrite Hc. cbn [bind].
    destruct c as [|b|z|f|s|l|d].
    + split; reflexivity.
    + destruct (valid__validate_confidence entry _ r3 Hc ltac:(discriminate) E3 H3)
        as (n & Hn & H0 & H1'). rewrite Hn. split; [exact H0|]. split; [exact H1'|].
      unfold py_le, as_num. rewrite Hn. cbn [bind to_num].
      destruct (num_leb n (NFloat SemanticValidator.CONSOLIDATION_THRESHOLD));
        [reflexivity|]. rewrite E. cbn [bind].
      rewrite Hv. reflexivity.
    + destruct (valid__validate_confidence entry _ r3 Hc ltac:(discriminate) E3 H3)
        as (n & Hn & H0 & H1'). rewrite Hn. split; [exact H0|]. split; [exact H1'|].
      unfold py_le, as_num. rewrite Hn. cbn [bind to_num].
      destruct (num_leb n (NFloat SemanticValidator.CONSOLIDATION_THRESHOLD));
        [reflexivity|]. rewrite E. cbn [bind].
      rewrite Hv. reflexivity.
    + destruct (valid__validate_confidence entry _ r3 Hc ltac:(discriminate) E3 H3)
        as (n & Hn & H0 & H1'). rewrite Hn. split; [exact H0|]. split; [exact H1'|].
      unfold py_le, as_num. rewrite Hn. cbn [bind to_num].
      destruct (num_leb n (NFloat SemanticValidator.CONSOLIDATION_THRESHOLD));
        [reflexivity|]. rewrite E. cbn [bind].
      rewrite Hv. reflexivity.
    + destruct (valid__validate_confidence entry _ r3 Hc ltac:(discriminate) E3 H3)
        as (n & Hn & _). discriminate Hn.
    + destruct (valid__validate_confidence entry _ r3 Hc ltac:(discriminate) E3 H3)
        as (n & Hn & _). discriminate Hn.
    + destruct (valid__validate_confidence entry _ r3 Hc ltac:(discriminate) E3 H3)
        as (n & Hn & _). discriminate Hn.
  - right. exists res. split; [reflexivity|]. split; [exact Hv|].
    split; [|reflexivity]. destruct (errors res); [discriminate|discriminate].
Qed.

(** ** The state of a valid episode *)

Lemma check_axis_valid (d : dict) (missing : message) (key field_name : string)
  (res : ValidationResult) :
  valid (EpisodicValidator.check_axis d missing key field_name res) = true ->
  unit_value d key /\ valid res = true.
Proof.
  unfold EpisodicValidator.check_axis, unit_value.
  destruct (lookup key d) as [v|]; [|discriminate].
  unfold _check_range. destruct (to_num v) as [n|] eqn:En; [|discriminate].
  destruct (num_leb (NFloat F.zero) n) eqn:E0; [|discriminate].
  destruct (num_leb n (NFloat F.one)) eqn:E1; [|discriminate].
  cbn [andb negb]. intros Hv. split; [|exact Hv]. exists v, n. repeat split; assumption.
Qed.

Lemma keys_minus_nil (a b : list string) :
  keys_minus a b = [] -> forall k, In k a -> In k b.
Proof.
  unfold keys_minus. intros H k Hin.
  destruct (existsb (String.eqb k) b) eqn:E.
  - apply existsb_exists in E. destruct E as (x & Hx & Ex).
    apply String.eqb_eq in Ex. now subst.
  - assert (Hf : In k (filter (fun k => negb (existsb (String.eqb k) b)) a))
      by (apply filter_In; split; [exact Hin|now rewrite E]).
    rewrite H in Hf. destruct Hf.
Qed.

Lemma _validate_eva_matrix_valid (eva_matrix : json) (res : ValidationResult) :
  valid (EpisodicValidator._validate_eva_matrix eva_matrix res) = true ->
  valid res = true /\
  exists d, eva_matrix = JObj d /\
            Forall (unit_value d) EpisodicValidator.EVA_MATRIX_AXES /\
            only_keys d EpisodicValidator.EVA_MATRIX_AXES.
Proof.
  unfold EpisodicValidator._validate_eva_matrix.
  destruct eva_matrix as [| | | | | |d]; try discriminate.
  cbv zeta.
  destruct (keys_minus (dict_keys d) EpisodicValidator.EVA_MATRIX_AXES) eqn:Ek;
    [|discriminate].
  unfold EpisodicValidator.EVA_MATRIX_AXES at 1. cbn [fold_left].
  intros H.
  apply check_axis_valid in H. destruct H as [H4 H].
  apply check_axis_valid in H. destruct H as [H3 H].
  apply check_axis_valid in H. destruct H as [H2 H].
  apply check_axis_valid in H. destruct H as [H1 H].
  split; [exact H|]. exists d. split; [reflexivity|]. split.
  - unfold EpisodicValidator.EVA_MATRIX_AXES. repeat constructor; assumption.
  - intros k. apply keys_minus_nil. exact Ek.
Qed.

Lemma _validate_qualia_valid (qualia : json) (res : ValidationResult) :
  valid (EpisodicValidator._validate_qualia qualia res) = true ->
  valid res = true /\
  exists d, qualia = JObj d /\ unit_value d "intensity" /\
            only_keys d ["intensity"].
Proof.
  unfold EpisodicValidator._validate_qualia.
  destruct qualia as [| | | | | |d]; try discriminate.
  cbv zeta.
  destruct (keys_minus (dict_keys d) ["intensity"]) eqn:Ek; [|discriminate].
  intros H. apply check_axis_valid in H. destruct H as [H1 H].
  split; [exact H|]. exists d. split; [reflexivity|]. split; [exact H1|].
  intros k. apply keys_minus_nil. exact Ek.
Qed.

Lemma _validate_reflex_valid (reflex : json) (res : ValidationResult) :
  valid (EpisodicValidator._validate_reflex reflex res) = true ->
  valid res = true /\
  exists d, reflex = JObj d /\ unit_value d "threat_level" /\
            only_keys d ["threat_level"].
Proof.
  unfold EpisodicValidator._validate_reflex.
  destruct reflex as [| | | | | |d]; try discriminate.
  cbv zeta.
  destruct (keys_minus (dict_keys d) ["threat_level"]) eqn:Ek; [|discriminate].
  intros H. apply check_axis_valid in H. destruct H as [H1 H].
  split; [exact H|]. exists d. split; [reflexivity|]. split; [exact H1|].
  intros k. apply keys_minus_nil. exact Ek.
Qed.

Lemma state_section_valid (indexed_state : dict) (key : string)
  (validate : json -> ValidationResult -> ValidationResult)
  (res r : ValidationResult) :
  EpisodicValidator.state_section (JObj indexed_state) key validate res = Ok r ->
  valid r = true ->
  exists v, lookup key indexed_state = Some v /\ r = validate v res.
Proof.
  unfold EpisodicValidator.state_section. cbn [str_in bind subscript].
  unfold has_key. destruct (lookup key indexed_state) as [v|].
  - cbn [bind]. intros E _. injection E as <-. eauto.
  - intros E Hv. injection E as <-. discriminate Hv.
Qed.

(** X26.  In an episode that [validate] finds valid, a state that is given
    (a non-empty dictionary under [emotive_snapshot.indexed_state]) is
    complete and within bounds, at every RI level: [eva_matrix] has the
    four axes and no other key, [qualia] only [intensity], [reflex] only
    [threat_level], and each of these six values is a number between 0
    and 1. *)
Theorem valid_state_within_bounds (episode_data snapshot indexed_state : dict)
  (ri_level : string) (res : ValidationResult) :
  lookup "emotive_snapshot" episode_data = Some (JObj snapshot) ->
  lookup "indexed_state" snapshot = Some (JObj indexed_state) ->
  indexed_state <> [] ->
  EpisodicValidator.validate episode_data ri_level = Ok res ->
  valid res = true ->
  exists eva_matrix qualia reflex,
    lookup "eva_matrix" indexed_state = Some (JObj eva_matrix) /\
    lookup "qualia" indexed_state = Some (JObj qualia) /\
    lookup "reflex" indexed_state = Some (JObj reflex) /\
    Forall (unit_value eva_matrix) EpisodicValidator.EVA_MATRIX_AXES /\
    only_keys eva_matrix EpisodicValidator.EVA_MATRIX_AXES /\
    unit_value qualia "intensity" /\ only_keys qualia ["intensity"] /\
    unit_value reflex "threat_level" /\ only_keys reflex ["threat_level"].
Proof.
  intros Hsnap Hstate Hne E Hv.
  destruct (episodic_validate_phases _ _ _ E)
    as (r1 & r2 & r3 & r4 & _ & _ & E3 & _ & ->).
  apply valid_merge in Hv. destruct Hv as [Hv _].
  apply valid_merge in Hv. destruct Hv as [Hv _].
  apply valid_merge in Hv. destruct Hv as [_ H3].
  revert E3. unfold EpisodicValidator._phase3_state. cbv zeta.
  unfold dict_get. rewrite Hsnap. cbn [py_get bind]. unfold dict_get.
  rewrite Hstate.
  assert (Ht : truthy (JObj indexed_state) = true)
    by (destruct indexed_state; [now destruct Hne|reflexivity]).
  rewrite Ht. cbn [negb].
  destruct (EpisodicValidator.state_section (JObj indexed_state) "eva_matrix"
              EpisodicValidator._validate_eva_matrix _) as [ra|] eqn:Ea;
    [|discriminate].
  cbn [bind].
  destruct (EpisodicValidator.state_section (JObj indexed_state) "qualia"
              EpisodicValidator._validate_qualia ra) as [rb|] eqn:Eb;
    [|discriminate].
  cbn [bind]. intros Ec.
  destruct (state_section_valid _ _ _ _ _ Ec H3) as (vc & Lc & ->).
  apply _validate_reflex_valid in H3.
  destruct H3 as (Hb & reflex & -> & Hr1 & Hr2).
  destruct (state_section_valid _ _ _ _ _ Eb Hb) as (vb & Lb & ->).
  apply _validate_qualia_valid in Hb.
  destruct Hb as (Ha & qualia & -> & Hq1 & Hq2).
  destruct (state_section_valid _ _ _ _ _ Ea Ha) as (va & La & ->).
  apply _validate_eva_matrix_valid in Ha.
  destruct Ha as (_ & eva_matrix & -> & He1 & He2).
  exists eva_matrix, qualia, reflex. repeat split; assumption.
Qed.

Lemma valid_state_within_bounds_witness :
  exists eva_matrix,
    lookup "eva_matrix" SampleState.indexed_state = Some (JObj eva_matrix) /\
    unit_value eva_matrix "drive_level".
Proof.
  assert (Hv : exists res,
             EpisodicValidator.validate SampleState.episode "L1" = Ok res /\
             valid res = true)
    by (eexists; split; vm_compute; reflexivity).
  destruct Hv as (res & Hres & Hvalid).
  destruct (valid_state_within_bounds SampleState.episode SampleState.snapshot
              SampleState.indexed_state "L1" res eq_refl eq_refl
              ltac:(discriminate) Hres Hvalid)
    as (eva_matrix & qualia & reflex & He & _ & _ & Haxes & _).
  exists eva_matrix. split; [exact He|].
  rewrite Forall_forall in Haxes. apply Haxes.
  unfold EpisodicValidator.EVA_MATRIX_AXES. cbn [In]. tauto.
Defined.

(** ** The checkpoint of [write_semantic] *)

Lemma _validate_conflicts_no_error (entry : dict) (existing_entries : json)
  (r : ValidationResult) :
  SemanticValidator._validate_conflicts entry existing_entries = Ok r ->
  errors r = [].
Proof.
  unfold SemanticValidator._validate_conflicts. cbv zeta.
  destruct (detect_conflict entry existing_entries) as [[c|]|];
    cbn [bind]; try discriminate.
  - destruct (truthy c).
    + destruct (py_in c _) as [listed|]; cbn [bind]; [|discriminate].
      destruct listed; intros E; injection E as <-; reflexivity.
    + intros E. injection E as <-. reflexivity.
  - intros E. injection E as <-. reflexivity.
Qed.

(** The errors of the semantic validator are those of its structural,
    concept and confidence phases and of the scan: the detection of
    conflicts only warns. *)
Lemma semantic_validate_errors (entry : dict) (existing_entries : option json)
  (res : ValidationResult) :
  SemanticValidator.validate entry existing_entries = Ok res ->
  exists r1 r2 r3,
    SemanticValidator._validate_structure entry = Ok r1 /\
    SemanticValidator._validate_concept_format entry = Ok r2 /\
    SemanticValidator._validate_confidence entry = Ok r3 /\
    errors res
    = errors r1 ++ errors r2 ++ errors r3
        ++ errors (SemanticValidator._validate_forbidden_fields entry).
Proof.
  unfold SemanticValidator.validate. cbv zeta.
  destruct (SemanticValidator._validate_structure entry) as [r1|];
    [|discriminate].
  destruct (SemanticValidator._validate_concept_format entry) as [r2|];
    [|discriminate].
  destruct (SemanticValidator._validate_confidence entry) as [r3|];
    [|discriminate].
  cbn [bind].
  destruct existing_entries as [existing|]; [destruct (truthy existing)|].
  - destruct (SemanticValidator._validate_conflicts entry existing)
      as [r4|] eqn:E4; [|discriminate].
    cbn [bind]. intros E. injection E as <-.
    exists r1, r2, r3. repeat split. cbn [merge errors].
    rewrite (_validate_conflicts_no_error _ _ _ E4), app_nil_r.
    now rewrite <- !app_assoc.
  - cbn [bind]. intros E. injection E as <-.
    exists r1, r2, r3. repeat split. cbn [merge errors].
    now rewrite <- !app_assoc.
  - cbn [bind]. intros E. injection E as <-.
    exists r1, r2, r3. repeat split. cbn [merge errors].
    now rewrite <- !app_assoc.
Qed.

(** The scan finds nothing in a list of strings. *)
Lemma scan_strings (forbidden : list string) (key : string) (ids : list string)
  (res : ValidationResult) (p : string) :
  existsb (String.eqb key) forbidden = false ->
  _scan_for_forbidden_fields (JObj [(key, JList (map JStr ids))]) forbidden res p
  = res.
Proof.
  intros Hk. cbn [_scan_for_forbidden_fields]. rewrite Hk. cbv zeta.
  generalize 0%nat. induction ids as [|x rest IH]; intros i; [reflexivity|].
  cbn [map]. exact (IH (S i)).
Qed.

Lemma proposal_scan_clean (concept definition episode_id : string)
  (turn_ids : option (list string)) :
  SemanticValidator._validate_forbidden_fields
    (semantic_proposal concept definition episode_id turn_ids)
  = add_info [L "Phase 5: Forbidden fields check"] _create_result.
Proof.
  unfold SemanticValidator._validate_forbidden_fields, semantic_proposal.
  cbv zeta.
  rewrite scan_cons. rewrite (scan_cons "definition").
  set (r0 := add_info _ _create_result).
  change (_scan_for_forbidden_fields (JObj [("concept", JStr concept)])
            SEMANTIC_FORBIDDEN_FIELDS r0 "") with r0.
  change (_scan_for_forbidden_fields (JObj [("definition", JStr definition)])
            SEMANTIC_FORBIDDEN_FIELDS r0 "") with r0.
  destruct turn_ids as [[|t ts]|]; try reflexivity.
  change (_scan_for_forbidden_fields
            (JObj [("derived_from",
                    JObj [("episode_id", JStr episode_id);
                          ("turn_ids", JList (map JStr (t :: ts)))])])
            SEMANTIC_FORBIDDEN_FIELDS r0 "")
    with (_scan_for_forbidden_fields
            (JObj [("episode_id", JStr episode_id);
                   ("turn_ids", JList (map JStr (t :: ts)))])
            SEMANTIC_FORBIDDEN_FIELDS r0 "derived_from").
  rewrite scan_cons.
  change (_scan_for_forbidden_fields (JObj [("episode_id", JStr episode_id)])
            SEMANTIC_FORBIDDEN_FIELDS r0 "derived_from") with r0.
  apply scan_strings. reflexivity.
Qed.

Lemma proposal_structure_errors (concept definition episode_id : string)
  (turn_ids : option (list string)) (r1 : ValidationResult) :
  SemanticValidator._validate_structure
    (semantic_proposal concept definition episode_id turn_ids) = Ok r1 ->
  errors r1
  = [ [L "Missing required field: '"; L "epistemic_status"; L "'"];
      [L "Missing required field: '"; L "confidence"; L "'"] ].
Proof.
  destruct turn_ids as [[|t ts]|]; intros E; vm_compute in E;
    injection E as <-; reflexivity.
Qed.

Lemma proposal_concept_errors (concept definition episode_id : string)
  (turn_ids : option (list string)) (r2 : ValidationResult) :
  SemanticValidator._is_lowercase_snake_case concept = true ->
  SemanticValidator._validate_concept_format
    (semantic_proposal concept definition episode_id turn_ids) = Ok r2 ->
  errors r2 = [].
Proof.
  intros Hsnake. unfold SemanticValidator._validate_concept_format. cbv zeta.
  change (dict_get "concept" JNull
            (semantic_proposal concept definition episode_id turn_ids))
    with (JStr concept).
  destruct (negb (truthy (JStr concept)));
    [intros E; injection E as <-; reflexivity|].
  rewrite Hsnake. cbn [negb].
  destruct (existsb _ _); intros E; injection E as <-; reflexivity.
Qed.

(** The checkpoint of [write_semantic] returns on a proposal whose concept
    is in lowercase snake case: the two errors that the validator reports
    on every proposal (no status and no confidence yet) are overlooked, and
    nothing else is an error. *)
Lemma snake_case_checkpoint (m : MSP) (fr : F.float -> string)
  (concept definition episode_id : string) (turn_ids : option (list string))
  (existing_entries : json) :
  SemanticValidator._is_lowercase_snake_case concept = true ->
  exists proposal_data,
    semantic_checkpoint m fr
      (semantic_proposal concept definition episode_id turn_ids)
      existing_entries = Ok proposal_data /\
    forall res,
      SemanticValidator.validate
        (semantic_proposal concept definition episode_id turn_ids)
        (Some existing_entries) = Ok res ->
      errors res
      = [ [L "Missing required field: '"; L "epistemic_status"; L "'"];
          [L "Missing required field: '"; L "confidence"; L "'"] ] /\
      major_errors fr (errors res) = [].
Proof.
  intros Hsnake.
  assert (Herr : forall res,
            SemanticValidator.validate
              (semantic_proposal concept definition episode_id turn_ids)
              (Some existing_entries) = Ok res ->
            errors res
            = [ [L "Missing required field: '"; L "epistemic_status"; L "'"];
                [L "Missing required field: '"; L "confidence"; L "'"] ]).
  { intros res E.
    destruct (semantic_validate_errors _ _ _ E)
      as (r1 & r2 & r3 & E1 & E2 & E3 & ->).
    rewrite (proposal_structure_errors _ _ _ _ _ E1).
    rewrite (proposal_concept_errors _ _ _ _ _ Hsnake E2).
    rewrite proposal_scan_clean.
    assert (H3 : errors r3 = []).
    { revert E3. unfold SemanticValidator._validate_confidence. cbv zeta.
      change (dict_get "confidence" JNull
                (semantic_proposal concept definition episode_id turn_ids))
        with JNull.
      intros E3. injection E3 as <-. reflexivity. }
    rewrite H3. reflexivity. }
  unfold semantic_checkpoint.
  destruct (SemanticValidator.validate
              (semantic_proposal concept definition episode_id turn_ids)
              (Some existing_entries)) as [res|e] eqn:E.
  - rewrite (Herr res eq_refl).
    assert (Hmajor :
      major_errors fr
        [ [L "Missing required field: '"; L "epistemic_status"; L "'"];
          [L "Missing required field: '"; L "confidence"; L "'"] ] = [])
      by reflexivity.
    rewrite Hmajor. cbn [andb]. eexists. split; [reflexivity|].
    intros res' E'. injection E' as <-. rewrite (Herr res eq_refl).
    split; [reflexivity|exact Hmajor].
  - eexists. split; [reflexivity|]. intros res E'. discriminate E'.
Qed.

Lemma calm_ret {A} (a : A) : calm (ret a).
Proof. intros s e H. discriminate H. Qed.

Lemma calm_raise {A} (e : exn) : not_validation e -> calm (@raise A e).
Proof. intros He s e' H. injection H as <-. exact He. Qed.

Lemma calm_lift {A} (r : result A) :
  (forall e, r = Raise e -> not_validation e) -> calm (lift r).
Proof. intros Hr s e H. exact (Hr e H). Qed.

Lemma calm_bind {A B} (m : M A) (k : A -> M B) :
  calm m -> (forall a, calm (k a)) -> calm (mbind m k).
Proof.
  intros Hm Hk s e. unfold mbind. specialize (Hm s).
  destruct (m s) as [[a|e'] s1]; cbn [fst] in *.
  - apply Hk.
  - intros H. injection H as <-. now apply Hm.
Qed.

Lemma calm_read_oracle (o : World -> nat -> string) : calm (read_oracle o).
Proof. intros s e H. discriminate H. Qed.

Lemma calm_get_self : calm get_self.
Proof. intros s e H. discriminate H. Qed.

Lemma calm_get_world : calm get_world.
Proof. intros s e H. discriminate H. Qed.

Lemma calm_load_json (p : path) : calm (load_json p).
Proof.
  intros s e. rewrite load_json_run. cbn [fst]. unfold read_json.
  destruct (fs (world s) p) as [[|[j|]]|]; intros H; inversion H. exact I.
Qed.

Lemma calm_save_json (p : path) (data : json) : calm (save_json p data).
Proof.
  unfold save_json. apply calm_bind.
  - intros s e. unfold ensure_dir, mbind, get_world, raise, put_world.
    destruct (faulty (world s) (Mkdir (parent p)));
      [|destruct (blocked (fs (world s)) [] (parent p))];
      intros H; inversion H; exact I.
  - intros _ s e. unfold mbind, get_world, raise, put_world.
    destruct (faulty (world s) (WriteFile p));
      [|destruct (fs (world s) p) as [[|c]|]];
      intros H; inversion H; exact I.
Qed.

Lemma calm_get_instance_path : calm get_instance_path.
Proof.
  intros s e. unfold get_instance_path, mbind, get_self, raise, ret.
  destruct (instance_id (self s)); intros H; inversion H. exact I.
Qed.

(** X27.  [write_semantic] never refuses a concept in lowercase snake
    case: whatever the mode, the definition, the episode, the turns, the
    stakes and the state, it raises no validation error.  (The validator
    reports on every proposal that it has no status and no confidence yet;
    the checkpoint overlooks these two errors, and such a proposal has no
    other.) *)
Theorem write_semantic_accepts_snake_case (s : State)
  (concept definition episode_id : string) (turn_ids : option (list string))
  (stakes_level : option StakesLevel) (msg : string) (errs : list message) :
  SemanticValidator._is_lowercase_snake_case concept = true ->
  fst (write_semantic concept definition episode_id turn_ids stakes_level s)
  <> Raise (MSPValidationError msg errs).
Proof.
  intros Hsnake Hraise.
  assert (Hcalm : calm (write_semantic concept definition episode_id turn_ids
                          stakes_level)).
  { unfold write_semantic. cbv zeta.
    apply calm_bind; [apply calm_get_self|]. intros m.
    destruct (session_id m) as [sid|]; [|apply calm_raise; exact I].
    apply calm_bind.
    { destruct (negb _); [|apply calm_ret].
      destruct (semantic_validator m); [|apply calm_ret].
      apply calm_bind; [apply calm_get_instance_path|]. intros ip.
      apply calm_bind; [apply calm_load_json|]. intros buffer_data.
      apply calm_bind.
      { apply calm_lift. intros e H. destruct buffer_data; inversion H; exact I. }
      intros existing_entries.
      apply calm_bind; [apply calm_get_world|]. intros w.
      apply calm_lift. intros e H.
      destruct (snake_case_checkpoint m (float_repr w) concept definition
                  episode_id turn_ids existing_entries Hsnake)
        as (p & Hp & _).
      unfold semantic_proposal in Hp. rewrite Hp in H. discriminate H. }
    intros proposal_data.
    apply calm_bind.
    { destruct (confidence_updater m) as [cu|]; [|apply calm_ret].
      apply calm_lift. intros e H. unfold create_initial_entry in H.
      rewrite get_epistemic_status_float in H. discriminate H. }
    intros entry.
    apply calm_bind; [apply calm_read_oracle|]. intros created.
    apply calm_bind; [apply calm_read_oracle|]. intros updated.
    apply calm_bind; [apply calm_read_oracle|]. intros u.
    apply calm_bind; [apply calm_get_instance_path|]. intros ip.
    apply calm_bind; [apply calm_load_json|]. intros buffer_data.
    apply calm_bind.
    { apply calm_lift. intros e H. apply str_in_raises in H. now subst. }
    intros has.
    apply calm_bind.
    { destruct (negb has); [|apply calm_ret].
      apply calm_bind; [apply calm_read_oracle|]. intros t. apply calm_ret. }
    intros buffer_data'.
    apply calm_bind.
    { apply calm_lift. intros e H. apply append_to_raises in H.
      destruct H as [->|[->| ->]]; exact I. }
    intros buffer_data''.
    apply calm_bind; [apply calm_save_json|]. intros _. apply calm_ret. }
  exact (Hcalm s _ Hraise).
Qed.

Lemma write_semantic_accepts_snake_case_witness :
  SemanticValidator._is_lowercase_snake_case "seafood_allergy" = true /\
  fst (write_semantic "seafood_allergy" "The user is allergic to seafood"
         "ep_S01_001_012345" (Some ["t1"; "t2"]) None
         (Sample.in_session Sample.state0))
  <> Raise (MSPValidationError "Semantic proposal validation failed:" []).
Proof.
  split; [reflexivity|].
  apply write_semantic_accepts_snake_case. reflexivity.
Defined.

(** ** What the operations leave alone *)

Lemma inside_head (tops : list string) (a b : string) (p q : path) :
  inside tops (a :: p) = true -> inside tops (b :: q) = false ->
  String.eqb b a = false.
Proof.
  cbn [inside]. intros Hp Hq.
  destruct (String.eqb_spec b a) as [->|]; [congruence|reflexivity].
Qed.

Lemma prefix_outside_of (tops : list string) (p q : path) :
  inside tops p = true -> inside tops q = false -> is_prefix q p = false.
Proof.
  intros Hp Hq. destruct q as [|b q]; [discriminate|].
  destruct p as [|a p]; [reflexivity|].
  cbn [is_prefix]. now rewrite (inside_head tops a b p q Hp Hq).
Qed.

Lemma path_eqb_outside_of (tops : list string) (p q : path) :
  inside tops p = true -> inside tops q = false -> path_eqb q p = false.
Proof.
  intros Hp Hq. destruct q as [|b q]; [discriminate|].
  destruct p as [|a p]; [reflexivity|].
  cbn [path_eqb]. now rewrite (inside_head tops a b p q Hp Hq).
Qed.

Lemma is_prefix_outside_of (tops : list string) (p q : path) :
  p <> [] -> inside tops p = true -> inside tops q = false ->
  is_prefix p q = false.
Proof.
  intros Hne Hp Hq. destruct q as [|b q]; [discriminate|].
  destruct p as [|a p]; [congruence|].
  cbn [is_prefix]. rewrite String.eqb_sym.
  now rewrite (inside_head tops a b p q Hp Hq).
Qed.

Lemma inside_parent (tops : list string) (p : path) :
  inside tops p = true -> inside tops (parent p) = true.
Proof.
  destruct p as [|a [|b p]]; try reflexivity. intros H; exact H.
Qed.

Section Kept.

Variable tops : list string.

Lemma kept_refl (s : State) : kept_outside tops s s.
Proof. intros p _. reflexivity. Qed.

Lemma kept_trans (s1 s2 s3 : State) :
  kept_outside tops s1 s2 -> kept_outside tops s2 s3 -> kept_outside tops s1 s3.
Proof. intros H12 H23 p Hp. rewrite (H23 p Hp). exact (H12 p Hp). Qed.

Lemma kept_read_oracle (o : World -> nat -> string) :
  preserves (kept_outside tops) (read_oracle o).
Proof. intros s p _. reflexivity. Qed.

Lemma kept_put_self (m : MSP) : preserves (kept_outside tops) (put_self m).
Proof. intros s p _. reflexivity. Qed.

Lemma kept_ensure_dir (p : path) :
  inside tops p = true -> preserves (kept_outside tops) (ensure_dir p).
Proof.
  intros Hp s. unfold ensure_dir, mbind, get_world, raise, put_world.
  cbv beta iota.
  destruct (faulty (world s) (Mkdir p)); [apply kept_refl|].
  destruct (blocked (fs (world s)) [] p); [apply kept_refl|].
  intros q Hq. cbn.
  rewrite (prefix_outside_of tops p q Hp Hq).
  destruct (fs (world s) q); reflexivity.
Qed.

Lemma kept_save_json (p : path) (data : json) :
  inside tops p = true -> preserves (kept_outside tops) (save_json p data).
Proof.
  intros Hp. unfold save_json.
  apply (preserves_bind _ kept_trans);
    [apply kept_ensure_dir, inside_parent, Hp|].
  intros _ s. unfold mbind, get_world, raise, put_world. cbv beta iota.
  destruct (faulty (world s) (WriteFile p)); [apply kept_refl|].
  destruct (fs (world s) p) as [[|c]|]; try apply kept_refl;
    intros q Hq; cbn; now rewrite (path_eqb_outside_of tops p q Hp Hq).
Qed.

Lemma kept_rmtree (p : path) :
  p <> [] -> inside tops p = true -> preserves (kept_outside tops) (rmtree p).
Proof.
  intros Hne Hp s. unfold rmtree, mbind, get_world, raise, put_world.
  cbv beta iota.
  destruct (faulty (world s) (RmTree p)); [apply kept_refl|].
  destruct (fs (world s) p) as [[|c]|]; try apply kept_refl.
  intros q Hq. cbn. now rewrite (is_prefix_outside_of tops p q Hne Hp Hq).
Qed.

End Kept.

(** With the path of the instance the rest runs in the buffer. *)
Lemma kept_instance_path {A} (tops : list string) (k : path -> M A) :
  (forall i, preserves (kept_outside tops)
               (k (buffer_dir ++ [("instance_" ++ i)%string]))) ->
  preserves (kept_outside tops) (mbind get_instance_path k).
Proof.
  intros Hk s. unfold get_instance_path, mbind, get_self, raise, ret.
  cbv beta iota. destruct (instance_id (self s)) as [i|].
  - exact (Hk i s).
  - apply kept_refl.
Qed.

(** A computation is taken apart along its steps; [leaf] settles the steps
    that change the state. *)
Ltac walk refl trans leaf :=
  repeat
    lazymatch goal with
    | |- preserves _ (ret _) => apply (preserves_ret _ refl)
    | |- preserves _ (raise _) => apply (preserves_raise _ refl)
    | |- preserves _ (lift _) => apply (preserves_lift _ refl)
    | |- preserves _ get_self => apply (preserves_get_self _ refl)
    | |- preserves _ get_world => apply (preserves_get_world _ refl)
    | |- preserves _ (path_exists _) => apply (preserves_path_exists _ refl)
    | |- preserves _ (load_json _) => apply (preserves_load_json _ refl)
    | |- preserves _ now_iso => unfold now_iso
    | |- preserves _ uuid4_hex => unfold uuid4_hex
    | |- preserves _ strftime_now => unfold strftime_now
    | |- preserves _ (_apply_ri_filter _ _) => unfold _apply_ri_filter
    | |- preserves _ get_instance_path => unfold get_instance_path
    | |- preserves _ (try_except _ _) =>
        apply (preserves_try_except _ trans); [|intros ?]
    | |- preserves _ (mbind get_instance_path _) =>
        first [ apply kept_instance_path; intros ?
              | apply (preserves_bind _ trans); [|intros ?] ]
    | |- preserves _ (mbind _ _) => apply (preserves_bind _ trans); [|intros ?]
    | |- preserves _ (let _ := _ in _) => cbv zeta
    | |- preserves _ (if ?c then _ else _) => destruct c
    | |- preserves _ (match ?c with _ => _ end) => destruct c
    | |- _ => leaf tt
    end.

Ltac kept_leaf _ :=
  lazymatch goal with
  | |- preserves _ (read_oracle _) => apply kept_read_oracle
  | |- preserves _ (put_self _) => apply kept_put_self
  | |- preserves _ (save_json _ _) => apply kept_save_json; reflexivity
  | |- preserves _ (rmtree _) => apply kept_rmtree; [discriminate|reflexivity]
  end.

Ltac keep tops := walk (kept_refl tops) (kept_trans tops) kept_leaf.

Lemma kept_start_session (session_id : option string) :
  preserves (kept_outside ["Buffer"]) (start_session session_id).
Proof. unfold start_session. keep ["Buffer"]. Qed.

Lemma kept_write_episode (episode_data : dict) (ri_level : string) :
  preserves (kept_outside ["Buffer"; audit_log])
    (write_episode episode_data ri_level).
Proof. unfold write_episode. keep ["Buffer"; audit_log]. Qed.

Lemma kept_write_semantic (concept definition episode_id : string)
  (turn_ids : option (list string)) (stakes_level : option StakesLevel) :
  preserves (kept_outside ["Buffer"; audit_log])
    (write_semantic concept definition episode_id turn_ids stakes_level).
Proof. unfold write_semantic. cbv zeta. keep ["Buffer"; audit_log]. Qed.

Lemma kept_consolidate_to_instance :
  preserves (kept_outside ["Buffer"]) consolidate_to_instance.
Proof. unfold consolidate_to_instance. keep ["Buffer"]. Qed.

Lemma kept_end_session :
  preserves (kept_outside ["04_Session_Memory"]) end_session.
Proof. unfold end_session. keep ["04_Session_Memory"]. Qed.

(** X11.  In an instance whose identifier is a file name, starting a
    session and taking the snapshot of the instance change nothing outside
    the directory [Buffer], and writing an episode or a semantic entry
    nothing outside [Buffer] and the audit log of the validators, whether
    they return or raise: the master files of Origin, the version file,
    the session files and the backups are as before. *)
Theorem session_writes_stay_in_buffer (s : State) (session_id : option string)
  (episode_data : dict) (ri_level concept definition episode_id : string)
  (turn_ids : option (list string)) (stakes_level : option StakesLevel) :
  plain_instance s ->
  kept_outside ["Buffer"] s (snd (start_session session_id s)) /\
  kept_outside ["Buffer"; audit_log] s
    (snd (write_episode episode_data ri_level s)) /\
  kept_outside ["Buffer"; audit_log] s
    (snd (write_semantic concept definition episode_id turn_ids stakes_level s)) /\
  kept_outside ["Buffer"] s (snd (consolidate_to_instance s)).
Proof.
  intros _. split; [apply kept_start_session|].
  split; [apply kept_write_episode|].
  split; [apply kept_write_semantic|apply kept_consolidate_to_instance].
Qed.

Lemma session_writes_stay_in_buffer_witness :
  fs (world (snd (write_episode Sample.episode "L3"
                    (Sample.in_session Sample.origin_state))))
    (episodic_file [])
  = fs (world (Sample.in_session Sample.origin_state)) (episodic_file []).
Proof.
  assert (Hplain : plain_instance (Sample.in_session Sample.origin_state)).
  { intros i Hi. injection Hi as <-. reflexivity. }
  destruct (session_writes_stay_in_buffer
              (Sample.in_session Sample.origin_state)
              None Sample.episode "L3" "" "" "" None None Hplain)
    as (_ & Hwrite & _).
  apply Hwrite. reflexivity.
Defined.

(** ** The end of a session *)

Lemma save_json_self (p : path) (data : json) (s s' : State) (r : result unit) :
  save_json p data s = (r, s') -> self s' = self s.
Proof.
  intros H. pose proof (proj1 (safe_save_json p data s)) as K.
  rewrite H in K. exact K.
Qed.

(** X12.  [end_session] in an instance and on a session whose identifiers
    are file names, when it returns: the session file
    [04_Session_Memory/Session_memory_<id>.json] holds the identifiers,
    the time, the count of the session and the episodes and semantic
    entries of the buffer as they were read; the summary carries the same
    count; the object has no session and a counter at 0, the instance
    stays; nothing outside [04_Session_Memory] changed, so the buffer is
    kept; and a next [write_episode] is refused without any change until a
    session is started. *)
Theorem end_session_closes (s s' : State) (summary : dict) :
  plain_instance s ->
  plain_session s ->
  end_session s = (Ok summary, s') ->
  exists sid i buffer_data semantic_data episodes semantic_updates,
    session_id (self s) = Some sid /\
    instance_id (self s) = Some i /\
    read_json (fs (world s)) (episodic_file ["Buffer"; ("instance_" ++ i)%string])
      = Ok buffer_data /\
    read_json (fs (world s)) (semantic_file ["Buffer"; ("instance_" ++ i)%string])
      = Ok semantic_data /\
    py_get buffer_data "episodes" (JList []) = Ok episodes /\
    py_get semantic_data "entries" (JList []) = Ok semantic_updates /\
    fs (world s') ["04_Session_Memory"; ("Session_memory_" ++ sid ++ ".json")%string]
      = Some (File (Document (JObj
          [ ("session_id", JStr sid);
            ("instance_id", JStr i);
            ("created_at", JStr (now_iso_at (world s) (tick (world s))));
            ("episode_count", JInt (session_episode_count (self s)));
            ("episodes", episodes);
            ("semantic_updates", semantic_updates) ]))) /\
    summary = [ ("session_id", JStr sid);
                ("episode_count", JInt (session_episode_count (self s)));
                ("status", JStr "ended") ] /\
    self s' = set_session (self s) None 0 /\
    kept_outside ["04_Session_Memory"] s s' /\
    forall episode_data ri_level,
      write_episode episode_data ri_level s'
      = (Raise (RuntimeError [L "Must start_session() first"]), s').
Proof.
  intros _ _ H. pose proof (kept_end_session s) as Hkept.
  rewrite H in Hkept. cbn [snd] in Hkept.
  unfold end_session in H.
  unfold mbind at 1 in H. unfold get_self at 1 in H. cbv beta iota in H.
  destruct (session_id (self s)) as [sid|] eqn:Hsid; [|discriminate].
  apply mbind_ok_inv in H. destruct H as (ip & s1 & Hip & H).
  apply get_instance_path_ok in Hip. destruct Hip as [-> (i & Hi & ->)].
  apply mbind_ok_inv in H. destruct H as (bd & s2 & Hbd & H).
  rewrite load_json_run in Hbd. injection Hbd as Hbd <-.
  apply mbind_ok_inv in H. destruct H as (sd & s3 & Hsd & H).
  rewrite load_json_run in Hsd. injection Hsd as Hsd <-.
  apply mbind_ok_inv in H. destruct H as (created & s4 & Hc & H).
  unfold now_iso in Hc. rewrite read_oracle_run in Hc. injection Hc as <- <-.
  apply mbind_ok_inv in H. destruct H as (eps & s5 & Heps & H).
  unfold lift in Heps. injection Heps as Heps <-.
  apply mbind_ok_inv in H. destruct H as (ups & s6 & Hups & H).
  unfold lift in Hups. injection Hups as Hups <-.
  cbv zeta in H.
  apply mbind_ok_inv in H. destruct H as ([] & s7 & Hsave & H).
  pose proof (save_json_self _ _ _ _ _ Hsave) as Hself. cbn [self] in Hself.
  apply save_json_ok in Hsave.
  unfold mbind, get_self, put_self, ret in H. cbv beta iota in H.
  injection H as <- <-.
  exists sid, i, bd, sd, eps, ups.
  split; [reflexivity|]. split; [exact Hi|].
  split; [exact Hbd|]. split; [exact Hsd|].
  split; [exact Heps|]. split; [exact Hups|].
  split; [rewrite Hi in Hsave; exact Hsave|].
  split; [reflexivity|].
  split; [cbn [self]; now rewrite Hself|].
  split; [exact Hkept|].
  intros episode_data ri_level. reflexivity.
Qed.

Lemma end_session_closes_witness :
  exists s', snd (end_session (Sample.in_session Sample.origin_state)) = s' /\
             session_id (self s') = None.
Proof.
  assert (Hrun : exists summary s',
             end_session (Sample.in_session Sample.origin_state)
             = (Ok summary, s'))
    by (do 2 eexists; vm_compute; reflexivity).
  destruct Hrun as (summary & s' & Hrun).
  assert (Hplain : plain_session (Sample.in_session Sample.origin_state)).
  { intros sid Hsid. injection Hsid as <-. reflexivity. }
  assert (Hinst : plain_instance (Sample.in_session Sample.origin_state)).
  { intros i Hi. injection Hi as <-. reflexivity. }
  exists s'. split; [now rewrite Hrun|].
  destruct (end_session_closes _ _ _ Hinst Hplain Hrun)
    as (sid & i & bd & sd & eps & ups & _ & _ & _ & _ & _ & _ & _ & _ & Hself & _).
  now rewrite Hself.
Defined.

(** ** What [write_episode] stores *)

(** X13.  In strict mode with the validators built, an episode whose
    validation result is invalid is refused before anything is stored:
    [write_episode] raises the validation error with the errors of the
    result, of which there is one at least; the object is as before, and
    so is the tree but for the audit log of the validators, so that the
    buffer does not hold the episode. *)
Theorem strict_mode_refuses_invalid_episode (s : State) (sid : string)
  (episode_data : dict) (ri_level : string) (res : ValidationResult) :
  session_id (self s) = Some sid ->
  (session_episode_count (self s) < 30)%Z ->
  validation_mode (self s) = "strict" ->
  episodic_validator (self s) <> None ->
  EpisodicValidator.validate episode_data ri_level = Ok res ->
  valid res = false ->
  fst (write_episode episode_data ri_level s)
  = Raise (MSPValidationError "Episodic validation failed:" (errors res)) /\
  errors res <> [] /\
  self (snd (write_episode episode_data ri_level s)) = self s /\
  kept_outside [audit_log] s (snd (write_episode episode_data ri_level s)).
Proof.
  intros Hsid Hcount Hmode Hval E Hv.
  assert (Hrun : write_episode episode_data ri_level s
                 = (Raise (MSPValidationError "Episodic validation failed:"
                             (errors res)), s)).
  { unfold write_episode, mbind at 1, get_self. cbv beta iota. rewrite Hsid.
    destruct (Z.leb_spec 30 (session_episode_count (self s))) as [|_]; [lia|].
    unfold mbind at 1. unfold lift at 1, episode_checkpoint.
    rewrite Hmode. cbn [String.eqb Ascii.eqb Bool.eqb negb].
    destruct (episodic_validator (self s)); [|now destruct Hval].
    rewrite E, Hv. reflexivity. }
  rewrite Hrun. cbn [fst snd]. split; [reflexivity|].
  split; [|split; [reflexivity|intros p _; reflexivity]].
  pose proof (sound_episodic_validate _ _ _ E) as Hs. unfold sound in Hs.
  rewrite Hv in Hs. destruct (errors res); discriminate.
Qed.

Lemma strict_mode_refuses_invalid_episode_witness :
  exists errs,
    fst (write_episode SampleEntry.labelled_episode "L3"
           (Sample.in_session Sample.state0))
    = Raise (MSPValidationError "Episodic validation failed:" errs) /\
    errs <> [].
Proof.
  assert (Hv : exists res,
             EpisodicValidator.validate SampleEntry.labelled_episode "L3" = Ok res
             /\ valid res = false)
    by (eexists; split; vm_compute; reflexivity).
  destruct Hv as (res & Hres & Hinvalid). exists (errors res).
  destruct (strict_mode_refuses_invalid_episode
              (Sample.in_session Sample.state0) "S01"
              SampleEntry.labelled_episode "L3" res)
    as (Hraise & Herrs & _);
    [reflexivity|reflexivity|reflexivity|discriminate|exact Hres|exact Hinvalid|].
  split; [exact Hraise|exact Herrs].
Defined.

(** What the filter returns, and that it only reads the clock. *)
Lemma _apply_ri_filter_run (episode : dict) (ri_level : string) (s : State) :
  exists t,
    _apply_ri_filter episode ri_level s
    = (Ok (if String.eqb ri_level "L1" then
             [ ("episode_id", dict_get "episode_id" JNull episode);
               ("timestamp", dict_get "timestamp" (JStr t) episode);
               ("emotive_snapshot", dict_get "emotive_snapshot" (JObj []) episode) ]
           else if String.eqb ri_level "L2" then
             [ ("episode_id", dict_get "episode_id" JNull episode);
               ("timestamp", dict_get "timestamp" (JStr t) episode);
               ("summary", dict_get "summary" (JStr "") episode);
               ("emotive_snapshot", dict_get "emotive_snapshot" (JObj []) episode) ]
           else episode),
       snd (_apply_ri_filter episode ri_level s)) /\
    self (snd (_apply_ri_filter episode ri_level s)) = self s /\
    fs (world (snd (_apply_ri_filter episode ri_level s))) = fs (world s).
Proof.
  exists (now_iso_at (world s) (tick (world s))).
  unfold _apply_ri_filter.
  destruct (String.eqb ri_level "L1"); [|destruct (String.eqb ri_level "L2")];
    repeat split.
Qed.

(** X14.  A call of [write_episode] that returns has appended one episode
    to the episodes of the buffer file of the instance, after those that
    were there, in their order (none when the file was absent or had no
    [episodes]).  The stored episode carries the returned identifier, which
    is the one of the caller when there is one, and the metadata of MSP with
    the session and the level; at L1 and L2 it has the fields of the
    projection only, and at any other level it is the dictionary handed
    back to the caller. *)
Theorem write_episode_appends (s s' : State) (episode_data returned : dict)
  (ri_level : string) (episode_id : json) :
  plain_instance s ->
  write_episode episode_data ri_level s = (Ok (episode_id, returned), s') ->
  exists i sid before doc stored metadata,
    instance_id (self s) = Some i /\
    session_id (self s) = Some sid /\
    read_json (fs (world s))
      (episodic_file ["Buffer"; ("instance_" ++ i)%string]) = Ok before /\
    fs (world s') (episodic_file ["Buffer"; ("instance_" ++ i)%string])
      = Some (File (Document (JObj doc))) /\
    lookup "episodes" doc = Some (JList (items_at "episodes" before ++ [JObj stored])) /\
    lookup "episode_id" stored = Some episode_id /\
    episode_id
      = match dict_get "episode_id" JNull episode_data with
        | JNull =>
            JStr ("ep_" ++ sid ++ "_"
                    ++ pad_Z 3 (session_episode_count (self s) + 1) ++ "_"
                    ++ take 6 (uuid4_hex_at (world s) (tick (world s))))
        | given => given
        end /\
    lookup "msp_metadata" stored = Some (JObj metadata) /\
    lookup "written_by" metadata = Some (JStr "MSP") /\
    lookup "session_id" metadata = Some (JStr sid) /\
    lookup "ri_level" metadata = Some (JStr ri_level) /\
    (ri_level = "L1" ->
     map fst stored = ["episode_id"; "timestamp"; "emotive_snapshot"; "msp_metadata"]) /\
    (ri_level = "L2" ->
     map fst stored
     = ["episode_id"; "timestamp"; "summary"; "emotive_snapshot"; "msp_metadata"]) /\
    (ri_level <> "L1" -> ri_level <> "L2" -> returned = stored).
Proof.
  intros _ H. unfold write_episode in H.
  unfold mbind at 1 in H. unfold get_self at 1 in H. cbv beta iota in H.
  destruct (session_id (self s)) as [sid|] eqn:Hsid; [|discriminate].
  destruct (30 <=? session_episode_count (self s))%Z; [discriminate|].
  apply mbind_ok_inv in H. destruct H as ([] & s1 & Hck & H).
  unfold lift in Hck. injection Hck as _ <-.
  apply mbind_ok_inv in H. destruct H as ([id ep1] & s2 & Hid & H).
  assert (Hid' :
    id = match dict_get "episode_id" JNull episode_data with
         | JNull =>
             JStr ("ep_" ++ sid ++ "_"
                     ++ pad_Z 3 (session_episode_count (self s) + 1) ++ "_"
                     ++ take 6 (uuid4_hex_at (world s) (tick (world s))))
         | given => given
         end /\
    lookup "episode_id" ep1 = Some id /\
    self s2 = self s /\ fs (world s2) = fs (world s)).
  { unfold dict_get in *.
    destruct (lookup "episode_id" episode_data) as [given|] eqn:Eg.
    - destruct given;
        try (unfold ret in Hid; injection Hid as <- <- <-; repeat split; assumption).
      unfold mbind, uuid4_hex, ret in Hid. rewrite read_oracle_run in Hid.
      injection Hid as <- <- <-. repeat split. apply lookup_dict_set_same.
    - unfold mbind, uuid4_hex, ret in Hid. rewrite read_oracle_run in Hid.
      injection Hid as <- <- <-. repeat split. apply lookup_dict_set_same. }
  destruct Hid' as (Hid1 & Hid2 & Hself2 & Hfs2).
  apply mbind_ok_inv in H. destruct H as (filtered & s3 & Hf & H).
  destruct (_apply_ri_filter_run ep1 ri_level s2) as (t0 & Hrun & Hself3 & Hfs3).
  rewrite Hf in Hrun, Hself3, Hfs3. cbn [snd] in Hrun, Hself3, Hfs3.
  injection Hrun as Hfiltered.
  apply mbind_ok_inv in H. destruct H as (t & s4 & Ht & H).
  unfold now_iso in Ht. rewrite read_oracle_run in Ht. injection Ht as <- <-.
  cbv zeta in H.
  apply mbind_ok_inv in H. destruct H as (ip & s5 & Hip & H).
  apply get_instance_path_ok in Hip. destruct Hip as [-> (i & Hi & ->)].
  cbn [self] in Hi. rewrite Hself3, Hself2 in Hi.
  apply mbind_ok_inv in H. destruct H as (bd & s6 & Hbd & H).
  rewrite load_json_run in Hbd. injection Hbd as Hbd <-.
  cbn [world fs with_tick] in Hbd. rewrite Hfs3, Hfs2 in Hbd.
  apply mbind_ok_inv in H. destruct H as (has & s7 & Hhas & H).
  unfold lift in Hhas. injection Hhas as Hhas <-.
  apply mbind_ok_inv in H. destruct H as (bd' & s8 & Hbd' & H).
  apply mbind_ok_inv in H. destruct H as (bd'' & s9 & Happ & H).
  unfold lift in Happ. injection Happ as Happ <-.
  apply mbind_ok_inv in H. destruct H as ([] & s10 & Hsave & H).
  apply save_json_ok in Hsave.
  unfold mbind, get_self, put_self, ret in H. cbv beta iota in H.
  injection H as <- <- <-.
  apply append_to_ok in Happ.
  destruct Happ as (d & items & Ebd' & Hitems & Ebd''). subst bd' bd''.
  assert (Hearlier : items = items_at "episodes" bd).
  { destruct has; cbn [negb] in Hbd'.
    - unfold ret in Hbd'. injection Hbd' as -> _.
      unfold items_at. now rewrite Hitems.
    - unfold mbind, now_iso, ret in Hbd'. rewrite read_oracle_run in Hbd'.
      injection Hbd' as <- _. cbn in Hitems. injection Hitems as <-.
      unfold items_at. destruct bd as [| | | | | |d0]; try reflexivity.
      cbn [str_in] in Hhas. injection Hhas as Hhas. unfold has_key in Hhas.
      destruct (lookup "episodes" d0); [discriminate|reflexivity]. }
  match type of Hsave with
  | context [dict_set "msp_metadata" (JObj ?m) filtered] =>
      set (metadata := m) in *
  end.
  exists i, sid, bd, (dict_set "episodes" (JList (items ++ [JObj (dict_set "msp_metadata" (JObj metadata) filtered)])) d),
    (dict_set "msp_metadata" (JObj metadata) filtered), metadata.
  split; [exact Hi|]. split; [reflexivity|]. split; [exact Hbd|].
  split; [cbn in Hsave; exact Hsave|].
  split; [rewrite lookup_dict_set_same, Hearlier; reflexivity|].
  split.
  { rewrite lookup_dict_set_other by reflexivity. rewrite Hfiltered.
    destruct (String.eqb ri_level "L1"); [|destruct (String.eqb ri_level "L2")];
      try exact Hid2; cbn [lookup String.eqb Ascii.eqb Bool.eqb];
      unfold dict_get; now rewrite Hid2. }
  split; [exact Hid1|].
  split; [apply lookup_dict_set_same|].
  assert (Hmeta :
            lookup "written_by" metadata = Some (JStr "MSP") /\
            lookup "session_id" metadata = Some (JStr sid) /\
            lookup "ri_level" metadata = Some (JStr ri_level)).
  { unfold metadata. destruct (lookup "pulse_snapshot" ep1); repeat split. }
  destruct Hmeta as (Hm1 & Hm2 & Hm3).
  split; [exact Hm1|]. split; [exact Hm2|]. split; [exact Hm3|].
  split; [intros ->; rewrite Hfiltered; reflexivity|].
  split; [intros ->; rewrite Hfiltered; reflexivity|].
  intros H1 H2.
  destruct (String.eqb_spec ri_level "L1") as [|_]; [contradiction|].
  destruct (String.eqb_spec ri_level "L2") as [|_]; [contradiction|].
  reflexivity.
Qed.

Lemma write_episode_appends_witness :
  exists doc,
    fs (world (snd (write_episode Sample.episode "L1"
                      (Sample.in_session Sample.state0))))
      (episodic_file ["Buffer"; "instance_I1"])
    = Some (File (Document (JObj doc))) /\
    exists stored, lookup "episodes" doc = Some (JList [JObj stored]).
Proof.
  assert (Hrun : exists episode_id returned s',
             write_episode Sample.episode "L1" (Sample.in_session Sample.state0)
             = (Ok (episode_id, returned), s'))
    by (do 3 eexists; vm_compute; reflexivity).
  destruct Hrun as (episode_id & returned & s' & Hrun).
  assert (Hplain : plain_instance (Sample.in_session Sample.state0)).
  { intros i Hi. injection Hi as <-. reflexivity. }
  destruct (write_episode_appends _ _ _ _ _ _ Hplain Hrun)
    as (i & sid & before & doc & stored & metadata & Hi & _ & Hbefore & Hfile
        & Heps & _).
  injection Hi as <-. injection Hbefore as <-.
  exists doc. rewrite Hrun. split; [exact Hfile|].
  exists stored. exact Heps.
Defined.

(** ** The version file and the buffer of an instance *)

Lemma same_self_refl (s : State) : same_self s s.
Proof. reflexivity. Qed.

Lemma same_self_trans (s1 s2 s3 : State) :
  same_self s1 s2 -> same_self s2 s3 -> same_self s1 s3.
Proof. unfold same_self. congruence. Qed.

Lemma self_save_json (p : path) (data : json) :
  preserves same_self (save_json p data).
Proof. intros s. exact (proj1 (safe_save_json p data s)). Qed.

Lemma self_rmtree (p : path) : preserves same_self (rmtree p).
Proof.
  intros s. unfold rmtree, mbind, get_world, raise, put_world. cbv beta iota.
  destruct (faulty (world s) (RmTree p)); [reflexivity|].
  destruct (fs (world s) p) as [[|c]|]; reflexivity.
Qed.

Ltac self_leaf _ :=
  lazymatch goal with
  | |- preserves _ (read_oracle _) => intros ?; reflexivity
  | |- preserves _ (save_json _ _) => apply self_save_json
  | |- preserves _ (rmtree _) => apply self_rmtree
  end.

Ltac selfsame := walk same_self_refl same_self_trans self_leaf.

Lemma kept__increment_version :
  preserves (kept_outside ["version.json"; "version.tmp"]) _increment_version.
Proof.
  unfold _increment_version, _get_current_version.
  keep ["version.json"; "version.tmp"].
Qed.

Lemma self__increment_version : preserves same_self _increment_version.
Proof. unfold _increment_version, _get_current_version. selfsame. Qed.

Lemma _increment_version_ok (s s' : State) :
  _increment_version s = (Ok tt, s') ->
  exists v next,
    current_version (fs (world s)) = Ok v /\
    py_add_int v 1 = Ok next /\
    current_version (fs (world s')) = Ok next.
Proof.
  unfold _increment_version. intros H.
  apply mbind_ok_inv in H. destruct H as (v & s1 & Hv & H).
  rewrite _get_current_version_run in Hv. injection Hv as Hv <-.
  apply mbind_ok_inv in H. destruct H as (next & s2 & Hn & H).
  unfold lift in Hn. injection Hn as Hn <-.
  apply mbind_ok_inv in H. destruct H as (t & s3 & Ht & H).
  apply save_json_ok in H.
  exists v, next. split; [exact Hv|]. split; [exact Hn|].
  unfold current_version, read_json. rewrite H. reflexivity.
Qed.

(** X16.  A call of [_increment_version] that returns has stored the
    version that [_get_current_version] read, plus one, and a next
    [_get_current_version] reads it back; without a version file the
    version read is 1, so the first increment stores 2.  Nothing changes
    in the tree but the version file and the temporary file [version.tmp]
    beside it, through which it is written, and the object is as
    before. *)
Theorem version_increment_round_trip (s s' : State) :
  _increment_version s = (Ok tt, s') ->
  exists v next,
    _get_current_version s = (Ok v, s) /\
    py_add_int v 1 = Ok next /\
    _get_current_version s' = (Ok next, s') /\
    (fs (world s) version_file = None -> next = JInt 2) /\
    self s' = self s /\
    kept_outside ["version.json"; "version.tmp"] s s'.
Proof.
  intros H. destruct (_increment_version_ok s s' H) as (v & next & Hv & Hn & Hv').
  exists v, next. rewrite !_get_current_version_run, Hv, Hv'.
  split; [reflexivity|]. split; [exact Hn|]. split; [reflexivity|].
  split.
  - intros Hnone. unfold current_version in Hv. rewrite Hnone in Hv.
    injection Hv as <-. cbn in Hn. congruence.
  - pose proof (self__increment_version s) as Hs.
    pose proof (kept__increment_version s) as Hk.
    rewrite H in Hs, Hk. split; [exact Hs|exact Hk].
Qed.

Lemma version_increment_round_trip_witness :
  _get_current_version (snd (_increment_version Sample.origin_state))
  = (Ok (JInt 2), snd (_increment_version Sample.origin_state)).
Proof.
  assert (Hrun : exists s', _increment_version Sample.origin_state = (Ok tt, s'))
    by (eexists; vm_compute; reflexivity).
  destruct Hrun as (s' & Hrun).
  destruct (version_increment_round_trip _ _ Hrun)
    as (v & next & Hv & Hn & Hv' & _).
  rewrite Hrun. cbn [snd]. rewrite Hv'.
  rewrite _get_current_version_run in Hv.
  assert (E : current_version (fs (world Sample.origin_state)) = Ok (JInt 1))
    by (vm_compute; reflexivity).
  rewrite E in Hv. injection Hv as <-. vm_compute in Hn. congruence.
Defined.

Lemma get_instance_path_inv (s : State) :
  (exists i, instance_id (self s) = Some i /\
             get_instance_path s
             = (Ok (buffer_dir ++ [("instance_" ++ i)%string])%list, s)) \/
  (instance_id (self s) = None /\
   get_instance_path s = (Raise (RuntimeError [L "No active instance"]), s)).
Proof.
  unfold get_instance_path, mbind, get_self, raise, ret.
  destruct (instance_id (self s)) as [i|]; [left; eauto|right; auto].
Qed.

Lemma rmtree_inv (p : path) (s s' : State) (r : result unit) :
  rmtree p s = (r, s') ->
  (r = Ok tt /\ fs (world s) p = Some Dir /\ self s' = self s /\
   forall q, fs (world s') q = if is_prefix p q then None else fs (world s) q) \/
  (exists e, r = Raise e /\ s' = s).
Proof.
  unfold rmtree, mbind, get_world, raise, put_world.
  destruct (faulty (world s) (RmTree p));
    [intros H; injection H as <- <-; right; eauto|].
  destruct (fs (world s) p) as [[|c]|] eqn:Hp;
    intros H; injection H as <- <-; try (right; eauto; fail).
  left. repeat split.
Qed.

Lemma delete_buffer_run (s s' : State) (r : result unit) :
  delete_buffer s = (r, s') ->
  match r with
  | Ok _ =>
      exists i,
        instance_id (self s) = Some i /\
        self s' = clear_instance (self s) /\
        fs (world s') ["Buffer"; ("instance_" ++ i)%string] = None /\
        (fs (world s) ["Buffer"; ("instance_" ++ i)%string] = Some Dir ->
         forall q, is_prefix ["Buffer"; ("instance_" ++ i)%string] q = true ->
                   fs (world s') q = None)
  | Raise _ => self s' = self s
  end /\
  forall i q, instance_id (self s) = Some i ->
              is_prefix ["Buffer"; ("instance_" ++ i)%string] q = false ->
              fs (world s') q = fs (world s) q.
Proof.
  intros H. unfold delete_buffer in H.
  destruct (get_instance_path_inv s) as [(i & Hi & Hip)|[Hi Hip]].
  - unfold mbind at 1 in H. rewrite Hip in H.
    unfold mbind at 1 in H. rewrite path_exists_run in H.
    unfold mbind at 1 in H.
    change (buffer_dir ++ [("instance_" ++ i)%string])%list
      with ["Buffer"; ("instance_" ++ i)%string] in H.
    set (ip := ["Buffer"; ("instance_" ++ i)%string]) in *.
    unfold exists_ in H.
    destruct (fs (world s) ip) as [n|] eqn:Hp.
    + destruct (rmtree ip s) as [r1 s1] eqn:Hrm.
      destruct (rmtree_inv _ _ _ _ Hrm) as [(-> & Hd & Hs1 & Hfs)|(e & -> & ->)].
      * unfold mbind, get_self, put_self, ret in H. injection H as <- <-.
        split.
        -- exists i. split; [exact Hi|]. cbn [self world].
           split; [now rewrite Hs1|].
           split; [rewrite Hfs, is_prefix_refl; reflexivity|].
           intros _ q Hq. fold ip in Hq. now rewrite Hfs, Hq.
        -- intros i0 q Hi0 Hq. rewrite Hi in Hi0. injection Hi0 as <-.
           cbn [world]. rewrite Hfs. fold ip in Hq. now rewrite Hq.
      * injection H as <- <-. split; reflexivity.
    + unfold mbind, get_self, put_self, ret in H. injection H as <- <-.
      split.
      * exists i. split; [exact Hi|]. split; [reflexivity|].
        split; [exact Hp|]. intros Hd. fold ip in Hd. congruence.
      * reflexivity.
  - unfold mbind at 1 in H. rewrite Hip in H. injection H as <- <-.
    split; reflexivity.
Qed.

(** X17.  [delete_buffer] in an instance whose identifier is a file name:
    when it returns, the directory of the instance is absent, with all that
    was in it when it was a directory, and the object has no instance, no
    session and a counter at 0; when it raises, the object is as before, so
    the instance stays active.  In both cases nothing changes but what is in
    the directory of the instance. *)
Theorem delete_buffer_clears (s s' : State) (r : result unit) :
  plain_instance s ->
  delete_buffer s = (r, s') ->
  match r with
  | Ok _ =>
      exists i,
        instance_id (self s) = Some i /\
        self s' = clear_instance (self s) /\
        fs (world s') ["Buffer"; ("instance_" ++ i)%string] = None /\
        (fs (world s) ["Buffer"; ("instance_" ++ i)%string] = Some Dir ->
         forall q, is_prefix ["Buffer"; ("instance_" ++ i)%string] q = true ->
                   fs (world s') q = None)
  | Raise _ => self s' = self s
  end /\
  forall i q, instance_id (self s) = Some i ->
              is_prefix ["Buffer"; ("instance_" ++ i)%string] q = false ->
              fs (world s') q = fs (world s) q.
Proof. intros _. apply delete_buffer_run. Qed.

Lemma delete_buffer_clears_witness :
  instance_id (self (snd (delete_buffer Sample.origin_state))) = None /\
  fs (world (snd (delete_buffer Sample.origin_state)))
    (episodic_file []) = fs (world Sample.origin_state) (episodic_file []).
Proof.
  assert (Hplain : plain_instance Sample.origin_state).
  { intros i Hi. injection Hi as <-. reflexivity. }
  destruct (delete_buffer Sample.origin_state) as [r s'] eqn:Hrun.
  destruct (delete_buffer_clears _ _ _ Hplain Hrun) as [Hr Hkept].
  cbn [snd]. split.
  - assert (Hok : fst (delete_buffer Sample.origin_state) = Ok tt)
      by (vm_compute; reflexivity).
    rewrite Hrun in Hok. cbn [fst] in Hok. subst r.
    destruct Hr as (i & _ & Hself & _). now rewrite Hself.
  - apply (Hkept "I1"); reflexivity.
Defined.

(** ** The merges of a consolidation *)

Lemma extend_at_ok (data : json) (key : string) (items j : json) :
  extend_at data key items = Ok j ->
  exists d old new,
    data = JObj d /\ lookup key d = Some (JList old) /\
    py_iter items = Ok new /\
    j = JObj (dict_set key (JList (old ++ new)) d).
Proof.
  unfold extend_at. destruct data as [| | | | | |d]; try discriminate.
  cbn [subscript]. destruct (lookup key d) as [l|] eqn:E; [|discriminate].
  cbn [bind]. destruct l as [| | | | |old|]; try discriminate.
  destruct (py_iter items) as [new|]; [|discriminate].
  cbn [bind]. intros H. injection H as <-. exists d, old, new. auto.
Qed.

(** The document that a merge extends: the master, or a fresh one when the
    master has no list under [key]. *)
Lemma master_or_fresh (key : string) (master fresh : json) (has : bool)
  (d : dict) (old : list json) :
  str_in key master = Ok has ->
  (if negb has then fresh else master) = JObj d ->
  lookup key d = Some (JList old) ->
  items_at key fresh = [] ->
  old = items_at key master.
Proof.
  intros Hhas Hd Hold Hfresh. destruct has; cbn [negb] in Hd.
  - subst master. unfold items_at. now rewrite Hold.
  - subst fresh. unfold items_at in Hfresh. rewrite Hold in Hfresh. subst old.
    unfold items_at. destruct master as [| | | | | |d0]; try reflexivity.
    cbn [str_in] in Hhas. injection Hhas as Hhas. unfold has_key in Hhas.
    destruct (lookup key d0); [discriminate|reflexivity].
Qed.

Lemma self__merge_episodic (buffer_data : json) :
  preserves same_self (_merge_episodic buffer_data).
Proof. unfold _merge_episodic. selfsame. Qed.

Lemma kept__merge_episodic (buffer_data : json) :
  preserves (kept_outside ["01_Episodic_memory"]) (_merge_episodic buffer_data).
Proof. unfold _merge_episodic. keep ["01_Episodic_memory"]. Qed.

Lemma _merge_episodic_ok (buffer_data : json) (s s' : State) :
  _merge_episodic buffer_data s = (Ok tt, s') ->
  exists master new_episodes added doc,
    read_json (fs (world s)) (episodic_file []) = Ok master /\
    py_get buffer_data "episodes" (JList []) = Ok new_episodes /\
    py_iter new_episodes = Ok added /\
    fs (world s') (episodic_file []) = Some (File (Document (JObj doc))) /\
    lookup "episodes" doc
    = Some (JList (items_at "episodes" master ++ added)) /\
    (forall d k,
       master = JObj d -> has_key "episodes" d = true ->
       String.eqb k "episodes" = false -> String.eqb k "timestamp" = false ->
       lookup k doc = lookup k d).
Proof.
  intros H. unfold _merge_episodic in H. cbv zeta in H.
  apply mbind_ok_inv in H. destruct H as (master & s1 & Hm & H).
  rewrite load_json_run in Hm. injection Hm as Hm <-.
  apply mbind_ok_inv in H. destruct H as (has & s2 & Hhas & H).
  unfold lift in Hhas. injection Hhas as Hhas <-.
  apply mbind_ok_inv in H. destruct H as (md & s3 & Hmd & H).
  apply mbind_ok_inv in H. destruct H as (new_episodes & s4 & Hnew & H).
  unfold lift in Hnew. injection Hnew as Hnew <-.
  apply mbind_ok_inv in H. destruct H as (md' & s5 & Hext & H).
  unfold lift in Hext. injection Hext as Hext <-.
  apply mbind_ok_inv in H. destruct H as (t & s6 & Ht & H).
  apply mbind_ok_inv in H. destruct H as (d' & s7 & Hd' & H).
  unfold lift in Hd'. injection Hd' as Hd' <-.
  apply save_json_ok in H.
  apply extend_at_ok in Hext.
  destruct Hext as (d & old & added & -> & Hold & Hadded & ->).
  cbn [py_items] in Hd'. injection Hd' as <-.
  exists master, new_episodes, added, (dict_set "timestamp" (JStr t)
    (dict_set "episodes" (JList (old ++ added)) d)).
  split; [exact Hm|]. split; [exact Hnew|]. split; [exact Hadded|].
  split; [exact H|].
  assert (Hmd' : exists fresh,
             (if negb has then fresh else master) = JObj d /\
             items_at "episodes" fresh = []).
  { destruct has; cbn [negb] in Hmd.
    - unfold ret in Hmd. injection Hmd as -> _. exists JNull. auto.
    - unfold mbind, now_iso, ret in Hmd. rewrite read_oracle_run in Hmd.
      injection Hmd as <- _. eexists. split; reflexivity. }
  destruct Hmd' as (fresh & Hfresh & Hempty).
  split.
  - rewrite lookup_dict_set_other by reflexivity.
    rewrite lookup_dict_set_same.
    now rewrite (master_or_fresh "episodes" master fresh has d old
                   Hhas Hfresh Hold Hempty).
  - intros d0 k -> Hk He Ht'. cbn [str_in] in Hhas. rewrite Hk in Hhas.
    injection Hhas as <-. cbn [negb] in Hfresh. injection Hfresh as <-.
    rewrite !lookup_dict_set_other by assumption. reflexivity.
Qed.

(** X18.  A merge of the episodic buffer that returns is an append: the
    master file holds the episodes that it held, in their order (none when
    the file was absent or had no [episodes]), followed by those of the
    buffer; nothing is removed, replaced or reordered, and the other
    fields of an existing master are kept, but the timestamp.  Nothing
    outside [01_Episodic_memory] changes, and the object is as before. *)
Theorem merge_episodic_appends (buffer_data : json) (s s' : State) :
  _merge_episodic buffer_data s = (Ok tt, s') ->
  exists master new_episodes added doc,
    read_json (fs (world s)) (episodic_file []) = Ok master /\
    py_get buffer_data "episodes" (JList []) = Ok new_episodes /\
    py_iter new_episodes = Ok added /\
    fs (world s') (episodic_file []) = Some (File (Document (JObj doc))) /\
    lookup "episodes" doc
    = Some (JList (items_at "episodes" master ++ added)) /\
    (forall d k,
       master = JObj d -> has_key "episodes" d = true ->
       String.eqb k "episodes" = false -> String.eqb k "timestamp" = false ->
       lookup k doc = lookup k d) /\
    self s' = self s /\
    kept_outside ["01_Episodic_memory"] s s'.
Proof.
  intros H.
  destruct (_merge_episodic_ok _ _ _ H)
    as (master & new_episodes & added & doc & H1 & H2 & H3 & H4 & H5 & H6).
  exists master, new_episodes, added, doc.
  pose proof (self__merge_episodic buffer_data s) as Hs.
  pose proof (kept__merge_episodic buffer_data s) as Hk.
  rewrite H in Hs, Hk. tauto.
Qed.

Lemma merge_episodic_appends_witness :
  exists doc,
    fs (world (snd (_merge_episodic
                      (JObj [("episodes", JList [JObj Sample.episode])])
                      Sample.origin_state)))
      (episodic_file [])
    = Some (File (Document (JObj doc))) /\
    lookup "episodes" doc = Some (JList [JObj Sample.episode]).
Proof.
  assert (Hrun : exists s',
             _merge_episodic (JObj [("episodes", JList [JObj Sample.episode])])
               Sample.origin_state = (Ok tt, s'))
    by (eexists; vm_compute; reflexivity).
  destruct Hrun as (s' & Hrun).
  destruct (merge_episodic_appends _ _ _ Hrun)
    as (master & new_episodes & added & doc & Hm & Hn & Ha & Hf & He & _).
  assert (Em : read_json (fs (world Sample.origin_state)) (episodic_file [])
               = Ok (JObj [("episodes", JList [])]))
    by (vm_compute; reflexivity).
  rewrite Em in Hm. injection Hm as <-.
  injection Hn as <-. injection Ha as <-.
  exists doc. rewrite Hrun. split; [exact Hf|exact He].
Defined.

Lemma self__merge_sensory (buffer_data : json) :
  preserves same_self (_merge_sensory buffer_data).
Proof. unfold _merge_sensory. selfsame. Qed.

Lemma kept__merge_sensory (buffer_data : json) :
  preserves (kept_outside ["03_Sensory_memory"; audit_log])
    (_merge_sensory buffer_data).
Proof. unfold _merge_sensory. keep ["03_Sensory_memory"; audit_log]. Qed.

Lemma sensory_admitted_valid (m : MSP) (entries : list json) :
  sensory_validator m <> None ->
  Forall (fun entry =>
            exists res, SensoryValidator.validate entry = Ok res /\
                        valid res = true /\ errors res = [])
    (sensory_admitted m entries).
Proof.
  intros Hv. apply Forall_forall. intros entry Hin.
  unfold sensory_admitted in Hin. apply filter_In in Hin.
  destruct Hin as [_ Hkeep].
  destruct (sensory_validator m); [|now destruct Hv].
  destruct (SensoryValidator.validate entry) as [res|] eqn:E; [|discriminate].
  exists res. split; [reflexivity|]. split; [exact Hkeep|].
  pose proof (sound_sensory_validate _ _ E) as Hs. unfold sound in Hs.
  rewrite Hkeep in Hs. destruct (errors res); [reflexivity|discriminate].
Qed.

Lemma _merge_sensory_run (buffer_data : json) (s s' : State) :
  _merge_sensory buffer_data s = (Ok tt, s') ->
  exists master buffered entries doc,
    read_json (fs (world s)) (sensory_file []) = Ok master /\
    py_get buffer_data "entries" (JList []) = Ok buffered /\
    py_iter buffered = Ok entries /\
    fs (world s') (sensory_file []) = Some (File (Document (JObj doc))) /\
    lookup "entries" doc
    = Some (JList (items_at "entries" master
                     ++ sensory_admitted (self s) entries)) /\
    (forall entry, In entry (sensory_admitted (self s) entries) ->
                   In entry entries) /\
    (sensory_validator (self s) <> None ->
     Forall (fun entry =>
               exists res, SensoryValidator.validate entry = Ok res /\
                           valid res = true /\ errors res = [])
       (sensory_admitted (self s) entries)) /\
    (sensory_validator (self s) = None ->
     sensory_admitted (self s) entries = entries) /\
    self s' = self s /\
    kept_outside ["03_Sensory_memory"; audit_log] s s'.
Proof.
  intros H.
  pose proof (self__merge_sensory buffer_data s) as Hs.
  pose proof (kept__merge_sensory buffer_data s) as Hk.
  rewrite H in Hs, Hk. cbn [snd] in Hs, Hk.
  unfold _merge_sensory in H. cbv zeta in H.
  apply mbind_ok_inv in H. destruct H as (master & s1 & Hm & H).
  rewrite load_json_run in Hm. injection Hm as Hm <-.
  apply mbind_ok_inv in H. destruct H as (has & s2 & Hhas & H).
  unfold lift in Hhas. injection Hhas as Hhas <-.
  apply mbind_ok_inv in H. destruct H as (m & s3 & Hself & H).
  unfold get_self in Hself. injection Hself as <- <-.
  apply mbind_ok_inv in H. destruct H as (buffered & s4 & Hb & H).
  unfold lift in Hb. injection Hb as Hb <-.
  apply mbind_ok_inv in H. destruct H as (entries & s5 & Hit & H).
  unfold lift in Hit. injection Hit as Hit <-.
  apply mbind_ok_inv in H. destruct H as (md & s6 & Hext & H).
  unfold lift in Hext. injection Hext as Hext <-.
  apply save_json_ok in H.
  apply extend_at_ok in Hext.
  destruct Hext as (d & old & added & Hd & Hold & Hadded & ->).
  cbn [py_iter] in Hadded. injection Hadded as <-.
  exists master, buffered, entries,
    (dict_set "entries" (JList (old ++ sensory_admitted (self s) entries)) d).
  split; [exact Hm|]. split; [exact Hb|]. split; [exact Hit|].
  split; [exact H|].
  split.
  { rewrite lookup_dict_set_same.
    now rewrite (master_or_fresh "entries" master (JObj [("entries", JList [])])
                   has d old Hhas Hd Hold eq_refl). }
  split.
  { intros entry Hin. unfold sensory_admitted in Hin.
    apply filter_In in Hin. tauto. }
  split; [apply sensory_admitted_valid|].
  split; [|split; [exact Hs|exact Hk]].
  intros Hnone. unfold sensory_admitted. rewrite Hnone.
  clear. induction entries as [|e l IH]; [reflexivity|].
  cbn [filter]. now rewrite IH.
Qed.

(** X19.  A merge of the sensory buffer that returns has appended to the
    entries of the master (none when the file was absent or had no
    [entries]) the buffered entries that pass, in their order.  With the
    validators built these are the entries whose validation returns a
    valid result, so without any error: an entry that the validator
    rejects, or on which it raises, never reaches Origin.  Nothing outside
    [03_Sensory_memory] and the audit log of the validators changes, and
    the object is as before. *)
Theorem merge_sensory_admits_valid (buffer_data : json) (s s' : State) :
  _merge_sensory buffer_data s = (Ok tt, s') ->
  exists master buffered entries doc,
    read_json (fs (world s)) (sensory_file []) = Ok master /\
    py_get buffer_data "entries" (JList []) = Ok buffered /\
    py_iter buffered = Ok entries /\
    fs (world s') (sensory_file []) = Some (File (Document (JObj doc))) /\
    lookup "entries" doc
    = Some (JList (items_at "entries" master
                     ++ sensory_admitted (self s) entries)) /\
    (forall entry, In entry (sensory_admitted (self s) entries) ->
                   In entry entries) /\
    (sensory_validator (self s) <> None ->
     Forall (fun entry =>
               exists res, SensoryValidator.validate entry = Ok res /\
                           valid res = true /\ errors res = [])
       (sensory_admitted (self s) entries)) /\
    (sensory_validator (self s) = None ->
     sensory_admitted (self s) entries = entries) /\
    self s' = self s /\
    kept_outside ["03_Sensory_memory"; audit_log] s s'.
Proof. apply _merge_sensory_run. Qed.

Lemma merge_sensory_admits_valid_witness :
  exists doc,
    fs (world (snd (_merge_sensory
                      (JObj [("entries", JList [JObj SampleSensory.entry])])
                      Sample.origin_state)))
      (sensory_file [])
    = Some (File (Document (JObj doc))) /\
    lookup "entries" doc = Some (JList []).
Proof.
  assert (Hrun : exists s',
             _merge_sensory (JObj [("entries", JList [JObj SampleSensory.entry])])
               Sample.origin_state = (Ok tt, s'))
    by (eexists; vm_compute; reflexivity).
  destruct Hrun as (s' & Hrun).
  destruct (merge_sensory_admits_valid _ _ _ Hrun)
    as (master & buffered & entries & doc & Hm & Hb & Hit & Hf & He & _).
  assert (Em : read_json (fs (world Sample.origin_state)) (sensory_file [])
               = Ok (JObj []))
    by (vm_compute; reflexivity).
  rewrite Em in Hm. injection Hm as <-.
  injection Hb as <-. injection Hit as <-.
  exists doc. rewrite Hrun. split; [exact Hf|].
  rewrite He. vm_compute. reflexivity.
Defined.

(** ** A consolidation that commits *)

Lemma self__merge_semantic (buffer_data : json) :
  preserves same_self (_merge_semantic buffer_data).
Proof. unfold _merge_semantic. selfsame. Qed.

Lemma kept__merge_semantic (buffer_data : json) :
  preserves (kept_outside ["02_Semantic_memory"; audit_log])
    (_merge_semantic buffer_data).
Proof. unfold _merge_semantic. keep ["02_Semantic_memory"; audit_log]. Qed.

(** The verification only reads. *)
Lemma unchanged_refl (s : State) : unchanged s s.
Proof. reflexivity. Qed.

Lemma unchanged_trans (s1 s2 s3 : State) :
  unchanged s1 s2 -> unchanged s2 s3 -> unchanged s1 s3.
Proof. unfold unchanged. congruence. Qed.

Lemma _verify_origin_integrity_reads :
  preserves unchanged _verify_origin_integrity.
Proof.
  unfold _verify_origin_integrity, verify_master.
  walk unchanged_refl unchanged_trans ltac:(fun _ => fail).
Qed.

(** X20.  A call of [consolidate_to_origin] that returns, in an instance
    that has a buffer file (the identifier of the instance and the text of
    the version being file names): the version returned is the version that was
    current, plus one, and it is the version now current; the episodic
    master holds the episodes that it held followed by those of the
    buffer; the directory of the instance is absent; the object has no
    instance, no session and a counter at 0. *)
Theorem consolidation_commits (s s' : State) (v : json) (i : string) :
  plain_instance s ->
  plain_version s ->
  instance_id (self s) = Some i ->
  no_buffer_files (world s) i = false ->
  consolidate_to_origin s = (Ok v, s') ->
  self s' = clear_instance (self s) /\
  fs (world s') ["Buffer"; ("instance_" ++ i)%string] = None /\
  (exists v0, current_version (fs (world s)) = Ok v0 /\ py_add_int v0 1 = Ok v) /\
  current_version (fs (world s')) = Ok v /\
  exists master buffer new_episodes added doc,
    read_json (fs (world s)) (episodic_file []) = Ok master /\
    read_json (fs (world s))
      (episodic_file ["Buffer"; ("instance_" ++ i)%string]) = Ok buffer /\
    py_get buffer "episodes" (JList []) = Ok new_episodes /\
    py_iter new_episodes = Ok added /\
    fs (world s') (episodic_file []) = Some (File (Document (JObj doc))) /\
    lookup "episodes" doc = Some (JList (items_at "episodes" master ++ added)).
Proof.
  intros _ _ Hi Hfiles H.
  unfold consolidate_to_origin, mbind at 1, get_self in H.
  cbv beta iota in H. rewrite Hi in H. unfold try_except in H.
  match type of H with
  | (let (_, _) := ?body s in _) = _ =>
      destruct (body s) as [[v1|e] s9] eqn:Hin; [|discriminate]
  end.
  injection H as -> ->.
  apply mbind_ok_inv in Hin. destruct Hin as (root & s1 & Hb & H).
  pose proof (frame__create_origin_backup s) as Hf.
  rewrite Hb in Hf. cbn [snd] in Hf. destruct Hf as [Hself1 Hfs1].
  apply mbind_ok_inv in H. destruct H as (ip & sa & Hip & H).
  apply get_instance_path_ok in Hip. destruct Hip as [-> (i' & Hi' & ->)].
  rewrite Hself1, Hi in Hi'. injection Hi' as <-.
  apply mbind_ok_inv in H. destruct H as (some & sb & Hsome & H).
  rewrite any_exists_run in Hsome. injection Hsome as Hsome <-.
  assert (Htrue : some = true).
  { rewrite <- Hsome.
    change (existsb (exists_ (world s1)) (buffer_files i) = true).
    rewrite (frame_buffer_files s s1 i (conj Hself1 Hfs1)).
    unfold no_buffer_files in Hfiles.
    destruct (existsb (exists_ (world s)) (buffer_files i));
      [reflexivity|discriminate]. }
  rewrite Htrue in H. cbn [negb] in H.
  apply mbind_ok_inv in H. destruct H as (eb & sc & Heb & H).
  rewrite load_json_run in Heb. injection Heb as Heb <-.
  apply mbind_ok_inv in H. destruct H as (mb & sd & Hmb & H).
  rewrite load_json_run in Hmb. injection Hmb as _ <-.
  apply mbind_ok_inv in H. destruct H as (nb & se & Hnb & H).
  rewrite load_json_run in Hnb. injection Hnb as _ <-.
  apply mbind_ok_inv in H. destruct H as ([] & s2 & Hme & H).
  apply mbind_ok_inv in H. destruct H as ([] & s3 & Hms & H).
  apply mbind_ok_inv in H. destruct H as ([] & s4 & Hmn & H).
  apply mbind_ok_inv in H. destruct H as ([] & s5 & Hver & H).
  apply mbind_ok_inv in H. destruct H as ([] & s6 & Hinc & H).
  apply mbind_ok_inv in H. destruct H as (v' & s7 & Hv & H).
  apply mbind_ok_inv in H. destruct H as ([] & s8 & Hdel & H).
  unfold ret in H. injection H as -> ->.
  rewrite _get_current_version_run in Hv. injection Hv as Hv <-.
  (* the object up to the removal of the buffer *)
  pose proof (self__merge_episodic eb s1) as Hs2.
  pose proof (self__merge_semantic mb s2) as Hs3.
  pose proof (self__merge_sensory nb s3) as Hs4.
  pose proof (_verify_origin_integrity_reads s4) as Hs5.
  pose proof (self__increment_version s5) as Hs6.
  rewrite Hme in Hs2. rewrite Hms in Hs3. rewrite Hmn in Hs4.
  rewrite Hver in Hs5. rewrite Hinc in Hs6.
  cbn [snd] in Hs2, Hs3, Hs4, Hs5, Hs6. unfold same_self, unchanged in *.
  subst s5.
  assert (Hself6 : self s6 = self s) by congruence.
  (* the tree *)
  pose proof (kept__merge_episodic eb s1) as Hk2.
  pose proof (kept__merge_semantic mb s2) as Hk3.
  pose proof (kept__merge_sensory nb s3) as Hk4.
  pose proof (kept__increment_version s4) as Hk6.
  rewrite Hme in Hk2. rewrite Hms in Hk3. rewrite Hmn in Hk4.
  rewrite Hinc in Hk6. cbn [snd] in Hk2, Hk3, Hk4, Hk6.
  destruct (delete_buffer_run _ _ _ Hdel) as [(i' & Hi' & Hself9 & Hgone & _) Hk9].
  rewrite Hself6, Hi in Hi'. injection Hi' as <-.
  assert (Hi6 : instance_id (self s6) = Some i) by (now rewrite Hself6).
  split; [now rewrite Hself9, Hself6|].
  split; [exact Hgone|].
  destruct (_increment_version_ok _ _ Hinc) as (v0 & next & Hv0 & Hnext & Hv6).
  rewrite Hv6 in Hv. injection Hv as <-.
  assert (Hversion : current_version (fs (world s4)) = current_version (fs (world s))).
  { rewrite (current_version_fs (fs (world s3)) (fs (world s4)))
      by (apply Hk4; reflexivity).
    rewrite (current_version_fs (fs (world s2)) (fs (world s3)))
      by (apply Hk3; reflexivity).
    rewrite (current_version_fs (fs (world s1)) (fs (world s2)))
      by (apply Hk2; reflexivity).
    apply current_version_fs. apply Hfs1. split; [discriminate|reflexivity]. }
  split; [exists v0; split; [now rewrite <- Hversion|exact Hnext]|].
  split.
  { rewrite <- Hv6. apply current_version_fs. apply (Hk9 i); [exact Hi6|].
    reflexivity. }
  destruct (_merge_episodic_ok _ _ _ Hme)
    as (master & new_episodes & added & doc & Hm & Hn & Ha & Hfile & Heps & _).
  exists master, eb, new_episodes, added, doc.
  assert (Hread : forall p, outside_backups p ->
                    read_json (fs (world s1)) p = read_json (fs (world s)) p).
  { intros p Hp. unfold read_json. now rewrite (Hfs1 p Hp). }
  split.
  { rewrite <- Hm. symmetry. apply Hread. split; [discriminate|reflexivity]. }
  split.
  { rewrite <- Heb. symmetry. apply Hread. split; [discriminate|reflexivity]. }
  split; [exact Hn|]. split; [exact Ha|]. split; [|exact Heps].
  rewrite (Hk9 i _ Hi6) by reflexivity.
  rewrite Hk6 by reflexivity. rewrite Hk4 by reflexivity.
  rewrite Hk3 by reflexivity. exact Hfile.
Qed.

Lemma consolidation_commits_witness :
  exists v,
    fst (consolidate_to_origin Sample.origin_state) = Ok v /\ v = JInt 2 /\
    instance_id (self (snd (consolidate_to_origin Sample.origin_state))) = None.
Proof.
  assert (Hrun : exists v s', consolidate_to_origin Sample.origin_state = (Ok v, s'))
    by (do 2 eexists; vm_compute; reflexivity).
  destruct Hrun as (v & s' & Hrun).
  assert (Hplain : plain_instance Sample.origin_state).
  { intros i Hi. injection Hi as <-. reflexivity. }
  assert (Hver : plain_version Sample.origin_state).
  { intros v0 Hv0. vm_compute in Hv0. injection Hv0 as <-. reflexivity. }
  destruct (consolidation_commits Sample.origin_state s' v "I1" Hplain Hver
              eq_refl eq_refl Hrun)
    as (Hself & _ & (v0 & Hv0 & Hnext) & _).
  exists v. rewrite Hrun. cbn [fst snd]. split; [reflexivity|].
  split; [|now rewrite Hself].
  assert (E : current_version (fs (world Sample.origin_state)) = Ok (JInt 1))
    by (vm_compute; reflexivity).
  rewrite E in Hv0. injection Hv0 as <-. vm_compute in Hnext. congruence.
Defined.

Lemma kept_of_frame (tops : list string) (s s' : State) :
  existsb (String.eqb "Backups") tops = true ->
  frame s s' -> kept_outside tops s s'.
Proof.
  intros Hb [_ Hf] p Hp. apply Hf. split.
  - intros ->. discriminate Hp.
  - destruct p as [|a q]; [discriminate Hp|]. cbn [inside] in Hp.
    unfold backups_dir. cbn [is_prefix].
    destruct (String.eqb_spec "Backups" a) as [<-|]; [congruence|reflexivity].
Qed.

Lemma kept__create_origin_backup (tops : list string) :
  existsb (String.eqb "Backups") tops = true ->
  preserves (kept_outside tops) _create_origin_backup.
Proof.
  intros Hb s. apply kept_of_frame; [exact Hb|].
  apply frame__create_origin_backup.
Qed.

Lemma kept_any_exists (tops : list string) (ps : list path) :
  preserves (kept_outside tops) (any_exists ps).
Proof. intros s. rewrite any_exists_run. apply kept_refl. Qed.

Lemma kept__get_current_version (tops : list string) :
  preserves (kept_outside tops) _get_current_version.
Proof. intros s. rewrite _get_current_version_run. apply kept_refl. Qed.

Ltac origin_leaf _ :=
  lazymatch goal with
  | |- preserves _ _create_origin_backup =>
      apply kept__create_origin_backup; reflexivity
  | |- preserves _ (any_exists _) => apply kept_any_exists
  | |- preserves _ _get_current_version => apply kept__get_current_version
  | |- preserves _ (_merge_episodic _) => unfold _merge_episodic
  | |- preserves _ (_merge_semantic _) => unfold _merge_semantic
  | |- preserves _ (_merge_sensory _) => unfold _merge_sensory
  | |- preserves _ _verify_origin_integrity => unfold _verify_origin_integrity
  | |- preserves _ (verify_master _ _ _) => unfold verify_master
  | |- preserves _ _increment_version => unfold _increment_version
  | |- preserves _ delete_buffer => unfold delete_buffer
  | |- _ => kept_leaf tt
  end.

(** X21.  Whatever its outcome, [consolidate_to_origin] in an instance
    whose identifier is a file name, as is the text of the version,
    changes nothing below [base_path] but what is in [Backups], in the
    directories of the three masters, in [Buffer], the version file with
    the temporary file [version.tmp] through which it is written, and the
    audit log of the validators: the session files, the core and sphere
    memories and the user block are as before. *)
Theorem consolidation_footprint (s : State) :
  plain_instance s ->
  plain_version s ->
  kept_outside
    ["Backups"; "01_Episodic_memory"; "02_Semantic_memory";
     "03_Sensory_memory"; "version.json"; "version.tmp"; "Buffer";
     audit_log]
    s (snd (consolidate_to_origin s)).
Proof.
  intros _ _. revert s.
  change (preserves
            (kept_outside
               ["Backups"; "01_Episodic_memory"; "02_Semantic_memory";
                "03_Sensory_memory"; "version.json"; "version.tmp"; "Buffer";
                audit_log])
            consolidate_to_origin).
  unfold consolidate_to_origin.
  walk (kept_refl ["Backups"; "01_Episodic_memory"; "02_Semantic_memory";
                   "03_Sensory_memory"; "version.json"; "version.tmp"; "Buffer";
                   audit_log])
       (kept_trans ["Backups"; "01_Episodic_memory"; "02_Semantic_memory";
                    "03_Sensory_memory"; "version.json"; "version.tmp"; "Buffer";
                    audit_log])
       origin_leaf.
Qed.

Lemma consolidation_footprint_witness :
  fs (world (snd (consolidate_to_origin Sample.origin_state)))
    ["07_User_block"; "User_block.json"]
  = fs (world Sample.origin_state) ["07_User_block"; "User_block.json"].
Proof.
  assert (Hplain : plain_instance Sample.origin_state).
  { intros i Hi. injection Hi as <-. reflexivity. }
  assert (Hver : plain_version Sample.origin_state).
  { intros v Hv. vm_compute in Hv. injection Hv as <-. reflexivity. }
  apply (consolidation_footprint Sample.origin_state Hplain Hver). reflexivity.
Defined.

(** ** The start of a session *)

(** X15.  A call of [start_session] that returns has made the returned
    identifier the session of the object and set the counter to 0, the
    instance staying.  With an identifier it changes nothing else; without
    one the identifier is [S] and the two digits (or more) of the session
    count of the metadata of the instance plus one (the count is 0 when the
    metadata has none), and the metadata file holds the new count with its
    other fields, so that the next session gets the next number. *)
Theorem start_session_opens (s s' : State) (requested : option string)
  (sid : string) :
  plain_instance s ->
  start_session requested s = (Ok sid, s') ->
  self s' = set_session (self s) (Some sid) 0 /\
  match requested with
  | Some given => sid = given /\ world s' = world s
  | None =>
      exists i metadata count digits,
        instance_id (self s) = Some i /\
        read_json (fs (world s))
          ["Buffer"; ("instance_" ++ i)%string; "metadata.json"]
        = Ok (JObj metadata) /\
        py_add_int (dict_get "session_count" (JInt 0) metadata) 1 = Ok count /\
        format_d 2 count = Ok digits /\
        sid = ("S" ++ digits)%string /\
        fs (world s') ["Buffer"; ("instance_" ++ i)%string; "metadata.json"]
        = Some (File (Document (JObj (dict_set "session_count" count metadata)))) /\
        dict_get "session_count" (JInt 0) (dict_set "session_count" count metadata)
        = count
  end.
Proof.
  intros _ H. unfold start_session in H.
  unfold mbind at 1 in H. unfold get_self at 1 in H. cbv beta iota in H.
  destruct (instance_id (self s)) as [i|] eqn:Hi; [|discriminate].
  apply mbind_ok_inv in H. destruct H as (sid' & s1 & Hsid & H).
  unfold mbind, get_self, put_self, ret in H. cbv beta iota in H.
  injection H as <- <-. cbn [self world].
  destruct requested as [given|].
  - unfold ret in Hsid. injection Hsid as <- <-. auto.
  - apply mbind_ok_inv in Hsid. destruct Hsid as (ip & sa & Hip & H).
    apply get_instance_path_ok in Hip. destruct Hip as [-> (i' & Hi' & ->)].
    rewrite Hi in Hi'. injection Hi' as <-.
    apply mbind_ok_inv in H. destruct H as (metadata & sb & Hmeta & H).
    rewrite load_json_run in Hmeta. injection Hmeta as Hmeta <-.
    apply mbind_ok_inv in H. destruct H as (c & sc & Hc & H).
    unfold lift in Hc. injection Hc as Hc <-.
    apply mbind_ok_inv in H. destruct H as (count & sd & Hcount & H).
    unfold lift in Hcount. injection Hcount as Hcount <-.
    apply mbind_ok_inv in H. destruct H as (digits & se & Hdigits & H).
    unfold lift in Hdigits. injection Hdigits as Hdigits <-.
    apply mbind_ok_inv in H. destruct H as (d & sf & Hd & H).
    unfold lift in Hd. injection Hd as Hd <-.
    apply mbind_ok_inv in H. destruct H as ([] & sg & Hsave & H).
    unfold ret in H. injection H as <- <-.
    pose proof (save_json_self _ _ _ _ _ Hsave) as Hself.
    apply save_json_ok in Hsave.
    destruct metadata as [| | | | | |m]; try discriminate.
    cbn [py_items] in Hd. injection Hd as <-.
    cbn [py_get] in Hc. injection Hc as <-.
    split; [now rewrite Hself|].
    exists i, m, count, digits.
    split; [reflexivity|]. split; [exact Hmeta|]. split; [exact Hcount|].
    split; [exact Hdigits|]. split; [reflexivity|]. split; [exact Hsave|].
    unfold dict_get. now rewrite lookup_dict_set_same.
Qed.

Lemma start_session_opens_witness :
  fst (start_session None Sample.state0) = Ok "S01" /\
  session_episode_count (self (snd (start_session None Sample.state0))) = 0%Z.
Proof.
  assert (Hrun : exists sid s', start_session None Sample.state0 = (Ok sid, s'))
    by (do 2 eexists; vm_compute; reflexivity).
  destruct Hrun as (sid & s' & Hrun).
  assert (Hplain : plain_instance Sample.state0).
  { intros i Hi. injection Hi as <-. reflexivity. }
  destruct (start_session_opens _ _ _ _ Hplain Hrun)
    as (Hself & i & metadata & count & digits & _ & Hm & Hc & Hd & Hsid & _).
  rewrite Hrun. cbn [fst snd]. split; [|now rewrite Hself].
  assert (Em : metadata = []).
  { assert (E : read_json (fs (world Sample.state0))
                  ["Buffer"; ("instance_" ++ i)%string; "metadata.json"]
                = Ok (JObj [])) by reflexivity.
    rewrite E in Hm. now injection Hm as <-. }
  subst metadata. vm_compute in Hc. injection Hc as <-.
  vm_compute in Hd. injection Hd as <-. now rewrite Hsid.
Defined.

(** ** The verification after the merges *)

Lemma verify_master_passes (f : path) (name : string)
  (required : option (string * message)) (s : State) (doc : dict) :
  fs (world s) f = Some (File (Document (JObj doc))) ->
  (exists key value, lookup key doc = Some value) ->
  match required with
  | Some (key, _) => has_key key doc = true
  | None => True
  end ->
  verify_master f name required s = (Ok tt, s).
Proof.
  intros Hf (key & value & Hk) Hreq.
  unfold verify_master, mbind at 1. rewrite path_exists_run.
  unfold exists_. rewrite Hf. cbn [negb].
  unfold mbind at 1. rewrite load_json_run. unfold read_json. rewrite Hf.
  assert (Ht : truthy (JObj doc) = true)
    by (destruct doc; [discriminate Hk|reflexivity]).
  rewrite Ht. cbn [negb].
  destruct required as [[k missing]|]; [|reflexivity].
  unfold mbind, lift. cbn [str_in]. rewrite Hreq. reflexivity.
Qed.

(** X22.  After the three merges of a consolidation have returned, one
    after the other, the verification of the masters returns and changes
    nothing: each master file is then a non-empty document with its list,
    so the verification that [consolidate_to_origin] runs right after the
    merges cannot fail. *)
Theorem verification_follows_merges (episodic_buffer semantic_buffer
  sensory_buffer : json) (s1 s2 s3 s4 : State) :
  _merge_episodic episodic_buffer s1 = (Ok tt, s2) ->
  _merge_semantic semantic_buffer s2 = (Ok tt, s3) ->
  _merge_sensory sensory_buffer s3 = (Ok tt, s4) ->
  _verify_origin_integrity s4 = (Ok tt, s4).
Proof.
  intros H1 H2 H3.
  destruct (_merge_episodic_ok _ _ _ H1)
    as (m1 & n1 & a1 & doc1 & _ & _ & _ & Hf1 & He1 & _).
  destruct (_merge_semantic_ok _ _ _ H2)
    as (m2 & o2 & b2 & out2 & d2 & _ & _ & _ & _ & _ & Hf2).
  destruct (_merge_sensory_run _ _ _ H3)
    as (m3 & b3 & e3 & doc3 & _ & _ & _ & Hf3 & He3 & _ & _ & _ & _ & Hk4).
  pose proof (kept__merge_semantic semantic_buffer s2) as Hk3.
  rewrite H2 in Hk3. cbn [snd] in Hk3.
  assert (Hf1' : fs (world s4) (episodic_file [])
                 = Some (File (Document (JObj doc1)))).
  { rewrite Hk4 by reflexivity. rewrite Hk3 by reflexivity. exact Hf1. }
  assert (Hf2' : fs (world s4) (semantic_file [])
                 = Some (File (Document
                      (JObj (dict_set "entries" (JList out2) d2))))).
  { rewrite Hk4 by reflexivity. exact Hf2. }
  assert (K1 : has_key "episodes" doc1 = true)
    by (unfold has_key; now rewrite He1).
  assert (K2 : has_key "entries" (dict_set "entries" (JList out2) d2) = true)
    by (unfold has_key; now rewrite lookup_dict_set_same).
  unfold _verify_origin_integrity.
  unfold mbind at 1.
  match goal with
  | |- context [verify_master ?f ?n ?r s4] =>
      rewrite (verify_master_passes f n r s4 doc1 Hf1'
                 (ex_intro _ "episodes" (ex_intro _ _ He1)) K1)
  end.
  unfold mbind at 1.
  match goal with
  | |- context [verify_master ?f ?n (Some ?r) s4] =>
      rewrite (verify_master_passes f n (Some r) s4 _ Hf2'
                 (ex_intro _ "entries"
                    (ex_intro _ _ (lookup_dict_set_same _ _ _))) K2)
  end.
  exact (verify_master_passes _ _ None s4 doc3 Hf3
           (ex_intro _ "entries" (ex_intro _ _ He3)) I).
Qed.

Lemma verification_follows_merges_witness :
  exists s4,
    s4 = snd (_merge_sensory (JObj [])
                (snd (_merge_semantic (JObj [])
                   (snd (_merge_episodic (JObj []) Sample.origin_state))))) /\
    _verify_origin_integrity s4 = (Ok tt, s4).
Proof.
  assert (H1 : exists s2,
             _merge_episodic (JObj []) Sample.origin_state = (Ok tt, s2))
    by (eexists; vm_compute; reflexivity).
  destruct H1 as (s2 & H1).
  assert (H2 : exists s3, _merge_semantic (JObj []) s2 = (Ok tt, s3)).
  { assert (E : fst (_merge_semantic (JObj [])
                       (snd (_merge_episodic (JObj []) Sample.origin_state)))
                = Ok tt) by (vm_compute; reflexivity).
    rewrite H1 in E. cbn [snd] in E.
    destruct (_merge_semantic (JObj []) s2) as [r s3]. cbn [fst] in E.
    subst r. now exists s3. }
  destruct H2 as (s3 & H2).
  assert (H3 : exists s4, _merge_sensory (JObj []) s3 = (Ok tt, s4)).
  { assert (E : fst (_merge_sensory (JObj [])
                       (snd (_merge_semantic (JObj [])
                          (snd (_merge_episodic (JObj []) Sample.origin_state)))))
                = Ok tt) by (vm_compute; reflexivity).
    rewrite H1 in E. cbn [snd] in E. rewrite H2 in E. cbn [snd] in E.
    destruct (_merge_sensory (JObj []) s3) as [r s4]. cbn [fst] in E.
    subst r. now exists s4. }
  destruct H3 as (s4 & H3).
  exists s4. split.
  - rewrite H1. cbn [snd]. rewrite H2. cbn [snd]. now rewrite H3.
  - exact (verification_follows_merges _ _ _ _ _ _ _ H1 H2 H3).
Defined.

(** ** The snapshot of an instance *)

Lemma is_prefix_parent (q p : path) :
  is_prefix q (parent p) = true -> is_prefix q p = true.
Proof.
  revert p. induction q as [|a q IH]; intros p H; [reflexivity|].
  destruct p as [|b p]; [discriminate|].
  destruct p as [|c p]; [discriminate|].
  change (parent (b :: c :: p)) with (b :: parent (c :: p)) in H.
  cbn [is_prefix] in *. apply andb_prop in H. destruct H as [-> H].
  cbn [andb]. exact (IH _ H).
Qed.

Lemma path_eqb_prefix (q p : path) : path_eqb q p = true -> is_prefix q p = true.
Proof.
  revert p. induction q as [|a q IH]; intros p H; [reflexivity|].
  destruct p as [|b p]; [discriminate|].
  cbn [path_eqb is_prefix] in *. apply andb_prop in H. destruct H as [-> H].
  cbn [andb]. exact (IH _ H).
Qed.

Lemma kept_but_refl (targets : list path) (s : State) : kept_but targets s s.
Proof. intros p _. reflexivity. Qed.

Lemma kept_but_trans (targets : list path) (s1 s2 s3 : State) :
  kept_but targets s1 s2 -> kept_but targets s2 s3 -> kept_but targets s1 s3.
Proof. intros H12 H23 p Hp. rewrite (H23 p Hp). exact (H12 p Hp). Qed.

Lemma not_above_target (targets : list path) (p q : path) :
  In p targets -> existsb (is_prefix q) targets = false ->
  is_prefix q p = false.
Proof.
  intros Hin Hq. destruct (is_prefix q p) eqn:E; [|reflexivity].
  assert (Hex : existsb (is_prefix q) targets = true)
    by (apply existsb_exists; exists p; split; assumption).
  congruence.
Qed.

Lemma kept_but_save_json (targets : list path) (p : path) (data : json) :
  In p targets -> preserves (kept_but targets) (save_json p data).
Proof.
  intros Hin.
  unfold save_json. apply (preserves_bind _ (kept_but_trans targets)).
  - intros s. unfold ensure_dir, mbind, get_world, raise, put_world.
    cbv beta iota.
    destruct (faulty (world s) (Mkdir (parent p))); [apply kept_but_refl|].
    destruct (blocked (fs (world s)) [] (parent p)); [apply kept_but_refl|].
    intros q Hq. apply (not_above_target targets p q Hin) in Hq. cbn.
    assert (Hpar : is_prefix q (parent p) = false).
    { destruct (is_prefix q (parent p)) eqn:E; [|reflexivity].
      apply is_prefix_parent in E. congruence. }
    rewrite Hpar. now destruct (fs (world s) q).
  - intros _ s. unfold mbind, get_world, raise, put_world. cbv beta iota.
    destruct (faulty (world s) (WriteFile p)); [apply kept_but_refl|].
    destruct (fs (world s) p) as [[|c]|]; try apply kept_but_refl;
      intros q Hq; apply (not_above_target targets p q Hin) in Hq; cbn;
      (assert (Heq : path_eqb q p = false);
       [destruct (path_eqb q p) eqn:E; [|reflexivity];
        apply path_eqb_prefix in E; congruence|]);
      now rewrite Heq.
Qed.

(** X24.  [consolidate_to_instance] in an instance whose identifier is a
    file name does not delete the buffer: whatever its outcome, the object
    is as before and nothing changes in the tree but the metadata file of
    the instance, the temporary file [metadata.tmp] beside it through
    which it is written, and the directories above them, when missing.
    When it returns, it returns the identifier of the instance, and the
    metadata file holds the fields that it held with the status
    [consolidated_instance] and the time of the snapshot. *)
Theorem instance_snapshot_marks_metadata (s s' : State) (r : result string)
  (i : string) :
  plain_instance s ->
  instance_id (self s) = Some i ->
  consolidate_to_instance s = (r, s') ->
  self s' = self s /\
  kept_but [ ["Buffer"; ("instance_" ++ i)%string; "metadata.json"];
             ["Buffer"; ("instance_" ++ i)%string; "metadata.tmp"] ] s s' /\
  (forall returned, r = Ok returned ->
     returned = i /\
     exists d,
       read_json (fs (world s))
         ["Buffer"; ("instance_" ++ i)%string; "metadata.json"] = Ok (JObj d) /\
       fs (world s') ["Buffer"; ("instance_" ++ i)%string; "metadata.json"]
       = Some (File (Document (JObj
           (dict_set "consolidated_at"
              (JStr (now_iso_at (world s) (tick (world s))))
              (dict_set "status" (JStr "consolidated_instance") d)))))).
Proof.
  intros _ Hi H. unfold consolidate_to_instance in H.
  unfold mbind at 1 in H. unfold get_self at 1 in H. cbv beta iota in H.
  rewrite Hi in H.
  destruct (get_instance_path_inv s) as [(i' & Hi' & Hip)|[Hnone _]];
    [|congruence].
  rewrite Hi in Hi'. injection Hi' as <-.
  unfold mbind at 1 in H. rewrite Hip in H. cbv zeta in H.
  change ((buffer_dir ++ [("instance_" ++ i)%string]) ++ ["metadata.json"])%list
    with ["Buffer"; ("instance_" ++ i)%string; "metadata.json"] in H.
  set (metadata_path := ["Buffer"; ("instance_" ++ i)%string; "metadata.json"])
    in *.
  unfold mbind at 1 in H. rewrite load_json_run in H.
  destruct (read_json (fs (world s)) metadata_path) as [metadata|e] eqn:Hread.
  - destruct metadata as [| | | | | |d];
      try (unfold raise in H; injection H as <- <-;
           split; [reflexivity|]; split; [apply kept_but_refl|];
           intros returned Hr; discriminate Hr).
    unfold mbind at 1 in H. unfold now_iso in H. rewrite read_oracle_run in H.
    unfold mbind at 1 in H.
    match type of H with
    | (let (_, _) := save_json ?p ?data ?s0 in _) = _ =>
        pose proof (kept_but_save_json
                      [p; ["Buffer"; ("instance_" ++ i)%string; "metadata.tmp"]]
                      p data (or_introl eq_refl) s0) as Hk;
        pose proof (self_save_json p data s0) as Hs;
        destruct (save_json p data s0) as [[[]|e] s2] eqn:Hsave
    end.
    + unfold ret in H. injection H as <- <-. cbn [snd] in Hk, Hs.
      split; [exact Hs|]. split; [exact Hk|].
      intros returned Hr. injection Hr as <-. split; [reflexivity|].
      exists d. split; [reflexivity|]. exact (save_json_ok _ _ _ _ Hsave).
    + injection H as <- <-. cbn [snd] in Hk, Hs.
      split; [exact Hs|]. split; [exact Hk|].
      intros returned Hr. discriminate Hr.
  - injection H as <- <-. split; [reflexivity|]. split; [apply kept_but_refl|].
    intros returned Hr. discriminate Hr.
Qed.

Lemma instance_snapshot_marks_metadata_witness :
  fst (consolidate_to_instance Sample.origin_state) = Ok "I1" /\
  fs (world (snd (consolidate_to_instance Sample.origin_state)))
    (episodic_file ["Buffer"; "instance_I1"])
  = fs (world Sample.origin_state) (episodic_file ["Buffer"; "instance_I1"]).
Proof.
  assert (Hplain : plain_instance Sample.origin_state).
  { intros i Hi. injection Hi as <-. reflexivity. }
  destruct (consolidate_to_instance Sample.origin_state) as [r s'] eqn:Hrun.
  destruct (instance_snapshot_marks_metadata _ _ _ "I1" Hplain eq_refl Hrun)
    as (_ & Hkept & Hok).
  cbn [fst snd]. split; [|apply Hkept; reflexivity].
  assert (E : exists returned, r = Ok returned).
  { assert (E : exists returned,
               fst (consolidate_to_instance Sample.origin_state) = Ok returned)
      by (eexists; vm_compute; reflexivity).
    now rewrite Hrun in E. }
  destruct E as (returned & ->). destruct (Hok returned eq_refl) as [-> _].
  reflexivity.
Defined.

(** ** The backup is a copy *)

Lemma strip_prefix_app (root rest : path) :
  strip_prefix root (root ++ rest) = Some rest.
Proof.
  induction root as [|a r IH]; [reflexivity|].
  cbn [app strip_prefix]. now rewrite String.eqb_refl.
Qed.

Lemma strip_prefix_sibling (root : path) (d d' : string) (rel : path) :
  d <> d' -> strip_prefix (root ++ [d']) (root ++ d :: rel) = None.
Proof.
  intros Hd. induction root as [|a r IH]; cbn [app strip_prefix].
  - destruct (String.eqb_spec d' d); [congruence|reflexivity].
  - now rewrite String.eqb_refl.
Qed.

Lemma is_prefix_sibling (root : path) (d d' : string) (rel : path) :
  d <> d' -> is_prefix (root ++ d :: rel) (root ++ [d']) = false.
Proof.
  intros Hd. induction root as [|a r IH]; cbn [app is_prefix].
  - destruct (String.eqb_spec d d'); [congruence|reflexivity].
  - now rewrite String.eqb_refl.
Qed.

Lemma is_prefix_below (root : path) (d : string) (rel : path) :
  is_prefix (root ++ d :: rel) root = false.
Proof.
  induction root as [|a r IH]; [reflexivity|].
  cbn [app is_prefix]. now rewrite String.eqb_refl.
Qed.

Lemma path_eqb_sibling (root : path) (d d' : string) (rel : path) :
  d <> d' -> path_eqb (root ++ d :: rel) (root ++ [d']) = false.
Proof.
  intros Hd. induction root as [|a r IH]; cbn [app path_eqb].
  - destruct (String.eqb_spec d d'); [congruence|reflexivity].
  - now rewrite String.eqb_refl.
Qed.

Lemma parent_app_one (root : path) (d : string) : parent (root ++ [d]) = root.
Proof. unfold parent. apply removelast_last. Qed.

Lemma copytree_ok (src dst : path) (s s' : State) :
  copytree src dst s = (Ok tt, s') ->
  fs (world s) src = Some Dir /\
  forall q, fs (world s') q = copy_into (fs (world s)) src dst (fun _ => true) q.
Proof.
  unfold copytree, mbind, get_world, raise, put_world. cbv beta iota.
  destruct (fs (world s) src) as [[|c]|]; try discriminate.
  destruct (exists_ (world s) dst); [discriminate|].
  destruct (blocked (fs (world s)) [] (parent dst)); [discriminate|].
  destruct (faulty (world s) (CopyTree src dst)); [discriminate|].
  intros H. injection H as <-. split; reflexivity.
Qed.

Section SameAt.

Variables (root : path) (d : string) (rel : path).

Lemma same_at_refl (s : State) : same_at (root ++ d :: rel) s s.
Proof. reflexivity. Qed.

Lemma same_at_trans (s1 s2 s3 : State) :
  same_at (root ++ d :: rel) s1 s2 -> same_at (root ++ d :: rel) s2 s3 ->
  same_at (root ++ d :: rel) s1 s3.
Proof. unfold same_at. congruence. Qed.

Lemma same_at_copytree (src : path) (d' : string) :
  d <> d' -> preserves (same_at (root ++ d :: rel)) (copytree src (root ++ [d'])).
Proof.
  intros Hd s. unfold copytree, mbind, get_world, raise, put_world.
  cbv beta iota.
  destruct (fs (world s) src) as [[|c]|]; try apply same_at_refl.
  destruct (exists_ (world s) (root ++ [d'])); [apply same_at_refl|].
  destruct (blocked (fs (world s)) [] (parent (root ++ [d'])));
    [apply same_at_refl|].
  destruct (faulty (world s) (CopyTree src (root ++ [d'])));
    unfold same_at; cbn; unfold copy_into;
    rewrite (strip_prefix_sibling root d d' rel Hd),
      (is_prefix_sibling root d d' rel Hd);
    now destruct (fs (world s) (root ++ d :: rel)).
Qed.

Lemma same_at_backup_dirs (dirs : list string) :
  ~ In d dirs -> preserves (same_at (root ++ d :: rel)) (backup_dirs root dirs).
Proof.
  induction dirs as [|d' rest IH]; intros Hd; cbn [backup_dirs].
  - apply (preserves_ret _ same_at_refl).
  - apply (preserves_bind _ same_at_trans);
      [apply (preserves_path_exists _ same_at_refl)|].
    intros present.
    apply (preserves_bind _ same_at_trans).
    + destruct present; [|apply (preserves_ret _ same_at_refl)].
      apply same_at_copytree. intros ->. apply Hd. now left.
    + intros _. apply IH. intros Hin. apply Hd. now right.
Qed.

Lemma same_at_save_json (name : string) (data : json) :
  d <> name ->
  preserves (same_at (root ++ d :: rel)) (save_json (root ++ [name]) data).
Proof.
  intros Hd. unfold save_json. rewrite parent_app_one.
  apply (preserves_bind _ same_at_trans).
  - intros s. unfold ensure_dir, mbind, get_world, raise, put_world.
    cbv beta iota.
    destruct (faulty (world s) (Mkdir root)); [apply same_at_refl|].
    destruct (blocked (fs (world s)) [] root); [apply same_at_refl|].
    unfold same_at. cbn. rewrite is_prefix_below.
    now destruct (fs (world s) (root ++ d :: rel)).
  - intros _ s. unfold mbind, get_world, raise, put_world. cbv beta iota.
    destruct (faulty (world s) (WriteFile (root ++ [name])));
      [apply same_at_refl|].
    destruct (fs (world s) (root ++ [name])) as [[|c]|];
      try apply same_at_refl;
      unfold same_at; cbn; now rewrite (path_eqb_sibling root d name rel Hd).
Qed.

End SameAt.

(** Each directory that exists is copied, and the later copies leave it. *)
Lemma backup_dirs_copy (root : path) (dirs : list string) :
  under_backups root -> NoDup dirs -> ~ In "Backups" dirs ->
  forall (s s1 : State) (d : string) (rel : path),
    backup_dirs root dirs s = (Ok tt, s1) ->
    In d dirs -> exists_ (world s) [d] = true ->
    fs (world s) [d] = Some Dir /\
    fs (world s1) (root ++ d :: rel) = fs (world s) (d :: rel).
Proof.
  intros Hroot Hnodup Hnot. induction dirs as [|d0 rest IH];
    intros s s1 d rel H Hin Hex; [destruct Hin|].
  cbn [backup_dirs] in H.
  apply mbind_ok_inv in H. destruct H as (present & sa & Hp & H).
  rewrite path_exists_run in Hp. injection Hp as <- <-.
  apply mbind_ok_inv in H. destruct H as ([] & s' & Hcopy & H).
  inversion Hnodup as [|? ? Hfresh Hnodup']; subst.
  assert (Hframe : frame s s').
  { destruct (exists_ (world s) [d0]).
    - pose proof (frame_copytree [d0] (root ++ [d0])) as K.
      assert (Hu : under_backups (root ++ [d0])).
      { unfold under_backups in *. destruct root as [|b r];
          [discriminate|exact Hroot]. }
      specialize (K Hu s). now rewrite Hcopy in K.
    - unfold ret in Hcopy. injection Hcopy as <-. apply frame_refl. }
  assert (Hout : forall x tail, In x (d0 :: rest) -> outside_backups (x :: tail)).
  { intros x tail Hx. split; [discriminate|].
    unfold backups_dir. cbn [is_prefix].
    destruct (String.eqb_spec "Backups" x) as [<-|]; [|reflexivity].
    now destruct Hnot. }
  destruct Hin as [->|Hin].
  - rewrite Hex in Hcopy. apply copytree_ok in Hcopy.
    destruct Hcopy as [Hdir Hfs]. split; [exact Hdir|].
    pose proof (same_at_backup_dirs root d rel rest Hfresh s') as K.
    rewrite H in K. unfold same_at in K. cbn [snd] in K. rewrite K, Hfs.
    unfold copy_into.
    replace (root ++ d :: rel) with ((root ++ [d]) ++ rel)
      by (now rewrite <- app_assoc).
    now rewrite strip_prefix_app.
  - assert (Hex' : exists_ (world s') [d] = true).
    { unfold exists_ in *.
      now rewrite (proj2 Hframe [d] (Hout d [] (or_intror Hin))). }
    destruct (IH Hnodup' (fun K => Hnot (or_intror K)) s' s1 d rel H Hin Hex')
      as [Hdir Hfs].
    rewrite (proj2 Hframe [d] (Hout d [] (or_intror Hin))) in Hdir.
    split; [exact Hdir|].
    rewrite Hfs. apply (proj2 Hframe). apply Hout. now right.
Qed.

(** X23.  A backup that returns, the text of the version being a file
    name, holds a copy of every directory of Origin that it saves (the
    three memories and the user block): such an entry, when it exists, is
    a directory, and everything below it is found unchanged under the same
    name in the directory of the backup, the original staying as it is. *)
Theorem backup_copies_origin (s s1 : State) (root : path) (d : string)
  (rel : path) :
  plain_version s ->
  _create_origin_backup s = (Ok root, s1) ->
  In d dirs_to_backup ->
  exists_ (world s) [d] = true ->
  fs (world s) [d] = Some Dir /\
  fs (world s1) (root ++ d :: rel) = fs (world s) (d :: rel) /\
  fs (world s1) (d :: rel) = fs (world s) (d :: rel).
Proof.
  intros _ H Hin Hex.
  assert (Hout : outside_backups (d :: rel)).
  { split; [discriminate|].
    unfold dirs_to_backup in Hin. cbn [In] in Hin.
    destruct Hin as [<-|[<-|[<-|[<-|[]]]]]; reflexivity. }
  pose proof (frame__create_origin_backup s) as Hframe.
  rewrite H in Hframe. cbn [snd] in Hframe.
  unfold _create_origin_backup in H.
  apply mbind_ok_inv in H. destruct H as (ts & sa & Hts & H).
  unfold strftime_now in Hts. rewrite read_oracle_run in Hts.
  injection Hts as <- <-.
  apply mbind_ok_inv in H. destruct H as (v & sb & Hv & H).
  rewrite _get_current_version_run in Hv. injection Hv as _ <-.
  apply mbind_ok_inv in H. destruct H as (w & sc & Hw & H).
  unfold get_world in Hw. injection Hw as <- <-.
  match type of H with
  | context [ensure_dir ?r] => set (rt := r) in *
  end.
  assert (Hrt : under_backups rt) by reflexivity.
  apply mbind_ok_inv in H. destruct H as ([] & sd & Hmk & H).
  pose proof (frame_ensure_dir rt Hrt) as Hfd.
  match type of Hmk with
  | ensure_dir _ ?s0 = _ => specialize (Hfd s0)
  end.
  rewrite Hmk in Hfd. cbn [snd] in Hfd. destruct Hfd as [_ Hfd].
  cbn [world fs with_tick] in Hfd.
  unfold try_except in H.
  destruct (mbind (backup_dirs rt dirs_to_backup) _ sd) as [[r|e] se] eqn:Hinner;
    [|discriminate].
  injection H as -> ->.
  apply mbind_ok_inv in Hinner. destruct Hinner as ([] & sf & Hcp & Hinner).
  assert (Hex' : exists_ (world sd) [d] = true).
  { unfold exists_ in *. rewrite (Hfd [d]);
      [exact Hex|split; [discriminate|exact (proj2 Hout)]]. }
  assert (Hnd : NoDup dirs_to_backup)
    by (unfold dirs_to_backup; repeat constructor; cbn; intuition discriminate).
  assert (Hnb : ~ In "Backups" dirs_to_backup)
    by (unfold dirs_to_backup; cbn; intuition discriminate).
  destruct (backup_dirs_copy rt dirs_to_backup Hrt Hnd Hnb sd sf d rel
              Hcp Hin Hex') as [Hdir Hcopy].
  split.
  { rewrite (Hfd [d]) in Hdir by (split; [discriminate|exact (proj2 Hout)]).
    exact Hdir. }
  split; [|exact (proj2 Hframe _ Hout)].
  apply mbind_ok_inv in Hinner. destruct Hinner as (t & sg & Ht & Hinner).
  unfold now_iso in Ht. rewrite read_oracle_run in Ht. injection Ht as <- <-.
  apply mbind_ok_inv in Hinner. destruct Hinner as (pv & sh & Hpv & Hinner).
  rewrite _get_current_version_run in Hpv. injection Hpv as _ <-.
  apply mbind_ok_inv in Hinner. destruct Hinner as (m & si & Hm & Hinner).
  unfold get_self in Hm. injection Hm as <- <-.
  apply mbind_ok_inv in Hinner. destruct Hinner as ([] & sj & Hsv & Hinner).
  unfold ret in Hinner. injection Hinner as <- <-.
  assert (Hname : d <> "backup_metadata.json").
  { unfold dirs_to_backup in Hin. cbn [In] in Hin.
    destruct Hin as [<-|[<-|[<-|[<-|[]]]]]; discriminate. }
  match type of Hsv with
  | save_json _ ?data ?s0 = _ =>
      pose proof (same_at_save_json rt d rel "backup_metadata.json" data
                    Hname s0) as K
  end.
  rewrite Hsv in K. unfold same_at in K. cbn [snd world fs with_tick] in K.
  rewrite K. rewrite Hcopy. apply Hfd. exact Hout.
Qed.

Lemma backup_copies_origin_witness :
  exists root s1,
    _create_origin_backup Sample.origin_state = (Ok root, s1) /\
    fs (world s1)
      (root ++ ["01_Episodic_memory"; "Episodic_memory.json"])
    = Some (File (Document (JObj [("episodes", JList [])]))).
Proof.
  assert (Hrun : exists root s1,
             _create_origin_backup Sample.origin_state = (Ok root, s1))
    by (do 2 eexists; vm_compute; reflexivity).
  destruct Hrun as (root & s1 & Hrun). exists root, s1.
  split; [exact Hrun|].
  assert (Hver : plain_version Sample.origin_state).
  { intros v Hv. vm_compute in Hv. injection Hv as <-. reflexivity. }
  destruct (backup_copies_origin _ _ _ "01_Episodic_memory"
              ["Episodic_memory.json"] Hver Hrun)
    as (_ & Hcopy & _); [now left|reflexivity|].
  rewrite Hcopy. reflexivity.
Defined.

